(* ===== verification/_CoqProject ===== *)
-Q . S2P
Prelude.v
GoBytes.v
Window.v
WindowRing.v
WindowOrder.v
WindowRun.v
WindowLive.v
GoStrings.v
Reader.v
Stream.v
Assembler.v
AssemblerInv.v
Text.v
Unicode.v
Charset.v
Redis.v
MySQL.v
ZooKeeper.v
WebSocket.v
Bson.v
BsonProps.v
Mongo.v
Http.v
Printers.v
Json.v
Java.v
JavaProps.v
JavaRead.v
Triple.v
Nacos.v
RocketMQ.v
Dubbo.v
DubboProps.v
Cli.v
Help.v
Handlers.v
Dispatch.v
Detect.v
Capture.v
Sessions.v
Reads.v
Served.v
Conversation.v
Room.v
EndToEnd.v
Sender.v
