(* ===== verification/Prelude.v ===== *)
(** * Verification of tcpshow

    tcpshow (src/) captures TCP traffic, puts the segments of every connection
    back into two byte streams, finds out which protocol they carry, parses
    the messages and prints them.  This development models it as pure
    functions over explicit state and proves what its parts promise.

    ** The program and its parts

    [main.go] parses the command line and feeds captured packets to a
    [TCPAssembler] (tcpport/assembler.go).  The assembler keeps one
    [TCPConnection] per pair of endpoints; each has two [netStream]s, and each
    stream a [receiveWindow], a ring buffer of packets waiting for their
    acknowledgement, and a bounded channel to the goroutine that handles the
    connection.  That goroutine runs a handler of main.go, which reads
    requests from one stream and answers from the other with the readers of a
    protocol package ([redisport], [mysqlport], ...), filters them, and sends
    one text per call to the printer.

    ** Files

    - Prelude (this file): Go expressions that may panic ([go]), loops with
      fuel ([comp]), slices indexed by [Z], shared tactics.
    - GoBytes: bytes, machine integers and their conversions, [encoding/binary],
      slice expressions with their bounds checks, [make].
    - GoStrings, Unicode: the functions of [strings], [strconv], [fmt],
      [unicode/utf8] and [time] that the source uses.
    - Charset: [ReadToStringWithCharset] (text.go).
    - Window, WindowRing, WindowOrder, WindowRun: [receiveWindow] and
      [compareTCPSeq] (assembler.go).  Window has the operations on the ring
      buffer; WindowRing relates the ring to the list of its packets ([rep]);
      WindowOrder proves the list-level window sorted, in order and complete;
      WindowRun runs sequences of operations and has the properties.
    - Reader: [io.Reader] as a class ([io_Reader], with its laws
      [io_Reader_ok]), [io.ReadFull], [DiscardAll] (text.go), and the monad of
      the protocol readers: a [parser] takes bytes and returns a value or an
      error with the rest, or panics.  [progress] is what makes the loops over
      a stream end; [many] reads messages one behind the other.
    - WindowLive: the window when packets and acknowledgements alternate.
    - Stream: [netStream], an instance of [io_Reader].
    - Assembler, AssemblerInv: [Endpoint], [TCPConnection], [TCPAssembler];
      the transition system of the capture loop and of the handlers' reads and
      closes ([step], [reachable]), its invariant and the properties.
    - Text: [WildcardMatch] (text.go).
    - Redis, MySQL, ZooKeeper, WebSocket, Bson, BsonProps, Mongo, Http: the
      protocol packages redisport, mysqlport, zookeeperport, websocketport,
      mongoport and httpport, each with its detector, its readers and the
      functions of its printer.go.
    - Json: what the source uses of encoding/json: the parser of
      [json.Unmarshal] and [json.Valid], [json.Marshal], [json.MarshalIndent].
    - Nacos, RocketMQ: nacosport and rocketmqport, the latter with what
      [json.Unmarshal] does to a [RemotingCommand] field by field.
    - Java, JavaProps, JavaRead: the deserializer of Java objects
      (dubboport/java_deserializer.go): the deserializer with its heap of
      handles, shared descriptors and maps; JavaProps has its invariant and
      totality, JavaRead the objects as Java writes them, and which of them
      are read.
    - Triple: dubboport/triple_protocol.go.
    - Dubbo, DubboProps: dubbo_protocol.go, serialization.go and printer.go of
      dubboport; header, body layouts and heuristics, and their properties.
    - Printers: the queues of tcpport/multiprinter.go and tcpport/printer.go.
    - Cli: [matchCost], the subcommands, [flag.FlagSet.Parse] and [main] up to
      the start of the capture (main.go).  Help: the texts [main] prints
      instead of capturing, with [flag.PrintDefaults].
    - Handlers: [baseHandler] and the handlers of Redis, MySQL, MongoDB,
      WebSocket, ZooKeeper and HTTP (main.go).
    - Dispatch, Detect: the handlers of Dubbo with Triple, RocketMQ and Nacos,
      [autoHandler], [connHandlerAdapter], the detector and the handler factory
      of [main]; Detect says what the detection takes a connection for.
    - Capture: [openPackets] and the capture loop of [main] with its ticks and
      its shutdown, events being packets, ticks and steps of handlers.
    - Sessions: the assembler against a specification of one pair of endpoints
      ([session_step], [session_run]), by a simulation ([sees]).
    - Reads: what a handler has read of a stream while the capture goes on
      ([history]), and a stream that is read against one that is not
      ([behind]).
    - Served: every connection has one goroutine ([served]).
    - Conversation: what the packets of two endpoints come to in the streams
      of their connection ([direction], [conversation], [handed_over]).
    - Room: captures in which the loop never waits for a handler, and so ends.
    - EndToEnd: the capture and the handlers together ([run_main]).
    - Sender: the packets of tools/protocol_sender.go.

    ** How code and model correspond

    Names are the source's; a reserved or doubly used name gets a suffix
    ([Type_], [cmd_Raw]) or the type as prefix ([stream_Read]).  A method is a
    function of its receiver that returns the new receiver.  A slice
    expression, an index, a [make] or a nil dereference that Go would refuse is
    [Panic] ([Panicked], [Crash], [HPanic] in the monads built on top).  32-
    and 64-bit results are wrapped where the source computes in that width;
    plain [int] arithmetic on lengths and positions stays far below 2^63 and is
    left unwrapped, except where a length comes from the input in 64 bits.  A
    send to a full channel and a read from an empty open one are [Blocked].
    Strings and [[]byte] are both lists of bytes; where the spare capacity of a
    slice decides between a panic and a value (BSON sub-documents), the model
    carries it.  Objects that the source shares by pointer (connections, class
    descriptors and maps of the Java deserializer) live in a store and are
    referred to by their place in it.

    Parameters, for what is not the program's code: [UnicodeTables] (the case
    and print tables of package unicode beyond ASCII), [JsonRuntime],
    [JsonFloats], [JsonNumbers] (decimal forms of floating-point numbers),
    [JavaRuntime] (the shortest decimal form of a double and the text of a
    pointer), [MapOrder] (the order in which a range statement meets the entries
    of a map), [Environment] (the clock, the local date, package regexp, and
    the state in which each call of [Send] meets the printer),
    [Arrival] (the parts in which the bytes of a client arrive), [Pcap] (the
    capture library and the operating system), [Encodings] (the character sets
    of golang.org/x/text), and the decoded packets.  Where
    a property needs a law of a parameter it is a class of its own
    ([MapOrder_ok], [Arrival_ok]) with an instance that has it.  Memory is
    taken as unlimited up to [max_alloc], the largest size [make] accepts.

    Fuel: every loop that is not structural takes a number of rounds and has a
    value of its own for running out ([None], [NoFuel], [Spin], [HSpin]); the
    definitions start it with the length of their input (plus one), which is
    enough because every round consumes a byte.  Theorems exclude running out:
    [WildcardMatch_correct], [bson_terminates], [ReadMongoMessage_total], the
    [progress] lemmas, [java_total] (but for inputs on which the source itself
    recurses without end), [dubbo_total], [triple_reader_ends],
    [connections_end], [handlers_of_a_capture_end].  That the capture loop does
    not wait for ever is [capture_completes].

    ** What the theorems show

    - Reassembly: [window_delivers_acknowledged], [window_reassembles],
      [window_delivers_in_order], [stream_end_to_end]; the ring buffer refines
      a sorted list ([insert_refines_sorted], [confirm_refines]);
      [compareTCPSeq_spec], and [wrap_loses_segment]: of two neighbours across
      the wrap-around one is lost.
    - Assembler and capture: [connections_open_iff_mapped],
      [capture_never_panics], [capture_completes], [flush_exact],
      [conn_key_iff];
      [connections_are_separate], a refinement: a connection receives what it
      would receive alone.
    - The whole program: [conversation_reaches_its_handler],
      [captured_redis_calls_printed] (from the segments on the wire to the
      calls of [Send], the protocol given or detected, the handlers reading
      while packets arrive; such a call can drop its text, wait, or panic once
      [main] has closed the printer, and the handler goes on accordingly, see
      [call_Send] and [makes_calls]), [handlers_of_a_capture_end],
      [captures_have_handlers] (a capture that starts is well formed), and what
      goes wrong on the way: [half_close_loses_response],
      [tick_ends_recorded_connections], [unread_direction_blocks_capture].
    - Protocols: round trips from encoders written after the protocols
      ([commands_roundtrip], [replies_roundtrip], [server_results_roundtrip],
      [requests_roundtrip], [frame_roundtrip], [bson_roundtrip],
      [op_msg_roundtrip], [http_head_roundtrip], [java_args_roundtrip],
      [compacted_request_roundtrip], [rocketmq_roundtrip],
      [nacos_request_roundtrip], ...; of Java objects only those of classes with
      a [writeObject] method are read back, the first other one ends the
      arguments, which [java_args_roundtrip] and [compacted_request_roundtrip]
      state together), totality and the exact inputs that panic
      ([ReadMySQLMessage_panics_iff], [ReadWebSocketMessage_panics_iff],
      [zookeeper_total], [negative_count_panics], [mongo_panics], [java_total],
      [dubbo_total]), and places where the code does not do what it means to
      ([eof_and_plugin_unreachable], [frame_length_desync],
      [detects_http_requests], [hessian_service_lost] (services of at most 31
      bytes), [real_frames_unread], [references_unresolved], [value_like_block],
      [fixupFlags_spec], [dubbo_sample_misread]).
    - Handlers and detection: [redis_handler_prints_calls],
      [dubbo_handler_prints_calls], [unanswered_command_printed_twice],
      [mongo_answers_go_to_the_first], [connections_end]; [detector_agrees],
      [redis_commands_detected], [http_requests_detected],
      [zookeeper_messages_detected].
    - Printers: [printer_keeps_order], [printer_writes_what_is_sent],
      [Finish_does_not_flush].
    - Command line: [matchCost_spec], [flags_reach_the_capture],
      [main_starts_captures], [separate_value_is_refused], [help_lists_flags],
      [help_examples].
    - Generator: [buildBSON_read_back], [mongo_sample_read],
      [rocketmq_sample_read], [dubbo_sample_misread].

    ** Limits

    A step of the assembler is atomic: a packet whose delivery would wait on a
    full channel has no step, so the states in the middle of such a wait are
    outside the model.  The handlers are modelled on the whole contents of
    their streams.  [conversation_reaches_its_handler] says that this is what
    they get, however their reads fall between the packets; that the end of
    the capture is reached at all is proved where no read is needed for it, for
    at most 1024 packets between two endpoints ([capture_completes]).
    Sequence numbers stay clear of the wrap-around there.

    Not modelled: what is logged and what [flag] prints about a wrong command
    line, closing the files of the printer, what gopacket and pcap do with a device or a file, and the
    connecting and writing of tools/ with its echo server in Python. *)

From Stdlib Require Export Strings.Byte Lia ZArith.
From stdpp Require Export base tactics list numbers option gmap strings.

#[global] Open Scope Z_scope.

(** Go identifiers are translated with their own names; the notations of the
    development live in one scope. *)
Declare Scope go_scope.
Delimit Scope go_scope with go.
#[global] Open Scope go_scope.

(** ** Automation *)

Create HintDb gohints discriminated.

(** [split_and_lia] closes conjunctions of linear facts. *)
Ltac split_and_lia := repeat split; try lia.

(** Case analysis on every boolean comparison of [Z] in sight, turning each
    into the corresponding proposition. *)
Ltac zbool :=
  repeat match goal with
  | H : (_ && _)%bool = true |- _ => apply andb_true_iff in H; destruct H
  | H : (_ || _)%bool = false |- _ => apply orb_false_iff in H; destruct H
  | H : negb _ = true |- _ => apply negb_true_iff in H
  | H : negb _ = false |- _ => apply negb_false_iff in H
  | H : (_ <? _) = true |- _ => apply Z.ltb_lt in H
  | H : (_ <? _) = false |- _ => apply Z.ltb_ge in H
  | H : (_ <=? _) = true |- _ => apply Z.leb_le in H
  | H : (_ <=? _) = false |- _ => apply Z.leb_gt in H
  | H : (_ =? _) = true |- _ => apply Z.eqb_eq in H
  | H : (_ =? _) = false |- _ => apply Z.eqb_neq in H
  end.

(** Split on the conditionals of the goal, one at a time. *)
Ltac zcase :=
  match goal with
  | |- context [if (?a <? ?b) then _ else _] => destruct (Z.ltb_spec a b)
  | |- context [if (?a <=? ?b) then _ else _] => destruct (Z.leb_spec a b)
  | |- context [if (?a =? ?b) then _ else _] => destruct (Z.eqb_spec a b)
  | |- context [if ?c then _ else _] => destruct c eqn:?
  end.

(** Invert an equation between constructors and substitute. *)
Ltac inv_eq H := inversion H; subst; clear H.

(** ** Go computations that may panic

    A Go expression either has a value or raises a run-time panic (index or
    slice bounds out of range, nil dereference, makeslice with a bad length,
    send on a closed channel, ...). *)
Inductive go (A : Type) : Type :=
| Ret (a : A)
| Panic.
Arguments Ret {A} a.
Arguments Panic {A}.

#[export] Instance go_ret : MRet go := fun A a => Ret a.
#[export] Instance go_bind : MBind go := fun A B f m =>
  match m with Ret a => f a | Panic => Panic end.

Lemma go_bind_ret {A B} (a : A) (f : A → go B) : (Ret a ≫= f) = f a.
Proof. reflexivity. Qed.

Lemma go_bind_inv {A B} (m : go A) (f : A → go B) b :
  (m ≫= f) = Ret b → ∃ a, m = Ret a ∧ f a = Ret b.
Proof. destruct m; simpl; [eauto|discriminate]. Qed.

(** [of_option] turns a lookup into an expression that panics out of range. *)
Definition of_option {A} (o : option A) : go A :=
  match o with Some a => Ret a | None => Panic end.

(** [returns m Q]: [m] does not panic and its value is in [Q]. *)
Definition returns {A} (m : go A) (Q : A → Prop) : Prop := ∃ a, m = Ret a ∧ Q a.

Lemma returns_Ret {A} (a : A) (Q : A → Prop) : Q a → returns (Ret a) Q.
Proof. by exists a. Qed.
Lemma returns_bind {A B} (m : go A) (f : A → go B) (P : A → Prop) (Q : B → Prop) :
  returns m P → (∀ a, P a → returns (f a) Q) → returns (m ≫= f) Q.
Proof. intros (a & -> & Ha) Hf. simpl. auto. Qed.
Lemma returns_mono {A} (m : go A) (P Q : A → Prop) : returns m P → (∀ a, P a → Q a) → returns m Q.
Proof. intros (a & ? & ?) HPQ. exists a. auto. Qed.
Lemma returns_inv {A} (m : go A) (Q : A → Prop) a : returns m Q → m = Ret a → Q a.
Proof. intros (b & -> & Hb) [= <-]. done. Qed.
Lemma returns_True {A} (m : go A) : m ≠ Panic ↔ returns m (λ _, True).
Proof. split; [|by intros (a & -> & _)]. destruct m; [by eexists|done]. Qed.

Lemma of_option_Ret {A} (o : option A) a : of_option o = Ret a ↔ o = Some a.
Proof. destruct o; simpl; split; congruence. Qed.

(** ** Loops and recursions over Go expressions

    [NoFuel] is a loop of the model that has used up its fuel; a theorem about
    each such loop excludes it. *)
Inductive comp (A : Type) : Type :=
| Val (a : A)
| Crashed
| NoFuel.
Arguments Val {A} a.
Arguments Crashed {A}.
Arguments NoFuel {A}.

#[export] Instance comp_ret : MRet comp := fun A a => Val a.
#[export] Instance comp_bind : MBind comp := fun A B f m =>
  match m with Val a => f a | Crashed => Crashed | NoFuel => NoFuel end.
Definition of_go {A} (m : go A) : comp A := match m with Ret a => Val a | Panic => Crashed end.

(** [terminates P m Q]: [m] comes to an end; it panics only if [P], and a
    value is in [Q]. *)
Definition terminates {A} (P : Prop) (m : comp A) (Q : A → Prop) : Prop :=
  match m with Val a => Q a | Crashed => P | NoFuel => False end.

Lemma terminates_bind {A B} P (m : comp A) (f : A → comp B) (Q : A → Prop) (R : B → Prop) :
  terminates P m Q → (∀ a, Q a → terminates P (f a) R) → terminates P (m ≫= f) R.
Proof. destruct m; simpl; auto. Qed.
Lemma terminates_mono {A} (P P' : Prop) (m : comp A) (Q Q' : A → Prop) :
  terminates P m Q → (P → P') → (∀ a, Q a → Q' a) → terminates P' m Q'.
Proof. destruct m; simpl; auto. Qed.
Lemma terminates_go {A} P (m : go A) Q : returns m Q → terminates P (of_go m) Q.
Proof. intros (a & -> & H). exact H. Qed.

(** ** Lists indexed by [Z], as Go slices are *)

Definition len {A} (l : list A) : Z := Z.of_nat (length l).

Definition ztake {A} (n : Z) (l : list A) : list A := take (Z.to_nat n) l.
Definition zdrop {A} (n : Z) (l : list A) : list A := drop (Z.to_nat n) l.
Definition znth {A} (l : list A) (i : Z) : option A :=
  if i <? 0 then None else l !! Z.to_nat i.

Lemma len_nonneg {A} (l : list A) : 0 ≤ len l.
Proof. unfold len; lia. Qed.
Lemma len_nil {A} : len (@nil A) = 0.
Proof. reflexivity. Qed.
Lemma len_cons {A} (x : A) l : len (x :: l) = 1 + len l.
Proof. unfold len; cbn [length]; lia. Qed.
Lemma len_app {A} (l k : list A) : len (l ++ k) = len l + len k.
Proof. unfold len; rewrite length_app; lia. Qed.
Lemma len_ztake {A} n (l : list A) : len (ztake n l) = Z.min (Z.max 0 n) (len l).
Proof. unfold len, ztake; rewrite length_take; lia. Qed.
Lemma len_zdrop {A} n (l : list A) : len (zdrop n l) = len l - Z.min (Z.max 0 n) (len l).
Proof. unfold len, zdrop; rewrite length_drop; lia. Qed.
Lemma len_0_nil {A} (l : list A) : len l = 0 → l = [].
Proof. destruct l; [done|rewrite len_cons; pose proof (len_nonneg l); lia]. Qed.
Lemma len_rev {A} (l : list A) : len (rev l) = len l.
Proof. unfold len; rewrite length_rev; lia. Qed.
Lemma len_replicate {A} n (x : A) : len (replicate n x) = Z.of_nat n.
Proof. unfold len; by rewrite length_replicate. Qed.
Lemma len_insert {A} i (x : A) l : len (<[i:=x]> l) = len l.
Proof. unfold len; by rewrite length_insert. Qed.
Lemma len_fmap {A B} (f : A → B) l : len (f <$> l) = len l.
Proof. unfold len; by rewrite length_fmap. Qed.

Create Rewrite HintDb len.
#[global] Hint Rewrite @len_nil @len_cons @len_app @len_ztake @len_zdrop @len_rev
  @len_replicate @len_insert @len_fmap : len.
Ltac len_simpl := autorewrite with len in *; change (@len ?A []) with 0 in *.
(** Arithmetic over list lengths. *)
Ltac len_lia :=
  len_simpl;
  repeat match goal with
  | l : list ?A |- _ =>
      lazymatch goal with
      | _ : 0 ≤ len l |- _ => fail
      | _ => pose proof (len_nonneg l)
      end
  end; lia.

Lemma ztake_zdrop {A} n (l : list A) : ztake n l ++ zdrop n l = l.
Proof. apply take_drop. Qed.
Lemma ztake_nonpos {A} n (l : list A) : n ≤ 0 → ztake n l = [].
Proof. intros; unfold ztake; replace (Z.to_nat n) with 0%nat by lia; done. Qed.
Lemma zdrop_nonpos {A} n (l : list A) : n ≤ 0 → zdrop n l = l.
Proof. intros; unfold zdrop; replace (Z.to_nat n) with 0%nat by lia; done. Qed.
Lemma ztake_ge {A} n (l : list A) : len l ≤ n → ztake n l = l.
Proof. intros; apply take_ge; unfold len in *; lia. Qed.
Lemma zdrop_ge {A} n (l : list A) : len l ≤ n → zdrop n l = [].
Proof. intros; apply drop_ge; unfold len in *; lia. Qed.
Lemma ztake_app_eq {A} n (l k : list A) : n = len l → ztake n (l ++ k) = l.
Proof. intros ->. unfold ztake, len. rewrite Nat2Z.id. apply take_app_length. Qed.
Lemma zdrop_app_eq {A} n (l k : list A) : n = len l → zdrop n (l ++ k) = k.
Proof. intros ->. unfold zdrop, len. rewrite Nat2Z.id. apply drop_app_length. Qed.
Lemma ztake_app_le {A} n (l k : list A) : n ≤ len l → ztake n (l ++ k) = ztake n l.
Proof. intros. unfold ztake. apply take_app_le. unfold len in *; lia. Qed.
Lemma ztake_app_ge {A} n (l k : list A) : len l ≤ n → ztake n (l ++ k) = l ++ ztake (n - len l) k.
Proof. intros. unfold ztake. rewrite take_app, take_ge by (unfold len in *; lia). do 2 f_equal. unfold len in *. lia. Qed.
Lemma zdrop_app_le {A} n (l k : list A) : n ≤ len l → zdrop n (l ++ k) = zdrop n l ++ k.
Proof. intros. unfold zdrop. apply drop_app_le. unfold len in *; lia. Qed.
Lemma zdrop_zdrop {A} n m (l : list A) : 0 ≤ n → 0 ≤ m → zdrop n (zdrop m l) = zdrop (m + n) l.
Proof. intros. unfold zdrop. rewrite drop_drop. f_equal. lia. Qed.
Lemma ztake_ztake {A} n m (l : list A) : ztake n (ztake m l) = ztake (Z.min n m) l.
Proof. unfold ztake. rewrite take_take. f_equal. lia. Qed.

Lemma znth_nonneg {A} (l : list A) i : 0 ≤ i → znth l i = l !! Z.to_nat i.
Proof. intros; unfold znth; destruct (Z.ltb_spec i 0); [lia|done]. Qed.
Lemma znth_Some {A} (l : list A) i : is_Some (znth l i) ↔ 0 ≤ i < len l.
Proof.
  unfold znth, len. destruct (Z.ltb_spec i 0).
  - split; [intros [? ?]; discriminate|lia].
  - rewrite lookup_lt_is_Some. lia.
Qed.
Lemma znth_lt {A} (l : list A) i : 0 ≤ i < len l → ∃ x, znth l i = Some x.
Proof. intros H. by apply znth_Some in H. Qed.
Lemma znth_None {A} (l : list A) i : znth l i = None ↔ i < 0 ∨ len l ≤ i.
Proof.
  rewrite eq_None_not_Some, znth_Some. lia.
Qed.
Lemma znth_0 {A} (x : A) l : znth (x :: l) 0 = Some x.
Proof. reflexivity. Qed.
Lemma znth_app_l {A} (l k : list A) i : i < len l → znth (l ++ k) i = znth l i.
Proof.
  intros. unfold znth. destruct (Z.ltb_spec i 0); [done|].
  apply lookup_app_l. unfold len in *; lia.
Qed.
Lemma znth_app_r {A} (l k : list A) i : len l ≤ i → znth (l ++ k) i = znth k (i - len l).
Proof.
  intros. pose proof (len_nonneg l). rewrite !znth_nonneg by lia.
  rewrite lookup_app_r by (unfold len in *; lia). f_equal. unfold len in *; lia.
Qed.

Lemma znth_zdrop {A} (l : list A) a i : 0 ≤ a → 0 ≤ i → znth (zdrop a l) i = znth l (a + i).
Proof.
  intros. rewrite !znth_nonneg by lia. unfold zdrop. rewrite lookup_drop. f_equal. lia.
Qed.
Lemma znth_ztake {A} (l : list A) n i : i < n → znth (ztake n l) i = znth l i.
Proof.
  intros. unfold znth. destruct (Z.ltb_spec i 0); [done|].
  unfold ztake. apply lookup_take_lt. lia.
Qed.
Lemma znth_ext {A} (l k : list A) : len l = len k →
  (∀ i, 0 ≤ i < len l → znth l i = znth k i) → l = k.
Proof.
  intros Hl H. apply list_eq. intros i.
  destruct (decide (i < length l)%nat) as [Hi|Hi].
  - specialize (H (Z.of_nat i)). rewrite !znth_nonneg, Nat2Z.id in H by lia.
    apply H. unfold len. lia.
  - unfold len in *. rewrite !lookup_ge_None_2 by lia. done.
Qed.
Lemma znth_elem_of {A} (l : list A) i x : znth l i = Some x → x ∈ l.
Proof.
  unfold znth. destruct (i <? 0); [discriminate|]. apply list_elem_of_lookup_2.
Qed.

Lemma len_length {A} (l : list A) : len l = Z.of_nat (length l).
Proof. reflexivity. Qed.

#[global] Hint Resolve len_nonneg : gohints.

(** [len] is reasoned about through its lemmas only. *)
#[global] Opaque len.
Ltac unlen := rewrite ?len_length in *.
