(* ===== verification/GoBytes.v ===== *)
(** * Bytes, machine integers and slices

    The Go types [byte], [uint16], [uint32], [uint64], [int32], [int64] and
    [[]byte], and the functions of [encoding/binary] that the parsers use.
    A byte is [Byte.byte]; every wider integer is a [Z] kept in its range by
    an explicit conversion; a byte slice is [list byte] when its capacity is
    its length and [slice] (below) when the spare capacity matters. *)

From S2P Require Import Prelude.

Notation byte := Init.Byte.byte.

#[export] Instance byte_eq_decision : EqDecision byte := Byte.byte_eq_dec.

(** The value of a byte, in [0, 256). *)
Definition bz (b : byte) : Z := Z.of_N (Byte.to_N b).

(** Conversion [byte(z)]: the value modulo 256. *)
Definition to_byte (z : Z) : byte :=
  match Byte.of_N (Z.to_N (z mod 256)) with Some b => b | None => Byte.x00 end.

Lemma bz_range b : 0 ≤ bz b < 256.
Proof. unfold bz. pose proof (Byte.to_N_bounded b). lia. Qed.

Lemma bz_to_byte z : bz (to_byte z) = z mod 256.
Proof.
  unfold to_byte, bz. pose proof (Z.mod_pos_bound z 256 ltac:(lia)) as Hr.
  destruct (Byte.of_N _) as [b|] eqn:E.
  - apply Byte.to_of_N in E. rewrite E. lia.
  - apply Byte.of_N_None_iff in E. lia.
Qed.

Lemma to_byte_bz b : to_byte (bz b) = b.
Proof.
  unfold to_byte, bz. rewrite Z.mod_small by (pose proof (Byte.to_N_bounded b); lia).
  rewrite N2Z.id. by rewrite Byte.of_to_N.
Qed.

Lemma bz_inj a b : bz a = bz b → a = b.
Proof. intros H. by rewrite <-(to_byte_bz a), H, to_byte_bz. Qed.

Lemma bz_to_byte_small z : 0 ≤ z < 256 → bz (to_byte z) = z.
Proof. intros. rewrite bz_to_byte. by apply Z.mod_small. Qed.

Lemma to_byte_mod z : to_byte (z mod 256) = to_byte z.
Proof. unfold to_byte. by rewrite Z.mod_mod by lia. Qed.

#[export] Instance byte_countable : Countable byte.
Proof.
  refine (inj_countable' (λ b, Z.to_N (bz b)) (λ n, to_byte (Z.of_N n)) _).
  intros b. pose proof (bz_range b). rewrite Z2N.id by lia. apply to_byte_bz.
Defined.

(** Byte comparison as the source writes it, [b == 0x..]. *)
Definition beq (b : byte) (z : Z) : bool := bz b =? z.

(** ** Conversions between integer types *)

Definition uint (w z : Z) : Z := z mod 2 ^ w.
Definition sint (w z : Z) : Z := (z + 2 ^ (w - 1)) mod 2 ^ w - 2 ^ (w - 1).
Definition uint32 := uint 32.
Definition int32 := sint 32.
Definition int64 := sint 64.

Lemma uint_range w z : 0 ≤ w → 0 ≤ uint w z < 2 ^ w.
Proof. intros. apply Z.mod_pos_bound. apply Z.pow_pos_nonneg; lia. Qed.
Lemma uint_small w z : 0 ≤ z < 2 ^ w → uint w z = z.
Proof. apply Z.mod_small. Qed.
Lemma sint_range w z : 0 < w → - 2 ^ (w - 1) ≤ sint w z < 2 ^ (w - 1).
Proof.
  intros Hw. unfold sint.
  pose proof (Z.mod_pos_bound (z + 2 ^ (w - 1)) (2 ^ w) ltac:(apply Z.pow_pos_nonneg; lia)).
  replace (2 ^ w) with (2 * 2 ^ (w - 1)) in * by (rewrite <-Z.pow_succ_r by lia; f_equal; lia). lia.
Qed.
Lemma sint_small w z : 0 < w → - 2 ^ (w - 1) ≤ z < 2 ^ (w - 1) → sint w z = z.
Proof.
  intros Hw Hz. unfold sint.
  replace (2 ^ w) with (2 * 2 ^ (w - 1)) by (rewrite <-Z.pow_succ_r by lia; f_equal; lia).
  rewrite Z.mod_small; lia.
Qed.
Lemma sint_uint w z : 0 < w → sint w (uint w z) = sint w z.
Proof.
  intros. unfold sint, uint. f_equal. rewrite Zplus_mod_idemp_l. done.
Qed.
Lemma uint_sint w z : 0 < w → uint w (sint w z) = uint w z.
Proof.
  intros. unfold sint, uint. rewrite Zminus_mod_idemp_l. f_equal. lia.
Qed.

(** ** Little- and big-endian integers *)

Fixpoint le_val (l : list byte) : Z :=
  match l with [] => 0 | b :: l => bz b + 256 * le_val l end.
Definition be_val (l : list byte) : Z := le_val (rev l).

Fixpoint le_bytes (n : nat) (z : Z) : list byte :=
  match n with O => [] | S n => to_byte z :: le_bytes n (z / 256) end.
Definition be_bytes (n : nat) (z : Z) : list byte := rev (le_bytes n z).

Lemma le_bytes_length n z : length (le_bytes n z) = n.
Proof. revert z; induction n; intros; simpl; auto. Qed.
Lemma be_bytes_length n z : length (be_bytes n z) = n.
Proof. unfold be_bytes. by rewrite length_rev, le_bytes_length. Qed.
Lemma len_le_bytes n z : len (le_bytes n z) = Z.of_nat n.
Proof. rewrite len_length. by rewrite le_bytes_length. Qed.
Lemma len_be_bytes n z : len (be_bytes n z) = Z.of_nat n.
Proof. rewrite len_length. by rewrite be_bytes_length. Qed.
#[global] Hint Rewrite len_le_bytes len_be_bytes : len.

Lemma le_val_range l : 0 ≤ le_val l < 256 ^ len l.
Proof.
  induction l as [|b l IH]; [change (len []) with 0; simpl; lia|].
  rewrite len_cons, Z.pow_add_r by (try apply len_nonneg; lia).
  change (256 ^ 1) with 256. cbn [le_val].
  pose proof (bz_range b). lia.
Qed.
Lemma be_val_range l : 0 ≤ be_val l < 256 ^ len l.
Proof. unfold be_val. rewrite <-len_rev. apply le_val_range. Qed.

Lemma le_val_bytes n z : le_val (le_bytes n z) = z mod 256 ^ Z.of_nat n.
Proof.
  revert z; induction n as [|n IH]; intros z; [cbn; by rewrite Z.mod_1_r|].
  cbn [le_bytes le_val]. rewrite IH, bz_to_byte.
  rewrite Nat2Z.inj_succ, Z.pow_succ_r by lia.
  rewrite (Z.mul_comm 256 (256 ^ _)).
  rewrite (Z.mul_comm (256 ^ _) 256), Z.rem_mul_r by (try apply Z.pow_nonzero; lia). lia.
Qed.
Lemma be_val_bytes n z : be_val (be_bytes n z) = z mod 256 ^ Z.of_nat n.
Proof. unfold be_val, be_bytes. rewrite rev_involutive. apply le_val_bytes. Qed.

Lemma le_val_bytes_small n z : 0 ≤ z < 256 ^ Z.of_nat n → le_val (le_bytes n z) = z.
Proof. intros. rewrite le_val_bytes. by apply Z.mod_small. Qed.
Lemma be_val_bytes_small n z : 0 ≤ z < 256 ^ Z.of_nat n → be_val (be_bytes n z) = z.
Proof. intros. rewrite be_val_bytes. by apply Z.mod_small. Qed.

Lemma le_bytes_val l : le_bytes (length l) (le_val l) = l.
Proof.
  induction l as [|b l IH]; [done|]. cbn [length le_val le_bytes].
  pose proof (bz_range b). f_equal.
  - apply bz_inj. rewrite bz_to_byte.
    rewrite Z.mul_comm, Z.mod_add by lia. by apply Z.mod_small.
  - rewrite Z.mul_comm, Z.div_add by lia. by rewrite Z.div_small, Z.add_0_l by lia.
Qed.

(** ** Indexing and slicing with Go's bounds checks *)

(** [s[i]] *)
Definition index {A} (s : list A) (i : Z) : go A := of_option (znth s i).

(** [s[i] = x] *)
Definition store {A} (s : list A) (i : Z) (x : A) : go (list A) :=
  if (0 <=? i) && (i <? len s) then Ret (<[Z.to_nat i:=x]> s) else Panic.

(** [s[a:b]] for a string, or for a slice whose capacity is its length. *)
Definition sub {A} (s : list A) (a b : Z) : go (list A) :=
  if (0 <=? a) && (a <=? b) && (b <=? len s) then Ret (ztake (b - a) (zdrop a s)) else Panic.

Lemma sub_Ret {A} (s : list A) a b : 0 ≤ a ≤ b → b ≤ len s → sub s a b = Ret (ztake (b - a) (zdrop a s)).
Proof.
  intros. unfold sub.
  destruct (Z.leb_spec 0 a), (Z.leb_spec a b), (Z.leb_spec b (len s)); try lia. done.
Qed.
Lemma sub_Panic {A} (s : list A) a b : a < 0 ∨ b < a ∨ len s < b → sub s a b = Panic.
Proof.
  intros. unfold sub.
  destruct (Z.leb_spec 0 a), (Z.leb_spec a b), (Z.leb_spec b (len s)); try lia; done.
Qed.
Lemma sub_inv {A} (s : list A) a b r : sub s a b = Ret r → 0 ≤ a ≤ b ∧ b ≤ len s ∧ r = ztake (b - a) (zdrop a s).
Proof.
  unfold sub. intros H. destruct (_ && _) eqn:E in H; [|discriminate]. zbool. inv_eq H. split_and!; (lia || done).
Qed.
Lemma index_Ret {A} (s : list A) i : 0 ≤ i < len s → ∃ b, index s i = Ret b ∧ znth s i = Some b.
Proof. intros H. destruct (znth_lt s i H) as [b Hb]. exists b. unfold index. by rewrite Hb. Qed.
Lemma index_cons_0 {A} (b : A) s : index (b :: s) 0 = Ret b.
Proof. reflexivity. Qed.

Lemma returns_index {A} (s : list A) i : 0 ≤ i < len s → returns (index s i) (λ x, znth s i = Some x).
Proof. intros H. destruct (index_Ret s i H) as (b & ? & ?). by exists b. Qed.
Lemma returns_sub {A} (s : list A) a b : 0 ≤ a ≤ b → b ≤ len s →
  returns (sub s a b) (λ t, t = ztake (b - a) (zdrop a s) ∧ len t = b - a).
Proof.
  intros. exists (ztake (b - a) (zdrop a s)). split; [by apply sub_Ret|]. split; [done|]. len_simpl. lia.
Qed.

(** Positions behind a prefix. *)
Lemma index_app_r {A} (pre s : list A) k : 0 ≤ k → index (pre ++ s) (len pre + k) = index s k.
Proof. intros. unfold index. rewrite znth_app_r by lia. by replace (len pre + k - len pre) with k by lia. Qed.
Lemma sub_app_r {A} (pre s : list A) a b : 0 ≤ a → sub (pre ++ s) (len pre + a) (len pre + b) = sub s a b.
Proof.
  intros Ha. unfold sub. rewrite len_app. pose proof (len_nonneg pre).
  destruct (Z.leb_spec 0 (len pre + a)), (Z.leb_spec 0 a), (Z.leb_spec (len pre + a) (len pre + b)),
    (Z.leb_spec a b), (Z.leb_spec (len pre + b) (len pre + len s)), (Z.leb_spec b (len s));
    try lia; try done. simpl. f_equal.
  replace (len pre + b - (len pre + a)) with (b - a) by lia.
  rewrite Z.add_comm, Z.add_comm, <-zdrop_zdrop by lia. by rewrite zdrop_app_eq by done.
Qed.
(** The part between a prefix and a rest. *)
Lemma sub_mid {A} (pre s rest : list A) a b : a = len pre → b = len pre + len s → sub (pre ++ s ++ rest) a b = Ret s.
Proof.
  intros -> ->. pose proof (len_nonneg pre). pose proof (len_nonneg s). pose proof (len_nonneg rest).
  rewrite sub_Ret by (len_simpl; lia). rewrite zdrop_app_eq by done. by rewrite ztake_app_eq by lia.
Qed.

(** [binary.LittleEndian.UintN(b)] and [binary.BigEndian.UintN(b)] read the
    first bytes of [b] and panic when there are too few. *)
Definition le_uint (n : Z) (s : list byte) : go Z :=
  if n <=? len s then Ret (le_val (ztake n s)) else Panic.
Definition be_uint (n : Z) (s : list byte) : go Z :=
  if n <=? len s then Ret (be_val (ztake n s)) else Panic.

(** [binary.LittleEndian.UintN(s[a:a+n])], the form the parsers use. *)
Definition le_at (n : Z) (s : list byte) (a : Z) : go Z := t ← sub s a (a + n); le_uint n t.
Definition be_at (n : Z) (s : list byte) (a : Z) : go Z := t ← sub s a (a + n); be_uint n t.

Lemma le_at_Ret n s a : 0 ≤ a → 0 ≤ n → a + n ≤ len s →
  le_at n s a = Ret (le_val (ztake n (zdrop a s))).
Proof.
  intros. unfold le_at. rewrite sub_Ret by lia. simpl. unfold le_uint.
  replace (a + n - a) with n by lia.
  rewrite len_ztake, len_zdrop. destruct (Z.leb_spec n (Z.min (Z.max 0 n) (len s - Z.min (Z.max 0 a) (len s)))); [|lia].
  by rewrite ztake_ztake, Z.min_id.
Qed.
Lemma be_at_Ret n s a : 0 ≤ a → 0 ≤ n → a + n ≤ len s →
  be_at n s a = Ret (be_val (ztake n (zdrop a s))).
Proof.
  intros. unfold be_at. rewrite sub_Ret by lia. simpl. unfold be_uint.
  replace (a + n - a) with n by lia.
  rewrite len_ztake, len_zdrop. destruct (Z.leb_spec n (Z.min (Z.max 0 n) (len s - Z.min (Z.max 0 a) (len s)))); [|lia].
  by rewrite ztake_ztake, Z.min_id.
Qed.

(** The three-byte lengths are assembled with shifts and bitwise or in the
    source; the bits do not overlap, so the result is the little-endian
    value. *)
Lemma lor_shiftl_add a b n : 0 ≤ n → 0 ≤ a < 2 ^ n → 0 ≤ b →
  Z.lor a (Z.shiftl b n) = a + 2 ^ n * b.
Proof.
  intros Hn Ha Hb. rewrite Z.shiftl_mul_pow2, (Z.mul_comm b) by lia.
  rewrite Z.mul_comm, <-Z.shiftl_mul_pow2 by lia.
  symmetry. rewrite <-Z.lxor_lor, <-Z.add_nocarry_lxor; [done| |].
  all: apply Z.bits_inj'; intros i Hi; rewrite Z.land_spec, Z.bits_0.
  all: destruct (Z.ltb_spec i n).
  all: try (rewrite Z.shiftl_spec_low by lia; by rewrite andb_false_r).
  all: rewrite <-(Z.mod_small a (2 ^ n)) by lia; by rewrite Z.mod_pow2_bits_high by lia.
Qed.

Definition le24 (b0 b1 b2 : byte) : Z :=
  Z.lor (Z.lor (bz b0) (Z.shiftl (bz b1) 8)) (Z.shiftl (bz b2) 16).

Lemma le24_val b0 b1 b2 : le24 b0 b1 b2 = le_val [b0; b1; b2].
Proof.
  unfold le24. pose proof (bz_range b0). pose proof (bz_range b1). pose proof (bz_range b2).
  rewrite (lor_shiftl_add (bz b0)) by lia. rewrite lor_shiftl_add by lia. cbn [le_val]. lia.
Qed.
Lemma le24_range b0 b1 b2 : 0 ≤ le24 b0 b1 b2 < 2 ^ 24.
Proof. rewrite le24_val. apply (le_val_range [b0; b1; b2]). Qed.

Lemma store_Ret {A} (s : list A) i x : 0 ≤ i < len s → store s i x = Ret (<[Z.to_nat i:=x]> s).
Proof.
  intros. unfold store. destruct (Z.leb_spec 0 i), (Z.ltb_spec i (len s)); try lia. done.
Qed.

(** [copy(dst, src)] overwrites the first [min(len(dst), len(src))] elements. *)
Definition gcopy {A} (dst src : list A) : list A :=
  let n := Nat.min (length dst) (length src) in take n src ++ drop n dst.

Lemma gcopy_le {A} (dst src : list A) :
  len src ≤ len dst → gcopy dst src = src ++ zdrop (len src) dst.
Proof.
  unlen. intros. unfold gcopy, zdrop. rewrite Nat.min_r by lia.
  rewrite firstn_all. f_equal. f_equal. lia.
Qed.

(** ** Allocation

    [make([]T, n)] and [make([]T, 0, n)] panic when [n] is negative or when
    the array would exceed the run-time's address space, 2^48 bytes on the
    64-bit platforms the tool is built for. *)
Definition max_alloc : Z := 2 ^ 48.
Definition make_ok (n size : Z) : bool := (0 <=? n) && (n * size <=? max_alloc).

(** ** Slices with spare capacity

    [vis] is what the slice shows, [hid] the bytes of the same array between
    its length and its capacity. *)
Record slice := Slice { vis : list byte; hid : list byte }.

(** [s[a:b]]: the upper bound is checked against the capacity. *)
Definition reslice (s : slice) (a b : Z) : go slice :=
  let full := vis s ++ hid s in
  if (0 <=? a) && (a <=? b) && (b <=? len full)
  then Ret (Slice (ztake (b - a) (zdrop a full)) (zdrop b full)) else Panic.

(** [s[a:]] *)
Definition slice_from (s : slice) (a : Z) : go slice := reslice s a (len (vis s)).

(** Decide the comparisons of constant bytes in the goal. *)
Ltac byte_cases :=
  repeat match goal with
  | |- context [Byte.eqb ?a ?b] =>
      first [change (Byte.eqb a b) with true | change (Byte.eqb a b) with false]; cbv iota
  | |- context [beq ?a ?b] =>
      first [change (beq a b) with true | change (beq a b) with false]; cbv iota
  end.

(** ** Reads that stay inside the data *)

Lemma le_val_range_n l n : 0 ≤ n → len l = n → 0 ≤ le_val l < 2 ^ (8 * n).
Proof.
  intros Hn <-. pose proof (le_val_range l) as H. by rewrite Z.pow_mul_r by (try apply len_nonneg; lia).
Qed.

Lemma returns_le_at n s a : 0 ≤ a → 0 ≤ n → a + n ≤ len s →
  returns (le_at n s a) (λ v, v = le_val (ztake n (zdrop a s)) ∧ 0 ≤ v < 2 ^ (8 * n)).
Proof.
  intros. rewrite le_at_Ret by done. apply returns_Ret. split; [done|].
  apply le_val_range_n; [done|]. len_simpl. lia.
Qed.
Lemma returns_le_uint n s : 0 ≤ n → len s = n → returns (le_uint n s) (λ v, v = le_val s ∧ 0 ≤ v < 2 ^ (8 * n)).
Proof.
  intros Hn Hs. unfold le_uint. destruct (Z.leb_spec n (len s)); [|lia]. apply returns_Ret.
  rewrite ztake_ge by lia. split; [done|]. by apply le_val_range_n.
Qed.
Lemma returns_be_at n s a : 0 ≤ a → 0 ≤ n → a + n ≤ len s →
  returns (be_at n s a) (λ v, v = be_val (ztake n (zdrop a s)) ∧ 0 ≤ v < 2 ^ (8 * n)).
Proof.
  intros. rewrite be_at_Ret by done. apply returns_Ret. split; [done|].
  unfold be_val. apply le_val_range_n; [done|]. rewrite len_rev. len_simpl. lia.
Qed.

(** An integer in the middle of a message; [v] may be negative, as the fields
    that are converted to a signed type are. *)
Lemma be_at_mid (n : nat) pre v rest a k : a = len pre → k = Z.of_nat n →
  be_at k (pre ++ be_bytes n v ++ rest) a = Ret (v mod 256 ^ Z.of_nat n).
Proof.
  intros -> ->. unfold be_at. rewrite sub_mid by (len_simpl; lia). simpl. unfold be_uint.
  rewrite len_be_bytes, Z.leb_refl, ztake_ge by (rewrite len_be_bytes; lia). by rewrite be_val_bytes.
Qed.
Lemma le_at_mid (n : nat) pre v rest a k : a = len pre → k = Z.of_nat n →
  le_at k (pre ++ le_bytes n v ++ rest) a = Ret (v mod 256 ^ Z.of_nat n).
Proof.
  intros -> ->. unfold le_at. rewrite sub_mid by (len_simpl; lia). simpl. unfold le_uint.
  rewrite len_le_bytes, Z.leb_refl, ztake_ge by (rewrite len_le_bytes; lia). by rewrite le_val_bytes.
Qed.

Lemma be_at_head (n : nat) v rest k : k = Z.of_nat n →
  be_at k (be_bytes n v ++ rest) 0 = Ret (v mod 256 ^ Z.of_nat n).
Proof. by apply (be_at_mid n []). Qed.
Lemma le_at_head (n : nat) v rest k : k = Z.of_nat n →
  le_at k (le_bytes n v ++ rest) 0 = Ret (v mod 256 ^ Z.of_nat n).
Proof. by apply (le_at_mid n []). Qed.

Definition is_int32 (v : Z) : Prop := - 2 ^ 31 ≤ v < 2 ^ 31.
Definition is_int64 (v : Z) : Prop := - 2 ^ 63 ≤ v < 2 ^ 63.

Lemma int32_mod v : is_int32 v → int32 (v mod 256 ^ Z.of_nat 4) = v.
Proof.
  intros Hv. change (int32 (v mod 256 ^ Z.of_nat 4)) with (sint 32 (uint 32 v)).
  rewrite sint_uint, sint_small by (lia || exact Hv). done.
Qed.
Lemma int64_mod v : is_int64 v → int64 (v mod 256 ^ Z.of_nat 8) = v.
Proof.
  intros Hv. change (int64 (v mod 256 ^ Z.of_nat 8)) with (sint 64 (uint 64 v)).
  rewrite sint_uint, sint_small by (lia || exact Hv). done.
Qed.

Lemma int32_range z : is_int32 (int32 z).
Proof. apply (sint_range 32). lia. Qed.
Lemma int64_range z : is_int64 (int64 z).
Proof. apply (sint_range 64). lia. Qed.

Lemma le_bytes_mod n z : le_bytes n (z mod 256 ^ Z.of_nat n) = le_bytes n z.
Proof.
  revert z. induction n as [|n IH]; intros z; [done|]. cbn [le_bytes].
  rewrite Nat2Z.inj_succ, Z.pow_succ_r by lia. f_equal.
  - rewrite <-to_byte_mod, Z.rem_mul_r, Z.mul_comm, Z.mod_add, Z.mod_mod, to_byte_mod by (try apply Z.pow_nonzero; lia). done.
  - rewrite Z.rem_mul_r by (try apply Z.pow_nonzero; lia).
    rewrite (Z.mul_comm 256 (_ mod _)), Z.div_add by lia.
    rewrite (Z.div_small (z mod 256)) by (apply Z.mod_pos_bound; lia). by rewrite Z.add_0_l, IH.
Qed.
