(* ===== verification/Window.v ===== *)
(** * The TCP receive window (src/tcpport/assembler.go)

    [compareTCPSeq], [receiveWindow] and its methods [insert], [confirm] and
    [expand], over the ring buffer the code keeps, and the Go channel that
    [confirm] sends to. *)

From S2P Require Import Prelude GoBytes.

(** ** Sequence numbers *)

Definition maxTCPSeq : Z := 0xFFFFFFFF.
Definition tcpSeqWindow : Z := 0x0000FFFF.

(** [seq1], [seq2] are uint32; the result is a 64-bit int. The first two
    branches convert a uint32 to int, so their results are never negative. *)
Definition compareTCPSeq (seq1 seq2 : Z) : Z :=
  if (seq1 <? tcpSeqWindow) && (maxTCPSeq - tcpSeqWindow <? seq2)
  then uint32 (uint32 (seq1 + maxTCPSeq) - seq2)
  else if (seq2 <? tcpSeqWindow) && (maxTCPSeq - tcpSeqWindow <? seq1)
  then uint32 (seq1 - uint32 (maxTCPSeq + seq2))
  else int32 (uint32 (seq1 - seq2)).

(** ** Packets: the fields of [layers.TCP] the code reads *)
Record TCP := mkTCP {
  SrcPort : Z; DstPort : Z; Seq : Z; Ack : Z;
  SYN : bool; ACK : bool; FIN : bool; RST : bool;
  Payload : list byte }.

Definition set_Payload (p : TCP) (b : list byte) : TCP :=
  mkTCP (SrcPort p) (DstPort p) (Seq p) (Ack p) (SYN p) (ACK p) (FIN p) (RST p) b.

(** [packet.Seq + uint32(len(packet.Payload))] *)
Definition seq_end (p : TCP) : Z := uint32 (Seq p + uint32 (len (Payload p))).

(** ** Channels of packets

    A statement of the assembler's goroutine finishes, is suspended (a send
    on a full channel), or panics. *)
Inductive sched (A : Type) : Type :=
| Done (a : A)
| Blocked
| Crash.
Arguments Done {A} a.
Arguments Blocked {A}.
Arguments Crash {A}.

#[export] Instance sched_ret : MRet sched := fun A a => Done a.
#[export] Instance sched_bind : MBind sched := fun A B f m =>
  match m with Done a => f a | Blocked => Blocked | Crash => Crash end.

Definition run {A} (m : go A) : sched A :=
  match m with Ret a => Done a | Panic => Crash end.

(** [chan *layers.TCP]: the packets in the buffer, its capacity, and whether
    it has been closed. *)
Record chan := mkChan { queue : list TCP; capacity : Z; chan_closed : bool }.

(** [c <- p] *)
Definition send (c : chan) (p : TCP) : sched chan :=
  if chan_closed c then Crash
  else if len (queue c) <? capacity c
  then Done (mkChan (queue c ++ [p]) (capacity c) false)
  else Blocked.

(** [close(c)] *)
Definition close (c : chan) : sched chan :=
  if chan_closed c then Crash else Done (mkChan (queue c) (capacity c) true).

(** ** The window *)
Record receiveWindow := mkWindow {
  size : Z; start : Z; buffer : list (option TCP); lastAck : Z; expectBegin : Z }.

Definition newReceiveWindow (initialSize : Z) : receiveWindow :=
  mkWindow 0 0 (replicate (Z.to_nat initialSize) None) 0 0.

(** [w.buffer[(i + w.start) % len(w.buffer)]], as a slot and as the packet it
    points to (a nil slot panics when a field is read). *)
Definition slot (w : receiveWindow) (i : Z) : go (option TCP) :=
  index (buffer w) ((i + start w) mod len (buffer w)).
Definition deref (w : receiveWindow) (i : Z) : go TCP := o ← slot w i; of_option o.
Definition set_slot (w : receiveWindow) (i : Z) (x : option TCP) : go receiveWindow :=
  b ← store (buffer w) ((i + start w) mod len (buffer w)) x;
  Ret (mkWindow (size w) (start w) b (lastAck w) (expectBegin w)).

Definition expand (w : receiveWindow) : go receiveWindow :=
  let n := len (buffer w) in
  let buf := replicate (Z.to_nat (n * 2)) None in
  let fin := start w + size w in
  buf ←
    (if fin <? n then
       src ← sub (buffer w) (start w) (start w + size w);
       Ret (gcopy buf src)
     else
       src ← sub (buffer w) (start w) n;
       let buf := gcopy buf src in
       src2 ← sub (buffer w) 0 (fin - n);
       tail ← sub buf (n - start w) (len buf);
       Ret (ztake (n - start w) buf ++ gcopy tail src2));
  Ret (mkWindow (size w) 0 buf (lastAck w) (expectBegin w)).

(** The scan from the right of [insert]: [None] when a packet with the same
    sequence number is met ([return]), the insertion index otherwise. *)
Fixpoint insert_scan (w : receiveWindow) (seq : Z) (idx : nat) : go (option Z) :=
  match idx with
  | O => Ret (Some 0)
  | S idx' =>
      prev ← deref w (Z.of_nat idx - 1);
      let result := compareTCPSeq (Seq prev) seq in
      if result =? 0 then Ret None
      else if result <? 0 then Ret (Some (Z.of_nat idx))
      else insert_scan w seq idx'
  end.

(** [for i := w.size - 1; i >= idx; i-- { w.buffer[next] = w.buffer[current] }],
    with [n] iterations left: [i = idx + n - 1]. *)
Fixpoint insert_shift (w : receiveWindow) (idx : Z) (n : nat) : go receiveWindow :=
  match n with
  | O => Ret w
  | S n' =>
      let i := idx + Z.of_nat n' in
      x ← slot w i;
      w ← set_slot w (i + 1) x;
      insert_shift w idx n'
  end.

Definition set_size (w : receiveWindow) (n : Z) : receiveWindow :=
  mkWindow n (start w) (buffer w) (lastAck w) (expectBegin w).

Definition insert (w : receiveWindow) (packet : TCP) : go receiveWindow :=
  if negb (expectBegin w =? 0) && (0 <=? compareTCPSeq (expectBegin w) (seq_end packet))
  then Ret w
  else if len (Payload packet) =? 0 then Ret w
  else
    r ← insert_scan w (Seq packet) (Z.to_nat (size w));
    match r with
    | None => Ret w
    | Some idx =>
        w ← (if size w =? len (buffer w) then expand w else Ret w);
        w ← (if idx =? size w then set_slot w idx (Some packet)
             else
               w ← insert_shift w idx (Z.to_nat (size w - idx));
               set_slot w idx (Some packet));
        Ret (set_size w (size w + 1))
    end.

(** The body of [confirm]'s loop after the slot has been cleared: the packet
    that is sent, or [None] for [continue]. *)
Definition trim (expect : Z) (packet : TCP) : go (option TCP) :=
  if negb (expect =? 0) && (0 <? compareTCPSeq expect (Seq packet)) then
    let dup := uint32 (expect - Seq packet) in
    let dup := if dup <? 0 then uint32 (dup + maxTCPSeq) else dup in
    if uint32 (len (Payload packet)) <=? dup then Ret None
    else
      rest ← sub (Payload packet) dup (len (Payload packet));
      Ret (Some (set_Payload packet rest))
  else Ret (Some packet).

Definition set_expect (w : receiveWindow) (e : Z) : receiveWindow :=
  mkWindow (size w) (start w) (buffer w) (lastAck w) e.

(** [for ; idx < w.size; idx++]: [n] is [w.size - idx]. *)
Fixpoint confirm_loop (ack : Z) (n : nat) (idx : Z) (w : receiveWindow) (c : chan)
  : sched (Z * receiveWindow * chan) :=
  match n with
  | O => Done (idx, w, c)
  | S n' =>
      packet ← run (deref w idx);
      if 0 <=? compareTCPSeq (Seq packet) ack then Done (idx, w, c)
      else
        w ← run (set_slot w idx None);
        let newExpect := seq_end packet in
        r ← run (trim (expectBegin w) packet);
        match r with
        | None => confirm_loop ack n' (idx + 1) w c
        | Some packet =>
            c ← send c packet;
            confirm_loop ack n' (idx + 1) (set_expect w newExpect) c
        end
  end.

Definition confirm (w : receiveWindow) (ack : Z) (c : chan) : sched (receiveWindow * chan) :=
  '(idx, w, c) ← confirm_loop ack (Z.to_nat (size w)) 0 w c;
  let newLast :=
    if (compareTCPSeq (lastAck w) ack <? 0) || (lastAck w =? 0) then ack else lastAck w in
  Done (mkWindow (size w - idx) ((start w + idx) mod len (buffer w)) (buffer w)
          newLast (expectBegin w), c).
