(* ===== verification/WindowRing.v ===== *)
(** * The ring buffer implements a list of packets

    A window [w] represents the list [l] when the [size w] slots from
    [start w] on, modulo the buffer's length, point to the packets of [l] in
    order.  [insert], [expand] and [confirm] are refined to functions on
    lists. *)

From S2P Require Import Prelude GoBytes Window.

(** ** Slots modulo the buffer's length *)

Lemma ring_inj n s i j : 0 ≤ i < n → 0 ≤ j < n →
  (i + s) mod n = (j + s) mod n → i = j.
Proof.
  intros Hi Hj H.
  assert ((i - j) mod n = 0) as Hz.
  { replace (i - j) with ((i + s) - (j + s)) by lia.
    rewrite Zminus_mod, H, Z.sub_diag. by apply Z.mod_0_l; lia. }
  apply Zmod_divides in Hz as [q Hq]; [|lia].
  destruct (Z.eq_dec q 0); nia.
Qed.

(** What a ring position shows. *)
Definition ring (b : list (option TCP)) (s i : Z) : option (option TCP) :=
  znth b ((i + s) mod len b).
Definition ring_set (b : list (option TCP)) (s i : Z) (x : option TCP) :=
  <[Z.to_nat ((i + s) mod len b):=x]> b.

Lemma ring_set_len b s i x : len (ring_set b s i x) = len b.
Proof. apply len_insert. Qed.

Lemma ring_set_eq b s i x : 0 < len b → ring (ring_set b s i x) s i = Some x.
Proof.
  intros Hb. unfold ring. rewrite ring_set_len. unfold ring_set.
  pose proof (Z.mod_pos_bound (i + s) (len b) Hb).
  rewrite znth_nonneg by lia. apply list_lookup_insert_eq. unlen. lia.
Qed.

Lemma ring_set_ne b s i j x : 0 ≤ i < len b → 0 ≤ j < len b → i ≠ j →
  ring (ring_set b s i x) s j = ring b s j.
Proof.
  intros Hi Hj Hne. unfold ring. rewrite ring_set_len. unfold ring_set.
  pose proof (Z.mod_pos_bound (i + s) (len b) ltac:(lia)).
  pose proof (Z.mod_pos_bound (j + s) (len b) ltac:(lia)).
  rewrite !znth_nonneg by lia. apply list_lookup_insert_ne.
  intros Heq. apply Hne. apply (ring_inj (len b) s); [lia..|].
  apply Z2Nat.inj in Heq; lia.
Qed.

Lemma set_slot_Ret w i x : 0 < len (buffer w) →
  set_slot w i x = Ret (mkWindow (size w) (start w) (ring_set (buffer w) (start w) i x)
                          (lastAck w) (expectBegin w)).
Proof.
  intros Hb. unfold set_slot.
  by rewrite store_Ret by (apply Z.mod_pos_bound; lia).
Qed.

Lemma slot_Ret w i o : ring (buffer w) (start w) i = Some o → slot w i = Ret o.
Proof. unfold ring, slot, index. by intros ->. Qed.

Lemma deref_Ret w i p : ring (buffer w) (start w) i = Some (Some p) → deref w i = Ret p.
Proof. intros H. unfold deref. by rewrite (slot_Ret _ _ _ H). Qed.

(** ** The representation relation *)

Record ring_ok (w : receiveWindow) : Prop := {
  ring_len : 0 < len (buffer w);
  ring_start : 0 ≤ start w < len (buffer w);
}.

Record rep_from (w : receiveWindow) (idx : Z) (l : list TCP) : Prop := {
  rf_ok : ring_ok w;
  rf_idx : 0 ≤ idx;
  rf_size : size w = idx + len l;
  rf_cap : size w ≤ len (buffer w);
  rf_slot : ∀ i p, znth l i = Some p → ring (buffer w) (start w) (idx + i) = Some (Some p);
}.

(** [rep w l]: the window holds exactly [l], in this order. *)
Definition rep (w : receiveWindow) (l : list TCP) : Prop := rep_from w 0 l.

Lemma rep_new n : 0 < n → rep (newReceiveWindow n) [].
Proof.
  intros Hn. unfold newReceiveWindow. split; simpl.
  - split; cbn [start buffer]; rewrite len_replicate; lia.
  - lia.
  - reflexivity.
  - rewrite len_replicate; lia.
  - intros i p H. destruct (znth_Some (@nil TCP) i) as [Hs _].
    destruct Hs; [by eexists|]. change (len []) with 0 in *. lia.
Qed.

Lemma rep_deref w l i p : rep w l → znth l i = Some p → deref w i = Ret p.
Proof. intros H Hi. apply deref_Ret. by apply (rf_slot _ _ _ H i). Qed.

(** ** The list-level operations *)

(** The insertion point found by scanning from the right. *)
Fixpoint scan_list (l : list TCP) (seq : Z) (n : nat) : option Z :=
  match n with
  | O => Some 0
  | S n' =>
      match l !! n' with
      | None => Some 0
      | Some q =>
          if compareTCPSeq (Seq q) seq =? 0 then None
          else if compareTCPSeq (Seq q) seq <? 0 then Some (Z.of_nat n)
          else scan_list l seq n'
      end
  end.

Definition insert_list (expect : Z) (l : list TCP) (p : TCP) : list TCP :=
  if negb (expect =? 0) && (0 <=? compareTCPSeq expect (seq_end p)) then l
  else if len (Payload p) =? 0 then l
  else match scan_list l (Seq p) (length l) with
       | None => l
       | Some i => ztake i l ++ p :: zdrop i l
       end.

Definition trimmed (expect : Z) (p : TCP) : option TCP :=
  if negb (expect =? 0) && (0 <? compareTCPSeq expect (Seq p)) then
    let dup := uint32 (expect - Seq p) in
    if uint32 (len (Payload p)) <=? dup then None
    else Some (set_Payload p (zdrop dup (Payload p)))
  else Some p.

(** What a confirmation sends, what it keeps, and the next expected byte. *)
Fixpoint confirm_list (ack expect : Z) (l : list TCP) : list TCP * list TCP * Z :=
  match l with
  | [] => ([], [], expect)
  | p :: l' =>
      if 0 <=? compareTCPSeq (Seq p) ack then ([], l, expect)
      else match trimmed expect p with
           | None => confirm_list ack expect l'
           | Some q => let '(d, r, e) := confirm_list ack (seq_end p) l' in (q :: d, r, e)
           end
  end.

Fixpoint send_all (c : chan) (ps : list TCP) : sched chan :=
  match ps with [] => Done c | p :: ps => c ← send c p; send_all c ps end.

(** ** Trimming never panics *)

Lemma trim_Ret e p : len (Payload p) < 2 ^ 32 → trim e p = Ret (trimmed e p).
Proof.
  intros Hl. unfold trim, trimmed.
  destruct (negb (e =? 0) && (0 <? compareTCPSeq e (Seq p))); [|done].
  pose proof (uint_range 32 (e - Seq p) ltac:(lia)) as Hd. fold uint32 in Hd.
  destruct (Z.ltb_spec (uint32 (e - Seq p)) 0); [lia|].
  destruct (Z.leb_spec (uint32 (len (Payload p))) (uint32 (e - Seq p))); [done|].
  assert (uint32 (len (Payload p)) = len (Payload p)) as Hu.
  { apply uint_small. pose proof (len_nonneg (Payload p)). lia. }
  rewrite Hu in *. rewrite sub_Ret by lia. simpl. do 3 f_equal.
  apply ztake_ge. rewrite len_zdrop. lia.
Qed.

(** ** [insert] *)

Lemma insert_scan_list w l seq n : rep w l → (n ≤ length l)%nat →
  insert_scan w seq n = Ret (scan_list l seq n).
Proof.
  intros Hr. induction n as [|n IH]; intros Hn; [done|].
  cbn [insert_scan scan_list].
  destruct (lookup_lt_is_Some_2 l n) as [q Hq]; [lia|].
  rewrite (rep_deref w l (Z.of_nat (S n) - 1) q Hr).
  2:{ rewrite znth_nonneg by lia. by replace (Z.to_nat (Z.of_nat (S n) - 1)) with n by lia. }
  simpl. rewrite Hq. destruct (_ =? 0); [done|]. destruct (_ <? 0); [done|].
  apply IH. lia.
Qed.

Lemma scan_list_range l seq n i : (n ≤ length l)%nat → scan_list l seq n = Some i → 0 ≤ i ≤ len l.
Proof.
  induction n as [|n IH]; intros Hn; cbn [scan_list].
  - intros [= <-]. pose proof (len_nonneg l). lia.
  - destruct (l !! n); [|intros [= <-]; pose proof (len_nonneg l); lia].
    destruct (_ =? 0); [discriminate|]. destruct (_ <? 0); [|intros; apply IH; auto; lia].
    intros [= <-]. unlen. lia.
Qed.

(** The shifting loop moves the slots from [idx] to [idx + n] one to the
    right and leaves the others alone. *)
Lemma insert_shift_spec w idx n :
  ring_ok w → 0 ≤ idx → idx + Z.of_nat n < len (buffer w) →
  ∃ b, insert_shift w idx n = Ret (mkWindow (size w) (start w) b (lastAck w) (expectBegin w)) ∧
    len b = len (buffer w) ∧
    ∀ j, 0 ≤ j < len (buffer w) →
      ring b (start w) j =
        if (idx <? j) && (j <=? idx + Z.of_nat n) then ring (buffer w) (start w) (j - 1)
        else ring (buffer w) (start w) j.
Proof.
  revert w. induction n as [|n IH]; intros w [Hl Hs] Hi Hn.
  - exists (buffer w). destruct w; cbn -[Z.of_nat].
    split_and!; [done..|]. intros j Hj.
    destruct (Z.ltb_spec idx j), (Z.leb_spec j (idx + Z.of_nat 0)); cbn [andb]; done || lia.

  - cbn [insert_shift].
    destruct (ring (buffer w) (start w) (idx + Z.of_nat n)) as [o|] eqn:Ho.
    2:{ unfold ring in Ho. apply znth_None in Ho.
        pose proof (Z.mod_pos_bound (idx + Z.of_nat n + start w) (len (buffer w)) Hl). lia. }
    rewrite (slot_Ret _ _ _ Ho). simpl. rewrite set_slot_Ret by done. simpl.
    set (w1 := mkWindow _ _ (ring_set _ _ _ _) _ _).
    destruct (IH w1) as (b & -> & Hlb & Hb); subst w1; simpl in *.
    { split; cbn [buffer start]; rewrite ring_set_len; lia. }
    { lia. } { rewrite ring_set_len; lia. }
    rewrite !ring_set_len in *. exists b. split_and!; [done..|]. intros j Hj.
    rewrite (Hb j Hj).
    destruct (Z.ltb_spec idx j), (Z.leb_spec j (idx + Z.of_nat n)),
      (Z.leb_spec j (idx + Z.of_nat (S n))); simpl; try lia.
    + rewrite ring_set_ne by lia. done.
    + replace j with (idx + Z.of_nat n + 1) by lia. rewrite ring_set_eq by lia.
      rewrite <-Ho. f_equal. lia.
    + rewrite ring_set_ne by lia. done.
    + rewrite ring_set_ne by lia. done.
Qed.

(** ** [expand] keeps the contents and doubles the buffer *)

Lemma ring_small b s i : 0 ≤ i + s < len b → ring b s i = znth b (i + s).
Proof. intros. unfold ring. by rewrite Z.mod_small. Qed.

Lemma ring_wrap b s i : len b ≤ i + s < 2 * len b → ring b s i = znth b (i + s - len b).
Proof.
  intros. unfold ring. f_equal.
  replace (i + s) with ((i + s - len b) + 1 * len b) by lia.
  rewrite Z.mod_add by lia. rewrite Z.mod_small; lia.
Qed.

Lemma expand_buffer (w : receiveWindow) (l : list TCP) : rep w l →
  ∃ b, expand w = Ret (mkWindow (size w) 0 b (lastAck w) (expectBegin w)) ∧
    len b = 2 * len (buffer w) ∧
    ∀ i, 0 ≤ i < size w → znth b i = ring (buffer w) (start w) i.
Proof.
  intros [[Hl Hs] _ Hsz Hcap _]. rewrite Z.add_0_l in Hsz. pose proof (len_nonneg l).
  unfold expand. set (n := len (buffer w)) in *.
  assert (len (replicate (Z.to_nat (n * 2)) (@None TCP)) = 2 * n) as Hrep
    by (rewrite len_replicate; lia).
  destruct (Z.ltb_spec (start w + size w) n).
  - rewrite sub_Ret by lia. simpl. eexists; split; [done|].
    rewrite gcopy_le by (len_simpl; lia). split; [len_simpl; lia|].
    intros i Hi. rewrite znth_app_l by (len_simpl; lia).
    rewrite znth_ztake, znth_zdrop by lia. rewrite ring_small by lia. f_equal. lia.
  - rewrite (sub_Ret (buffer w) (start w) n) by lia. simpl.
    assert (ztake (n - start w) (zdrop (start w) (buffer w)) = zdrop (start w) (buffer w)) as ->
      by (apply ztake_ge; len_simpl; lia).
    rewrite (gcopy_le (replicate _ _)) by (len_simpl; lia).
    set (src := zdrop (start w) (buffer w)).
    assert (len src = n - start w) as Hsrc by (unfold src; len_simpl; lia).
    rewrite (sub_Ret (buffer w) 0) by lia. simpl.
    rewrite sub_Ret by (len_simpl; lia). simpl.
    eexists; split; [done|].
    rewrite ztake_app_eq by lia. rewrite (zdrop_app_eq (n - start w)) by lia.
    rewrite (zdrop_nonpos 0) by lia.
    rewrite gcopy_le by (len_simpl; lia).
    split; [len_simpl; lia|]. intros i Hi.
    destruct (Z.lt_ge_cases i (n - start w)).
    + rewrite znth_app_l by lia. unfold src. rewrite znth_zdrop by lia.
      rewrite ring_small by lia. f_equal. lia.
    + rewrite znth_app_r by lia. rewrite znth_app_l by (len_simpl; lia).
      rewrite znth_ztake by lia. rewrite ring_wrap by lia. f_equal. lia.
Qed.

Lemma expand_rep w l : rep w l →
  ∃ w', expand w = Ret w' ∧ rep w' l ∧ len (buffer w') = 2 * len (buffer w) ∧
    lastAck w' = lastAck w ∧ expectBegin w' = expectBegin w.
Proof.
  intros Hr. destruct (expand_buffer w l Hr) as (b & -> & Hlb & Hb).
  destruct Hr as [[Hl Hs] Hi Hsz Hcap Hsl].
  eexists; split; [done|]. simpl. split_and!; try done.
  split; simpl; try done; [split; simpl; lia|lia|].
  intros i p Hp. assert (0 ≤ i < len l) by (apply znth_Some; eauto).
  rewrite ring_small by lia. rewrite Z.add_0_l, Z.add_0_r, Hb by lia.
  by apply (Hsl i p).
Qed.

(** ** [insert] refines [insert_list] *)

(** Placing a packet at [idx] in a ring that has room. *)
Lemma place_rep w l p idx : rep w l → 0 ≤ idx ≤ len l → size w < len (buffer w) →
  ∃ w', (w1 ← insert_shift w idx (Z.to_nat (size w - idx));
         w2 ← set_slot w1 idx (Some p);
         Ret (set_size w2 (size w2 + 1))) = Ret w' ∧
    rep w' (ztake idx l ++ p :: zdrop idx l) ∧ len (buffer w') = len (buffer w) ∧
    lastAck w' = lastAck w ∧ expectBegin w' = expectBegin w.
Proof.
  intros [Hok _ Hsz Hcap Hsl] Hidx Hroom. rewrite Z.add_0_l in Hsz.
  destruct (insert_shift_spec w idx (Z.to_nat (size w - idx)) Hok) as (b & -> & Hlb & Hb);
    [lia..|]. destruct Hok as [Hl Hs].
  cbn [mbind go_bind]. rewrite set_slot_Ret by (simpl; lia). simpl.
  eexists; split; [done|]. simpl. rewrite ring_set_len.
  split_and!; [|lia|done..]. split; simpl; rewrite ?ring_set_len.
  - split; simpl; rewrite ?ring_set_len; lia.
  - lia.
  - len_simpl. lia.
  - lia.
  - intros i q Hq. rewrite Z.add_0_l.
    assert (0 ≤ i < len l + 1) as Hi.
    { apply mk_is_Some in Hq. apply znth_Some in Hq. len_simpl. lia. }
    destruct (Z.eq_dec i idx) as [->|Hne].
    + rewrite ring_set_eq by lia. rewrite znth_app_r in Hq by (len_simpl; lia).
      replace (idx - len (ztake idx l)) with 0 in Hq by (len_simpl; lia).
      rewrite znth_0 in Hq. congruence.
    + rewrite ring_set_ne by lia. rewrite Hb by lia.
      destruct (Z.ltb_spec idx i), (Z.leb_spec i (idx + Z.of_nat (Z.to_nat (size w - idx)))); simpl; try lia.
      * apply (Hsl (i - 1)). rewrite znth_app_r in Hq by (len_simpl; lia).
        replace (p :: zdrop idx l) with ([p] ++ zdrop idx l) in Hq by done.
        rewrite znth_app_r in Hq by (len_simpl; lia).
        rewrite znth_zdrop in Hq by (len_simpl; lia). rewrite <-Hq. f_equal. len_simpl. lia.
      * apply (Hsl i). rewrite znth_app_l in Hq by (len_simpl; lia).
        by rewrite znth_ztake in Hq by lia.
Qed.

Lemma insert_rep w l p : rep w l →
  ∃ w', insert w p = Ret w' ∧ rep w' (insert_list (expectBegin w) l p) ∧
    lastAck w' = lastAck w ∧ expectBegin w' = expectBegin w ∧
    len (buffer w) ≤ len (buffer w').
Proof.
  intros Hr. pose proof Hr as [_ _ Hsz Hcap _]. rewrite Z.add_0_l in Hsz.
  unfold insert, insert_list.
  destruct (negb (expectBegin w =? 0) && (0 <=? compareTCPSeq (expectBegin w) (seq_end p)));
    [exists w; split_and!; done || lia|].
  destruct (len (Payload p) =? 0); [exists w; split_and!; done || lia|].
  replace (Z.to_nat (size w)) with (length l) by (unlen; lia).
  rewrite (insert_scan_list w l) by done. cbn [mbind go_bind].
  destruct (scan_list l (Seq p) (length l)) as [idx|] eqn:Hscan;
    [|exists w; split_and!; done || lia].
  apply scan_list_range in Hscan; [|lia].
  assert (∃ w1, (if size w =? len (buffer w) then expand w else Ret w) = Ret w1 ∧ rep w1 l ∧
    size w1 < len (buffer w1) ∧ len (buffer w) ≤ len (buffer w1) ∧ size w1 = size w ∧
    lastAck w1 = lastAck w ∧ expectBegin w1 = expectBegin w) as
    (w1 & -> & Hr1 & Hroom & Hmono & Hsz1 & <- & <-).
  { destruct (Z.eqb_spec (size w) (len (buffer w))).
    - destruct (expand_rep w l Hr) as (w1 & -> & Hr1 & Hlb & Hla & He).
      pose proof (ring_len _ (rf_ok _ _ _ Hr)).
      pose proof (rf_size _ _ _ Hr1). exists w1. split_and!; done || lia.
    - exists w. split_and!; done || lia. }
  cbn [mbind go_bind].
  destruct (place_rep w1 l p idx Hr1 Hscan Hroom) as (w' & Heq & Hr' & Hlb & Hla & He).
  exists w'. split; [|split_and!; done || lia]. rewrite <-Heq.
  destruct (Z.eqb_spec idx (size w1)) as [->|]; [|by destruct (insert_shift _ _ _)].
  rewrite Z.sub_diag. done.
Qed.

(** ** [confirm] refines [confirm_list] *)

Lemma rep_from_head w idx p l : rep_from w idx (p :: l) → deref w idx = Ret p.
Proof.
  intros H. apply deref_Ret. rewrite <-(Z.add_0_r idx). by apply (rf_slot _ _ _ H).
Qed.

Lemma rep_from_clear w idx p l : rep_from w idx (p :: l) →
  ∃ b, set_slot w idx None = Ret (mkWindow (size w) (start w) b (lastAck w) (expectBegin w)) ∧
    len b = len (buffer w) ∧
    ∀ la e, rep_from (mkWindow (size w) (start w) b la e) (idx + 1) l.
Proof.
  intros [[Hl Hs] Hi Hsz Hcap Hsl]. rewrite len_cons in Hsz. pose proof (len_nonneg l).
  rewrite set_slot_Ret by done. eexists; split; [done|]. rewrite ring_set_len.
  split; [done|]. intros la e. split; simpl; rewrite ?ring_set_len; try lia.
  - split; simpl; rewrite ?ring_set_len; lia.
  - intros i q Hq. pose proof (proj1 (znth_Some l i) ltac:(eauto)).
    rewrite ring_set_ne by lia. replace (idx + 1 + i) with (idx + (1 + i)) by lia.
    apply Hsl. rewrite <-Hq. replace (p :: l) with ([p] ++ l) by done.
    rewrite znth_app_r by (len_simpl; lia). f_equal. len_simpl. lia.
Qed.

Lemma confirm_loop_rep ack l : ∀ w idx,
  rep_from w idx l → Forall (λ p, len (Payload p) < 2 ^ 32) l →
  let '(d, r, e) := confirm_list ack (expectBegin w) l in
  ∃ idx' b,
    (∀ c, confirm_loop ack (length l) idx w c =
      (c' ← send_all c d;
       Done (idx', mkWindow (size w) (start w) b (lastAck w) e, c'))) ∧
    len b = len (buffer w) ∧
    rep_from (mkWindow (size w) (start w) b (lastAck w) e) idx' r.
Proof.
  induction l as [|p l IH]; intros w idx Hr Hp; cbn [confirm_list].
  { exists idx, (buffer w). destruct w; simpl in *. done. }
  inversion Hp as [|? ? Hlen Hp']; subst. cbn [length confirm_loop].
  rewrite (rep_from_head _ _ _ _ Hr). cbn [run mbind sched_bind].
  destruct (0 <=? compareTCPSeq (Seq p) ack).
  { exists idx, (buffer w). destruct w; simpl in *. done. }
  destruct (rep_from_clear _ _ _ _ Hr) as (b & -> & Hlb & Hb). cbn [run mbind sched_bind].
  simpl. rewrite trim_Ret by done. cbn [run mbind sched_bind].
  destruct (trimmed (expectBegin w) p) as [q|].
  - pose proof (IH (set_expect (mkWindow (size w) (start w) b (lastAck w) (expectBegin w))
      (seq_end p)) (idx + 1) (Hb _ _) Hp') as IH1. simpl in IH1.
    destruct (confirm_list ack (seq_end p) l) as [[d r] e]. cbn [send_all].
    destruct IH1 as (idx' & b' & Heq & Hlb' & Hr').
    exists idx', b'. split; [|split; [lia|done]]. intros c.
    destruct (send c q) as [c1| |]; cbn [mbind sched_bind]; [|done..]. apply Heq.
  - pose proof (IH (mkWindow (size w) (start w) b (lastAck w) (expectBegin w))
      (idx + 1) (Hb _ _) Hp') as IH1. simpl in IH1.
    destruct (confirm_list ack (expectBegin w) l) as [[d r] e].
    destruct IH1 as (idx' & b' & Heq & Hlb' & Hr').
    exists idx', b'. split; [|split; [lia|done]]. intros c. apply Heq.
Qed.

(** Moving [start] past the confirmed slots. *)
Lemma rep_advance w idx l la : rep_from w idx l →
  rep (mkWindow (size w - idx) ((start w + idx) mod len (buffer w)) (buffer w) la (expectBegin w)) l.
Proof.
  intros [[Hl Hs] Hi Hsz Hcap Hsl]. split; simpl; try lia.
  - split; simpl; [done|by apply Z.mod_pos_bound].
  - intros i p Hp. rewrite <-(Hsl i p Hp). unfold ring. f_equal.
    rewrite Zplus_mod_idemp_r. f_equal. lia.
Qed.

(** [confirm] sends exactly what the list-level confirmation sends, in order,
    and keeps what it keeps; it panics or is suspended only in a send. *)
Lemma confirm_rep w l ack :
  rep w l → Forall (λ p, len (Payload p) < 2 ^ 32) l →
  let '(d, r, e) := confirm_list ack (expectBegin w) l in
  ∃ w', (∀ c, confirm w ack c = (c' ← send_all c d; Done (w', c'))) ∧
    rep w' r ∧ expectBegin w' = e ∧ len (buffer w') = len (buffer w).
Proof.
  intros Hr Hp. pose proof (confirm_loop_rep ack l w 0 Hr Hp) as Hl.
  destruct (confirm_list ack (expectBegin w) l) as [[d r] e].
  destruct Hl as (idx' & b & Heq & Hlb & Hr').
  eexists. split.
  - intros c. unfold confirm. replace (Z.to_nat (size w)) with (length l)
      by (pose proof (rf_size _ _ _ Hr) as Hsz; rewrite len_length in Hsz; lia).
    rewrite Heq. destruct (send_all c d); reflexivity.
  - split; [|done]. apply (rep_advance _ _ _ _ Hr').
Qed.
