(* ===== verification/WindowOrder.v ===== *)
(** * Order and completeness of what the receive window delivers

    Over the list-level window of WindowRing: comparison of sequence numbers
    away from the wrap-around, sortedness, in-order exactly-once delivery and
    reassembly of a stream whose segments arrive in any order. *)

From stdpp Require Import sorting.
From S2P Require Import Prelude GoBytes Window WindowRing.

(** ** Comparison of sequence numbers *)

(** Both numbers on the same side of the two wrap zones. *)
Lemma compare_plain a b : 0 ≤ a ≤ maxTCPSeq → 0 ≤ b ≤ maxTCPSeq →
  ¬ (a < tcpSeqWindow ∧ maxTCPSeq - tcpSeqWindow < b) →
  ¬ (b < tcpSeqWindow ∧ maxTCPSeq - tcpSeqWindow < a) →
  compareTCPSeq a b = int32 (a - b).
Proof.
  intros Ha Hb H1 H2. unfold compareTCPSeq.
  destruct (Z.ltb_spec a tcpSeqWindow), (Z.ltb_spec (maxTCPSeq - tcpSeqWindow) b),
    (Z.ltb_spec b tcpSeqWindow), (Z.ltb_spec (maxTCPSeq - tcpSeqWindow) a);
    cbn [andb]; try lia; apply sint_uint; lia.
Qed.

(** [a] just after the wrap, [b] just before it. *)
Lemma compare_after_wrap a b : 0 ≤ a < tcpSeqWindow → maxTCPSeq - tcpSeqWindow < b ≤ maxTCPSeq →
  compareTCPSeq a b = a + maxTCPSeq - b.
Proof.
  intros Ha Hb. unfold compareTCPSeq.
  destruct (Z.ltb_spec a tcpSeqWindow), (Z.ltb_spec (maxTCPSeq - tcpSeqWindow) b);
    cbn [andb]; try lia.
  unfold uint32, uint. rewrite Zminus_mod_idemp_l.
  apply Z.mod_small. unfold maxTCPSeq, tcpSeqWindow in *. lia.
Qed.

(** [a] just before the wrap, [b] just after it: the uint32 difference is
    converted to int as it is. *)
Lemma compare_before_wrap a b : maxTCPSeq - tcpSeqWindow < a ≤ maxTCPSeq → 0 ≤ b < tcpSeqWindow →
  compareTCPSeq a b = if (a =? maxTCPSeq) && (b =? 0) then 0 else a - b + 1.
Proof.
  intros Ha Hb. unfold compareTCPSeq.
  destruct (Z.ltb_spec a tcpSeqWindow); [unfold maxTCPSeq, tcpSeqWindow in *; lia|].
  destruct (Z.ltb_spec b tcpSeqWindow), (Z.ltb_spec (maxTCPSeq - tcpSeqWindow) a);
    cbn [andb]; try lia.
  unfold uint32, uint. rewrite Zminus_mod_idemp_r.
  replace (a - (maxTCPSeq + b)) with (a - b + 1 + (-1) * 2 ^ 32) by (unfold maxTCPSeq; lia).
  rewrite Z.mod_add by lia.
  destruct (Z.eqb_spec a maxTCPSeq), (Z.eqb_spec b 0); cbn [andb]; subst;
    unfold maxTCPSeq, tcpSeqWindow in *; try (apply Z.mod_small; lia). done.
Qed.

(** A range of sequence numbers that stays clear of the wrap zones. *)
Definition clear_range (lo hi : Z) : Prop :=
  tcpSeqWindow ≤ lo ∧ hi ≤ maxTCPSeq ∧ hi - lo < 2 ^ 31.

Lemma compare_clear lo hi a b : clear_range lo hi → lo ≤ a ≤ hi → lo ≤ b ≤ hi →
  compareTCPSeq a b = a - b.
Proof.
  intros (Hlo & Hhi & Hs) Ha Hb. unfold tcpSeqWindow in *.
  rewrite compare_plain by (unfold tcpSeqWindow; lia).
  apply sint_small; lia.
Qed.

(** ** The sorted list of pending packets *)

Notation sorted := (StronglySorted (λ p q, Seq p < Seq q)).

(** Insertion by sequence number; a packet with a known number is dropped. *)
Fixpoint sorted_insert (l : list TCP) (p : TCP) : list TCP :=
  match l with
  | [] => [p]
  | q :: l' =>
      if Seq q <? Seq p then q :: sorted_insert l' p
      else if Seq q =? Seq p then l else p :: l
  end.

Lemma sorted_insert_in l p q : q ∈ sorted_insert l p → q = p ∨ q ∈ l.
Proof.
  induction l as [|r l IH]; simpl; [set_solver|].
  destruct (Seq r <? Seq p); [set_solver|]. destruct (Seq r =? Seq p); set_solver.
Qed.

Lemma sorted_insert_keeps l p q : q ∈ l → q ∈ sorted_insert l p.
Proof.
  induction l as [|r l IH]; simpl; [set_solver|].
  destruct (Seq r <? Seq p); [set_solver|]. destruct (Seq r =? Seq p); set_solver.
Qed.

Lemma sorted_insert_has l p : ∃ q, q ∈ sorted_insert l p ∧ Seq q = Seq p.
Proof.
  induction l as [|r l (q & Hq & Hs)]; simpl; [exists p; set_solver|].
  destruct (Z.ltb_spec (Seq r) (Seq p)); [exists q; set_solver|].
  destruct (Z.eqb_spec (Seq r) (Seq p)); [exists r; set_solver|exists p; set_solver].
Qed.

Lemma sorted_insert_sorted l p : sorted l → sorted (sorted_insert l p).
Proof.
  induction 1 as [|r l Hl IH Hr]; simpl; [repeat constructor|].
  rewrite List.Forall_forall in Hr.
  destruct (Z.ltb_spec (Seq r) (Seq p)).
  - constructor; [done|]. apply List.Forall_forall. intros q Hq.
    apply list_elem_of_In, sorted_insert_in in Hq as [->|Hq]; [done|].
    by apply Hr, list_elem_of_In.
  - destruct (Z.eqb_spec (Seq r) (Seq p)).
    + constructor; [done|]. by apply List.Forall_forall.
    + constructor.
      * constructor; [done|]. by apply List.Forall_forall.
      * constructor; [lia|]. apply List.Forall_forall. intros q Hq. specialize (Hr q Hq). lia.
Qed.

Lemma sorted_insert_split l1 l2 p :
  (∀ q, q ∈ l1 → Seq q < Seq p) → (∀ q, q ∈ l2 → Seq p < Seq q) →
  sorted_insert (l1 ++ l2) p = l1 ++ p :: l2.
Proof.
  intros H1 H2. induction l1 as [|r l1 IH]; simpl.
  - destruct l2 as [|r l2]; [done|]. simpl. specialize (H2 r ltac:(set_solver)).
    destruct (Z.ltb_spec (Seq r) (Seq p)); [lia|].
    destruct (Z.eqb_spec (Seq r) (Seq p)); [lia|done].
  - specialize (H1 r ltac:(set_solver)) as Hr.
    destruct (Z.ltb_spec (Seq r) (Seq p)); [|lia]. f_equal. apply IH. set_solver.
Qed.

Lemma sorted_insert_dup l p q : sorted l → q ∈ l → Seq q = Seq p → sorted_insert l p = l.
Proof.
  induction 1 as [|r l Hl IH Hr]; simpl; [set_solver|]. intros Hq Hs.
  rewrite List.Forall_forall in Hr.
  apply elem_of_cons in Hq as [->|Hq].
  - rewrite Hs. destruct (Z.ltb_spec (Seq p) (Seq p)); [lia|].
    destruct (Z.eqb_spec (Seq p) (Seq p)); [done|lia].
  - specialize (Hr q ltac:(by apply list_elem_of_In)).
    destruct (Z.ltb_spec (Seq r) (Seq p)); [|lia]. f_equal. by apply IH.
Qed.

Section clear.
Context (lo hi : Z) (Hclear : clear_range lo hi).

Definition in_range (p : TCP) : Prop := lo ≤ Seq p ∧ Seq p + len (Payload p) ≤ hi.

Lemma in_range_seq p : in_range p → lo ≤ Seq p ≤ hi.
Proof. intros [? ?]. pose proof (len_nonneg (Payload p)). lia. Qed.

Lemma seq_end_range p : in_range p → seq_end p = Seq p + len (Payload p).
Proof.
  intros [H1 H2]. pose proof (len_nonneg (Payload p)).
  destruct Hclear as (Hlo & Hhi & _). unfold tcpSeqWindow, maxTCPSeq in *.
  unfold seq_end, uint32. rewrite (uint_small 32 (len _)) by lia.
  apply uint_small. lia.
Qed.

Lemma compare_range a b : lo ≤ a ≤ hi → lo ≤ b ≤ hi → compareTCPSeq a b = a - b.
Proof. by apply compare_clear. Qed.

(** The scan from the right splits a sorted list at the packet's place. *)
Lemma scan_list_sorted l p n : sorted l → Forall in_range l → in_range p → (n ≤ length l)%nat →
  match scan_list l (Seq p) n with
  | None => ∃ q, q ∈ l ∧ Seq q = Seq p
  | Some i => (∀ q, q ∈ ztake i l → Seq q < Seq p) ∧
              (∀ j q, i ≤ Z.of_nat j < Z.of_nat n → l !! j = Some q → Seq p < Seq q)
  end.
Proof.
  intros Hs Hl Hp. rewrite Forall_forall in Hl. apply in_range_seq in Hp.
  induction n as [|n IH]; intros Hn; cbn [scan_list].
  { split; [|lia]. intros q. rewrite ztake_nonpos by lia. set_solver. }
  destruct (lookup_lt_is_Some_2 l n) as [q Hq]; [lia|]. rewrite Hq.
  pose proof (in_range_seq q (Hl q (list_elem_of_lookup_2 _ _ _ Hq))) as Hrq.
  rewrite compare_range by lia.
  destruct (Z.eqb_spec (Seq q - Seq p) 0).
  { exists q. split; [by eapply list_elem_of_lookup_2|lia]. }
  destruct (Z.ltb_spec (Seq q - Seq p) 0).
  - split; [|lia]. intros r Hr. unfold ztake in Hr. rewrite Nat2Z.id in Hr.
    rewrite (take_S_r l n q Hq) in Hr. apply elem_of_app in Hr as [Hr|Hr].
    + assert (Seq r < Seq q); [|lia].
      rewrite <-(take_drop_middle l n q Hq) in Hs.
      apply (StronglySorted_app_1_elem_of _ _ _ r q Hs Hr). set_solver.
    + apply list_elem_of_singleton in Hr as ->. lia.
  - specialize (IH ltac:(lia)). destruct (scan_list l (Seq p) n) as [i|]; [|done].
    destruct IH as [IH1 IH2]. split; [done|]. intros j r Hj Hr.
    destruct (decide (j = n)) as [->|]; [|apply (IH2 j); [lia|done]].
    assert (r = q) as -> by congruence. lia.
Qed.

Lemma insert_list_sorted e l p : sorted l → Forall in_range l → in_range p →
  0 < len (Payload p) → e = 0 ∨ lo ≤ e ≤ hi →
  insert_list e l p =
    if negb (e =? 0) && (Seq p + len (Payload p) <=? e) then l else sorted_insert l p.
Proof.
  intros Hs Hl Hp Hlen He. unfold insert_list.
  destruct (Z.eqb_spec (len (Payload p)) 0); [lia|].
  assert ((negb (e =? 0) && (0 <=? compareTCPSeq e (seq_end p))) =
          (negb (e =? 0) && (Seq p + len (Payload p) <=? e))) as ->.
  { destruct (Z.eqb_spec e 0); [done|]. cbn [negb andb].
    destruct He; [lia|]. destruct (in_range_seq p Hp), Hp.
    rewrite seq_end_range, compare_range by (try split; lia).
    destruct (Z.leb_spec 0 (e - (Seq p + len (Payload p)))),
      (Z.leb_spec (Seq p + len (Payload p)) e); try lia; done. }
  destruct (_ && _); [done|].
  pose proof (scan_list_sorted l p (length l) Hs Hl Hp ltac:(lia)) as Hscan.
  destruct (scan_list l (Seq p) (length l)) as [i|].
  - destruct Hscan as [H1 H2]. rewrite <-(ztake_zdrop i l) at 3.
    rewrite sorted_insert_split; [done|done|]. intros q Hq.
    unfold zdrop in Hq. apply list_elem_of_lookup in Hq as [j Hj].
    rewrite lookup_drop in Hj. apply (H2 (Z.to_nat i + j)%nat q); [|done].
    apply lookup_lt_Some in Hj. lia.
  - destruct Hscan as (q & Hq & Heq). by rewrite (sorted_insert_dup l p q).
Qed.
End clear.

(** ** Delivery of a byte stream

    [S] is the stream one endpoint sends, [isn] the sequence number of its
    first byte. *)
Section stream.
Context (S : list byte) (isn : Z).
Context (Hclear : clear_range isn (isn + len S)).
Abbreviation hi := (isn + len S).

(** The bytes with sequence numbers [a .. a + n - 1]. *)
Definition bytes_at (a n : Z) : list byte := ztake n (zdrop (a - isn) S).

(** A packet that carries a non-empty part of the stream. *)
Record segment (p : TCP) : Prop := {
  sg_lo : isn ≤ Seq p;
  sg_hi : Seq p + len (Payload p) ≤ hi;
  sg_ne : 0 < len (Payload p);
  sg_bytes : Payload p = bytes_at (Seq p) (len (Payload p));
}.

Definition expect_ok (e : Z) : Prop := e = 0 ∨ isn ≤ e ≤ hi.

(** [delivered_at a d b]: the payloads of [d] are parts of the stream at
    increasing, disjoint places, none before [a] and the last one ending at
    [b]. *)
Inductive delivered_at : Z → list TCP → Z → Prop :=
| delivered_nil a : delivered_at a [] a
| delivered_cons a q d m b :
    a ≤ m → isn ≤ m → m + len (Payload q) ≤ hi → 0 < len (Payload q) →
    Payload q = bytes_at m (len (Payload q)) →
    delivered_at (m + len (Payload q)) d b →
    delivered_at a (q :: d) b.

Lemma delivered_app a d1 b d2 c :
  delivered_at a d1 b → delivered_at b d2 c → delivered_at a (d1 ++ d2) c.
Proof. induction 1; simpl; [done|]. intros. econstructor; eauto. Qed.

Lemma segment_range p : segment p → in_range isn hi p.
Proof. intros []. by split. Qed.

Lemma segment_small p : segment p → len (Payload p) < 2 ^ 32.
Proof.
  intros [H1 H2 _ _]. destruct Hclear as (Hlo & Hhi & _).
  unfold tcpSeqWindow, maxTCPSeq in *. lia.
Qed.

Lemma bytes_at_len a n : isn ≤ a → 0 ≤ n → a + n ≤ hi → len (bytes_at a n) = n.
Proof. intros. unfold bytes_at. len_simpl. lia. Qed.

Lemma bytes_at_drop a n k : isn ≤ a → 0 ≤ k ≤ n →
  zdrop k (bytes_at a n) = bytes_at (a + k) (n - k).
Proof.
  intros. unfold bytes_at, ztake, zdrop.
  rewrite skipn_firstn_comm, drop_drop. f_equal; [lia|f_equal; lia].
Qed.

Lemma bytes_at_app a n k : isn ≤ a → 0 ≤ n → 0 ≤ k →
  bytes_at a n ++ bytes_at (a + n) k = bytes_at a (n + k).
Proof.
  intros. unfold bytes_at, ztake, zdrop.
  replace (Z.to_nat (a + n - isn)) with (Z.to_nat (a - isn) + Z.to_nat n)%nat by lia.
  rewrite <-drop_drop, take_take_drop. f_equal. lia.
Qed.

(** What trimming does to a segment of the stream. *)
Lemma trimmed_segment e p : expect_ok e → segment p →
  match trimmed e p with
  | None => e ≠ 0 ∧ Seq p + len (Payload p) ≤ e
  | Some q => ∃ m, m = Z.max e (Seq p) ∧
      m + len (Payload q) = Seq p + len (Payload p) ∧ 0 < len (Payload q) ∧
      Payload q = bytes_at m (len (Payload q))
  end.
Proof.
  intros He Hp. pose proof Hp as [H1 H2 H3 H4]. unfold trimmed.
  destruct Hclear as (Hlo & Hhi & Hspan). unfold tcpSeqWindow, maxTCPSeq in *.
  destruct (Z.eqb_spec e 0) as [->|Hne]; cbn [negb andb].
  { exists (Seq p). split_and!; [lia|lia|lia|done]. }
  destruct He as [|He]; [lia|].
  rewrite (compare_range isn hi) by (done || lia).
  destruct (Z.ltb_spec 0 (e - Seq p)).
  - unfold uint32. rewrite !uint_small by lia.
    destruct (Z.leb_spec (len (Payload p)) (e - Seq p)); [lia|].
    exists e. cbn [Payload set_Payload].
    split_and!; [lia|len_simpl; lia|len_simpl; lia|].
    rewrite H4 at 1. rewrite bytes_at_drop by lia. f_equal; [lia|].
    len_simpl. lia.
  - exists (Seq p). split_and!; [lia|lia|lia|done].
Qed.

(** One confirmation delivers parts of the stream in order, never a byte
    that was delivered before. *)
Lemma confirm_list_delivered ack l : ∀ e, Forall segment l → expect_ok e →
  let '(d, r, e') := confirm_list ack e l in
  delivered_at e d e' ∧ expect_ok e' ∧ Forall segment r ∧ len d + len r ≤ len l.
Proof.
  induction l as [|p l IH]; intros e Hl He; cbn [confirm_list].
  { split_and!; [constructor|done|done|len_simpl; lia]. }
  inversion Hl as [|? ? Hp Hl']; subst.
  destruct (0 <=? compareTCPSeq (Seq p) ack).
  { split_and!; [constructor|done|done|len_simpl; lia]. }
  pose proof (trimmed_segment e p He Hp) as Ht. pose proof Hp as [H1 H2 H3 _].
  destruct (trimmed e p) as [q|].
  - destruct Ht as (m & Hm & Hend & Hq & Hb).
    rewrite (seq_end_range isn hi Hclear p (segment_range p Hp)).
    specialize (IH (Seq p + len (Payload p)) Hl' ltac:(right; lia)).
    destruct (confirm_list ack (Seq p + len (Payload p)) l) as [[d r] e'].
    destruct IH as (Hd & He' & Hr & Hlen). split_and!; [|done|done|len_simpl; lia].
    apply (delivered_cons _ _ _ m); [lia|lia|lia|done|done|]. by rewrite Hend.
  - specialize (IH e Hl' He). destruct (confirm_list ack e l) as [[d r] e'].
    destruct IH as (Hd & He' & Hr & Hlen). split_and!; [done..|len_simpl; lia].
Qed.

(** The bytes a list of packets carries. *)
Definition payloads (d : list TCP) : list byte := concat (map Payload d).

(** [x] is the sequence number of a byte of [p]. *)
Definition covers (p : TCP) (x : Z) : Prop := Seq p ≤ x < Seq p + len (Payload p).

(** A sorted list without gaps is delivered as one contiguous part. *)
Lemma confirm_list_complete ack b l : ∀ e,
  sorted l → Forall segment l → isn ≤ e ≤ b → b ≤ hi → isn ≤ ack ≤ hi →
  (∀ p, p ∈ l → Seq p < ack ∧ Seq p + len (Payload p) ≤ b) →
  (∀ x, e ≤ x < b → ∃ p, p ∈ l ∧ covers p x) →
  let '(d, r, e') := confirm_list ack e l in
  payloads d = bytes_at e (b - e) ∧ r = [] ∧ e' = b.
Proof.
  destruct Hclear as (Hlo & Hhi & Hspan). unfold tcpSeqWindow, maxTCPSeq in *.
  induction l as [|p l IH]; intros e Hs Hl He Hb Hack Hend Hcov; cbn [confirm_list].
  { destruct (Z.eq_dec e b) as [->|].
    - split_and!; [|done|done]. unfold bytes_at. by rewrite ztake_nonpos by lia.
    - destruct (Hcov e ltac:(lia)) as (p & Hp & _). set_solver. }
  inversion Hs as [|? ? Hs' Hall]; inversion Hl as [|? ? Hp Hl']; subst.
  rewrite List.Forall_forall in Hall.
  pose proof Hp as [H1 H2 H3 _]. destruct (Hend p ltac:(set_solver)) as [Hpa Hpb].
  rewrite (compare_range isn hi) by (done || lia).
  destruct (Z.leb_spec 0 (Seq p - ack)); [lia|].
  assert (Seq p ≤ e) as Hpe.
  { destruct (Z.le_gt_cases (Seq p) e); [done|].
    destruct (Hcov e ltac:(lia)) as (q & Hq & [Hq1 Hq2]).
    apply elem_of_cons in Hq as [->|Hq]; [lia|].
    apply list_elem_of_In, Hall in Hq. lia. }
  assert (Hrest : ∀ x, Seq p + len (Payload p) ≤ x → e ≤ x < b → ∃ q, q ∈ l ∧ covers q x).
  { intros x Hx Hxb. destruct (Hcov x Hxb) as (q & Hq & Hqx).
    apply elem_of_cons in Hq as [->|Hq]; [destruct Hqx; lia|eauto]. }
  pose proof (trimmed_segment e p ltac:(right; lia) Hp) as Ht.
  destruct (trimmed e p) as [q|].
  - destruct Ht as (m & Hm & Hqe & Hq & Hqb).
    assert (m = e) as -> by lia.
    rewrite (seq_end_range isn hi Hclear p (segment_range p Hp)).
    specialize (IH (Seq p + len (Payload p)) Hs' Hl' ltac:(lia) Hb Hack
      ltac:(set_solver) ltac:(intros x Hx; apply Hrest; lia)).
    destruct (confirm_list ack (Seq p + len (Payload p)) l) as [[d r] e'].
    destruct IH as (Hd & -> & ->). split_and!; [|done|done].
    unfold payloads in *. cbn [map concat]. rewrite Hd, Hqb, <-Hqe.
    rewrite bytes_at_app by lia. f_equal. lia.
  - specialize (IH e Hs' Hl' He Hb Hack ltac:(set_solver)
      ltac:(intros x Hx; apply Hrest; lia)).
    destruct (confirm_list ack e l) as [[d r] e']. done.
Qed.
End stream.

(** ** Properties *)

Lemma insert_list_segments S isn e l p : Forall (segment S isn) l → segment S isn p →
  Forall (segment S isn) (insert_list e l p) ∧ len (insert_list e l p) ≤ len l + 1.
Proof.
  intros Hl Hp. unfold insert_list.
  destruct (_ && _); [split; [done|lia]|]. destruct (_ =? 0); [split; [done|lia]|].
  destruct (scan_list l (Seq p) (length l)) as [i|]; [|split; [done|lia]].
  split; [|len_simpl; pose proof (len_nonneg l); lia].
  rewrite <-(ztake_zdrop i l) in Hl. rewrite Forall_app in *. rewrite Forall_cons. tauto.
Qed.

(** C10. On the ring buffer, [insert] is insertion by sequence number into the
    sorted list the window represents: a packet whose bytes were already
    delivered or whose number is already pending changes nothing. *)
Theorem insert_refines_sorted (S : list byte) (isn : Z) (w : receiveWindow) (l : list TCP) (p : TCP)
  (Hclear : clear_range isn (isn + len S))
  (Hrep : rep w l) (Hsorted : sorted l) (Hl : Forall (segment S isn) l)
  (Hp : segment S isn p) (He : expect_ok S isn (expectBegin w)) :
  let l' := if negb (expectBegin w =? 0) && (Seq p + len (Payload p) <=? expectBegin w)
            then l else sorted_insert l p in
  ∃ w', insert w p = Ret w' ∧ rep w' l' ∧ sorted l' ∧ Forall (segment S isn) l' ∧
    expectBegin w' = expectBegin w ∧ lastAck w' = lastAck w.
Proof.
  destruct (insert_rep w l p Hrep) as (w' & Hw' & Hr' & Hla & He' & _).
  destruct (insert_list_segments S isn (expectBegin w) l p Hl Hp) as [Hl' _].
  rewrite (insert_list_sorted isn (isn + len S) Hclear) in Hr', Hl'; try done;
    try (by apply segment_range); try apply Hp;
    try (eapply Forall_impl; [exact Hl|by apply segment_range]).
  exists w'. split_and!; try done. destruct (_ && _); [done|by apply sorted_insert_sorted].
Qed.

(** C31. The complete behaviour of [compareTCPSeq] on 32-bit numbers: the
    serial-number difference away from the wrap zones; the distance minus one
    when the first number is just past the wrap; and, when the second one is,
    a result that is never negative.  In a range clear of the wrap zones it is
    the difference itself. *)
Theorem compareTCPSeq_spec (a b : Z) (Ha : 0 ≤ a ≤ maxTCPSeq) (Hb : 0 ≤ b ≤ maxTCPSeq) :
  (compareTCPSeq a b =
    if (a <? tcpSeqWindow) && (maxTCPSeq - tcpSeqWindow <? b) then a + 2 ^ 32 - b - 1
    else if (b <? tcpSeqWindow) && (maxTCPSeq - tcpSeqWindow <? a)
    then (if (a =? maxTCPSeq) && (b =? 0) then 0 else a - b + 1)
    else (a - b + 2 ^ 31) mod 2 ^ 32 - 2 ^ 31) ∧
  (∀ lo hi, clear_range lo hi → lo ≤ a ≤ hi → lo ≤ b ≤ hi → compareTCPSeq a b = a - b).
Proof.
  split; [|intros; by eapply compare_clear].
  destruct (Z.ltb_spec a tcpSeqWindow), (Z.ltb_spec (maxTCPSeq - tcpSeqWindow) b),
    (Z.ltb_spec b tcpSeqWindow), (Z.ltb_spec (maxTCPSeq - tcpSeqWindow) a); cbn [andb];
    try (rewrite compare_plain by lia; reflexivity);
    try (rewrite compare_after_wrap by lia; unfold maxTCPSeq; lia);
    rewrite compare_before_wrap by lia; reflexivity.
Qed.
