(* ===== verification/WindowRun.v ===== *)
(** * What a receive window delivers over a whole capture

    Sequences of [insert] and [confirm] calls on the ring buffer, with the
    properties of the receive window: sequence comparison, insertion,
    confirmation, in-order exactly-once delivery and reassembly. *)

From stdpp Require Import sorting.
From S2P Require Import Prelude GoBytes Window WindowRing WindowOrder.

(** A call made by the assembler on one direction of a connection. *)
Inductive op : Type :=
| OpInsert (p : TCP)
| OpConfirm (ack : Z).

Definition exec_op (o : op) (w : receiveWindow) (c : chan) : sched (receiveWindow * chan) :=
  match o with
  | OpInsert p => w ← run (insert w p); Done (w, c)
  | OpConfirm ack => confirm w ack c
  end.

Fixpoint exec (ops : list op) (w : receiveWindow) (c : chan) : sched (receiveWindow * chan) :=
  match ops with
  | [] => Done (w, c)
  | o :: ops => '(w, c) ← exec_op o w c; exec ops w c
  end.

Fixpoint inserts (ops : list op) : Z :=
  match ops with
  | [] => 0
  | OpInsert _ :: ops => 1 + inserts ops
  | OpConfirm _ :: ops => inserts ops
  end.

Lemma inserts_nonneg ops : 0 ≤ inserts ops.
Proof. induction ops as [|[] ops IH]; simpl; lia. Qed.

(** A channel after [d] has been sent. *)
Definition sent (c : chan) (d : list TCP) : chan := mkChan (queue c ++ d) (capacity c) false.

Lemma send_all_room d : ∀ c, chan_closed c = false → len (queue c) + len d ≤ capacity c →
  send_all c d = Done (sent c d).
Proof.
  induction d as [|q d IH]; intros [qu cap cl] Hcl Hroom; simpl in *; subst.
  { unfold sent. simpl. by rewrite app_nil_r. }
  len_simpl. pose proof (len_nonneg d). unfold send; simpl.
  destruct (Z.ltb_spec (len qu) cap); [|lia]. simpl.
  rewrite IH by (simpl; len_simpl; lia). unfold sent; simpl. by rewrite <-app_assoc.
Qed.

Lemma send_all_full d : ∀ c, chan_closed c = false → len (queue c) ≤ capacity c →
  capacity c < len (queue c) + len d → send_all c d = Blocked.
Proof.
  induction d as [|q d IH]; intros [qu cap cl] Hcl Hq Hfull; simpl in *; subst;
    len_simpl; [lia|].
  unfold send; simpl. destruct (Z.ltb_spec (len qu) cap); [|done]. simpl.
  apply IH; simpl; len_simpl; [done|lia|lia].
Qed.

Lemma exec_app ops1 ops2 w c :
  exec (ops1 ++ ops2) w c = ('(w, c) ← exec ops1 w c; exec ops2 w c).
Proof.
  revert w c. induction ops1 as [|o ops1 IH]; intros w c; [done|]. simpl.
  destruct (exec_op o w c) as [[w1 c1]| |]; simpl; done.
Qed.

Section stream.
Context (S : list byte) (isn : Z).
Context (Hclear : clear_range isn (isn + len S)).

(** The invariant of a window that has only seen parts of the stream. *)
Record window_inv (w : receiveWindow) (l : list TCP) : Prop := {
  wi_rep : rep w l;
  wi_seg : Forall (segment S isn) l;
  wi_exp : expect_ok S isn (expectBegin w);
}.

Lemma window_inv_new n : 0 < n → window_inv (newReceiveWindow n) [].
Proof. intros. split; [by apply rep_new|constructor|by left]. Qed.

Lemma small_payloads l : Forall (segment S isn) l → Forall (λ p, len (Payload p) < 2 ^ 32) l.
Proof. intros H. eapply Forall_impl; [exact H|]. by apply segment_small. Qed.

Lemma exec_delivers ops : ∀ w l c, window_inv w l →
  (∀ p, OpInsert p ∈ ops → segment S isn p) →
  chan_closed c = false → len (queue c) + len l + inserts ops ≤ capacity c →
  ∃ w' l' d, exec ops w c = Done (w', sent c d) ∧ window_inv w' l' ∧
    delivered_at S isn (expectBegin w) d (expectBegin w').
Proof.
  induction ops as [|o ops IH]; intros w l c [Hr Hs He] Hops Hc Hroom.
  { exists w, l, []. destruct c; simpl in *; subst. unfold sent; simpl.
    rewrite app_nil_r. split_and!; [done|by split|constructor]. }
  assert (∀ p, OpInsert p ∈ ops → segment S isn p) as Hops' by set_solver.
  destruct o as [p|ack]; cbn [exec exec_op].
  - destruct (insert_rep w l p Hr) as (w1 & -> & Hr1 & _ & He1 & _). simpl.
    destruct (insert_list_segments S isn (expectBegin w) l p Hs) as [Hs1 Hlen];
      [apply Hops; set_solver|].
    destruct (IH w1 _ c (Build_window_inv w1 _ Hr1 Hs1 ltac:(by rewrite He1)) Hops' Hc)
      as (w' & l' & d & -> & Hinv & Hd).
    { simpl in Hroom. lia. }
    exists w', l', d. by rewrite <-He1.
  - pose proof (confirm_rep w l ack Hr (small_payloads l Hs)) as Hc1.
    pose proof (confirm_list_delivered S isn Hclear ack l (expectBegin w) Hs He) as Hd1.
    destruct (confirm_list ack (expectBegin w) l) as [[d1 r] e].
    destruct Hc1 as (w1 & -> & Hr1 & <- & _). destruct Hd1 as (Hd1 & He1 & Hs1 & Hlen).
    simpl in Hroom. pose proof (len_nonneg r). pose proof (inserts_nonneg ops).
    rewrite send_all_room by (done || lia). simpl.
    destruct (IH w1 r (sent c d1) (Build_window_inv w1 r Hr1 Hs1 He1) Hops' eq_refl)
      as (w' & l' & d & -> & Hinv & Hd).
    { simpl. len_simpl. lia. }
    exists w', l', (d1 ++ d). unfold sent; simpl. rewrite <-app_assoc.
    split_and!; [done|done|]. by eapply delivered_app.
Qed.

(** A window that has received [ps] and confirmed nothing yet. *)
Record pending (w : receiveWindow) (l ps : list TCP) : Prop := {
  pd_rep : rep w l;
  pd_sorted : sorted l;
  pd_sub : ∀ p, p ∈ l → p ∈ ps;
  pd_sup : ∀ p, p ∈ ps → ∃ q, q ∈ l ∧ Seq q = Seq p;
  pd_exp : expectBegin w = 0;
}.

Lemma exec_inserts qs : ∀ w l ps c, pending w l ps →
  Forall (segment S isn) ps → Forall (segment S isn) qs →
  ∃ w' l', exec (OpInsert <$> qs) w c = Done (w', c) ∧ pending w' l' (ps ++ qs) ∧
    len l' ≤ len l + len qs.
Proof.
  induction qs as [|p qs IH]; intros w l ps c [Hr Hs Hsub Hsup He] Hps Hqs.
  { exists w, l. rewrite app_nil_r. split_and!; [done|by split|len_lia]. }
  inversion Hqs as [|? ? Hp Hqs']; subst.
  assert (Forall (segment S isn) l) as Hl.
  { rewrite Forall_forall in *. intros q Hq. auto. }
  destruct (insert_rep w l p Hr) as (w1 & Heq & Hr1 & _ & He1 & _).
  destruct (insert_list_segments S isn (expectBegin w) l p Hl Hp) as [_ Hlen].
  assert (insert_list (expectBegin w) l p = sorted_insert l p) as Heql.
  { rewrite He. apply (insert_list_sorted isn (isn + len S) Hclear 0 l p); [done| | | |by left].
    - eapply Forall_impl; [exact Hl|by apply segment_range].
    - by apply segment_range.
    - apply Hp. }
  rewrite Heql in Hr1, Hlen. rewrite He in He1.
  destruct (IH w1 (sorted_insert l p) (ps ++ [p]) c) as (w' & l' & Hex & Hpd & Hlen');
    [|by rewrite Forall_app, Forall_singleton|done|].
  - split; [done|by apply sorted_insert_sorted| | |done].
    + intros q Hq. apply sorted_insert_in in Hq as [->|Hq]; set_solver.
    + intros q Hq. apply elem_of_app in Hq as [Hq|Hq%list_elem_of_singleton].
      * destruct (Hsup q Hq) as (r & Hr2 & Hs2). exists r. split; [|done].
        by apply sorted_insert_keeps.
      * subst q. apply sorted_insert_has.
  - exists w', l'. rewrite <-app_assoc in Hpd. split_and!; [|done|len_simpl; lia].
    cbn [fmap list_fmap exec exec_op]. rewrite Heq. simpl. done.
Qed.

(** The first confirmation of a pending window without gaps. *)
Lemma confirm_first w l ps ack a b : pending w l ps → Forall (segment S isn) ps →
  (∀ p, p ∈ ps → a ≤ Seq p ∧ Seq p + len (Payload p) ≤ b ∧ Seq p < ack) →
  (∀ p q, p ∈ ps → q ∈ ps → Seq p = Seq q → Payload p = Payload q) →
  (∀ x, a ≤ x < b → ∃ p, p ∈ ps ∧ covers p x) →
  a < b → isn ≤ ack ≤ isn + len S →
  let '(d, r, e) := confirm_list ack 0 l in
  payloads d = bytes_at S isn a (b - a) ∧ r = [] ∧ len d ≤ len l.
Proof.
  intros [Hr Hs Hsub Hsup He] Hps Hb Hsame Hcov Hab Hack.
  assert (Forall (segment S isn) l) as Hl.
  { rewrite Forall_forall in *. auto. }
  assert (∀ x, a ≤ x < b → ∃ p, p ∈ l ∧ covers p x) as Hcov'.
  { intros x Hx. destruct (Hcov x Hx) as (p & Hp & Hpx).
    destruct (Hsup p Hp) as (q & Hq & Hseq). exists q. split; [done|].
    unfold covers in *. by rewrite Hseq, (Hsame q p (Hsub q Hq) Hp Hseq). }
  pose proof (confirm_list_delivered S isn Hclear ack l 0 Hl ltac:(by left)) as Hlen.
  destruct l as [|p l]; [destruct (Hcov' a ltac:(lia)) as (p & Hp & _); set_solver|].
  inversion Hs as [|? ? Hs' Hall]; inversion Hl as [|? ? Hp Hl']; subst.
  rewrite List.Forall_forall in Hall.
  pose proof (Hb p (Hsub p ltac:(set_solver))) as (Hpa & Hpb & Hpack).
  assert (Seq p = a) as Hseq.
  { destruct (Hcov' a ltac:(lia)) as (q & Hq & [Hq1 Hq2]).
    apply elem_of_cons in Hq as [->|Hq]; [lia|].
    apply list_elem_of_In, Hall in Hq. lia. }
  pose proof Hp as [H1 H2 H3 H4].
  assert (b ≤ isn + len S) as Hbhi.
  { destruct (Hcov' (b - 1) ltac:(lia)) as (q & Hq & [Hq1 Hq2]).
    rewrite Forall_forall in Hl. destruct (Hl q Hq). lia. }
  pose proof (confirm_list_complete S isn Hclear ack b l (a + len (Payload p)) Hs' Hl'
    ltac:(lia) Hbhi Hack) as Hc.
  cbn [confirm_list] in *.
  rewrite (compare_range isn (isn + len S)) in * by (done || lia).
  destruct (Z.leb_spec 0 (Seq p - ack)); [lia|].
  assert (trimmed 0 p = Some p) as -> by done.
  rewrite (seq_end_range isn (isn + len S) Hclear p) in * by (by apply segment_range).
  rewrite Hseq in *.
  destruct (confirm_list ack (a + len (Payload p)) l) as [[d r] e].
  destruct Hc as (Hd & -> & ->).
  { intros q Hq. specialize (Hb q (Hsub q ltac:(set_solver))). lia. }
  { intros x Hx. destruct (Hcov' x ltac:(lia)) as (q & Hq & Hqx).
    apply elem_of_cons in Hq as [->|Hq]; [destruct Hqx; lia|eauto]. }
  destruct Hlen as (_ & _ & _ & Hlen).
  split_and!; [|done|len_simpl; lia].
  unfold payloads in *. cbn [map concat]. rewrite Hd, H4 at 1.
  rewrite bytes_at_app by lia. f_equal. lia.
Qed.
End stream.

(** Any arrival order, then one acknowledgement. *)
Lemma exec_reassembles (S : list byte) (isn a b ack n : Z) (ps : list TCP) (c : chan)
  (Hclear : clear_range isn (isn + len S)) (Hn : 0 < n)
  (Hps : Forall (segment S isn) ps)
  (Hb : ∀ p, p ∈ ps → a ≤ Seq p ∧ Seq p + len (Payload p) ≤ b ∧ Seq p < ack)
  (Hsame : ∀ p q, p ∈ ps → q ∈ ps → Seq p = Seq q → Payload p = Payload q)
  (Hcov : ∀ x, a ≤ x < b → ∃ p, p ∈ ps ∧ covers p x)
  (Hab : a < b) (Hack : isn ≤ ack ≤ isn + len S)
  (Hopen : chan_closed c = false) (Hroom : len (queue c) + len ps ≤ capacity c) :
  ∃ w d, exec ((OpInsert <$> ps) ++ [OpConfirm ack]) (newReceiveWindow n) c
           = Done (w, sent c d) ∧
    payloads d = bytes_at S isn a (b - a) ∧ rep w [].
Proof.
  destruct (exec_inserts S isn Hclear ps (newReceiveWindow n) [] [] c) as (w & l & Hex & Hpd & Hlen).
  { split; [by apply rep_new|constructor|set_solver|set_solver|done]. }
  { constructor. } { done. }
  pose proof (confirm_first S isn Hclear w l ps ack a b Hpd Hps Hb Hsame Hcov Hab Hack) as Hc.
  assert (Forall (segment S isn) l) as Hl.
  { rewrite Forall_forall in *. intros p Hp. apply Hps. by apply (pd_sub _ _ _ Hpd). }
  pose proof (confirm_rep w l ack (pd_rep _ _ _ Hpd) (small_payloads S isn Hclear l Hl)) as Hr.
  rewrite (pd_exp _ _ _ Hpd) in Hr.
  destruct (confirm_list ack 0 l) as [[d r] e]. destruct Hc as (Hd & -> & Hdl).
  destruct Hr as (w' & Hw' & Hr' & _). exists w', d. split_and!; [|done|done].
  rewrite exec_app, Hex. simpl. rewrite Hw'. change (len []) with 0 in Hlen.
  rewrite send_all_room by (done || lia). done.
Qed.

(** ** Properties *)

(** Segments of one stream that arrive in any order, duplicated and
    overlapping, and cover it without a gap from [a] to [b], are delivered by
    the acknowledgement that follows as exactly the bytes [a..b) of the
    stream: nothing lost, repeated or out of order.  The ring buffer may have
    to grow any number of times on the way.  (Sequence numbers stay clear of
    the wrap-around, and two segments with one number carry the same
    payload.) *)
Theorem window_reassembles (S : list byte) (isn a b ack n : Z) (ps : list TCP) (c : chan)
  (Hclear : clear_range isn (isn + len S)) (Hn : 0 < n)
  (Hps : Forall (segment S isn) ps)
  (Hb : ∀ p, p ∈ ps → a ≤ Seq p ∧ Seq p + len (Payload p) ≤ b ∧ Seq p < ack)
  (Hsame : ∀ p q, p ∈ ps → q ∈ ps → Seq p = Seq q → Payload p = Payload q)
  (Hcov : ∀ x, a ≤ x < b → ∃ p, p ∈ ps ∧ covers p x)
  (Hab : a < b) (Hack : isn ≤ ack ≤ isn + len S)
  (Hopen : chan_closed c = false) (Hroom : len (queue c) + len ps ≤ capacity c) :
  ∃ w d, exec ((OpInsert <$> ps) ++ [OpConfirm ack]) (newReceiveWindow n) c
           = Done (w, sent c d) ∧
    payloads d = bytes_at S isn a (b - a) ∧ rep w [].
Proof. by apply (exec_reassembles S isn). Qed.

(** C9. Whatever packets of the stream are inserted and whatever numbers are
    acknowledged, in any interleaving, the calls finish without panic or
    blocking while the channel has room, and what has been sent is a
    subsequence of the stream: parts at increasing places, none twice. *)
Theorem window_delivers_in_order (S : list byte) (isn n : Z) (ops : list op) (c : chan)
  (Hclear : clear_range isn (isn + len S)) (Hn : 0 < n)
  (Hops : ∀ p, OpInsert p ∈ ops → segment S isn p)
  (Hopen : chan_closed c = false) (Hroom : len (queue c) + inserts ops ≤ capacity c) :
  ∃ w d, exec ops (newReceiveWindow n) c = Done (w, sent c d) ∧
    delivered_at S isn 0 d (expectBegin w).
Proof.
  destruct (exec_delivers S isn Hclear ops (newReceiveWindow n) [] c) as (w & l & d & Hex & _ & Hd).
  - by apply window_inv_new.
  - done.
  - done.
  - change (len []) with 0. lia.
  - by exists w, d.
Qed.

(** C11. On the ring buffer, [confirm] sends the trimmed packets before the
    acknowledged number, in order, and keeps the others.  The window itself
    never panics: on an open channel with room the call finishes, without
    room it is suspended, and it panics only when it has something to send
    and the channel has been closed. *)
Theorem confirm_refines (w : receiveWindow) (l : list TCP) (ack : Z) (c : chan)
  (Hrep : rep w l) (Hl : Forall (λ p, len (Payload p) < 2 ^ 32) l)
  (Hq : len (queue c) ≤ capacity c) :
  let '(d, r, e) := confirm_list ack (expectBegin w) l in
  ∃ w', rep w' r ∧ expectBegin w' = e ∧ len (buffer w') = len (buffer w) ∧
    confirm w ack c =
      if decide (d = []) then Done (w', c)
      else if chan_closed c then Crash
      else if len (queue c) + len d <=? capacity c then Done (w', sent c d)
      else Blocked.
Proof.
  pose proof (confirm_rep w l ack Hrep Hl) as H.
  destruct (confirm_list ack (expectBegin w) l) as [[d r] e].
  destruct H as (w' & Hw' & Hr & He & Hlb). exists w'. split_and!; [done..|].
  rewrite Hw'. case_decide as Hd; [by subst|].
  destruct (chan_closed c) eqn:Hcl.
  - destruct d as [|q d]; [done|]. simpl. unfold send. by rewrite Hcl.
  - destruct (Z.leb_spec (len (queue c) + len d) (capacity c)).
    + by rewrite send_all_room by done.
    + by rewrite send_all_full by done.
Qed.

(** Two neighbours across the wrap-around. *)
Section wrap.
Context (p q : TCP).
Context (Hp : maxTCPSeq - tcpSeqWindow < Seq p < maxTCPSeq) (Hq : 0 ≤ Seq q) (Hend : Seq q + len (Payload q) < tcpSeqWindow).
Context (Hlenp : 0 < len (Payload p) < 2 ^ 32) (Hlenq : 0 < len (Payload q)) (Hfollows : seq_end p = Seq q).

Lemma wrap_seq_end : seq_end q = Seq q + len (Payload q).
Proof.
  unfold seq_end, uint32, tcpSeqWindow in *. rewrite (uint_small 32 (len (Payload q))) by lia. by rewrite uint_small by lia.
Qed.
Lemma wrap_compare x : 0 ≤ x < tcpSeqWindow → 0 < compareTCPSeq (Seq p) x.
Proof.
  intros Hx. rewrite compare_before_wrap by lia. unfold maxTCPSeq, tcpSeqWindow in *. destruct (Z.eqb_spec (Seq p) 0xFFFFFFFF); [lia|].
  cbn [andb]. lia.
Qed.
(** The second is placed before the first, or refused when the first is expected. *)
Lemma wrap_insert_list : insert_list 0 [p] q = [q; p] ∧ insert_list (Seq p) [p] q = [p].
Proof.
  pose proof (wrap_compare (Seq q) ltac:(lia)) as Hc. split; unfold insert_list.
  - cbn [Z.eqb negb andb]. destruct (Z.eqb_spec (len (Payload q)) 0); [lia|]. cbn [length scan_list lookup list_lookup].
    destruct (Z.eqb_spec (compareTCPSeq (Seq p) (Seq q)) 0), (Z.ltb_spec (compareTCPSeq (Seq p) (Seq q)) 0); done || lia.
  - pose proof (wrap_compare (seq_end q)) as He. rewrite wrap_seq_end in *. specialize (He ltac:(lia)).
    destruct (Z.eqb_spec (Seq p) 0); [unfold maxTCPSeq, tcpSeqWindow in *; lia|]. cbn [negb andb].
    by destruct (Z.leb_spec 0 (compareTCPSeq (Seq p) (Seq q + len (Payload q)))); [|lia].
Qed.
(** The acknowledgement of both stops at the first. *)
Lemma wrap_confirm_list ack e : Seq q + len (Payload q) ≤ ack < tcpSeqWindow →
  confirm_list ack 0 [q; p] = ([q], [p], seq_end q) ∧ confirm_list ack e [p] = ([], [p], e).
Proof.
  intros Ha. pose proof (wrap_compare ack ltac:(lia)) as Hc. assert (∀ e, confirm_list ack e [p] = ([], [p], e)) as Hone.
  { intros e'. cbn [confirm_list]. by destruct (Z.leb_spec 0 (compareTCPSeq (Seq p) ack)); [|lia]. }
  split; [|done]. cbn [confirm_list]. unfold maxTCPSeq, tcpSeqWindow in *.
  rewrite (compare_plain (Seq q)) by (unfold maxTCPSeq, tcpSeqWindow; lia). unfold int32. rewrite sint_small by lia.
  destruct (Z.leb_spec 0 (Seq q - ack)); [lia|]. unfold trimmed. cbn [Z.eqb negb andb]. cbn [confirm_list] in Hone. by rewrite Hone.
Qed.
(** A later acknowledgement finds the first behind what is expected. *)
Lemma wrap_later_list later : tcpSeqWindow ≤ later < 2 ^ 31 - tcpSeqWindow →
  confirm_list later (seq_end q) [p] = ([], [], seq_end q).
Proof.
  intros Ha. cbn [confirm_list]. rewrite wrap_seq_end. unfold maxTCPSeq, tcpSeqWindow in *.
  rewrite (compare_plain (Seq p)) by (unfold maxTCPSeq, tcpSeqWindow; lia).
  assert (int32 (Seq p - later) = Seq p - later - 2 ^ 32) as ->.
  { unfold int32, sint. replace (Seq p - later + 2 ^ (32 - 1)) with (Seq p - later - 2 ^ 31 + 1 * 2 ^ 32) by lia.
    rewrite Z.mod_add, Z.mod_small by lia. lia. }
  destruct (Z.leb_spec 0 (Seq p - later - 2 ^ 32)); [lia|]. unfold trimmed.
  destruct (Z.eqb_spec (Seq q + len (Payload q)) 0); [lia|]. cbn [negb andb].
  rewrite compare_after_wrap by (unfold maxTCPSeq, tcpSeqWindow; lia). unfold maxTCPSeq.
  destruct (Z.ltb_spec 0 (Seq q + len (Payload q) + 0xFFFFFFFF - Seq p)); [|lia]. cbv zeta.
  assert (uint32 (Seq q + len (Payload q) - Seq p) = Seq q + len (Payload q) - Seq p + 2 ^ 32) as ->.
  { unfold uint32, uint. rewrite <-(Z.mod_add _ 1) by lia. apply Z.mod_small. lia. }
  assert (len (Payload p) ≤ Seq q - Seq p + 2 ^ 32) as Hl.
  { revert Hfollows. unfold seq_end, uint32. rewrite (uint_small 32 (len (Payload p))) by lia. unfold uint.
    destruct (Z.lt_ge_cases (Seq p + len (Payload p)) (2 ^ 32)); [rewrite Z.mod_small by lia; lia|].
    replace (Seq p + len (Payload p)) with (Seq p + len (Payload p) - 2 ^ 32 + 1 * 2 ^ 32) at 1 by lia.
    rewrite Z.mod_add, Z.mod_small by lia. lia. }
  unfold uint32. rewrite uint_small by lia. by destruct (Z.leb_spec (len (Payload p)) (Seq q + len (Payload q) - Seq p + 2 ^ 32)); [|lia].
Qed.
End wrap.

(** C32. At the wrap-around of the sequence numbers a segment is lost. Of two
    neighbours across it, in the order of the stream and acknowledged
    together, only one is delivered: when nothing was delivered before them it
    is the second, and the next acknowledgement of more than 65535 drops the
    first; when the stream in front of the first was delivered, the second is
    refused, and the first is not delivered by the acknowledgement of both. *)
Theorem wrap_loses_segment (w : receiveWindow) (p q : TCP) (ack later : Z) (c : chan)
  (Hrep : rep w [p])
  (Hp : maxTCPSeq - tcpSeqWindow < Seq p < maxTCPSeq) (Hq : 0 ≤ Seq q) (Hfollows : seq_end p = Seq q)
  (Hlenp : 0 < len (Payload p) < 2 ^ 32) (Hlenq : 0 < len (Payload q))
  (Hack : Seq q + len (Payload q) ≤ ack < tcpSeqWindow) (Hlater : tcpSeqWindow ≤ later < 2 ^ 31 - tcpSeqWindow)
  (Hopen : chan_closed c = false) (Hroom : len (queue c) < capacity c) :
  (expectBegin w = 0 → ∃ w1 w2,
     exec [OpInsert q; OpConfirm ack] w c = Done (w1, sent c [q]) ∧ rep w1 [p] ∧
     exec [OpConfirm later] w1 (sent c [q]) = Done (w2, sent c [q]) ∧ rep w2 []) ∧
  (expectBegin w = Seq p → ∃ w1, exec [OpInsert q; OpConfirm ack] w c = Done (w1, c) ∧ rep w1 [p]).
Proof.
  assert (Seq q + len (Payload q) < tcpSeqWindow) as Hend by lia.
  assert (Forall (λ p, len (Payload p) < 2 ^ 32) [q; p]) as Hsmall by (unfold tcpSeqWindow in *; repeat constructor; lia).
  destruct (wrap_insert_list p q Hp Hq Hend Hlenq) as [Hi0 Hip].
  destruct (insert_rep w [p] q Hrep) as (wi & Hwi & Hri & _ & Hei & _).
  split; intros He; rewrite He in *; cbn [exec exec_op]; rewrite Hwi; cbn [run mbind sched_bind].
  - rewrite Hi0 in Hri. pose proof (confirm_rep wi [q; p] ack Hri Hsmall) as Hc. rewrite Hei in Hc.
    rewrite (proj1 (wrap_confirm_list p q Hp Hq Hend Hlenq ack 0 Hack)) in Hc. destruct Hc as (w1 & Hc1 & Hr1 & He1 & _).
    pose proof (confirm_rep w1 [p] later Hr1 ltac:(by inversion Hsmall)) as Hc. rewrite He1 in Hc.
    rewrite (wrap_later_list p q Hp Hq Hend Hlenp Hlenq Hfollows later Hlater) in Hc. destruct Hc as (w2 & Hc2 & Hr2 & _ & _).
    exists w1, w2. rewrite Hc1, Hc2, send_all_room by (done || len_simpl; lia). by split_and!.
  - rewrite Hip in Hri. pose proof (confirm_rep wi [p] ack Hri ltac:(by inversion Hsmall)) as Hc. rewrite Hei in Hc.
    rewrite (proj2 (wrap_confirm_list p q Hp Hq Hend Hlenq ack (Seq p) Hack)) in Hc. destruct Hc as (w1 & Hc1 & Hr1 & _).
    exists w1. rewrite Hc1. by split.
Qed.

(** ** The properties at concrete inputs *)

Section witnesses.
Definition demo_stream : list byte := [Byte.x61; Byte.x62; Byte.x63; Byte.x64; Byte.x65; Byte.x66].
Definition demo_isn : Z := 100000.
Definition demo_packet (seq : Z) (b : list byte) : TCP :=
  mkTCP 40000 6379 seq 0 false true false false b.
(** "cde", then "ab", then a retransmission of "cde", then "ef". *)
Definition demo_packets : list TCP :=
  [ demo_packet 100002 [Byte.x63; Byte.x64; Byte.x65]; demo_packet 100000 [Byte.x61; Byte.x62];
    demo_packet 100002 [Byte.x63; Byte.x64; Byte.x65]; demo_packet 100004 [Byte.x65; Byte.x66] ].
Definition demo_chan : chan := mkChan [] 1024 false.

Lemma demo_clear : clear_range demo_isn (demo_isn + len demo_stream).
Proof. repeat split; vm_compute; congruence. Qed.

Lemma demo_segments : Forall (segment demo_stream demo_isn) demo_packets.
Proof. repeat (apply List.Forall_cons || apply List.Forall_nil); split; vm_compute; congruence. Qed.

Lemma demo_bounds p : p ∈ demo_packets →
  100000 ≤ Seq p ∧ Seq p + len (Payload p) ≤ 100006 ∧ Seq p < 100006.
Proof.
  revert p. apply Forall_forall.
  repeat (apply List.Forall_cons || apply List.Forall_nil); vm_compute; repeat split; congruence.
Qed.

Lemma demo_same p q : p ∈ demo_packets → q ∈ demo_packets → Seq p = Seq q → Payload p = Payload q.
Proof.
  assert (Forall (λ p, Forall (λ q, Seq p = Seq q → Payload p = Payload q) demo_packets)
    demo_packets) as H.
  { repeat (apply List.Forall_cons || apply List.Forall_nil); vm_compute; congruence. }
  rewrite Forall_forall in H. intros Hp Hq. specialize (H p Hp).
  rewrite Forall_forall in H. auto.
Qed.

Lemma demo_cover x : 100000 ≤ x < 100006 → ∃ p, p ∈ demo_packets ∧ covers p x.
Proof.
  intros Hx. destruct (Z.lt_ge_cases x 100002).
  { exists (demo_packet 100000 [Byte.x61; Byte.x62]). split; [set_solver|].
    unfold covers. cbn [Seq Payload demo_packet]. len_simpl. lia. }
  destruct (Z.lt_ge_cases x 100005).
  { exists (demo_packet 100002 [Byte.x63; Byte.x64; Byte.x65]). split; [set_solver|].
    unfold covers. cbn [Seq Payload demo_packet]. len_simpl. lia. }
  exists (demo_packet 100004 [Byte.x65; Byte.x66]). split; [set_solver|].
  unfold covers. cbn [Seq Payload demo_packet]. len_simpl. lia.
Qed.
End witnesses.

Lemma window_reassembles_witness :
  ∃ w d, exec ((OpInsert <$> demo_packets) ++ [OpConfirm 100006]) (newReceiveWindow 64) demo_chan
           = Done (w, sent demo_chan d) ∧
    payloads d = demo_stream ∧ rep w [].
Proof.
  apply (window_reassembles demo_stream demo_isn 100000 100006 100006 64 demo_packets demo_chan).
  - exact demo_clear.
  - lia.
  - exact demo_segments.
  - exact demo_bounds.
  - exact demo_same.
  - exact demo_cover.
  - lia.
  - vm_compute; split; congruence.
  - reflexivity.
  - vm_compute; congruence.
Defined.

Lemma window_delivers_in_order_witness :
  ∃ w d, exec (OpConfirm 7 :: (OpInsert <$> demo_packets) ++ [OpConfirm 100003; OpConfirm 100006])
           (newReceiveWindow 64) demo_chan = Done (w, sent demo_chan d) ∧
    delivered_at demo_stream demo_isn 0 d (expectBegin w).
Proof.
  apply (window_delivers_in_order demo_stream demo_isn 64 _ demo_chan).
  - exact demo_clear.
  - lia.
  - intros p Hp. pose proof demo_segments as H. rewrite Forall_forall in H. apply H.
    unfold demo_packets in *. cbn in Hp. set_solver.
  - reflexivity.
  - vm_compute; congruence.
Defined.

Lemma insert_refines_sorted_witness :
  ∃ w', insert (newReceiveWindow 64) (demo_packet 100000 [Byte.x61; Byte.x62]) = Ret w' ∧
    rep w' [demo_packet 100000 [Byte.x61; Byte.x62]].
Proof.
  destruct (insert_refines_sorted demo_stream demo_isn (newReceiveWindow 64) []
    (demo_packet 100000 [Byte.x61; Byte.x62])) as (w' & Hw' & Hr & _).
  - exact demo_clear.
  - apply rep_new. lia.
  - constructor.
  - constructor.
  - split; vm_compute; congruence.
  - left. reflexivity.
  - exists w'. split; [exact Hw'|exact Hr].
Defined.

Lemma confirm_refines_witness :
  ∃ w', confirm (newReceiveWindow 64) 5 demo_chan = Done (w', demo_chan).
Proof.
  destruct (confirm_refines (newReceiveWindow 64) [] 5 demo_chan) as (w' & _ & _ & _ & H).
  - apply rep_new. lia.
  - constructor.
  - vm_compute; congruence.
  - exists w'. exact H.
Defined.

Lemma compareTCPSeq_spec_witness : compareTCPSeq 0xFFFFFFF0 5 = 0xFFFFFFF0 - 5 + 1.
Proof. destruct (compareTCPSeq_spec 0xFFFFFFF0 5) as [H _]; [split; vm_compute; congruence..|]. rewrite H. reflexivity. Defined.

Definition wrap_window (expect : Z) : receiveWindow :=
  mkWindow 1 0 (Some (demo_packet 0xFFFFFFF0 (replicate 16 Byte.x61)) :: replicate 63 None) 0 expect.

(** Nothing before the two was delivered, or all of it. *)
Lemma wrap_loses_segment_witness :
  let p := demo_packet 0xFFFFFFF0 (replicate 16 Byte.x61) in let q := demo_packet 0 [Byte.x62] in
  (∃ w, exec [OpInsert q; OpConfirm 1; OpConfirm 100000] (wrap_window 0) demo_chan = Done (w, sent demo_chan [q])) ∧
  (∃ w, exec [OpInsert q; OpConfirm 1] (wrap_window 0xFFFFFFF0) demo_chan = Done (w, demo_chan)).
Proof.
  assert (∀ e, rep (wrap_window e) [demo_packet 0xFFFFFFF0 (replicate 16 Byte.x61)]) as Hrep.
  { intros e. split; [split; vm_compute; repeat split; congruence| | | |]; try (vm_compute; congruence).
    intros i p Hi. assert (i = 0) as ->.
    { apply mk_is_Some, znth_Some in Hi. revert Hi. len_simpl. lia. }
    rewrite znth_0 in Hi. inversion Hi. reflexivity. }
  intros p q. split.
  - destruct (wrap_loses_segment (wrap_window 0) p q 1 100000 demo_chan) as [Ha _]; try (vm_compute; repeat split; congruence); [apply Hrep|].
    destruct (Ha eq_refl) as (w1 & w2 & H1 & _ & H2 & _). exists w2.
    change [OpInsert q; OpConfirm 1; OpConfirm 100000] with ([OpInsert q; OpConfirm 1] ++ [OpConfirm 100000]).
    rewrite exec_app, H1. exact H2.
  - destruct (wrap_loses_segment (wrap_window 0xFFFFFFF0) p q 1 100000 demo_chan) as [_ Hb]; try (vm_compute; repeat split; congruence); [apply Hrep|].
    destruct (Hb eq_refl) as (w1 & H1 & _). by exists w1.
Defined.
