(* ===== verification/WindowLive.v ===== *)
(** * A receive window during a live capture

    Packets and acknowledgements alternate: every acknowledgement is of bytes
    that the capture has seen, as it is when both endpoints are observed at one
    point.  Then the window delivers a growing prefix of the stream, and that
    prefix contains everything acknowledged. *)

From stdpp Require Import sorting.
From S2P Require Import Prelude GoBytes Window WindowRing WindowOrder WindowRun.

(** A packet without payload (a handshake, a bare acknowledgement) leaves the
    window as it is. *)
Lemma insert_empty w p : len (Payload p) = 0 → insert w p = Ret w.
Proof. intros H. unfold insert. rewrite H. by destruct (_ && _). Qed.

Section live.
Context (S : list byte) (isn : Z).
Abbreviation hi := (isn + len S).
(** Room for the number behind the last byte and for that of the FIN. *)
Context (Hclear : clear_range isn (hi + 1)).

(** The sequence number of the next byte to deliver: the window starts with
    the expectation 0. *)
Definition next_byte (e : Z) : Z := if e =? 0 then isn else e.

Lemma clear_stream : clear_range isn hi.
Proof. destruct Hclear as (? & ? & ?). repeat split; lia. Qed.

Lemma next_byte_range e : expect_ok S isn e → isn ≤ next_byte e ≤ hi.
Proof.
  pose proof (len_nonneg S). destruct Hclear as (? & _ & _). unfold tcpSeqWindow in *.
  intros [->|He]; unfold next_byte; [simpl; lia|]. destruct (Z.eqb_spec e 0); lia.
Qed.

(** A confirmation of a window that has all bytes before the acknowledged one
    delivers one contiguous part, up to the end of the last packet that starts
    before it; what stays lies behind. *)
Lemma confirm_list_contiguous ack l : ∀ e0,
  sorted l → Forall (segment S isn) l → expect_ok S isn e0 → isn ≤ ack ≤ hi + 1 →
  (∀ x, next_byte e0 ≤ x < Z.min ack hi → ∃ p, p ∈ l ∧ covers p x) →
  let '(d, r, e1) := confirm_list ack e0 l in
  payloads d = bytes_at S isn (next_byte e0) (next_byte e1 - next_byte e0) ∧
  next_byte e0 ≤ next_byte e1 ∧ Z.min ack hi ≤ next_byte e1 ∧
  sorted r ∧ (∀ q, q ∈ r → q ∈ l) ∧ (∀ q, q ∈ l → q ∈ r ∨ Seq q + len (Payload q) ≤ next_byte e1).
Proof.
  induction l as [|p l IH]; intros e0 Hs Hl He Hack Hcov; cbn [confirm_list].
  { pose proof (next_byte_range e0 He). split_and!; [by rewrite Z.sub_diag|lia| |done|done|set_solver].
    destruct (Z.le_gt_cases (Z.min ack hi) (next_byte e0)); [done|].
    destruct (Hcov (next_byte e0) ltac:(lia)) as (p & Hp & _). set_solver. }
  inversion Hs as [|? ? Hs' Hall]; inversion Hl as [|? ? Hp Hl']; subst.
  assert (∀ q, q ∈ p :: l → Seq p ≤ Seq q) as Hmin.
  { rewrite List.Forall_forall in Hall. intros q [->|Hq]%elem_of_cons; [done|].
    apply list_elem_of_In, Hall in Hq. lia. }
  pose proof Hp as [H1 H2 H3 _]. pose proof (next_byte_range e0 He) as Hn.
  rewrite (compare_clear isn (hi + 1)) by (done || lia).
  assert (next_byte e0 < Z.min ack hi → Seq p ≤ next_byte e0) as Hreach.
  { intros Hlt. destruct (Hcov (next_byte e0) ltac:(lia)) as (q & Hq & [Hq1 _]). specialize (Hmin q Hq). lia. }
  destruct (Z.leb_spec 0 (Seq p - ack)) as [Hge|Hlt].
  { split_and!; [by rewrite Z.sub_diag|lia|lia|done|done|tauto]. }
  assert (Seq p ≤ next_byte e0) as Hpe by lia.
  pose proof (trimmed_segment S isn clear_stream e0 p He Hp) as Ht.
  destruct (trimmed e0 p) as [q|].
  - destruct Ht as (m & Hm & Hqe & Hq & Hqb).
    assert (m = next_byte e0) as ->.
    { subst m. unfold next_byte in *. destruct (Z.eqb_spec e0 0); destruct Hclear; unfold tcpSeqWindow in *; lia. }
    rewrite (seq_end_range isn hi clear_stream p (segment_range S isn p Hp)).
    assert (next_byte (Seq p + len (Payload p)) = Seq p + len (Payload p)) as Hne.
    { unfold next_byte. destruct Hclear; unfold tcpSeqWindow in *. destruct (Z.eqb_spec (Seq p + len (Payload p)) 0); lia. }
    specialize (IH (Seq p + len (Payload p)) Hs' Hl' ltac:(right; lia) Hack). rewrite Hne in IH.
    destruct (confirm_list ack (Seq p + len (Payload p)) l) as [[d r] e1].
    destruct IH as (Hd & Hle & Hmx & Hsr & Hsub & Hout).
    { intros x Hx. destruct (Hcov x ltac:(lia)) as (q' & Hq' & Hc). apply elem_of_cons in Hq' as [->|]; [destruct Hc; lia|eauto]. }
    split_and!; [|lia|lia|done|set_solver|].
    + unfold payloads in *. cbn [map concat]. rewrite Hd, Hqb, <-Hqe, bytes_at_app by lia. f_equal. lia.
    + intros q' [->|Hq']%elem_of_cons; [right; lia|auto].
  - specialize (IH e0 Hs' Hl' He Hack). destruct (confirm_list ack e0 l) as [[d r] e1].
    assert (Seq p + len (Payload p) ≤ next_byte e0) as Hold.
    { unfold next_byte. destruct Ht as [Hz ?]. destruct (Z.eqb_spec e0 0); lia. }
    destruct IH as (Hd & Hle & Hmx & Hsr & Hsub & Hout).
    { intros x Hx. destruct (Hcov x Hx) as (q' & Hq' & Hc). apply elem_of_cons in Hq' as [->|]; [destruct Hc; lia|eauto]. }
    split_and!; [done|done|done|done|set_solver|]. intros q' [->|Hq']%elem_of_cons; [right; lia|auto].
Qed.

(** ** Sequences of packets and acknowledgements *)

(** A packet without payload, or with a part of the stream. *)
Definition part_of (p : TCP) : Prop := len (Payload p) = 0 ∨ segment S isn p.

(** Every acknowledgement is of bytes seen before, or of the FIN behind the
    last one. *)
Fixpoint acks_seen (seen : list TCP) (ops : list op) : Prop :=
  match ops with
  | [] => True
  | OpInsert p :: ops => acks_seen (p :: seen) ops
  | OpConfirm ack :: ops =>
      isn ≤ ack ≤ hi + 1 ∧ (∀ x, isn ≤ x < Z.min ack hi → ∃ p, p ∈ seen ∧ covers p x) ∧ acks_seen seen ops
  end.

(** The window after [seen]: whatever has been seen has been delivered or is
    pending. *)
Record live_inv (w : receiveWindow) (l seen : list TCP) : Prop := {
  li_inv : window_inv S isn w l;
  li_sorted : sorted l;
  li_from : ∀ q, q ∈ l → q ∈ seen;
  li_kept : ∀ p x, p ∈ seen → covers p x → next_byte (expectBegin w) ≤ x → ∃ q, q ∈ l ∧ covers q x;
}.

Lemma live_new n : 0 < n → live_inv (newReceiveWindow n) [] [].
Proof. intros. split; [by apply window_inv_new|constructor|done|set_solver]. Qed.

(** Two packets with payload and the same number carry the same payload. *)
Definition consistent (ps : list TCP) : Prop :=
  ∀ p q, p ∈ ps → q ∈ ps → Seq p = Seq q → 0 < len (Payload p) → 0 < len (Payload q) → Payload p = Payload q.

Lemma live_insert w l seen p : live_inv w l seen → part_of p → consistent (p :: seen) →
  ∃ w' l', insert w p = Ret w' ∧ live_inv w' l' (p :: seen) ∧ expectBegin w' = expectBegin w ∧ len l' ≤ len l + 1.
Proof.
  intros [[Hr Hs He] Hso Hfrom Hkept] [H0|Hp] Hcons.
  { exists w, l. rewrite insert_empty by done. split_and!; [done| |done|lia]. split; [done|done|set_solver|].
    intros q x [->|Hq]%elem_of_cons Hx Hn; [unfold covers in Hx; lia|eauto]. }
  pose proof clear_stream as Hc. pose proof Hp as [H1 H2 H3 _].
  destruct (insert_rep w l p Hr) as (w' & -> & Hr' & _ & He' & _).
  destruct (insert_list_segments S isn (expectBegin w) l p Hs Hp) as [Hs' Hlen'].
  rewrite (insert_list_sorted isn hi Hc) in Hr', Hs', Hlen';
    try done; try (by apply segment_range); try (eapply Forall_impl; [exact Hs|by apply segment_range]).
  eexists w', _. split_and!; [done| |done|exact Hlen']. split.
  - split; [exact Hr'|exact Hs'|by rewrite He'].
  - destruct (_ && _); [done|by apply sorted_insert_sorted].
  - intros q Hq. destruct (_ && _); [set_solver|]. apply sorted_insert_in in Hq as [->|]; set_solver.
  - rewrite He'. intros q x [->|Hq]%elem_of_cons Hx Hn.
    + destruct (_ && _) eqn:E.
      { zbool. unfold covers, next_byte in *. destruct (Z.eqb_spec (expectBegin w) 0); [done|lia]. }
      destruct (sorted_insert_has l p) as (q & Hq & Hseq). exists q. split; [done|].
      assert (Payload q = Payload p) as Hpay.
      { apply Hcons; [|by constructor|done| |done].
        - apply sorted_insert_in in Hq as [->|]; set_solver.
        - apply sorted_insert_in in Hq as [->|Hq]; [done|]. rewrite Forall_forall in Hs. by apply Hs. }
      unfold covers in *. by rewrite Hseq, Hpay.
    + destruct (Hkept q x Hq Hx Hn) as (q' & Hq' & Hc'). exists q'. split; [|done].
      destruct (_ && _); [done|by apply sorted_insert_keeps].
Qed.

Lemma live_confirm w l seen ack ch : live_inv w l seen → isn ≤ ack ≤ hi + 1 →
  (∀ x, isn ≤ x < Z.min ack hi → ∃ p, p ∈ seen ∧ covers p x) →
  chan_closed ch = false → len (queue ch) + len l ≤ capacity ch →
  ∃ w' l' d, confirm w ack ch = Done (w', sent ch d) ∧ live_inv w' l' seen ∧ len d + len l' ≤ len l ∧
    payloads d = bytes_at S isn (next_byte (expectBegin w)) (next_byte (expectBegin w') - next_byte (expectBegin w)) ∧
    next_byte (expectBegin w) ≤ next_byte (expectBegin w') ∧ Z.min ack hi ≤ next_byte (expectBegin w').
Proof.
  intros [[Hr Hs He] Hso Hfrom Hkept] Hack Hseen Hopen Hroom.
  pose proof (next_byte_range _ He) as Hn.
  pose proof (confirm_rep w l ack Hr (small_payloads S isn clear_stream l Hs)) as Hc.
  pose proof (confirm_list_delivered S isn clear_stream ack l (expectBegin w) Hs He) as Hd.
  pose proof (confirm_list_contiguous ack l (expectBegin w) Hso Hs He Hack) as Hk.
  destruct (confirm_list ack (expectBegin w) l) as [[d r] e1].
  destruct Hc as (w' & Hw' & Hr' & <- & _), Hd as (_ & He' & Hsr & Hlen).
  destruct Hk as (Hpay & Hle & Hmx & Hsor & Hsub & Hout).
  { intros x Hx. destruct (Hseen x ltac:(lia)) as (p & Hp & Hpx). apply (Hkept p); [done|done|lia]. }
  pose proof (len_nonneg r). exists w', r, d. rewrite Hw', send_all_room by (done || lia).
  split_and!; [done| |lia|done|done|done]. split; [by split|done|auto|].
  intros p x Hp Hx Hge. destruct (Hkept p x Hp Hx ltac:(lia)) as (q & Hq & Hqx). exists q. split; [|done].
  destruct (Hout q Hq) as [|Hend]; [done|]. unfold covers in Hqx. lia.
Qed.

Lemma exec_live ops : ∀ w l seen ch, live_inv w l seen → acks_seen seen ops →
  (∀ p, OpInsert p ∈ ops → part_of p) →
  (∀ sub, (∀ p, p ∈ sub → p ∈ seen ∨ OpInsert p ∈ ops) → consistent sub) →
  chan_closed ch = false → len (queue ch) + len l + inserts ops ≤ capacity ch →
  ∃ w' d, exec ops w ch = Done (w', sent ch d) ∧ expect_ok S isn (expectBegin w') ∧
    payloads d = bytes_at S isn (next_byte (expectBegin w)) (next_byte (expectBegin w') - next_byte (expectBegin w)) ∧
    next_byte (expectBegin w) ≤ next_byte (expectBegin w') ∧
    ∀ ack, OpConfirm ack ∈ ops → Z.min ack hi ≤ next_byte (expectBegin w').
Proof.
  induction ops as [|o ops IH]; intros w l seen ch Hw Hacks Hparts Hcons Hopen Hroom.
  { exists w, []. destruct ch; simpl in *; subst. unfold sent. simpl. rewrite app_nil_r, Z.sub_diag.
    split_and!; [done|apply Hw|done|done|set_solver]. }
  pose proof (inserts_nonneg ops). destruct o as [p|ack]; cbn [exec exec_op inserts acks_seen] in *.
  - destruct (live_insert w l seen p Hw) as (w1 & l1 & -> & Hw1 & He1 & Hl1); [apply Hparts; set_solver|apply Hcons; set_solver|].
    simpl. destruct (IH w1 l1 (p :: seen) ch Hw1 Hacks) as (w' & d & Hex & He' & Hpay & Hle & Hmax);
      [set_solver|intros sub Hsub; apply Hcons; set_solver|done|lia|].
    rewrite He1 in *. exists w', d. split_and!; [done..|]. intros ack Hin. apply Hmax. set_solver.
  - destruct Hacks as (Hack & Hseen & Hacks).
    destruct (live_confirm w l seen ack ch Hw Hack Hseen Hopen ltac:(lia)) as (w1 & l1 & d1 & -> & Hw1 & Hl1 & Hp1 & Hle1 & Hm1).
    cbn [mbind sched_bind]. destruct (IH w1 l1 seen (sent ch d1) Hw1 Hacks) as (w' & d & Hex & He' & Hpay & Hle & Hmax);
      [set_solver|intros sub Hsub; apply Hcons; set_solver|done|unfold sent; simpl; len_simpl; lia|].
    pose proof (next_byte_range _ (wi_exp _ _ _ _ (li_inv _ _ _ Hw))).
    exists w', (d1 ++ d). split_and!; [unfold sent in *; simpl in *; by rewrite <-app_assoc in Hex|done| |lia|].
    + unfold payloads in *. rewrite map_app, concat_app, Hp1, Hpay.
      replace (next_byte (expectBegin w1)) with (next_byte (expectBegin w) + (next_byte (expectBegin w1) - next_byte (expectBegin w))) at 2 by lia.
      rewrite bytes_at_app by lia. f_equal. lia.
    + intros a [Heq|Hin]%elem_of_cons; [injection Heq as ->; lia|auto].
Qed.

(** All packets of [ops] are consistent. *)
Definition consistent_ops (ops : list op) : Prop :=
  ∀ p q, OpInsert p ∈ ops → OpInsert q ∈ ops → Seq p = Seq q → 0 < len (Payload p) → 0 < len (Payload q) → Payload p = Payload q.

Lemma exec_live_new ops n ch : 0 < n → acks_seen [] ops → (∀ p, OpInsert p ∈ ops → part_of p) → consistent_ops ops →
  chan_closed ch = false → len (queue ch) + inserts ops ≤ capacity ch →
  ∃ w d e, exec ops (newReceiveWindow n) ch = Done (w, sent ch d) ∧ isn ≤ e ≤ hi ∧ payloads d = ztake (e - isn) S ∧
    ∀ ack, OpConfirm ack ∈ ops → Z.min ack hi ≤ e.
Proof.
  intros Hn Hacks Hparts Hcons Hopen Hroom.
  destruct (exec_live ops (newReceiveWindow n) [] [] ch) as (w & d & Hex & He & Hpay & Hle & Hmax).
  - by apply live_new.
  - done.
  - done.
  - intros sub Hsub p q Hp Hq. apply Hcons; [destruct (Hsub p Hp); set_solver|destruct (Hsub q Hq); set_solver].
  - done.
  - change (len []) with 0. lia.
  - pose proof (next_byte_range _ He). exists w, d, (next_byte (expectBegin w)). split_and!; [done|lia|lia| |done].
    rewrite Hpay. unfold bytes_at, next_byte. simpl. by rewrite Z.sub_diag, zdrop_nonpos by lia.
Qed.
End live.

(** C3. During a live capture, where every acknowledgement is of bytes that
    were seen before, in whatever order and however often they arrived, one
    direction delivers exactly a prefix of the stream, and everything that was
    acknowledged is in it: no byte is lost, repeated or out of order.  The
    calls neither panic nor wait while the channel has room.  (Sequence
    numbers stay clear of the wrap-around; packets with one number carry one
    payload.) *)
Theorem window_delivers_acknowledged (S : list byte) (isn n : Z) (ops : list op) (ch : chan)
  (Hclear : clear_range isn (isn + len S + 1)) (Hn : 0 < n)
  (Hparts : ∀ p, OpInsert p ∈ ops → part_of S isn p) (Hcons : consistent_ops ops)
  (Hacks : acks_seen S isn [] ops)
  (Hopen : chan_closed ch = false) (Hroom : len (queue ch) + inserts ops ≤ capacity ch) :
  ∃ w d e, exec ops (newReceiveWindow n) ch = Done (w, sent ch d) ∧
    isn ≤ e ≤ isn + len S ∧ payloads d = ztake (e - isn) S ∧
    ∀ ack, OpConfirm ack ∈ ops → Z.min ack (isn + len S) ≤ e.
Proof. by apply exec_live_new. Qed.

(** A conversation of six bytes: a handshake, "ab", its acknowledgement, "ef"
    before "cde", a retransmission and the acknowledgement of the FIN. *)
Definition live_demo : list op :=
  [OpInsert (demo_packet 99999 []); OpConfirm 100000;
   OpInsert (demo_packet 100000 [Byte.x61; Byte.x62]); OpConfirm 100002;
   OpInsert (demo_packet 100004 [Byte.x65; Byte.x66]);
   OpInsert (demo_packet 100002 [Byte.x63; Byte.x64; Byte.x65]);
   OpInsert (demo_packet 100002 [Byte.x63; Byte.x64; Byte.x65]); OpConfirm 100007].

(** Decidable forms of the hypotheses. *)
Definition covers_all (seen : list TCP) (a b : Z) : bool :=
  forallb (λ i, existsb (λ p, (Seq p <=? a + Z.of_nat i) && (a + Z.of_nat i <? Seq p + len (Payload p))) seen) (seq 0 (Z.to_nat (b - a))).
Fixpoint acks_seen_bool (isn hi : Z) (seen : list TCP) (ops : list op) : bool :=
  match ops with
  | [] => true
  | OpInsert p :: ops => acks_seen_bool isn hi (p :: seen) ops
  | OpConfirm ack :: ops =>
      (isn <=? ack) && (ack <=? hi + 1) && covers_all seen isn (Z.min ack hi) && acks_seen_bool isn hi seen ops
  end.
Definition part_bool (S : list byte) (isn : Z) (p : TCP) : bool :=
  (len (Payload p) =? 0) ||
  ((isn <=? Seq p) && (Seq p + len (Payload p) <=? isn + len S) && (0 <? len (Payload p)) &&
   bool_decide (Payload p = bytes_at S isn (Seq p) (len (Payload p)))).
Definition op_packets (ops : list op) : list TCP := flat_map (λ o, match o with OpInsert p => [p] | OpConfirm _ => [] end) ops.
Definition consistent_bool (ps : list TCP) : bool :=
  forallb (λ p, forallb (λ q, negb (Seq p =? Seq q) || (len (Payload p) =? 0) || (len (Payload q) =? 0)
                               || bool_decide (Payload p = Payload q)) ps) ps.

Lemma covers_all_spec seen a b : covers_all seen a b = true → ∀ x, a ≤ x < b → ∃ p, p ∈ seen ∧ covers p x.
Proof.
  unfold covers_all. rewrite forallb_forall. intros H x Hx.
  specialize (H (Z.to_nat (x - a)) ltac:(apply in_seq; lia)). apply existsb_exists in H as (p & Hp & Hc).
  exists p. split; [by apply list_elem_of_In|]. zbool. unfold covers. lia.
Qed.
Lemma acks_seen_spec S isn ops : ∀ seen, acks_seen_bool isn (isn + len S) seen ops = true → acks_seen S isn seen ops.
Proof.
  induction ops as [|[p|ack] ops IH]; intros seen H; cbn [acks_seen acks_seen_bool] in *; [done|auto|].
  zbool. split_and!; [lia|lia| |auto]. by apply covers_all_spec.
Qed.
Lemma op_packets_in ops p : OpInsert p ∈ ops → p ∈ op_packets ops.
Proof. intros H. apply list_elem_of_In, in_flat_map. exists (OpInsert p). split; [by apply list_elem_of_In|by left]. Qed.
Lemma parts_spec S isn ops : forallb (part_bool S isn) (op_packets ops) = true → ∀ p, OpInsert p ∈ ops → part_of S isn p.
Proof.
  rewrite forallb_forall. intros H p Hp%op_packets_in%list_elem_of_In. specialize (H p Hp). unfold part_bool in H.
  apply orb_true_iff in H as [H|H]; [left; zbool; lia|right]. zbool. split; try lia. by apply bool_decide_eq_true in H0.
Qed.
Lemma consistent_spec ops : consistent_bool (op_packets ops) = true → consistent_ops ops.
Proof.
  unfold consistent_bool. rewrite forallb_forall. intros H p q Hp%op_packets_in%list_elem_of_In Hq%op_packets_in%list_elem_of_In Hs H1 H2.
  specialize (H p Hp). rewrite forallb_forall in H. specialize (H q Hq). apply orb_true_iff in H as [H|H]; [|by apply bool_decide_eq_true in H].
  apply orb_true_iff in H as [H|H]; [|zbool; lia]. apply orb_true_iff in H as [H|H]; zbool; lia.
Qed.

Lemma window_delivers_acknowledged_witness :
  ∃ w d e, exec live_demo (newReceiveWindow 64) demo_chan = Done (w, sent demo_chan d) ∧
    demo_isn ≤ e ≤ demo_isn + len demo_stream ∧ payloads d = ztake (e - demo_isn) demo_stream ∧
    ∀ ack, OpConfirm ack ∈ live_demo → Z.min ack (demo_isn + len demo_stream) ≤ e.
Proof.
  apply (window_delivers_acknowledged demo_stream demo_isn 64 live_demo demo_chan).
  - repeat split; vm_compute; congruence.
  - lia.
  - apply parts_spec. by vm_compute.
  - apply consistent_spec. by vm_compute.
  - apply acks_seen_spec. by vm_compute.
  - reflexivity.
  - vm_compute; congruence.
Defined.
