(* ===== verification/GoStrings.v ===== *)
(** * Strings

    Go strings are byte sequences.  This file has the functions of [strings],
    [strconv], [unicode] and [fmt] that the source uses, with the facts about
    them the components need. *)

From S2P Require Import Prelude GoBytes.

(** A Go string literal. *)
Definition gs (s : string) : list byte := String.list_byte_of_string s.

Definition str_eqb (a b : list byte) : bool := bool_decide (a = b).

Lemma str_eqb_spec a b : reflect (a = b) (str_eqb a b).
Proof. unfold str_eqb. destruct (bool_decide_reflect (a = b)); by constructor. Qed.
Lemma str_eqb_refl a : str_eqb a a = true.
Proof. by apply bool_decide_eq_true_2. Qed.

Lemma str_eqb_neq a b : a ≠ b → str_eqb a b = false.
Proof. by destruct (str_eqb_spec a b). Qed.

(** ** [strings] *)

Fixpoint HasPrefix (s prefix : list byte) : bool :=
  match prefix, s with
  | [], _ => true
  | p :: prefix, b :: s => Byte.eqb b p && HasPrefix s prefix
  | _ :: _, [] => false
  end.

Definition HasSuffix (s suffix : list byte) : bool := HasPrefix (rev s) (rev suffix).

(** [strings.TrimSuffix], [strings.TrimPrefix] *)
Definition TrimSuffix (s suffix : list byte) : list byte :=
  if HasSuffix s suffix then ztake (len s - len suffix) s else s.
Definition TrimPrefix (s prefix : list byte) : list byte :=
  if HasPrefix s prefix then zdrop (len prefix) s else s.

(** [strings.Index]: the first occurrence, or -1. *)
Fixpoint Index (s sep : list byte) : Z :=
  if HasPrefix s sep then 0
  else match s with
       | [] => -1
       | _ :: s => let i := Index s sep in if i <? 0 then -1 else i + 1
       end.

(** [strings.Contains] *)
Definition Contains (s sep : list byte) : bool := 0 <=? Index s sep.

(** [strings.TrimRight(s, cutset)] for an ASCII cutset. *)
Fixpoint trim_left_set (set : list byte) (s : list byte) : list byte :=
  match s with
  | [] => []
  | b :: s' => if bool_decide (b ∈ set) then trim_left_set set s' else s
  end.
Definition TrimRight (s set : list byte) : list byte := rev (trim_left_set set (rev s)).
Definition crlf : list byte := [Byte.x0d; Byte.x0a].

Fixpoint Join (l : list (list byte)) (sep : list byte) : list byte :=
  match l with
  | [] => []
  | [s] => s
  | s :: l => s ++ sep ++ Join l sep
  end.

(** [strings.LastIndex]: the last occurrence, or -1. *)
Fixpoint LastIndex (s sep : list byte) : Z :=
  match s with
  | [] => if HasPrefix [] sep then 0 else -1
  | _ :: s' =>
      let i := LastIndex s' sep in
      if 0 <=? i then i + 1 else if HasPrefix s sep then 0 else -1
  end.

(** Lexicographic order of strings, [a < b]. *)
Fixpoint str_ltb (a b : list byte) : bool :=
  match a, b with
  | _, [] => false
  | [], _ :: _ => true
  | x :: a, y :: b => (bz x <? bz y) || ((bz x =? bz y) && str_ltb a b)
  end.

Lemma HasPrefix_app s t : HasPrefix (s ++ t) s = true.
Proof. induction s as [|b s IH]; simpl; [by destruct t|]. by rewrite Byte.byte_dec_lb, IH. Qed.

Lemma HasPrefix_spec s p : HasPrefix s p = true ↔ ∃ t, s = p ++ t.
Proof.
  split; [|intros [t ->]; apply HasPrefix_app].
  revert s. induction p as [|x p IH]; intros s; [by exists s|].
  destruct s as [|b s]; [discriminate|]. simpl. intros H. apply andb_true_iff in H as [H1 H2].
  apply Byte.byte_dec_bl in H1 as ->. destruct (IH _ H2) as [t ->]. by exists t.
Qed.

Lemma trim_left_set_id set s : match s with [] => True | b :: _ => b ∉ set end →
  trim_left_set set s = s.
Proof. destruct s as [|b s]; [done|]. intros H. simpl. by rewrite bool_decide_eq_false_2. Qed.

Lemma trim_left_set_app set t s : Forall (λ b, b ∈ set) t → trim_left_set set (t ++ s) = trim_left_set set s.
Proof. induction 1; simpl; [done|]. by rewrite bool_decide_eq_true_2. Qed.

(** A line whose last byte is not CR or LF loses exactly its terminator. *)
Lemma TrimRight_crlf s t : Forall (λ b, b ∈ crlf) t →
  match last s with None => True | Some b => b ∉ crlf end →
  TrimRight (s ++ t) crlf = s.
Proof.
  intros Ht Hs. unfold TrimRight. rewrite rev_app_distr, trim_left_set_app.
  - rewrite trim_left_set_id; [by rewrite rev_involutive|].
    destruct s as [|b s _] using rev_ind; [done|]. rewrite last_snoc in Hs.
    by rewrite rev_app_distr.
  - rewrite Forall_forall in *. intros b Hb. apply Ht.
    rewrite list_elem_of_In in *. by apply in_rev.
Qed.

Lemma str_ltb_irrefl a : str_ltb a a = false.
Proof. induction a; simpl; [done|]. rewrite Z.ltb_irrefl, Z.eqb_refl. done. Qed.

Lemma str_ltb_antisym a b : a ≠ b → str_ltb b a = negb (str_ltb a b).
Proof.
  revert b; induction a as [|x a IH]; intros [|y b] H; simpl; try done.
  destruct (Z.ltb_spec (bz x) (bz y)), (Z.ltb_spec (bz y) (bz x)),
    (Z.eqb_spec (bz x) (bz y)), (Z.eqb_spec (bz y) (bz x)); simpl; try lia; try done.
  apply IH. intros ->. apply H. f_equal. by apply bz_inj.
Qed.

(** ** [strconv] and [%d], [%x] *)

Definition digit_byte (d : Z) : byte := to_byte (if d <? 10 then 48 + d else 87 + d).

(** The digits of [n >= 0] in base [b >= 2]; [n] has at most [log2 n + 1]. *)
Fixpoint digits (b : Z) (fuel : nat) (n : Z) : list byte :=
  match fuel with
  | O => []
  | S fuel =>
      if n <? b then [digit_byte n] else digits b fuel (n / b) ++ [digit_byte (n mod b)]
  end.
Definition fmt_uint (b n : Z) : list byte := digits b (S (Z.to_nat (Z.log2 n))) n.
Definition fmt_int (b n : Z) : list byte :=
  if n <? 0 then Byte.x2d :: fmt_uint b (- n) else fmt_uint b n.

(** [strconv.Itoa], [%d] *)
Definition Itoa (n : Z) : list byte := fmt_int 10 n.
(** [%x] of an integer, [%02x] of a byte, [%x] of a byte slice. *)
Definition fmt_x (n : Z) : list byte := fmt_int 16 n.
Definition fmt_02x (n : Z) : list byte := [digit_byte (n / 16); digit_byte (n mod 16)].
Definition fmt_x_bytes (s : list byte) : list byte := concat (map (λ b, fmt_02x (bz b)) s).

Definition is_digit (b : byte) : bool := (48 <=? bz b) && (bz b <=? 57).

Fixpoint parse_digits (acc : Z) (s : list byte) : option Z :=
  match s with
  | [] => Some acc
  | b :: s => if is_digit b then parse_digits (acc * 10 + (bz b - 48)) s else None
  end.

(** [strconv.Atoi(s)] and [strconv.ParseInt(s, 10, 64)]: an optional sign, at
    least one digit, and a value in the range of int64; [None] is an error. *)
Definition Atoi (s : list byte) : option Z :=
  let '(neg, ds) :=
    match s with
    | b :: s' => if beq b 45 then (true, s') else if beq b 43 then (false, s') else (false, s)
    | [] => (false, s)
    end in
  match ds with
  | [] => None
  | _ =>
      match parse_digits 0 ds with
      | None => None
      | Some n =>
          let n := if neg : bool then - n else n in
          if (- 2 ^ 63 <=? n) && (n <? 2 ^ 63) then Some n else None
      end
  end.

Lemma digits_nonnil b fuel n : digits b (S fuel) n ≠ [].
Proof. simpl. destruct (n <? b); [done|]. by destruct (digits b fuel (n / b)). Qed.

Lemma digit_byte_digit d : 0 ≤ d < 10 → is_digit (digit_byte d) = true ∧ bz (digit_byte d) = 48 + d.
Proof.
  intros Hd. unfold digit_byte, is_digit. destruct (Z.ltb_spec d 10); [|lia].
  rewrite bz_to_byte_small by lia. destruct (Z.leb_spec 48 (48 + d)), (Z.leb_spec (48 + d) 57); lia || done.
Qed.

Lemma parse_digits_app s t acc :
  parse_digits acc (s ++ t) = match parse_digits acc s with Some a => parse_digits a t | None => None end.
Proof.
  revert acc. induction s as [|b s IH]; intros acc; simpl; [done|]. destruct (is_digit b); auto.
Qed.

Lemma digits_parse fuel n : 0 ≤ n < 2 ^ Z.of_nat fuel →
  parse_digits 0 (digits 10 fuel n) = Some n ∧ Forall (λ b, is_digit b = true) (digits 10 fuel n).
Proof.
  revert n. induction fuel as [|fuel IH]; intros n Hn.
  { change (2 ^ Z.of_nat 0) with 1 in Hn. simpl. split; [f_equal; lia|constructor]. }
  cbn [digits]. rewrite Nat2Z.inj_succ, Z.pow_succ_r in Hn by lia.
  destruct (Z.ltb_spec n 10).
  - destruct (digit_byte_digit n) as [H1 H2]; [lia|]. simpl. rewrite H1, H2.
    split; [f_equal; lia|by repeat constructor].
  - pose proof (Z.mod_pos_bound n 10 ltac:(lia)).
    pose proof (Z.div_mod n 10 ltac:(lia)) as Hdm.
    destruct (IH (n / 10)) as [H1 H2]; [lia|].
    destruct (digit_byte_digit (n mod 10)) as [H3 H4]; [lia|].
    rewrite parse_digits_app, H1. simpl. rewrite H3, H4. split; [f_equal; lia|].
    apply Forall_app. split; [done|by repeat constructor].
Qed.

Lemma fmt_uint_parse n : 0 ≤ n →
  parse_digits 0 (fmt_uint 10 n) = Some n ∧ Forall (λ b, is_digit b = true) (fmt_uint 10 n).
Proof.
  intros Hn. apply digits_parse. split; [lia|].
  destruct (Z.eq_dec n 0) as [->|]; [simpl; lia|].
  pose proof (Z.log2_spec n ltac:(lia)) as [_ Hl]. pose proof (Z.log2_nonneg n).
  rewrite Nat2Z.inj_succ, Z2Nat.id by lia. done.
Qed.

Lemma fmt_uint_nonnil b n : fmt_uint b n ≠ [].
Proof. apply digits_nonnil. Qed.

(** Printing and parsing an int64 is the identity. *)
Lemma Atoi_Itoa n : - 2 ^ 63 ≤ n < 2 ^ 63 → Atoi (Itoa n) = Some n.
Proof.
  intros Hn. unfold Itoa, fmt_int, Atoi. destruct (Z.ltb_spec n 0).
  - cbn [beq]. change (beq Byte.x2d 45) with true. cbv iota.
    destruct (fmt_uint_parse (- n)) as [H1 _]; [lia|].
    pose proof (fmt_uint_nonnil 10 (- n)). destruct (fmt_uint 10 (- n)); [done|].
    rewrite H1, Z.opp_involutive.
    destruct (Z.leb_spec (- 2 ^ 63) n), (Z.ltb_spec n (2 ^ 63)); lia || done.
  - destruct (fmt_uint_parse n) as [H1 H2]; [lia|].
    pose proof (fmt_uint_nonnil 10 n). destruct (fmt_uint 10 n) as [|b s]; [done|].
    inversion H2 as [|? ? Hb _]; subst. unfold is_digit in Hb. zbool. unfold beq.
    destruct (Z.eqb_spec (bz b) 45); [lia|]. destruct (Z.eqb_spec (bz b) 43); [lia|].
    rewrite H1. destruct (Z.leb_spec (- 2 ^ 63) n), (Z.ltb_spec n (2 ^ 63)); lia || done.
Qed.

Lemma Itoa_inj a b : 0 ≤ a → 0 ≤ b → Itoa a = Itoa b → a = b.
Proof.
  intros Ha Hb. unfold Itoa, fmt_int.
  destruct (Z.ltb_spec a 0), (Z.ltb_spec b 0); try lia. intros H1.
  destruct (fmt_uint_parse a Ha) as [H2 _], (fmt_uint_parse b Hb) as [H3 _].
  rewrite H1 in H2. congruence.
Qed.

Lemma Itoa_digits n : 0 ≤ n → Forall (λ b, is_digit b = true) (Itoa n) ∧ Itoa n ≠ [].
Proof.
  intros Hn. unfold Itoa, fmt_int. destruct (Z.ltb_spec n 0); [lia|].
  split; [by apply fmt_uint_parse|apply fmt_uint_nonnil].
Qed.
Lemma log2_div_10 n : 10 ≤ n → 0 ≤ Z.log2 (n / 10) < Z.log2 n.
Proof.
  intros Hn. split; [apply Z.log2_nonneg|]. apply Z.log2_lt_pow2; [apply Z.div_str_pos; lia|]. apply Z.div_lt_upper_bound; [lia|].
  pose proof (Z.log2_spec n ltac:(lia)) as [_ Hs]. rewrite Z.pow_succ_r in Hs by apply Z.log2_nonneg. lia.
Qed.
Lemma digits_fuel f1 : ∀ f2 m, (Z.to_nat (Z.log2 m) < f1)%nat → (Z.to_nat (Z.log2 m) < f2)%nat → 0 ≤ m → digits 10 f1 m = digits 10 f2 m.
Proof.
  induction f1 as [|f1 IH]; intros [|f2] m H1 H2 Hm; try lia. cbn [digits]. destruct (Z.ltb_spec m 10); [done|].
  pose proof (log2_div_10 m ltac:(lia)). f_equal. apply IH; [lia..|]. apply Z.div_pos; lia.
Qed.
(** The number of digits. *)
Lemma Itoa_len n : 0 ≤ n → (n < 10 ∧ len (Itoa n) = 1) ∨ (10 ≤ n ∧ len (Itoa n) = 1 + len (Itoa (n / 10))).
Proof.
  intros Hn. unfold Itoa, fmt_int. destruct (Z.ltb_spec n 0); [lia|]. pose proof (Z.div_pos n 10 Hn ltac:(lia)).
  destruct (Z.ltb_spec (n / 10) 0); [lia|]. unfold fmt_uint at 1 2. cbn [digits]. destruct (Z.ltb_spec n 10); [by left|right].
  split; [done|]. rewrite len_app. change (len [_]) with 1. rewrite Z.add_comm. unfold fmt_uint. do 2 f_equal.
  pose proof (log2_div_10 n ltac:(lia)). apply digits_fuel; lia.
Qed.

(** A Go map from integers to strings that is never written, as a literal. *)
Fixpoint assoc (k : Z) (l : list (Z * list byte)) : option (list byte) :=
  match l with
  | [] => None
  | (k', v) :: l => if k =? k' then Some v else assoc k l
  end.

(** [%v] of a bool *)
Definition fmt_bool (b : bool) : list byte := if b then gs "true" else gs "false".

(** ** Searching for a single byte *)

Lemma byte_eqb_refl b : Byte.eqb b b = true.
Proof. by apply Byte.byte_dec_lb. Qed.
Lemma byte_eqb_neq a b : a ≠ b → Byte.eqb a b = false.
Proof. intros H. destruct (Byte.eqb a b) eqn:E; [|done]. by apply Byte.byte_dec_bl in E. Qed.

Lemma HasPrefix_byte s d : HasPrefix s [d] = match s with b :: _ => Byte.eqb b d | [] => false end.
Proof. destruct s as [|b s]; simpl; [done|]. destruct s; by rewrite andb_true_r. Qed.
Lemma HasSuffix_snoc s b d : HasSuffix (s ++ [b]) [d] = Byte.eqb b d.
Proof. unfold HasSuffix. rewrite rev_app_distr. apply HasPrefix_byte. Qed.
Lemma HasSuffix_byte s d : HasSuffix s [d] = true ↔ ∃ t, s = t ++ [d].
Proof.
  split.
  - destruct s as [|b s _] using rev_ind; [done|]. rewrite HasSuffix_snoc. intros H.
    apply Byte.byte_dec_bl in H as ->. by exists s.
  - intros [t ->]. rewrite HasSuffix_snoc. apply byte_eqb_refl.
Qed.
Lemma TrimSuffix_snoc s b d : TrimSuffix (s ++ [b]) [d] = if Byte.eqb b d then s else s ++ [b].
Proof.
  unfold TrimSuffix. rewrite HasSuffix_snoc. destruct (Byte.eqb b d); [|done].
  apply ztake_app_eq. len_simpl. lia.
Qed.

Lemma Index_absent s d : d ∉ s → Index s [d] = -1.
Proof.
  induction s as [|b s IH]; intros Hd; [done|]. apply not_elem_of_cons in Hd as [Hb Hs].
  cbn [Index]. rewrite HasPrefix_byte, byte_eqb_neq by done. by rewrite IH.
Qed.
Lemma Index_first s d t : d ∉ s → Index (s ++ d :: t) [d] = len s.
Proof.
  induction s as [|b s IH]; intros Hd; cbn [app Index]; rewrite HasPrefix_byte.
  - by rewrite byte_eqb_refl.
  - apply not_elem_of_cons in Hd as [Hb Hs]. rewrite byte_eqb_neq by done. cbn zeta.
    rewrite IH by done. pose proof (len_nonneg s). destruct (Z.ltb_spec (len s) 0); [lia|]. len_simpl. lia.
Qed.
Lemma Contains_absent s d : d ∉ s → Contains s [d] = false.
Proof. intros. unfold Contains. by rewrite Index_absent. Qed.
Lemma Contains_first s d t : d ∉ s → Contains (s ++ d :: t) [d] = true.
Proof.
  intros. unfold Contains. rewrite Index_first by done. pose proof (len_nonneg s).
  by destruct (Z.leb_spec 0 (len s)); [|lia].
Qed.
(** A byte that occurs has a first occurrence. *)
Lemma first_byte (s : list byte) d : d ∈ s → ∃ x y, s = x ++ d :: y ∧ d ∉ x.
Proof.
  induction s as [|b s IH]; intros H; [by apply elem_of_nil in H|].
  destruct (decide (b = d)) as [->|Hb]; [exists [], s; split; [done|apply not_elem_of_nil]|].
  apply elem_of_cons in H as [?|H]; [by destruct Hb|]. destruct (IH H) as (x & y & -> & Hx).
  exists (b :: x), y. split; [done|]. apply not_elem_of_cons. split; [by intros ->|done].
Qed.

(** A byte that is neither a digit nor a sign makes [ParseInt] fail. *)
Lemma parse_digits_bad s acc b : b ∈ s → is_digit b = false → parse_digits acc s = None.
Proof.
  intros Hin Hb. revert acc. induction s as [|x s IH]; intros acc; [by apply elem_of_nil in Hin|].
  cbn [parse_digits]. apply elem_of_cons in Hin as [<-|Hin]; [by rewrite Hb|].
  destruct (is_digit x); [by apply IH|done].
Qed.
Lemma Atoi_bad s b : b ∈ s → is_digit b = false → beq b 45 = false → beq b 43 = false → Atoi s = None.
Proof.
  intros Hin Hb H1 H2. unfold Atoi. destruct s as [|x s]; [done|].
  destruct (beq x 45) eqn:E1; [|destruct (beq x 43) eqn:E2].
  3:{ by rewrite (parse_digits_bad _ 0 b Hin Hb). }
  all: apply elem_of_cons in Hin as [->|Hin]; [congruence|].
  all: destruct s; [done|]; by rewrite (parse_digits_bad _ 0 b Hin Hb).
Qed.

Lemma Index_bounds s sep : Index s sep = -1 ∨ 0 ≤ Index s sep ∧ Index s sep + len sep ≤ len s.
Proof.
  induction s as [|b s IH]; cbn [Index]; destruct (HasPrefix _ sep) eqn:E.
  1,3: right; apply HasPrefix_spec in E as [t ->]; len_lia.
  - by left.
  - cbv zeta. rewrite len_cons. destruct IH as [-> | [H1 H2]]; [by left|].
    destruct (Z.ltb_spec (Index s sep) 0); [by left|right; lia].
Qed.
Lemma LastIndex_absent s d : d ∉ s → LastIndex s [d] = -1.
Proof.
  induction s as [|b s IH]; intros Hd; [done|]. apply not_elem_of_cons in Hd as [Hb Hs]. cbn [LastIndex]. rewrite IH by done.
  change (0 <=? -1) with false. cbv iota zeta. by rewrite HasPrefix_byte, byte_eqb_neq by done.
Qed.
Lemma LastIndex_last s d t : d ∉ t → LastIndex (s ++ d :: t) [d] = len s.
Proof.
  intros Hd. induction s as [|b s IH].
  - cbn [app LastIndex]. rewrite LastIndex_absent by done. change (0 <=? -1) with false. cbv iota zeta. by rewrite HasPrefix_byte, byte_eqb_refl.
  - cbn [app LastIndex]. rewrite IH. cbv zeta. pose proof (len_nonneg s). rewrite len_cons.
    destruct (Z.leb_spec 0 (len s)); [lia|lia].
Qed.

(** The value of [strconv.Atoi(s)] whatever the error: 0 for a text that is no
    number, the nearest int64 for one out of range. *)
Definition Atoi_value (s : list byte) : Z :=
  let '(neg, ds) :=
    match s with
    | b :: s' => if beq b 45 then (true, s') else if beq b 43 then (false, s') else (false, s)
    | [] => (false, s)
    end in
  match ds with
  | [] => 0
  | _ =>
      match parse_digits 0 ds with
      | None => 0
      | Some n => Z.max (- 2 ^ 63) (Z.min (2 ^ 63 - 1) (if neg : bool then - n else n))
      end
  end.
Lemma Atoi_value_Some s n : Atoi s = Some n → Atoi_value s = n.
Proof.
  unfold Atoi, Atoi_value. destruct (match s with [] => _ | _ => _ end) as [neg ds]. destruct ds; [done|].
  destruct (parse_digits _ _) as [k|]; [|done]. cbv zeta. destruct (_ && _) eqn:E; [|done]. zbool. intros [= <-]. lia.
Qed.

(** [strings.Split(s, sep)] for one byte. *)
Fixpoint Split (s : list byte) (sep : byte) : list (list byte) :=
  match s with
  | [] => [[]]
  | b :: s =>
      if Byte.eqb b sep then [] :: Split s sep
      else match Split s sep with
           | p :: ps => (b :: p) :: ps
           | [] => [[b]]
           end
  end.
Lemma Split_nonnil s sep : Split s sep ≠ [].
Proof. induction s as [|b s IH]; [done|]. cbn. destruct (Byte.eqb b sep); [done|]. by destruct (Split s sep). Qed.
Lemma Split_absent s sep : sep ∉ s → Split s sep = [s].
Proof.
  induction s as [|b s IH]; intros Hs; [done|]. apply not_elem_of_cons in Hs as [Hb Hs]. cbn.
  by rewrite byte_eqb_neq, IH by done.
Qed.
Lemma Split_first a sep b : sep ∉ a → Split (a ++ sep :: b) sep = a :: Split b sep.
Proof.
  induction a as [|c a IH]; intros Ha; cbn [app Split]; [by rewrite byte_eqb_refl|].
  apply not_elem_of_cons in Ha as [Hc Ha]. by rewrite byte_eqb_neq, IH by done.
Qed.

(** The entries of a map in the order of the keys. *)
Fixpoint insert_entry {A} (kv : list byte * A) (l : list (list byte * A)) : list (list byte * A) :=
  match l with
  | [] => [kv]
  | kv' :: l' => if str_ltb kv.1 kv'.1 then kv :: l else kv' :: insert_entry kv l'
  end.
Definition sorted_entries {A} (m : gmap (list byte) A) : list (list byte * A) :=
  fold_right insert_entry [] (map_to_list m).

(** The order in which a map is ranged over: any order of its entries. *)
Class MapOrder := { range_map : gmap (list byte) (list byte) → list (list byte * list byte) }.
Class MapOrder_ok `{MapOrder} := { range_map_Permutation m : range_map m ≡ₚ map_to_list m }.

(** One such order. *)
Definition list_order : MapOrder := {| range_map := map_to_list |}.
Lemma list_order_ok : @MapOrder_ok list_order.
Proof. by split. Qed.
