(* ===== verification/Reader.v ===== *)
(** * Readers

    The interface [io.Reader] as a type class with the law its users rely on,
    [io.ReadFull] and [DiscardAll] over it, and the parser monad in which the
    protocol readers are written. *)

From S2P Require Import Prelude GoBytes Window.

(** Go errors, with the text that [%w] and [%s] give them. *)
Inductive error : Type :=
| EOF
| ErrUnexpectedEOF
| ErrText (msg : list byte)
| ErrWrap (prefix : list byte) (e : error).

#[export] Instance error_eq_dec : EqDecision error.
Proof. solve_decision. Defined.

(** ** [io.Reader] *)

(** [Read(p)] with [len(p) = n]: the bytes copied to [p], the error, and the
    reader afterwards. *)
Class io_Reader (R : Type) := {
  rd_Read : R → Z → sched (list byte * option error * R);
}.

(** The law: once its producer has finished ([ready]), a reader is a finite
    sequence of bytes ([pending]); a call returns a prefix of it, non-empty
    when there is one and the buffer is not empty, and [io.EOF] at the end. *)
Class io_Reader_ok (R : Type) `{io_Reader R} := {
  ready : R → Prop;
  pending : R → list byte;
  rd_eof : ∀ r n, ready r → pending r = [] →
    ∃ r', rd_Read r n = Done ([], Some EOF, r') ∧ ready r' ∧ pending r' = [];
  rd_some : ∀ r n, ready r → 0 ≤ n → pending r ≠ [] →
    ∃ b r', rd_Read r n = Done (b, None, r') ∧ ready r' ∧
      pending r = b ++ pending r' ∧ len b ≤ n ∧ (0 < n → b ≠ []);
}.

(** [io.ReadFull(r, buf)] with [len(buf) = n] ([io.ReadAtLeast]'s loop; every
    iteration but the last reads a byte, so [n + 1] iterations are enough). *)
Fixpoint ReadFull_loop {R} `{io_Reader R} (fuel : nat) (r : R) (n : Z) (acc : list byte)
  : sched (list byte * option error * R) :=
  match fuel with
  | O => Blocked
  | S fuel =>
      if len acc <? n then
        '(b, err, r) ← rd_Read r (n - len acc);
        match err with
        | None => ReadFull_loop fuel r n (acc ++ b)
        | Some e =>
            let acc := acc ++ b in
            if n <=? len acc then Done (acc, None, r)
            else if decide (acc ≠ [] ∧ e = EOF) then Done (acc, Some ErrUnexpectedEOF, r)
            else Done (acc, Some e, r)
        end
      else Done (acc, None, r)
  end.

Definition ReadFull {R} `{io_Reader R} (r : R) (n : Z) : sched (list byte * option error * R) :=
  ReadFull_loop (S (Z.to_nat n)) r n [].

(** The same on the bytes that are left. *)
Definition read_full (n : Z) (s : list byte) : list byte * option error * list byte :=
  if n <=? len s then (ztake n s, None, zdrop n s)
  else (s, Some (if decide (s = []) then EOF else ErrUnexpectedEOF), []).

(** [DiscardAll(r)] of src/tcpport/text.go: read until an error, counting. *)
Fixpoint DiscardAll {R} `{io_Reader R} (fuel : nat) (r : R) (n : Z) : sched (Z * R) :=
  match fuel with
  | O => Blocked
  | S fuel =>
      '(b, err, r) ← rd_Read r 32768;
      let n := n + len b in
      match err with
      | Some _ => Done (n, r)
      | None => DiscardAll fuel r n
      end
  end.

Section readers.
Context {R : Type} `{io_Reader_ok R}.

Lemma ReadFull_loop_spec fuel : ∀ r n acc,
  ready r → len acc ≤ n → (Z.to_nat (n - len acc) < fuel)%nat →
  acc = [] ∨ acc ≠ [] →
  ∃ r', ready r' ∧
    let '(b, err, rest) := read_full (n - len acc) (pending r) in
    ReadFull_loop fuel r n acc =
      Done (acc ++ b, (if err then Some (if decide (acc ++ b = []) then EOF else ErrUnexpectedEOF)
                       else None), r') ∧
    pending r' = rest.
Proof.
  induction fuel as [|fuel IH]; intros r n acc Hr Hle Hf Hacc; [lia|].
  cbn [ReadFull_loop]. unfold read_full.
  destruct (Z.ltb_spec (len acc) n) as [Hlt|Hge].
  2:{ exists r. split; [done|]. replace (n - len acc) with 0 by lia.
      destruct (Z.leb_spec 0 (len (pending r))) as [|Hneg];
        [|pose proof (len_nonneg (pending r)); lia].
      rewrite ztake_nonpos, zdrop_nonpos, app_nil_r by lia. done. }
  destruct (decide (pending r = [])) as [Hnil|Hne].
  - destruct (rd_eof r (n - len acc) Hr Hnil) as (r' & -> & Hr' & Hp'). simpl.
    exists r'. split; [done|]. rewrite Hnil. change (len []) with 0.
    destruct (Z.leb_spec (n - len acc) 0); [lia|]. rewrite !app_nil_r.
    destruct (Z.leb_spec n (len acc)); [lia|]. split; [|done].
    destruct (decide (acc = [])) as [->|Ha];
      destruct (decide _) as [[? ?]|Hd]; try done. by destruct Hd.
  - destruct (rd_some r (n - len acc) Hr ltac:(lia) Hne) as (b & r' & -> & Hr' & Hp & Hb & Hbne).
    simpl. specialize (Hbne ltac:(lia)).
    assert (0 < len b) by (destruct b; [done|rewrite len_cons; pose proof (len_nonneg b0); lia]).
    destruct (IH r' n (acc ++ b) Hr') as (r2 & Hr2 & IH');
      [len_simpl; lia|len_simpl; lia|destruct acc; [by destruct b; [left|right]|by right]|].
    exists r2. split; [done|]. rewrite Hp. unfold read_full in IH'. len_simpl.
    destruct (Z.leb_spec (n - (len acc + len b)) (len (pending r'))),
      (Z.leb_spec (n - len acc) (len b + len (pending r'))); try lia;
      destruct IH' as [-> IH2].
    + rewrite <-!app_assoc. split.
      * do 3 f_equal. unfold ztake. replace (Z.to_nat (n - len acc)) with
          (length b + Z.to_nat (n - (len acc + len b)))%nat by (rewrite !len_length in *; lia).
        by rewrite take_app_add.
      * rewrite IH2. unfold zdrop. replace (Z.to_nat (n - len acc)) with
          (length b + Z.to_nat (n - (len acc + len b)))%nat by (rewrite !len_length in *; lia).
        by rewrite drop_app_add.
    + rewrite <-!app_assoc. done.
Qed.

(** [io.ReadFull] over any lawful reader is [read_full] on its bytes. *)
Lemma ReadFull_spec r n : ready r → 0 ≤ n →
  ∃ r', ready r' ∧
    let '(b, err, rest) := read_full n (pending r) in
    ReadFull r n = Done (b, err, r') ∧ pending r' = rest.
Proof.
  intros Hr Hn. destruct (ReadFull_loop_spec (S (Z.to_nat n)) r n [] Hr) as (r' & Hr' & Hf).
  { change (len []) with 0. lia. } { change (len []) with 0. lia. } { by left. }
  exists r'. split; [done|]. change (len []) with 0 in Hf. rewrite Z.sub_0_r in Hf.
  unfold ReadFull, read_full in *. destruct (Z.leb_spec n (len (pending r))); [done|].
  cbn [app] in Hf. destruct Hf as [-> ->]. done.
Qed.

Lemma DiscardAll_spec fuel : ∀ r n, ready r → (length (pending r) < fuel)%nat →
  ∃ r', DiscardAll fuel r n = Done (n + len (pending r), r') ∧ ready r' ∧ pending r' = [].
Proof.
  induction fuel as [|fuel IH]; intros r n Hr Hf; [lia|]. cbn [DiscardAll].
  destruct (decide (pending r = [])) as [Hnil|Hne].
  - destruct (rd_eof r 32768 Hr Hnil) as (r' & -> & Hr' & Hp'). simpl. rewrite Hnil.
    by exists r'.
  - destruct (rd_some r 32768 Hr ltac:(lia) Hne) as (b & r' & -> & Hr' & Hp & _ & Hb).
    simpl. specialize (Hb ltac:(lia)). rewrite Hp, length_app in Hf.
    destruct b as [|x b]; [done|]. simpl in Hf.
    destruct (IH r' (n + len (x :: b)) Hr' ltac:(lia)) as (r2 & -> & Hr2 & Hp2).
    exists r2. rewrite Hp, len_app. split_and!; [|done|done]. do 2 f_equal. lia.
Qed.
End readers.

(** ** Parsers

    A protocol reader consumes bytes of its (buffered) reader and returns a
    value, returns an error, or panics; [Spin] is a loop of the model that has
    used up its fuel, which the theorems exclude. *)
Inductive result (A : Type) : Type :=
| Got (a : A) (rest : list byte)
| Fail (e : error) (rest : list byte)
| Panicked
| Spin.
Arguments Got {A} a rest.
Arguments Fail {A} e rest.
Arguments Panicked {A}.
Arguments Spin {A}.

Definition parser (A : Type) : Type := list byte → result A.

#[export] Instance parser_ret : MRet parser := fun A a s => Got a s.
#[export] Instance parser_bind : MBind parser := fun A B f m s =>
  match m s with
  | Got a rest => f a rest
  | Fail e rest => Fail e rest
  | Panicked => Panicked
  | Spin => Spin
  end.

(** [return nil, err] *)
Definition throw {A} (e : error) : parser A := fun s => Fail e s.
(** A Go expression evaluated by a parser. *)
Definition lift {A} (m : go A) : parser A := fun s =>
  match m with Ret a => Got a s | Panic => Panicked end.
Definition liftc {A} (m : comp A) : parser A := fun s =>
  match m with Val a => Got a s | Crashed => Panicked | NoFuel => Spin end.
(** A call whose error is inspected by the caller. *)
Definition try {A} (m : parser A) : parser (A + error) := fun s =>
  match m s with
  | Got a rest => Got (inl a) rest
  | Fail e rest => Got (inr e) rest
  | Panicked => Panicked
  | Spin => Spin
  end.
Definition spin {A} : parser A := fun _ => Spin.

(** [buf := make([]byte, n); io.ReadFull(r, buf)], any error returned. *)
Definition read_n (n : Z) : parser (list byte) := fun s =>
  if make_ok n 1 then
    match read_full n s with
    | (b, None, rest) => Got b rest
    | (_, Some e, rest) => Fail e rest
    end
  else Panicked.

(** [fmt.Errorf("...: %w", err)] around the error of a call. *)
Definition wrap {A} (prefix : list byte) (m : parser A) : parser A := fun s =>
  match m s with Fail e rest => Fail (ErrWrap prefix e) rest | r => r end.

Definition newline : byte := Byte.x0a.

(** [r.ReadString('\n')]: up to and including the delimiter; at the end of the
    input without one, [io.EOF] (the bytes read are dropped by every caller). *)
Fixpoint split_line (s : list byte) : option (list byte * list byte) :=
  match s with
  | [] => None
  | b :: s =>
      if Byte.eqb b newline then Some ([b], s)
      else match split_line s with
           | Some (l, rest) => Some (b :: l, rest)
           | None => None
           end
  end.
Definition read_string : parser (list byte) := fun s =>
  match split_line s with
  | Some (l, rest) => Got l rest
  | None => Fail EOF []
  end.

Lemma bind_Got {A B} (m : parser A) (f : A → parser B) s a rest :
  m s = Got a rest → (m ≫= f) s = f a rest.
Proof. intros H. unfold mbind, parser_bind. by rewrite H. Qed.

Lemma read_n_app n b s : n = len b → n ≤ max_alloc → read_n n (b ++ s) = Got b s.
Proof.
  intros -> Hn. unfold read_n, make_ok. pose proof (len_nonneg b). pose proof (len_nonneg s).
  destruct (Z.leb_spec 0 (len b)), (Z.leb_spec (len b * 1) max_alloc); try lia. cbn [andb].
  unfold read_full. rewrite len_app. destruct (Z.leb_spec (len b) (len b + len s)); [|lia].
  by rewrite ztake_app_eq, zdrop_app_eq by done.
Qed.

(** What [read_n] can do: bytes of the requested length, or an error at the
    end of the input. *)
Lemma read_n_cases n s : 0 ≤ n ≤ max_alloc →
  (∃ b rest, read_n n s = Got b rest ∧ s = b ++ rest ∧ len b = n) ∨
  (∃ e, read_n n s = Fail e [] ∧ len s < n ∧ e = if decide (s = []) then EOF else ErrUnexpectedEOF).
Proof.
  intros Hn. unfold read_n, make_ok.
  destruct (Z.leb_spec 0 n), (Z.leb_spec (n * 1) max_alloc); try lia. cbn [andb].
  unfold read_full. destruct (Z.leb_spec n (len s)).
  - left. eexists _, _. split; [done|]. rewrite ztake_zdrop. split; [done|len_simpl; lia].
  - right. eexists. split_and!; [done|done|done].
Qed.

Lemma read_n_bad n s : n < 0 ∨ max_alloc < n → read_n n s = Panicked.
Proof.
  intros Hn. unfold read_n, make_ok.
  destruct (Z.leb_spec 0 n), (Z.leb_spec (n * 1) max_alloc); try lia; done.
Qed.

Lemma split_line_app l rest : newline ∉ l → split_line (l ++ newline :: rest) = Some (l ++ [newline], rest).
Proof.
  induction l as [|b l IH]; intros Hl; simpl; [done|].
  destruct (Byte.eqb b newline) eqn:E.
  - apply Byte.byte_dec_bl in E. set_solver.
  - rewrite IH by set_solver. done.
Qed.

Lemma split_line_inv s l rest : split_line s = Some (l, rest) →
  s = l ++ rest ∧ ∃ l', l = l' ++ [newline] ∧ newline ∉ l'.
Proof.
  revert l rest. induction s as [|b s IH]; intros l rest; simpl; [discriminate|].
  destruct (Byte.eqb b newline) eqn:E.
  - apply Byte.byte_dec_bl in E as ->. intros [= <- <-]. split; [done|].
    exists []. split; [done|set_solver].
  - destruct (split_line s) as [[l0 r0]|] eqn:Es; [|discriminate]. intros [= <- <-].
    destruct (IH _ _ eq_refl) as [-> (l' & -> & Hl')]. split; [done|].
    exists (b :: l'). split; [done|]. intros Hin. apply elem_of_cons in Hin as [<-|Hin]; [|done].
    by rewrite Byte.byte_dec_lb in E.
Qed.

Lemma read_string_Got s l rest : read_string s = Got l rest →
  s = l ++ rest ∧ (length rest < length s)%nat.
Proof.
  unfold read_string. destruct (split_line s) as [[l0 r0]|] eqn:E; [|discriminate].
  intros [= -> ->]. apply split_line_inv in E as [-> (l' & -> & _)]. split; [done|].
  rewrite !length_app. simpl. lia.
Qed.

(** ** Progress

    [progress k m s]: on input [s] the reader [m] does not loop, and what it
    leaves is shorter than [s] by at least [k] bytes when it succeeds. *)
Definition progress {A} (k : nat) (m : parser A) (s : list byte) : Prop :=
  match m s with
  | Got _ rest => (k + length rest ≤ length s)%nat
  | Fail _ rest => (length rest ≤ length s)%nat
  | Panicked => True
  | Spin => False
  end.

Lemma progress_weaken {A} j k (m : parser A) s : (j ≤ k)%nat → progress k m s → progress j m s.
Proof. unfold progress. destruct (m s); lia || done. Qed.

Lemma progress_bind {A B} j k (m : parser A) (f : A → parser B) s :
  progress j m s → (∀ a r, m s = Got a r → progress k (f a) r) → progress (j + k) (m ≫= f) s.
Proof.
  unfold progress, mbind, parser_bind. destruct (m s) as [a r|e r| |]; try done.
  intros Hj Hf. specialize (Hf a r eq_refl). destruct (f a r); lia || done.
Qed.

(** The first reader makes the progress. *)
Lemma progress_then {A B} k (m : parser A) (f : A → parser B) s :
  progress k m s → (∀ a r, m s = Got a r → progress 0 (f a) r) → progress k (m ≫= f) s.
Proof. rewrite <-(Nat.add_0_r k) at 2. apply progress_bind. Qed.

Lemma progress_ret {A} (a : A) s : progress 0 (mret a) s.
Proof. unfold progress, mret, parser_ret. lia. Qed.
Lemma progress_throw {A} k e s : progress (A := A) k (throw e) s.
Proof. unfold progress, throw. lia. Qed.
Lemma progress_lift {A} (m : go A) s : progress 0 (lift m) s.
Proof. unfold progress, lift. destruct m; [lia|done]. Qed.
Lemma progress_panic {A} k s : progress (A := A) k (lift Panic) s.
Proof. done. Qed.

Lemma progress_read_n n s : progress (Z.to_nat n) (read_n n) s.
Proof.
  unfold progress, read_n. destruct (make_ok n 1) eqn:E; [|done]. unfold make_ok in E. zbool.
  unfold read_full. destruct (Z.leb_spec n (len s)); simpl; [|lia].
  unfold zdrop. rewrite length_drop. rewrite len_length in *. lia.
Qed.

Lemma progress_read_string s : progress 1 read_string s.
Proof.
  unfold progress. destruct (read_string s) as [l r|e r| |] eqn:E.
  - apply read_string_Got in E as [_ ?]. lia.
  - unfold read_string in E. destruct (split_line s) as [[??]|]; [discriminate|].
    injection E as <- <-. simpl. lia.
  - unfold read_string in E. by destruct (split_line s) as [[??]|].
  - unfold read_string in E. by destruct (split_line s) as [[??]|].
Qed.

Lemma progress_try {A} k (m : parser A) s : progress k m s → progress 0 (try m) s.
Proof. unfold progress, try. destruct (m s); lia || done. Qed.

Lemma progress_wrap {A} k p (m : parser A) s : progress k m s → progress k (wrap p m) s.
Proof. unfold progress, wrap. by destruct (m s). Qed.
Lemma wrap_Got {A} p (m : parser A) s a rest : m s = Got a rest → wrap p m s = Got a rest.
Proof. unfold wrap. by intros ->. Qed.

Lemma progress_Got {A} k (m : parser A) s a r : progress k m s → m s = Got a r →
  (k + length r ≤ length s)%nat.
Proof. unfold progress. by intros H E; rewrite E in H. Qed.

Lemma progress_no_spin {A} k (m : parser A) s : progress k m s → m s ≠ Spin.
Proof. unfold progress. destruct (m s); done. Qed.

#[export] Hint Resolve progress_ret progress_throw progress_lift progress_panic
  progress_read_n progress_read_string progress_try : gohints.

(** Readers made of the readers above, one behind the other: the first makes
    the progress. *)
Ltac progress_steps :=
  repeat (cbv zeta beta; match goal with
  | |- progress _ (if ?c then _ else _) _ => destruct c
  | |- progress _ (wrap _ _) _ => apply progress_wrap
  | |- progress _ (throw _) _ => apply progress_throw
  | |- progress _ (lift _) _ => apply progress_lift
  | |- progress _ (mret _) _ => apply progress_ret
  | |- progress 0 (read_n _) _ => eapply progress_weaken; [apply Nat.le_0_l|apply progress_read_n]
  | |- progress _ (read_n _) _ => apply progress_read_n
  | |- progress _ (let '(_, _) := ?x in _) _ => destruct x
  | |- progress _ (_ ≫= _) _ => apply progress_then; [|intros]
  end).

(** ** Sequences of messages *)

(** [n] calls of a reader, one behind the other. *)
Fixpoint many {A} (n : nat) (m : parser A) : parser (list A) :=
  match n with
  | O => mret []
  | S n => a ← m; l ← many n m; mret (a :: l)
  end.

(** A reader that takes exactly the encoding of a message off its input reads
    a concatenation of encodings as the list of its messages. *)
Lemma many_roundtrip {A B} (m : parser A) (enc : B → list byte) (val : B → A) (l : list B) rest :
  (∀ b rest, b ∈ l → m (enc b ++ rest) = Got (val b) rest) →
  many (length l) m (concat (map enc l) ++ rest) = Got (map val l) rest.
Proof.
  induction l as [|b l IH]; intros Hm; [done|]. cbn [length many map concat]. rewrite <-app_assoc.
  erewrite bind_Got by (apply Hm; constructor).
  erewrite bind_Got by (apply IH; intros; apply Hm; by constructor). done.
Qed.
