(* ===== verification/Stream.v ===== *)
(** * One direction of a connection (src/tcpport/assembler.go)

    [netStream]: the receive window of one direction, the channel to the
    goroutine that reads it, and the [io.Reader] that goroutine uses. *)

From S2P Require Import Prelude GoBytes Window WindowRing WindowOrder WindowRun Reader.

Record netStream := mkStream {
  window : receiveWindow; c : chan; remain : list byte; ignore : bool; closed : bool }.

Definition newNetStream : netStream :=
  mkStream (newReceiveWindow 64) (mkChan [] 1024 false) [] false false.

Definition appendPacket (s : netStream) (tcp : TCP) : sched netStream :=
  if ignore s then Done s
  else w ← run (insert (window s) tcp); Done (mkStream w (c s) (remain s) (ignore s) (closed s)).

Definition confirmPacket (s : netStream) (ack : Z) : sched netStream :=
  if ignore s then Done s
  else '(w, ch) ← confirm (window s) ack (c s);
       Done (mkStream w ch (remain s) (ignore s) (closed s)).

Definition stream_finish (s : netStream) : sched netStream :=
  ch ← close (c s); Done (mkStream (window s) ch (remain s) (ignore s) (closed s)).

Definition stream_set_closed (s : netStream) : netStream :=
  mkStream (window s) (c s) (remain s) (ignore s) true.

(** [Prepend]: the data is copied in front of what remains. *)
Definition Prepend (s : netStream) (data : list byte) : netStream :=
  if 0 <? len data then mkStream (window s) (c s) (data ++ remain s) (ignore s) (closed s) else s.

(** [Close]: later packets are ignored. *)
Definition stream_Close (s : netStream) : netStream :=
  mkStream (window s) (c s) (remain s) true (closed s).

(** [for len(s.remain) == 0 { packet, ok := <-s.c; ... }]: what remains and
    the packets left in the channel; [None] when they run out. *)
Fixpoint fill (rem : list byte) (q : list TCP) : option (list byte * list TCP) :=
  match rem with
  | _ :: _ => Some (rem, q)
  | [] => match q with [] => None | p :: q => fill (Payload p) q end
  end.

Definition stream_Read (s : netStream) (n : Z) : sched (list byte * option error * netStream) :=
  match fill (remain s) (queue (c s)) with
  | Some (rem, q) =>
      let ch := mkChan q (capacity (c s)) (chan_closed (c s)) in
      let s rem := mkStream (window s) ch rem (ignore s) (closed s) in
      if n <? len rem then Done (ztake n rem, None, s (zdrop n rem))
      else Done (rem, None, s [])
  | None =>
      if chan_closed (c s)
      then Done ([], Some EOF,
             mkStream (window s) (mkChan [] (capacity (c s)) true) [] (ignore s) (closed s))
      else Blocked
  end.

(** ** The stream is a lawful [io.Reader] once it is finished *)

#[export] Instance netStream_reader : io_Reader netStream := { rd_Read := stream_Read }.

(** The bytes a reader of the stream will still see. *)
Definition stream_bytes (s : netStream) : list byte := remain s ++ payloads (queue (c s)).

Lemma fill_Some rem q rem' q' : fill rem q = Some (rem', q') →
  rem' ≠ [] ∧ rem ++ payloads q = rem' ++ payloads q'.
Proof.
  revert rem. induction q as [|p q IH]; intros [|b rem]; simpl; try discriminate.
  - by intros [= <- <-].
  - intros H. apply IH in H as [H1 H2]. split; [done|]. unfold payloads in *. simpl. done.
  - by intros [= <- <-].
Qed.

Lemma fill_None rem q : fill rem q = None ↔ rem ++ payloads q = [].
Proof.
  revert rem. induction q as [|p q IH]; intros [|b rem]; simpl; split; try done.
  - intros H%IH. done.
  - intros H. apply IH. done.
Qed.

#[export] Program Instance netStream_reader_ok : io_Reader_ok netStream := {
  ready s := chan_closed (c s) = true;
  pending := stream_bytes;
}.
Next Obligation.
  intros s n Hr Hp. unfold rd_Read, netStream_reader, stream_Read, stream_bytes in *.
  apply fill_None in Hp. rewrite Hp, Hr. eexists. split_and!; done.
Qed.
Next Obligation.
  intros s n Hr Hn Hp. unfold rd_Read, netStream_reader, stream_Read, stream_bytes in *.
  destruct (fill (remain s) (queue (c s))) as [[rem q]|] eqn:E.
  2:{ apply fill_None in E. done. }
  apply fill_Some in E as [Hne E]. rewrite E.
  destruct (Z.ltb_spec n (len rem)); eexists _, _; (split; [done|]); simpl.
  - split; [done|]. rewrite app_assoc, ztake_zdrop. split_and!; [done|len_simpl; lia|].
    intros Hn0 H0. apply (f_equal len) in H0. change (len []) with 0 in H0. len_simpl. lia.
  - split_and!; done || lia.
Qed.

(** ** A direction whose packets arrive and are acknowledged *)

(** What the assembler's goroutine does to one direction. *)
Definition stream_op (o : op) (s : netStream) : sched netStream :=
  match o with OpInsert p => appendPacket s p | OpConfirm ack => confirmPacket s ack end.
Fixpoint stream_ops (ops : list op) (s : netStream) : sched netStream :=
  match ops with [] => Done s | o :: ops => s ← stream_op o s; stream_ops ops s end.

Lemma stream_ops_exec ops : ∀ s, ignore s = false →
  stream_ops ops s =
    ('(w, ch) ← exec ops (window s) (c s);
     Done (mkStream w ch (remain s) (ignore s) (closed s))).
Proof.
  induction ops as [|o ops IH]; intros s Hi; [by destruct s|].
  cbn [stream_ops exec].
  assert (stream_op o s = ('(w, ch) ← exec_op o (window s) (c s);
    Done (mkStream w ch (remain s) (ignore s) (closed s)))) as ->.
  { destruct o; cbn [stream_op exec_op]; unfold appendPacket, confirmPacket; rewrite Hi; [|done].
    by destruct (insert (window s) p). }
  destruct (exec_op o (window s) (c s)) as [[w ch]| |]; [|done..].
  cbn [mbind sched_bind]. rewrite IH by done. done.
Qed.

(** ** Properties *)

(** End to end through one direction: when segments of a stream arrive in
    any order and are acknowledged, and the connection is finished, the
    goroutine that reads the direction gets exactly the bytes [a..b) of the
    stream with [io.ReadFull], and [io.EOF] behind them. *)
Theorem stream_end_to_end (S : list byte) (isn a b ack : Z) (ps : list TCP)
  (Hclear : clear_range isn (isn + len S))
  (Hps : Forall (segment S isn) ps)
  (Hb : ∀ p, p ∈ ps → a ≤ Seq p ∧ Seq p + len (Payload p) ≤ b ∧ Seq p < ack)
  (Hsame : ∀ p q, p ∈ ps → q ∈ ps → Seq p = Seq q → Payload p = Payload q)
  (Hcov : ∀ x, a ≤ x < b → ∃ p, p ∈ ps ∧ covers p x)
  (Hab : a < b) (Hack : isn ≤ ack ≤ isn + len S) (Hroom : len ps ≤ 1024) :
  ∃ s s' r r',
    stream_ops ((OpInsert <$> ps) ++ [OpConfirm ack]) newNetStream = Done s ∧
    stream_finish s = Done s' ∧
    ReadFull s' (b - a) = Done (bytes_at S isn a (b - a), None, r) ∧
    rd_Read r 1 = Done ([], Some EOF, r').
Proof.
  destruct (exec_reassembles S isn a b ack 64 ps (c newNetStream) Hclear)
    as (w & d & Hex & Hd & Hrep); try done.
  rewrite stream_ops_exec by done. cbn [window newNetStream] in *. rewrite Hex.
  cbn [mbind sched_bind]. eexists. set (s := mkStream _ _ _ _ _).
  exists (mkStream w (mkChan (d : list TCP) 1024 true) [] false false).
  assert (Hlen : b - a ≤ len (bytes_at S isn a (b - a))).
  { destruct (Hcov a ltac:(lia)) as (p & Hp & [Hp1 Hp2]). rewrite Forall_forall in Hps.
    destruct (Hps p Hp). destruct (Hcov (b - 1) ltac:(lia)) as (q & Hq & [Hq1 Hq2]).
    destruct (Hps q Hq). specialize (Hb p Hp). rewrite bytes_at_len by lia. lia. }
  set (s' := mkStream w (mkChan d 1024 true) [] false false).
  assert (ready s') as Hs' by reflexivity.
  destruct (ReadFull_spec s' (b - a) Hs' ltac:(lia)) as (r & Hr & Hread).
  change (pending s') with (payloads d) in Hread. rewrite Hd in Hread.
  unfold read_full in Hread. destruct (Z.leb_spec (b - a) (len (bytes_at S isn a (b - a)))); [|lia].
  destruct Hread as [Hread Hrest].
  rewrite zdrop_ge in Hrest by (unfold bytes_at; len_simpl; lia).
  destruct (rd_eof r 1 Hr Hrest) as (r' & Heof & _).
  exists r, r'. split_and!; [done|done| |done].
  rewrite Hread. unfold bytes_at. by rewrite ztake_ztake, Z.min_id.
Qed.

Lemma stream_end_to_end_witness :
  ∃ s s' r r',
    stream_ops ((OpInsert <$> demo_packets) ++ [OpConfirm 100006]) newNetStream = Done s ∧
    stream_finish s = Done s' ∧ ReadFull s' 6 = Done (demo_stream, None, r) ∧
    rd_Read r 1 = Done ([], Some EOF, r').
Proof.
  apply (stream_end_to_end demo_stream demo_isn 100000 100006 100006 demo_packets).
  - exact demo_clear.
  - exact demo_segments.
  - exact demo_bounds.
  - exact demo_same.
  - exact demo_cover.
  - lia.
  - vm_compute; split; congruence.
  - vm_compute; congruence.
Defined.
