(* ===== verification/Assembler.v ===== *)
(** * Connections and the assembler (src/tcpport/assembler.go)

    [Endpoint], [TCPConnection] and [TCPAssembler].  Connections are shared
    between the assembler's map and the goroutines that handle them, so they
    live in a store and the map holds their addresses. *)

From S2P Require Import Prelude GoBytes GoStrings Window WindowRing WindowRun Reader Stream.

(** ** Endpoints *)

(** [IP] is the address as gopacket prints it, [Port] a uint16. *)
Record Endpoint := mkEndpoint { IP : list byte; Port : Z }.

#[export] Instance Endpoint_eq_dec : EqDecision Endpoint.
Proof. solve_decision. Defined.

Definition Endpoint_Equals (p p2 : Endpoint) : bool :=
  str_eqb (IP p) (IP p2) && (Port p =? Port p2).

Definition Endpoint_String (p : Endpoint) : list byte := IP p ++ gs ":" ++ Itoa (Port p).

(** The key of [Assemble]: the same for both directions. *)
Definition conn_key (src dst : Endpoint) : list byte :=
  let srcStr := Endpoint_String src in
  let dstStr := Endpoint_String dst in
  if str_ltb srcStr dstStr then srcStr ++ gs "-" ++ dstStr else dstStr ++ gs "-" ++ srcStr.

(** ** Connections *)

Record TCPConnection := mkConn {
  UpStream : netStream; DownStream : netStream; ClientID : Endpoint;
  lastTimestamp : Z; isRPC : bool; key : list byte }.

(** [time.Time] is a number of nanoseconds; the zero time is before any other. *)
Definition newTCPConnection (k : list byte) : TCPConnection :=
  mkConn newNetStream newNetStream (mkEndpoint [] 0) 0 false k.

Definition onReceive (cn : TCPConnection) (src dst : Endpoint) (tcp : TCP) (timestamp : Z)
  : sched TCPConnection :=
  let client := if isRPC cn then ClientID cn else src in
  let put up down := mkConn up down client timestamp true (key cn) in
  if Endpoint_Equals client src then
    up ← appendPacket (UpStream cn) tcp;
    down ← (if ACK tcp then confirmPacket (DownStream cn) (Ack tcp) else Done (DownStream cn));
    let up := if FIN tcp || RST tcp then stream_set_closed up else up in
    Done (put up down)
  else
    down ← appendPacket (DownStream cn) tcp;
    up ← (if ACK tcp then confirmPacket (UpStream cn) (Ack tcp) else Done (UpStream cn));
    let down := if FIN tcp || RST tcp then stream_set_closed down else down in
    Done (put up down).

Definition conn_closed (cn : TCPConnection) : bool := closed (UpStream cn) && closed (DownStream cn).

Definition set_streams (cn : TCPConnection) (up down : netStream) : TCPConnection :=
  mkConn up down (ClientID cn) (lastTimestamp cn) (isRPC cn) (key cn).

Definition conn_finish (cn : TCPConnection) : sched TCPConnection :=
  up ← stream_finish (UpStream cn);
  down ← stream_finish (DownStream cn);
  Done (set_streams cn up down).

Definition conn_flushOlderThan (cn : TCPConnection) : sched TCPConnection :=
  conn_finish (set_streams cn (stream_set_closed (UpStream cn)) (stream_set_closed (DownStream cn))).

(** ** The assembler *)

(** [connectionDict] is [None] once [FinishAll] has set it to nil; [conns] is
    the store of connections, addressed by position; [handled] records the
    goroutines started, and [handler_finished] the call of
    [connectionHandler.Finish]. *)
Record TCPAssembler := mkAssembler {
  connectionDict : option (gmap (list byte) nat);
  conns : list TCPConnection;
  handled : list (Endpoint * Endpoint * nat);
  handler_finished : bool;
  FilterIP : list byte; FilterPort : Z;
  Detector : option (list byte → bool) }.

Definition NewTCPAssembler (detector : option (list byte → bool)) : TCPAssembler :=
  mkAssembler (Some ∅) [] [] false [] 0 detector.

Definition dict_lookup (a : TCPAssembler) (k : list byte) : option nat :=
  connectionDict a ≫= λ d, d !! k.

Definition set_conn (a : TCPAssembler) (id : nat) (cn : TCPConnection) : TCPAssembler :=
  mkAssembler (connectionDict a) (<[id:=cn]> (conns a)) (handled a) (handler_finished a)
    (FilterIP a) (FilterPort a) (Detector a).

(** Writing to a nil map panics. *)
Definition retrieveConnection (a : TCPAssembler) (src dst : Endpoint) (k : list byte) (init : bool)
  : sched (option nat * TCPAssembler) :=
  match dict_lookup a k with
  | Some id => Done (Some id, a)
  | None =>
      if init then
        match connectionDict a with
        | None => Crash
        | Some d =>
            let id := length (conns a) in
            Done (Some id, mkAssembler (Some (<[k:=id]> d)) (conns a ++ [newTCPConnection k])
                    (handled a ++ [(src, dst, id)]) (handler_finished a)
                    (FilterIP a) (FilterPort a) (Detector a))
        end
      else Done (None, a)
  end.

(** Deleting from a nil map does nothing. *)
Definition deleteConnection (a : TCPAssembler) (k : list byte) : TCPAssembler :=
  mkAssembler (delete k <$> connectionDict a) (conns a) (handled a) (handler_finished a)
    (FilterIP a) (FilterPort a) (Detector a).

(** The addresses in the map and the store are created together. *)
Definition get_conn (a : TCPAssembler) (id : nat) : sched TCPConnection :=
  run (of_option (conns a !! id)).

(** The two early returns of [Assemble]. *)
Definition filtered (a : TCPAssembler) (src dst : Endpoint) : bool :=
  (negb (str_eqb (FilterIP a) []) && negb (str_eqb (IP src) (FilterIP a))
     && negb (str_eqb (IP dst) (FilterIP a)))
  || (negb (FilterPort a =? 0) && negb (Port src =? FilterPort a) && negb (Port dst =? FilterPort a)).

(** [createNewConn] *)
Definition creates (a : TCPAssembler) (tcp : TCP) : bool :=
  (SYN tcp && negb (ACK tcp))
  || match Detector a with Some f => f (Payload tcp) | None => false end.

(** [srcIP], [dstIP] are the printed endpoints of the flow. *)
Definition Assemble (a : TCPAssembler) (srcIP dstIP : list byte) (tcp : TCP) (timestamp : Z)
  : sched TCPAssembler :=
  let src := mkEndpoint srcIP (SrcPort tcp) in
  let dst := mkEndpoint dstIP (DstPort tcp) in
  if filtered a src dst then Done a
  else
    let k := conn_key src dst in
    '(o, a) ← retrieveConnection a src dst k (creates a tcp);
    match o with
    | None => Done a
    | Some id =>
        cn ← get_conn a id;
        cn ← onReceive cn src dst tcp timestamp;
        let a := set_conn a id cn in
        if conn_closed cn then
          let a := deleteConnection a k in
          cn ← conn_finish cn;
          Done (set_conn a id cn)
        else Done a
    end.

(** [for _, c := range conns { f(c) }] over addresses. *)
Fixpoint for_conns (f : TCPConnection → sched TCPConnection) (ids : list nat) (a : TCPAssembler)
  : sched TCPAssembler :=
  match ids with
  | [] => Done a
  | id :: ids => cn ← get_conn a id; cn ← f cn; for_conns f ids (set_conn a id cn)
  end.

(** The connections in the map.  A range statement over the map meets them in
    an order of its own, so the operations below take the order [ids] as an
    argument: any permutation of [dict_ids]. *)
Definition dict_ids (a : TCPAssembler) : list nat :=
  match connectionDict a with Some d => (map_to_list d).*2 | None => [] end.

Definition older (a : TCPAssembler) (t : Z) (id : nat) : bool :=
  match conns a !! id with Some cn => lastTimestamp cn <? t | None => false end.

Fixpoint delete_keys (ids : list nat) (a : TCPAssembler) : sched TCPAssembler :=
  match ids with
  | [] => Done a
  | id :: ids => cn ← get_conn a id; delete_keys ids (deleteConnection a (key cn))
  end.

Definition FlushOlderThan (a : TCPAssembler) (t : Z) (ids : list nat) : sched TCPAssembler :=
  let old := List.filter (older a t) ids in
  a ← delete_keys old a;
  for_conns conn_flushOlderThan old a.

Definition FinishAll (a : TCPAssembler) (ids : list nat) : sched TCPAssembler :=
  a ← for_conns conn_finish ids a;
  Done (mkAssembler None (conns a) (handled a) true (FilterIP a) (FilterPort a) (Detector a)).

(** ** What the handler goroutines do to a connection *)

Inductive side := Up | Down.
Definition get_side (cn : TCPConnection) (sd : side) : netStream :=
  match sd with Up => UpStream cn | Down => DownStream cn end.
Definition set_side (cn : TCPConnection) (sd : side) (s : netStream) : TCPConnection :=
  match sd with Up => set_streams cn s (DownStream cn) | Down => set_streams cn (UpStream cn) s end.

(** ** Steps of the system: the capture loop and the handlers interleave *)
Inductive step : TCPAssembler → TCPAssembler → Prop :=
| step_assemble a srcIP dstIP tcp ts a' :
    len (Payload tcp) < 2 ^ 32 →
    connectionDict a ≠ None →
    Assemble a srcIP dstIP tcp ts = Done a' → step a a'
| step_flush a t ids a' : ids ≡ₚ dict_ids a → FlushOlderThan a t ids = Done a' → step a a'
| step_finish a ids a' : ids ≡ₚ dict_ids a → FinishAll a ids = Done a' → step a a'
| step_read a id cn sd n b e s' :
    conns a !! id = Some cn → stream_Read (get_side cn sd) n = Done (b, e, s') →
    step a (set_conn a id (set_side cn sd s'))
| step_prepend a id cn sd data :
    conns a !! id = Some cn → step a (set_conn a id (set_side cn sd (Prepend (get_side cn sd) data)))
| step_ignore a id cn sd :
    conns a !! id = Some cn → step a (set_conn a id (set_side cn sd (stream_Close (get_side cn sd)))).

Inductive reachable (a0 : TCPAssembler) : TCPAssembler → Prop :=
| reach_init : reachable a0 a0
| reach_step a a' : reachable a0 a → step a a' → reachable a0 a'.
