(* ===== verification/AssemblerInv.v ===== *)
(** * The assembler never misuses a channel

    The invariant of the assembler under any interleaving of captured
    packets, flushes, the final shutdown and the handler goroutines: a
    connection is in the map exactly when both its channels are open. *)

From S2P Require Import Prelude GoBytes GoStrings Window WindowRing WindowRun Reader Stream Assembler.

(** ** Statements that do not panic

    [safe m Q]: [m] does not panic, and if it finishes its result is in [Q]. *)
Definition safe {A} (m : sched A) (Q : A → Prop) : Prop :=
  match m with Done a => Q a | Blocked => True | Crash => False end.

Lemma safe_bind {A B} (m : sched A) (f : A → sched B) (P : A → Prop) (Q : B → Prop) :
  safe m P → (∀ a, P a → safe (f a) Q) → safe (m ≫= f) Q.
Proof. destruct m; simpl; auto. Qed.

Lemma safe_mono {A} (m : sched A) (P Q : A → Prop) : safe m P → (∀ a, P a → Q a) → safe m Q.
Proof. destruct m; simpl; auto. Qed.

Lemma safe_Done {A} (m : sched A) (Q : A → Prop) a : safe m Q → m = Done a → Q a.
Proof. intros H ->. exact H. Qed.

(** ** Streams *)

Definition small (l : list TCP) : Prop := Forall (λ p, len (Payload p) < 2 ^ 32) l.

Definition stream_wf (s : netStream) : Prop := ∃ l, rep (window s) l ∧ small l.
Definition is_open (s : netStream) : Prop := chan_closed (c s) = false.
Definition is_shut (s : netStream) : Prop := chan_closed (c s) = true.

Lemma insert_list_small e l p : small l → len (Payload p) < 2 ^ 32 → small (insert_list e l p).
Proof.
  intros Hl Hp. unfold insert_list. destruct (_ && _); [done|]. destruct (_ =? 0); [done|].
  destruct (scan_list _ _ _) as [i|]; [|done].
  rewrite <-(ztake_zdrop i l) in Hl. unfold small in *. rewrite Forall_app in *.
  rewrite Forall_cons. tauto.
Qed.

Lemma confirm_list_small ack l : ∀ e, small l →
  let '(_, r, _) := confirm_list ack e l in small r.
Proof.
  induction l as [|p l IH]; intros e Hl; cbn [confirm_list]; [done|].
  destruct (0 <=? _); [done|]. inversion Hl; subst.
  destruct (trimmed e p).
  - specialize (IH (seq_end p)). destruct (confirm_list _ _ _) as [[d r] e']. auto.
  - specialize (IH e). destruct (confirm_list _ _ _) as [[d r] e']. auto.
Qed.

Lemma send_all_open d : ∀ ch, chan_closed ch = false →
  safe (send_all ch d) (λ ch', chan_closed ch' = false).
Proof.
  induction d as [|q d IH]; intros ch Hch; [done|]. cbn [send_all]. unfold send. rewrite Hch.
  destruct (_ <? _); [|done]. by apply IH.
Qed.

(** The result of an operation on an open stream. *)
Definition keeps (s s' : netStream) : Prop := stream_wf s' ∧ is_open s' ∧ closed s' = closed s.

Lemma appendPacket_safe s tcp : stream_wf s → is_open s → len (Payload tcp) < 2 ^ 32 →
  safe (appendPacket s tcp) (keeps s).
Proof.
  intros (l & Hr & Hl) Ho Hp. unfold appendPacket. destruct (ignore s).
  { split_and!; [by exists l|done|done]. }
  destruct (insert_rep _ _ tcp Hr) as (w' & -> & Hr' & _). simpl.
  split_and!; [|done|done]. eexists. split; [exact Hr'|]. by apply insert_list_small.
Qed.

Lemma confirmPacket_safe s ack : stream_wf s → is_open s → safe (confirmPacket s ack) (keeps s).
Proof.
  intros (l & Hr & Hl) Ho. unfold confirmPacket. destruct (ignore s).
  { split_and!; [by exists l|done|done]. }
  pose proof (confirm_rep _ _ ack Hr Hl) as Hc.
  pose proof (confirm_list_small ack l (expectBegin (window s)) Hl) as Hs.
  destruct (confirm_list _ _ _) as [[d r] e]. destruct Hc as (w' & -> & Hr' & _).
  pose proof (send_all_open d (c s) Ho) as Hsend.
  destruct (send_all (c s) d) as [ch| |]; [|done..]. simpl.
  split_and!; [by exists r|done|done].
Qed.

Lemma stream_finish_open s : is_open s →
  stream_finish s = Done (mkStream (window s) (mkChan (queue (c s)) (capacity (c s)) true)
                            (remain s) (ignore s) (closed s)).
Proof. intros Ho. unfold stream_finish, close. by rewrite Ho. Qed.

(** ** Connections *)

Definition conn_wf (cn : TCPConnection) : Prop := stream_wf (UpStream cn) ∧ stream_wf (DownStream cn).
Definition conn_open (cn : TCPConnection) : Prop := is_open (UpStream cn) ∧ is_open (DownStream cn).
Definition conn_shut (cn : TCPConnection) : Prop := is_shut (UpStream cn) ∧ is_shut (DownStream cn).

Lemma newNetStream_wf : stream_wf newNetStream.
Proof. exists []. split; [by apply rep_new|constructor]. Qed.

Lemma onReceive_safe cn src dst tcp ts : conn_wf cn → conn_open cn → len (Payload tcp) < 2 ^ 32 →
  safe (onReceive cn src dst tcp ts) (λ cn', conn_wf cn' ∧ conn_open cn' ∧ key cn' = key cn).
Proof.
  intros [Hu Hd] [Hou Hod] Hp. unfold onReceive.
  assert (∀ s, stream_wf s → is_open s →
    safe (if ACK tcp then confirmPacket s (Ack tcp) else Done s) (keeps s)) as Hconf.
  { intros s ??. destruct (ACK tcp); [by apply confirmPacket_safe|]. by split_and!. }
  destruct (Endpoint_Equals _ src).
  - eapply safe_bind; [exact (appendPacket_safe _ _ Hu Hou Hp)|]. intros up (? & ? & ?).
    eapply safe_bind; [exact (Hconf _ Hd Hod)|]. intros down (? & ? & ?).
    destruct (FIN tcp || RST tcp); done.
  - eapply safe_bind; [exact (appendPacket_safe _ _ Hd Hod Hp)|]. intros down (? & ? & ?).
    eapply safe_bind; [exact (Hconf _ Hu Hou)|]. intros up (? & ? & ?).
    destruct (FIN tcp || RST tcp); done.
Qed.

(** Shutting an open connection succeeds. *)
Definition shuts (f : TCPConnection → sched TCPConnection) : Prop :=
  ∀ cn, conn_open cn → ∃ cn', f cn = Done cn' ∧ conn_shut cn' ∧ key cn' = key cn ∧
    (conn_wf cn → conn_wf cn').

Lemma conn_finish_shuts : shuts conn_finish.
Proof.
  intros cn [Hu Hd]. unfold conn_finish. rewrite !stream_finish_open by done.
  eexists. split_and!; done.
Qed.

Lemma conn_flush_shuts : shuts conn_flushOlderThan.
Proof.
  intros cn [Hu Hd]. unfold conn_flushOlderThan.
  destruct (conn_finish_shuts (set_streams cn (stream_set_closed (UpStream cn))
    (stream_set_closed (DownStream cn)))) as (cn' & ? & ? & ? & Hwf); [done|].
  exists cn'. by split_and!.
Qed.

(** ** The invariant

    [Inv_pend a P]: a connection is in the map exactly when it is open, but
    those in [P], which a flush has taken out of the map and not shut yet. *)

Definition in_map (a : TCPAssembler) (id : nat) (cn : TCPConnection) : Prop :=
  dict_lookup a (key cn) = Some id.

#[export] Instance in_map_dec a id cn : Decision (in_map a id cn).
Proof. unfold in_map. apply _. Defined.

Definition mapped (a : TCPAssembler) (id : nat) : Prop :=
  ∃ cn, conns a !! id = Some cn ∧ in_map a id cn.

Record Inv_pend (a : TCPAssembler) (P : list nat) : Prop := {
  inv_dict : ∀ k id, dict_lookup a k = Some id → ∃ cn, conns a !! id = Some cn ∧ key cn = k;
  inv_wf : ∀ id cn, conns a !! id = Some cn → conn_wf cn;
  inv_in : ∀ id cn, conns a !! id = Some cn → in_map a id cn →
    conn_open cn ∧ conn_closed cn = false;
  inv_out : ∀ id cn, conns a !! id = Some cn → ¬ in_map a id cn →
    if decide (id ∈ P) then conn_open cn else conn_shut cn;
  inv_pend : ∀ id, id ∈ P → is_Some (conns a !! id) ∧ ¬ mapped a id;
}.

Definition Inv (a : TCPAssembler) : Prop := Inv_pend a [].

(** Only the map and the store matter. *)
Lemma Inv_ext a a' P : connectionDict a' = connectionDict a → conns a' = conns a →
  Inv_pend a P → Inv_pend a' P.
Proof.
  intros Hd Hc HI. destruct a, a'. simpl in *. subst. by destruct HI.
Qed.

Lemma Inv_new f ip port : Inv (mkAssembler (Some ∅) [] [] false ip port f).
Proof.
  split; try (intros id cn; simpl; rewrite lookup_nil; discriminate).
  intros id Hid. by apply elem_of_nil in Hid.
Qed.

Lemma lookup_set a id cn i x : conns (set_conn a id cn) !! i = Some x →
  (i = id ∧ x = cn ∧ is_Some (conns a !! id)) ∨ (i ≠ id ∧ conns a !! i = Some x).
Proof.
  simpl. intros H. destruct (decide (i = id)) as [->|Hne].
  - left. pose proof (lookup_lt_Some _ _ _ H) as Hlt. rewrite length_insert in Hlt.
    rewrite list_lookup_insert_eq in H by done. injection H as <-.
    split_and!; [done..|]. by apply lookup_lt_is_Some.
  - right. by rewrite list_lookup_insert_ne in H by done.
Qed.

Lemma mapped_set a id cn cn' i : conns a !! id = Some cn → key cn' = key cn →
  mapped (set_conn a id cn') i ↔ mapped a i.
Proof.
  intros Hc Hk. split; intros (x & Hx & Hm).
  - destruct (lookup_set _ _ _ _ _ Hx) as [(-> & -> & _)|[_ Hx']].
    + exists cn. split; [done|]. unfold in_map in *. by rewrite <-Hk.
    + by exists x.
  - destruct (decide (i = id)) as [->|Hne].
    + exists cn'. simpl. rewrite list_lookup_insert_eq by (by eapply lookup_lt_Some).
      split; [done|]. unfold in_map in *. rewrite Hk.
      replace cn with x by congruence. exact Hm.
    + exists x. simpl. by rewrite list_lookup_insert_ne by done.
Qed.

(** Replacing a connection by one with the same key. *)
Lemma Inv_set a P id cn cn' : Inv_pend a P → conns a !! id = Some cn → key cn' = key cn →
  conn_wf cn' →
  (in_map a id cn → conn_open cn' ∧ conn_closed cn' = false) →
  (¬ in_map a id cn → id ∉ P ∧ conn_shut cn') → Inv_pend (set_conn a id cn') P.
Proof.
  intros HI Hc Hk Hwf Hin Hout. split.
  - intros k i Hki. destruct (inv_dict a P HI k i Hki) as (x & Hx & Hkx). simpl.
    destruct (decide (i = id)) as [->|Hne].
    + exists cn'. rewrite list_lookup_insert_eq by (by eapply lookup_lt_Some).
      split; [done|]. congruence.
    + exists x. by rewrite list_lookup_insert_ne by done.
  - intros i x [(-> & -> & _)|[_ Hx]]%lookup_set; [done|by apply (inv_wf a P HI i)].
  - intros i x [(-> & -> & _)|[_ Hx]]%lookup_set Hm; [|by apply (inv_in a P HI i)].
    apply Hin. unfold in_map in *. by rewrite <-Hk.
  - intros i x [(-> & -> & _)|[_ Hx]]%lookup_set Hm; [|by apply (inv_out a P HI i)].
    destruct Hout as [Ho ?]; [unfold in_map in *; by rewrite <-Hk|]. by rewrite decide_False.
  - intros i Hi. destruct (inv_pend a P HI i Hi) as [Hs Hm]. rewrite mapped_set by done.
    split; [|done]. simpl. apply lookup_lt_is_Some in Hs. apply lookup_lt_is_Some.
    by rewrite length_insert.
Qed.

(** A step of a handler changes neither windows, flags nor channel status. *)
Lemma Inv_handler a id cn sd s' : Inv a → conns a !! id = Some cn →
  stream_wf s' → chan_closed (c s') = chan_closed (c (get_side cn sd)) →
  closed s' = closed (get_side cn sd) → Inv (set_conn a id (set_side cn sd s')).
Proof.
  intros HI Hc Hwf Hcl Hfl. pose proof (inv_wf a [] HI id cn Hc) as [Hu Hd].
  apply (Inv_set a [] id cn); [done|done|by destruct sd|by destruct sd| |].
  - intros Hm. destruct (inv_in a [] HI id cn Hc Hm) as [[Ho1 Ho2] Hf].
    unfold conn_open, is_open, conn_closed in *.
    destruct sd; simpl in *; rewrite Hcl, Hfl; done.
  - intros Hm. pose proof (inv_out a [] HI id cn Hc Hm) as [Ho1 Ho2].
    split; [by apply not_elem_of_nil|].
    unfold conn_shut, is_shut in *. destruct sd; simpl in *; rewrite Hcl; done.
Qed.

(** Taking a connection out of the map. *)
Lemma dict_delete a k k' : dict_lookup (deleteConnection a k) k' =
  if decide (k' = k) then None else dict_lookup a k'.
Proof.
  unfold dict_lookup, deleteConnection. destruct (connectionDict a) as [d|]; simpl.
  - destruct (decide (k' = k)) as [->|]; [by rewrite lookup_delete_eq|by rewrite lookup_delete_ne].
  - by destruct (decide _).
Qed.

Lemma in_map_delete a id cn i x : conns a !! id = Some cn → in_map a id cn →
  conns a !! i = Some x → in_map (deleteConnection a (key cn)) i x ↔ in_map a i x ∧ i ≠ id.
Proof.
  intros Hc Hm Hx. unfold in_map in *. rewrite dict_delete.
  destruct (decide (key x = key cn)) as [He|Hne].
  - split; [done|]. intros [Hi Hni]. rewrite He in Hi. congruence.
  - split; [|tauto]. intros Hi. split; [done|]. intros ->. congruence.
Qed.

Lemma Inv_delete a P id cn : Inv_pend a P → conns a !! id = Some cn → in_map a id cn →
  Inv_pend (deleteConnection a (key cn)) (id :: P).
Proof.
  intros HI Hc Hm. split.
  - intros k i. rewrite dict_delete. destruct (decide _); [done|]. apply (inv_dict a P HI).
  - apply (inv_wf a P HI).
  - intros i x Hx [Hi _]%(in_map_delete a id cn); [|done..]. by apply (inv_in a P HI i).
  - intros i x Hx Hi. change (conns a !! i = Some x) in Hx. rewrite in_map_delete in Hi by done.
    destruct (decide (i = id)) as [->|Hne].
    + rewrite decide_True by constructor. simplify_eq. by apply (inv_in a P HI id).
    + pose proof (inv_out a P HI i x Hx ltac:(tauto)) as Ho.
      destruct (decide (i ∈ P)).
      * by rewrite decide_True by (by constructor).
      * rewrite decide_False; [done|]. by intros [?|?]%elem_of_cons.
  - intros i [->|Hi]%elem_of_cons.
    + split; [by exists cn|]. intros (x & Hx & Hi). change (conns a !! id = Some x) in Hx.
      rewrite in_map_delete in Hi by done. tauto.
    + destruct (inv_pend a P HI i Hi) as [Hs Hn]. split; [done|]. intros (x & Hx & Hix).
      change (conns a !! i = Some x) in Hx. rewrite in_map_delete in Hix by done.
      apply Hn. exists x. tauto.
Qed.

(** Shutting a connection that is out of the map. *)
Lemma Inv_shut a P id cn cn' : Inv_pend a (id :: P) → id ∉ P → conns a !! id = Some cn →
  key cn' = key cn → conn_wf cn' → conn_shut cn' → Inv_pend (set_conn a id cn') P.
Proof.
  intros HI Hid Hc Hk Hwf Hsh.
  destruct (inv_pend a _ HI id ltac:(by constructor)) as [_ Hnm].
  assert (¬ in_map a id cn) as Hn by (intros ?; apply Hnm; by exists cn).
  split.
  - intros k i Hki. destruct (inv_dict a _ HI k i Hki) as (x & Hx & Hkx). simpl.
    destruct (decide (i = id)) as [->|Hne].
    + exists cn'. rewrite list_lookup_insert_eq by (by eapply lookup_lt_Some).
      split; [done|]. congruence.
    + exists x. by rewrite list_lookup_insert_ne by done.
  - intros i x [(-> & -> & _)|[_ Hx]]%lookup_set; [done|by apply (inv_wf a _ HI i)].
  - intros i x [(-> & -> & _)|[_ Hx]]%lookup_set Hm; [|by apply (inv_in a _ HI i)].
    destruct Hn. unfold in_map in *. by rewrite <-Hk.
  - intros i x [(-> & -> & _)|[Hne Hx]]%lookup_set Hm; [by rewrite decide_False|].
    pose proof (inv_out a _ HI i x Hx Hm) as Ho. destruct (decide (i ∈ P)).
    + by rewrite decide_True in Ho by (by constructor).
    + rewrite decide_False in Ho; [done|]. by intros [?|?]%elem_of_cons.
  - intros i Hi. destruct (inv_pend a _ HI i ltac:(by constructor)) as [Hs Hm].
    rewrite mapped_set by done. split; [|done]. simpl.
    apply lookup_lt_is_Some in Hs. apply lookup_lt_is_Some. by rewrite length_insert.
Qed.

Lemma shuts_id f a P id : shuts f → Inv_pend a (id :: P) → id ∉ P →
  ∃ cn cn', conns a !! id = Some cn ∧ f cn = Done cn' ∧ Inv_pend (set_conn a id cn') P.
Proof.
  intros Hf HI Hid. destruct (inv_pend a _ HI id ltac:(by constructor)) as [[cn Hc] Hnm].
  assert (¬ in_map a id cn) as Hn by (intros ?; apply Hnm; by exists cn).
  pose proof (inv_out a _ HI id cn Hc Hn) as Ho. rewrite decide_True in Ho by constructor.
  destruct (Hf cn Ho) as (cn' & Hd & Hs & Hk & Hw). exists cn, cn'. split_and!; [done..|].
  eapply Inv_shut; eauto. apply Hw. by apply (inv_wf a _ HI id).
Qed.

Lemma for_conns_shuts f : shuts f → ∀ ids a, Inv_pend a ids → NoDup ids →
  ∃ a', for_conns f ids a = Done a' ∧ Inv a' ∧ connectionDict a' = connectionDict a ∧
    ∀ i, i ∉ ids → conns a' !! i = conns a !! i.
Proof.
  intros Hf ids. induction ids as [|id ids IH]; intros a HI Hnd; [by exists a|].
  apply NoDup_cons in Hnd as [Hid Hnd].
  destruct (shuts_id f a ids id Hf HI Hid) as (cn & cn' & Hc & Hd & HI').
  destruct (IH _ HI' Hnd) as (a' & Ha' & HI'' & Hdict & Hsame). exists a'.
  cbn [for_conns]. unfold get_conn. rewrite Hc. simpl. rewrite Hd. simpl.
  split_and!; [done..|]. intros i Hi. apply not_elem_of_cons in Hi as [Hne Hi].
  rewrite Hsame by done. simpl. by rewrite list_lookup_insert_ne by done.
Qed.

(** ** Flushing *)

Lemma delete_keys_spec ids : ∀ a P, Inv_pend a P → NoDup ids → Forall (mapped a) ids →
  ∃ a', delete_keys ids a = Done a' ∧ Inv_pend a' (rev ids ++ P) ∧ conns a' = conns a ∧
    ∀ i x, conns a !! i = Some x → in_map a' i x ↔ in_map a i x ∧ i ∉ ids.
Proof.
  induction ids as [|id ids IH]; intros a P HI Hnd Hm.
  { exists a. split_and!; [done..|]. intros. split; [|tauto]. intros. split; [done|]. apply not_elem_of_nil. }
  apply NoDup_cons in Hnd as [Hid Hnd]. apply Forall_cons in Hm as [(cn & Hc & Hi) Hm].
  destruct (IH (deleteConnection a (key cn)) (id :: P)) as (a' & Ha' & HI' & Hc' & Hin); [|done| |].
  - by apply Inv_delete.
  - rewrite Forall_forall in *. intros i Hii. destruct (Hm i Hii) as (x & Hx & Hxi).
    exists x. split; [done|]. rewrite (in_map_delete a id cn) by done. split; [done|].
    intros ->. done.
  - exists a'. cbn [delete_keys]. unfold get_conn. rewrite Hc. simpl. split_and!; [done| |done|].
    + by rewrite <-app_assoc.
    + intros i x Hx. rewrite (Hin i x Hx), in_map_delete by done. rewrite not_elem_of_cons. tauto.
Qed.

Lemma dict_ids_mapped a P id : Inv_pend a P → id ∈ dict_ids a → mapped a id.
Proof.
  intros HI Hid. unfold dict_ids in Hid. destruct (connectionDict a) as [d|] eqn:Ed.
  2:{ by apply elem_of_nil in Hid. }
  apply list_elem_of_fmap in Hid as ([k i] & -> & Hk). apply elem_of_map_to_list in Hk. simpl.
  assert (dict_lookup a k = Some i) as Hki by (unfold dict_lookup; by rewrite Ed).
  destruct (inv_dict a P HI k i Hki) as (cn & Hc & Hkey). exists cn. split; [done|].
  unfold in_map. by rewrite Hkey.
Qed.

Lemma dict_ids_NoDup a P : Inv_pend a P → NoDup (dict_ids a).
Proof.
  intros HI. unfold dict_ids. destruct (connectionDict a) as [d|] eqn:Ed; [|constructor].
  assert (∀ k i, (k, i) ∈ map_to_list d → ∃ cn, conns a !! i = Some cn ∧ key cn = k) as Hin.
  { intros k i Hk%elem_of_map_to_list. apply (inv_dict a P HI). unfold dict_lookup. by rewrite Ed. }
  pose proof (NoDup_map_to_list d) as Hnd. revert Hin Hnd.
  generalize (map_to_list d) as l. induction l as [|[k i] l IH]; intros Hin Hnd; [constructor|].
  apply NoDup_cons in Hnd as [Hni Hnd]. simpl. apply NoDup_cons. split.
  - intros ([k' i'] & Hi' & Hk')%list_elem_of_fmap. simpl in Hi'. subst i'. apply Hni.
    destruct (Hin k i ltac:(constructor)) as (x & Hx & <-).
    destruct (Hin k' i ltac:(by constructor)) as (y & Hy & <-). simplify_eq. done.
  - apply IH; [|done]. intros k' i' ?. apply Hin. by constructor.
Qed.

Lemma dict_ids_perm a P ids : Inv_pend a P → ids ≡ₚ dict_ids a → NoDup ids ∧ Forall (mapped a) ids.
Proof.
  intros HI Hp. split.
  - rewrite Hp. by eapply dict_ids_NoDup.
  - rewrite Forall_forall. intros id Hid. rewrite Hp in Hid. by eapply dict_ids_mapped.
Qed.

Lemma Inv_pend_perm a P P' : P ≡ₚ P' → Inv_pend a P → Inv_pend a P'.
Proof.
  intros HP HI. destruct HI. split; try done.
  - intros id cn Hc Hm. specialize (inv_out0 id cn Hc Hm). 
    destruct (decide (id ∈ P)), (decide (id ∈ P')) as [|]; try done; by rewrite HP in *.
  - intros id Hid. apply inv_pend0. by rewrite HP.
Qed.

Lemma for_conns_length f ids : ∀ a a', for_conns f ids a = Done a' → length (conns a') = length (conns a).
Proof.
  induction ids as [|id ids IH]; intros a a'; [by intros [= ->]|].
  cbn [for_conns]. unfold get_conn. destruct (conns a !! id) as [cn|]; [|done]. simpl.
  destruct (f cn) as [cn'| |]; [|done..]. simpl. intros ->%IH. simpl. by rewrite length_insert.
Qed.

Lemma older_filter a t ids id cn : conns a !! id = Some cn →
  id ∈ List.filter (older a t) ids ↔ id ∈ ids ∧ lastTimestamp cn < t.
Proof.
  intros Hc. rewrite !list_elem_of_In, filter_In. unfold older. by rewrite Hc, Z.ltb_lt.
Qed.

Lemma Flush_spec a t ids : Inv a → ids ≡ₚ dict_ids a →
  ∃ a', FlushOlderThan a t ids = Done a' ∧ Inv a' ∧
    ∀ id cn, conns a !! id = Some cn → in_map a id cn →
      if lastTimestamp cn <? t
      then ∃ cn', conns a' !! id = Some cn' ∧ conn_shut cn' ∧ ¬ mapped a' id
      else conns a' !! id = Some cn ∧ mapped a' id.
Proof.
  intros HI Hp. destruct (dict_ids_perm a [] ids HI Hp) as [Hnd Hm].
  unfold FlushOlderThan. set (old := List.filter (older a t) ids).
  assert (NoDup old) as Hndo by (apply NoDup_ListNoDup, List.NoDup_filter; by apply NoDup_ListNoDup).
  assert (Forall (mapped a) old) as Hmo.
  { rewrite Forall_forall in *. intros i Hi. apply Hm. apply list_elem_of_In in Hi.
    apply list_elem_of_In. by apply filter_In in Hi as [??]. }
  destruct (delete_keys_spec old a [] HI Hndo Hmo) as (a1 & Ha1 & HI1 & Hc1 & Hin1).
  rewrite Ha1. cbn [mbind sched_bind]. apply (Inv_pend_perm _ _ old) in HI1.
  2:{ rewrite app_nil_r. symmetry. apply Permutation_rev. }
  destruct (for_conns_shuts _ conn_flush_shuts old a1 HI1 Hndo) as (a' & Ha' & HI' & Hd' & Hsame).
  exists a'. split_and!; [done..|]. intros id cn Hc Hi. 
  pose proof (older_filter a t ids id cn Hc) as Ho. fold old in Ho.
  assert (id ∈ ids) as Hids.
  { rewrite Hp. unfold in_map, dict_lookup in Hi. unfold dict_ids.
    destruct (connectionDict a) as [d|]; [|done]. apply list_elem_of_fmap.
    exists (key cn, id). split; [done|]. by apply elem_of_map_to_list. }
  destruct (Z.ltb_spec (lastTimestamp cn) t).
  - assert (id ∈ old) as Hold by (by apply Ho). destruct (inv_pend a1 old HI1 id Hold) as [_ Hnm].
    assert (¬ mapped a' id) as Hnm'.
    { intros (x & Hx & Hix). apply Hnm. unfold in_map, dict_lookup in Hix. rewrite Hd' in Hix.
      destruct (inv_dict a1 old HI1 (key x) id Hix) as (y & Hy & Hk). exists y. split; [done|].
      unfold in_map, dict_lookup. by rewrite Hk. }
    destruct (lookup_lt_is_Some_2 (conns a') id) as [cn' Hcn'].
    { pose proof (for_conns_length _ _ _ _ Ha') as ->. rewrite Hc1. by eapply lookup_lt_Some. }
    exists cn'. split_and!; [done| |done]. apply (inv_out a' [] HI' id cn' Hcn').
    intros ?. apply Hnm'. by exists cn'.
  - assert (id ∉ old) as Hold by (intros [_ ?]%Ho; lia).
    rewrite Hsame, Hc1 by done. split; [done|]. exists cn. rewrite Hsame, Hc1 by done.
    split; [done|]. unfold in_map, dict_lookup. rewrite Hd'. by apply Hin1.
Qed.

(** ** The shutdown *)

Definition no_dict (a : TCPAssembler) : TCPAssembler :=
  mkAssembler None (conns a) (handled a) (handler_finished a) (FilterIP a) (FilterPort a) (Detector a).

Lemma for_conns_no_dict f ids : ∀ a,
  for_conns f ids (no_dict a) = (a' ← for_conns f ids a; Done (no_dict a')).
Proof.
  induction ids as [|id ids IH]; intros a; [done|]. cbn [for_conns]. unfold get_conn. simpl.
  destruct (conns a !! id) as [cn|]; [|done]. simpl. destruct (f cn) as [cn'| |]; [|done..].
  simpl. apply (IH (set_conn a id cn')).
Qed.

Lemma no_dict_pend a : Inv a → Inv_pend (no_dict a) (dict_ids a).
Proof.
  intros HI. split; try done.
  - apply (inv_wf a [] HI).
  - intros id cn Hc _. destruct (decide (id ∈ dict_ids a)) as [Hi|Hi].
    + destruct (dict_ids_mapped a [] id HI Hi) as (x & Hx & Hm).
      change (conns a !! id = Some cn) in Hc. simplify_eq. by apply (inv_in a [] HI id).
    + assert (¬ in_map a id cn) as Hn.
      { intros Hm. apply Hi. unfold in_map, dict_lookup in Hm. unfold dict_ids.
        destruct (connectionDict a) as [d|]; [|done]. apply list_elem_of_fmap.
        exists (key cn, id). split; [done|]. by apply elem_of_map_to_list. }
      exact (inv_out a [] HI id cn Hc Hn).
  - intros id Hi. destruct (dict_ids_mapped a [] id HI Hi) as (x & Hx & _). split; [by exists x|].
    intros (y & _ & Hy). done.
Qed.

Lemma FinishAll_spec a ids : Inv a → ids ≡ₚ dict_ids a →
  ∃ a', FinishAll a ids = Done a' ∧ Inv a' ∧ connectionDict a' = None ∧ handler_finished a' = true.
Proof.
  intros HI Hp. destruct (dict_ids_perm a [] ids HI Hp) as [Hnd _].
  destruct (for_conns_shuts _ conn_finish_shuts ids (no_dict a)) as (a1 & Ha1 & HI1 & _ & _); [|done|].
  { apply (Inv_pend_perm _ (dict_ids a)); [done|]. by apply no_dict_pend. }
  rewrite for_conns_no_dict in Ha1. unfold FinishAll.
  destruct (for_conns conn_finish ids a) as [a2| |]; [|done..]. simpl in *. simplify_eq.
  eexists. split_and!; [done| |done|done]. revert HI1. by apply Inv_ext.
Qed.

(** ** Receiving a packet *)

Lemma Inv_create a k src dst d : Inv a → connectionDict a = Some d → dict_lookup a k = None →
  let id := length (conns a) in
  Inv (mkAssembler (Some (<[k:=id]> d)) (conns a ++ [newTCPConnection k])
         (handled a ++ [(src, dst, id)]) (handler_finished a) (FilterIP a) (FilterPort a) (Detector a)).
Proof.
  intros HI Hd Hk id. set (a' := mkAssembler _ _ _ _ _ _ _).
  assert (Hdl : ∀ k', dict_lookup a' k' = if decide (k' = k) then Some id else dict_lookup a k').
  { intros k'. unfold dict_lookup at 1, a'; simpl. destruct (decide (k' = k)) as [->|Hne].
    - by rewrite lookup_insert_eq.
    - rewrite lookup_insert_ne by done. unfold dict_lookup. by rewrite Hd. }
  assert (Hcl : ∀ i x, conns a' !! i = Some x →
    conns a !! i = Some x ∧ i ≠ id ∨ i = id ∧ x = newTCPConnection k).
  { intros i x Hx. unfold a' in Hx; simpl in Hx. apply lookup_app_Some in Hx as [Hx|[Hlt Hx]].
    - left. split; [done|]. apply lookup_lt_Some in Hx. subst id. lia.
    - apply list_lookup_singleton_Some in Hx as [? <-]. right. split; [subst id; lia|done]. }
  assert (Hnew : conns a' !! id = Some (newTCPConnection k)).
  { unfold a', id; simpl. by rewrite list_lookup_middle. }
  split.
  - intros k' i. rewrite Hdl. destruct (decide (k' = k)) as [->|Hne].
    + intros [= <-]. by eexists.
    + intros (x & Hx & ?)%(inv_dict a [] HI). exists x. split; [|done].
      unfold a'; simpl. by apply lookup_app_l_Some.
  - intros i x [[Hx _]|[-> ->]]%Hcl; [by apply (inv_wf a [] HI i)|].
    split; apply newNetStream_wf.
  - intros i x [[Hx Hne]|[-> ->]]%Hcl; [|done]. unfold in_map. rewrite Hdl.
    destruct (decide (key x = k)); [congruence|]. by apply (inv_in a [] HI i).
  - intros i x [[Hx Hne]|[-> ->]]%Hcl; unfold in_map; rewrite Hdl.
    + destruct (decide (key x = k)) as [Hkk|]; intros Hm;
        apply (inv_out a [] HI i x Hx); unfold in_map; [rewrite Hkk, Hk|]; done.
    + simpl. by rewrite decide_True.
  - intros i Hi. by apply elem_of_nil in Hi.
Qed.

Lemma retrieve_safe a src dst k init : Inv a → connectionDict a ≠ None →
  safe (retrieveConnection a src dst k init)
    (λ '(o, a'), Inv a' ∧ match o with None => True | Some id => dict_lookup a' k = Some id end).
Proof.
  intros HI Hd. unfold retrieveConnection. destruct (dict_lookup a k) as [id|] eqn:Ek; [done|].
  destruct init; [|done]. destruct (connectionDict a) as [d|] eqn:Ed; [|done].
  simpl. split; [by apply Inv_create|]. unfold dict_lookup; simpl. by rewrite lookup_insert_eq.
Qed.

Lemma Assemble_safe a srcIP dstIP tcp ts : Inv a → connectionDict a ≠ None →
  len (Payload tcp) < 2 ^ 32 → safe (Assemble a srcIP dstIP tcp ts) Inv.
Proof.
  intros HI Hd Hp. unfold Assemble. destruct (filtered _ _ _); [done|].
  eapply safe_bind; [by apply retrieve_safe|]. intros [[id|] a1] [HI1 Hk]; [|done].
  destruct (inv_dict a1 [] HI1 _ _ Hk) as (cn & Hc & Hkey). unfold get_conn. rewrite Hc. simpl.
  assert (in_map a1 id cn) as Hm by (unfold in_map; by rewrite Hkey).
  destruct (inv_in a1 [] HI1 id cn Hc Hm) as [Ho _].
  eapply safe_bind; [apply onReceive_safe; [by apply (inv_wf a1 [] HI1 id)|done|done]|].
  intros cn1 (Hw1 & Ho1 & Hk1). destruct (conn_closed cn1) eqn:Ecl.
  - destruct (conn_finish_shuts cn1 Ho1) as (cn2 & -> & Hs2 & Hk2 & Hw2). simpl.
    assert (set_conn (deleteConnection (set_conn a1 id cn1) (conn_key (mkEndpoint srcIP (SrcPort tcp))
      (mkEndpoint dstIP (DstPort tcp)))) id cn2 = set_conn (deleteConnection a1 (key cn)) id cn2) as ->.
    { unfold set_conn, deleteConnection. simpl. rewrite list_insert_insert_eq. by rewrite Hkey. }
    eapply Inv_shut; [by apply Inv_delete| |exact Hc|congruence|auto|done]. by apply not_elem_of_nil.
  - apply (Inv_set a1 [] id cn); done.
Qed.

(** ** Every reachable state *)

Lemma step_Inv a a' : Inv a → step a a' → Inv a'.
Proof.
  intros HI Hst. destruct Hst as [a srcIP dstIP tcp ts a' Hp Hd HA|a t ids a' Hp HF|a ids a' Hp HF
    |a id cn sd n b e s' Hc HR|a id cn sd data Hc|a id cn sd Hc].
  - exact (safe_Done _ _ _ (Assemble_safe a srcIP dstIP tcp ts HI Hd Hp) HA).
  - destruct (Flush_spec a t ids HI Hp) as (x & Hx & ? & _). congruence.
  - destruct (FinishAll_spec a ids HI Hp) as (x & Hx & ? & _). congruence.
  - pose proof (inv_wf a [] HI id cn Hc) as [Hu Hd].
    assert (stream_wf (get_side cn sd)) as Hw by (by destruct sd).
    revert HR. unfold stream_Read. destruct (fill _ _) as [[rem q]|].
    + destruct (_ <? _); intros [= <- <- <-]; by apply Inv_handler.
    + destruct (chan_closed _) eqn:E; [|done]. intros [= <- <- <-].
      apply Inv_handler; try done. 
  - pose proof (inv_wf a [] HI id cn Hc) as [Hu Hd].
    assert (stream_wf (get_side cn sd)) as Hw by (by destruct sd).
    unfold Prepend. destruct (_ <? _); by apply Inv_handler.
  - pose proof (inv_wf a [] HI id cn Hc) as [Hu Hd].
    assert (stream_wf (get_side cn sd)) as Hw by (by destruct sd).
    by apply Inv_handler.
Qed.

(** The assembler as [main] sets it up. *)
Definition fresh (detector : option (list byte → bool)) (ip : list byte) (port : Z) : TCPAssembler :=
  mkAssembler (Some ∅) [] [] false ip port detector.

Lemma reachable_Inv det ip port a : reachable (fresh det ip port) a → Inv a.
Proof. induction 1; [apply Inv_new|by eapply step_Inv]. Qed.

(** ** The key of a connection *)

Lemma split_first {A} (x : A) a b a' b' : x ∉ a → x ∉ a' → a ++ x :: b = a' ++ x :: b' → a = a' ∧ b = b'.
Proof.
  revert a'. induction a as [|y a IH]; intros [|z a'] Ha Ha'; simpl; intros H; simplify_eq.
  - done.
  - destruct Ha'. by constructor.
  - destruct Ha. by constructor.
  - rewrite not_elem_of_cons in Ha, Ha'. destruct (IH a') as [-> ->]; tauto.
Qed.

Lemma split_last {A} (x : A) a b a' b' : x ∉ b → x ∉ b' → a ++ x :: b = a' ++ x :: b' → a = a' ∧ b = b'.
Proof.
  intros Hb Hb' H. apply (f_equal reverse) in H. rewrite !reverse_app, !reverse_cons in H.
  rewrite <-!app_assoc in H. apply split_first in H as [H1 H2]; [|by rewrite elem_of_reverse..].
  split; by apply (inj reverse).
Qed.

Definition colon : byte := Byte.x3a.
Definition dash : byte := Byte.x2d.

Lemma Itoa_not b n : 0 ≤ n → is_digit b = false → b ∉ Itoa n.
Proof.
  intros Hn Hb Hin. destruct (Itoa_digits n Hn) as [Hd _]. rewrite Forall_forall in Hd.
  specialize (Hd b Hin). simpl in Hd. congruence.
Qed.

(** What gopacket prints for an endpoint: an address without a dash. *)
Definition printed (e : Endpoint) : Prop := dash ∉ IP e ∧ 0 ≤ Port e.

Lemma Endpoint_String_inj a b : printed a → printed b → Endpoint_String a = Endpoint_String b → a = b.
Proof.
  destruct a as [ip p], b as [ip' p']. intros [_ Hp] [_ Hp'] H. unfold Endpoint_String in H. simpl in *.
  apply (split_last colon) in H as [-> H]; [|by apply Itoa_not..].
  f_equal. by apply Itoa_inj.
Qed.

Lemma Endpoint_String_dash a : printed a → dash ∉ Endpoint_String a.
Proof.
  intros [Hi Hp]. unfold Endpoint_String. rewrite !not_elem_of_app. split_and!; [done| |by apply Itoa_not].
  intros H. apply list_elem_of_singleton in H. done.
Qed.

Lemma conn_key_sym a b : conn_key a b = conn_key b a.
Proof.
  unfold conn_key. destruct (decide (Endpoint_String a = Endpoint_String b)) as [->|Hne]; [done|].
  rewrite (str_ltb_antisym _ _ Hne). by destruct (str_ltb (Endpoint_String a) _).
Qed.

Lemma conn_key_cases a b : ∃ x y, conn_key a b = Endpoint_String x ++ gs "-" ++ Endpoint_String y ∧
  (x = a ∧ y = b ∨ x = b ∧ y = a).
Proof. unfold conn_key. destruct (str_ltb _ _); eexists _, _; (split; [done|]); tauto. Qed.

Lemma conn_key_same a b a' b' : printed a → printed b → printed a' → printed b' →
  conn_key a b = conn_key a' b' ↔ a = a' ∧ b = b' ∨ a = b' ∧ b = a'.
Proof.
  intros Ha Hb Ha' Hb'.
  split.
  - destruct (conn_key_cases a b) as (x & y & -> & Hxy), (conn_key_cases a' b') as (x' & y' & -> & Hxy').
    assert (printed x ∧ printed y ∧ printed x' ∧ printed y') as (Hx & Hy & Hx' & Hy').
    { destruct Hxy as [[-> ->]|[-> ->]], Hxy' as [[-> ->]|[-> ->]]; done. }
    intros H. apply (split_first dash) in H as [H1 H2]; [|by apply Endpoint_String_dash..].
    apply (Endpoint_String_inj x x' Hx Hx') in H1. apply (Endpoint_String_inj y y' Hy Hy') in H2. subst x' y'.
    destruct Hxy as [[-> ->]|[-> ->]], Hxy' as [[<- <-]|[<- <-]]; tauto.
  - intros [[-> ->]|[-> ->]]; [done|apply conn_key_sym].
Qed.

(** ** Properties *)

(** C12. In every state the program can reach, under any interleaving of
    captured packets, flushes, the shutdown and the handlers' reads, the two
    channels of a connection are open and the connection is not finished while
    it is in the map, and both are closed once it has left the map: so a
    handler always sees the end of its streams, and nothing is sent on, or
    closed twice, on a closed channel. *)
Theorem connections_open_iff_mapped det ip port a id cn
  (Hr : reachable (fresh det ip port) a) (Hc : conns a !! id = Some cn) :
  if decide (dict_lookup a (key cn) = Some id)
  then chan_closed (c (UpStream cn)) = false ∧ chan_closed (c (DownStream cn)) = false
       ∧ conn_closed cn = false
  else chan_closed (c (UpStream cn)) = true ∧ chan_closed (c (DownStream cn)) = true.
Proof.
  pose proof (reachable_Inv _ _ _ _ Hr) as HI. case_decide as Hm.
  - destruct (inv_in a [] HI id cn Hc Hm) as [[??] ?]. done.
  - exact (inv_out a [] HI id cn Hc Hm).
Qed.

(** No reachable state panics: a captured packet is assembled (or the
    capture loop waits for a full channel), a flush and the final shutdown
    always run to their end, whatever order the map is ranged over, and after
    the shutdown every connection ever created has both channels closed. *)
Theorem assembler_never_panics det ip port a (Hr : reachable (fresh det ip port) a) :
  (∀ srcIP dstIP tcp ts, connectionDict a ≠ None → len (Payload tcp) < 2 ^ 32 →
     Assemble a srcIP dstIP tcp ts ≠ Crash) ∧
  (∀ t ids, ids ≡ₚ dict_ids a → ∃ a', FlushOlderThan a t ids = Done a') ∧
  (∀ ids, ids ≡ₚ dict_ids a → ∃ a', FinishAll a ids = Done a' ∧
     ∀ id cn, conns a' !! id = Some cn →
       chan_closed (c (UpStream cn)) = true ∧ chan_closed (c (DownStream cn)) = true).
Proof.
  pose proof (reachable_Inv _ _ _ _ Hr) as HI. split_and!.
  - intros srcIP dstIP tcp ts Hd Hp Hx. pose proof (Assemble_safe a srcIP dstIP tcp ts HI Hd Hp) as H.
    by rewrite Hx in H.
  - intros t ids Hp. destruct (Flush_spec a t ids HI Hp) as (a' & ? & _). by exists a'.
  - intros ids Hp. destruct (FinishAll_spec a ids HI Hp) as (a' & ? & HI' & Hd & _).
    exists a'. split; [done|]. intros id cn Hc. apply (inv_out a' [] HI' id cn Hc).
    unfold in_map, dict_lookup. by rewrite Hd.
Qed.

(** A flush finishes exactly the connections of the map whose last packet
    is older than its time: those leave the map with both channels closed, the
    others stay as they are. *)
Theorem flush_exact det ip port a t ids
  (Hr : reachable (fresh det ip port) a) (Hp : ids ≡ₚ dict_ids a) :
  ∃ a', FlushOlderThan a t ids = Done a' ∧
    ∀ id cn, conns a !! id = Some cn → dict_lookup a (key cn) = Some id →
      if lastTimestamp cn <? t
      then ∃ cn', conns a' !! id = Some cn' ∧ dict_lookup a' (key cn') ≠ Some id ∧
             chan_closed (c (UpStream cn')) = true ∧ chan_closed (c (DownStream cn')) = true
      else conns a' !! id = Some cn ∧ dict_lookup a' (key cn) = Some id.
Proof.
  pose proof (reachable_Inv _ _ _ _ Hr) as HI.
  destruct (Flush_spec a t ids HI Hp) as (a' & HF & _ & H). exists a'. split; [done|].
  intros id cn Hc Hm. specialize (H id cn Hc Hm). destruct (_ <? _).
  - destruct H as (cn' & Hc' & [??] & Hn). exists cn'. split_and!; try done.
    intros ?. apply Hn. by exists cn'.
  - destruct H as (Hc' & x & Hx & Hm'). split; [done|]. unfold in_map in Hm'. congruence.
Qed.

(** C13. Packets share a connection exactly when they travel between the same
    two endpoints, in either direction. *)
Theorem conn_key_iff a b a' b' (Ha : printed a) (Hb : printed b) (Ha' : printed a') (Hb' : printed b') :
  conn_key a b = conn_key a' b' ↔ a = a' ∧ b = b' ∨ a = b' ∧ b = a'.
Proof. by apply conn_key_same. Qed.

(** A state with one open connection. *)
Definition demo_syn : TCP := mkTCP 1025 6379 99999 0 true false false false [].
Definition demo_ip (n : Z) : list byte := gs "10.0.0." ++ Itoa n.
Definition demo_state : TCPAssembler :=
  match Assemble (fresh None [] 0) (demo_ip 1) (demo_ip 2) demo_syn 5 with
  | Done a => a
  | _ => fresh None [] 0
  end.

Lemma demo_reachable : reachable (fresh None [] 0) demo_state.
Proof.
  eapply reach_step; [constructor|].
  apply (step_assemble _ (demo_ip 1) (demo_ip 2) demo_syn 5); [|done|].
  - change (len (Payload demo_syn)) with 0. lia.
  - vm_compute. reflexivity.
Qed.

Lemma connections_open_iff_mapped_witness :
  ∃ cn, conns demo_state !! 0%nat = Some cn ∧ conn_closed cn = false.
Proof.
  destruct (conns demo_state !! 0%nat) as [cn|] eqn:E; [|vm_compute in E; discriminate].
  exists cn. split; [done|].
  pose proof (connections_open_iff_mapped None [] 0 demo_state 0%nat cn demo_reachable E) as H.
  destruct (decide _) as [|Hn]; [apply H|].
  destruct Hn. revert E. vm_compute. intros [= <-]. reflexivity.
Defined.

Lemma assembler_never_panics_witness :
  Assemble demo_state (demo_ip 2) (demo_ip 1) demo_syn 6 ≠ Crash.
Proof.
  apply (assembler_never_panics None [] 0 demo_state demo_reachable).
  - intros E. apply (f_equal (λ o, bool_decide (is_Some o))) in E. vm_compute in E. discriminate.
  - change (len (Payload demo_syn)) with 0. lia.
Defined.

Lemma flush_exact_witness : ∃ a', FlushOlderThan demo_state 6 [0%nat] = Done a' ∧
  ∃ cn, conns a' !! 0%nat = Some cn ∧ chan_closed (c (UpStream cn)) = true.
Proof.
  destruct (flush_exact None [] 0 demo_state 6 [0%nat] demo_reachable) as (a' & Ha' & H).
  { assert (dict_ids demo_state = [0%nat]) as -> by (vm_compute; reflexivity). done. }
  exists a'. split; [done|].
  destruct (conns demo_state !! 0%nat) as [cn|] eqn:E; [|vm_compute in E; discriminate].
  specialize (H 0%nat cn E). assert (lastTimestamp cn = 5) as Ht.
  { revert E. vm_compute. by intros [= <-]. }
  rewrite Ht in H. destruct H as (cn' & ? & _ & ? & _); [|by exists cn'].
  revert E. vm_compute. by intros [= <-].
Defined.

Lemma conn_key_iff_witness :
  conn_key (mkEndpoint (demo_ip 1) 1025) (mkEndpoint (demo_ip 2) 80)
  = conn_key (mkEndpoint (demo_ip 2) 80) (mkEndpoint (demo_ip 1) 1025).
Proof.
  apply conn_key_iff; try (split; [|done]; by apply (bool_decide_unpack _); vm_compute).
  right. done.
Defined.
