(* ===== verification/Text.v ===== *)
(** * Text matching (src/tcpport/text.go)

    [WildcardMatch], the filter of service, method and command names: a
    two-index loop that backtracks to the last star.  Proved to terminate, to
    stay inside both strings and to decide the pattern language. *)

From S2P Require Import Prelude GoBytes GoStrings.

Definition star : byte := Byte.x2a.
Definition question : byte := Byte.x3f.

(** [j < n && f(pattern[j])] *)
Definition at_byte (s : list byte) (j : Z) (f : byte → go bool) : go bool :=
  if j <? len s then b ← index s j; f b else Ret false.

(** The first loop; [Ret None] when the fuel is used up, else the value of [j]
    at its end, or [-1] where the loop returns false. *)
Fixpoint wildcard_loop (fuel : nat) (str pattern : list byte) (i j asterisk mtch : Z) : go (option Z) :=
  match fuel with
  | O => Ret None
  | S fuel =>
      if i <? len str then
        st ← at_byte pattern j (λ p, Ret (Byte.eqb p star));
        if st : bool then wildcard_loop fuel str pattern i (j + 1) j i
        else
          eq ← at_byte pattern j (λ p, b ← index str i; Ret (Byte.eqb b p || Byte.eqb p question));
          if eq : bool then wildcard_loop fuel str pattern (i + 1) (j + 1) asterisk mtch
          else if 0 <=? asterisk then
            wildcard_loop fuel str pattern (mtch + 1) (asterisk + 1) asterisk (mtch + 1)
          else Ret (Some (-1))
      else Ret (Some j)
  end.

(** The second loop: skip the stars that are left. *)
Fixpoint skip_stars (fuel : nat) (pattern : list byte) (j : Z) : go Z :=
  match fuel with
  | O => Ret j
  | S fuel =>
      st ← at_byte pattern j (λ p, Ret (Byte.eqb p star));
      if st : bool then skip_stars fuel pattern (j + 1) else Ret j
  end.

Definition wildcard_fuel (str pattern : list byte) : nat :=
  S (length str * S (length pattern) + length pattern).

Definition WildcardMatch (str pattern : list byte) : go (option bool) :=
  o ← wildcard_loop (wildcard_fuel str pattern) str pattern 0 0 (-1) 0;
  match o with
  | None => Ret None
  | Some j =>
      if j <? 0 then Ret (Some false)
      else j ← skip_stars (length pattern) pattern j; Ret (Some (j =? len pattern))
  end.

(** ** The pattern language *)

Inductive wild : list byte → list byte → Prop :=
| wild_nil : wild [] []
| wild_star s t p : wild t p → wild (s ++ t) (star :: p)
| wild_any b s p : wild s p → wild (b :: s) (question :: p)
| wild_byte b s p : wild s p → wild (b :: s) (b :: p).

Lemma wild_star_iff s p : wild s (star :: p) ↔ ∃ k, (k ≤ length s)%nat ∧ wild (drop k s) p.
Proof.
  split.
  - inversion 1; subst.
    + exists (length s0). split; [rewrite length_app; lia|]. by rewrite drop_app_length.
    + exists 1%nat. simpl. split; [lia|]. done.
  - intros (k & _ & H). rewrite <-(take_drop k s). by constructor.
Qed.

(** A pattern byte that is not a star takes exactly one byte. *)
Lemma wild_cons_iff s q p : q ≠ star →
  wild s (q :: p) ↔ ∃ b t, s = b :: t ∧ (b = q ∨ q = question) ∧ wild t p.
Proof.
  intros Hq. split.
  - inversion 1; subst; [done|eexists _, _; split; [done|]; auto..].
  - intros (b & t & -> & [->| ->] & H); by constructor.
Qed.

Lemma wild_nil_iff s : wild s [] ↔ s = [].
Proof. split; [by inversion 1|]. intros ->. constructor. Qed.

(** A star-free prefix of the pattern takes as many bytes as it has. *)
Lemma wild_skip q : star ∉ q → ∀ s p, wild s (q ++ p) →
  (length q ≤ length s)%nat ∧ wild (drop (length q) s) p.
Proof.
  induction q as [|x q IH]; intros Hq s p H; [split; [simpl; lia|done]|].
  apply not_elem_of_cons in Hq as [Hx Hq]. simpl in H.
  apply wild_cons_iff in H as (b & t & -> & _ & H); [|done].
  apply IH in H as [H1 H2]; [|done]. simpl. split; [lia|done].
Qed.

(** ** The loop invariant *)

Section wildcard.
Context (str pattern : list byte).

(** Without a star so far the two positions decide; with one, the string
    matches exactly when the pattern behind the star matches from [mtch] or
    later, the bytes since then have been compared with star-free pattern. *)
Definition wild_inv (i j asterisk mtch : nat) (has : bool) : Prop :=
  if has then
    (j ≤ length pattern)%nat ∧ (asterisk < j)%nat ∧ (i = mtch + (j - S asterisk))%nat ∧
    star ∉ take (j - S asterisk) (drop (S asterisk) pattern) ∧
    (wild str pattern ↔ ∃ k, (mtch ≤ k ≤ length str)%nat ∧ wild (drop k str) (drop (S asterisk) pattern)) ∧
    (wild (drop mtch str) (drop (S asterisk) pattern) ↔ wild (drop i str) (drop j pattern))
  else (j ≤ length pattern)%nat ∧ (wild str pattern ↔ wild (drop i str) (drop j pattern)).

Lemma drop_cons_lookup {A} (l : list A) i x : l !! i = Some x → drop i l = x :: drop (S i) l.
Proof. intros H. by rewrite (drop_S l x i). Qed.

(** Every later match of the pattern behind the star matches the rest of the
    pattern at the same distance. *)
Lemma wild_later i j asterisk mtch k : wild_inv i j asterisk mtch true → (mtch ≤ k)%nat →
  (k ≤ length str)%nat → wild (drop k str) (drop (S asterisk) pattern) →
  ∃ k', (i ≤ k' ≤ length str)%nat ∧ wild (drop k' str) (drop j pattern).
Proof.
  intros (Hj & Ha & Hi & Hs & _) Hk Hkl H.
  rewrite <-(take_drop (j - S asterisk) (drop (S asterisk) pattern)) in H.
  apply wild_skip in H as [H1 H2]; [|done].
  rewrite length_take, length_drop, Nat.min_l in H1, H2 by lia. rewrite length_drop in H1.
  rewrite !drop_drop in H2. replace (S asterisk + (j - S asterisk))%nat with j in H2 by lia.
  eexists. split; [|exact H2]. lia.
Qed.

Lemma wild_inv_star i j asterisk mtch has : (i < length str)%nat → pattern !! j = Some star →
  wild_inv i j asterisk mtch has → wild_inv i (S j) j i true.
Proof.
  intros Hil Hpj H. pose proof (lookup_lt_Some _ _ _ Hpj).
  split_and!; [lia|lia|lia|by rewrite Nat.sub_diag; simpl; apply not_elem_of_nil| |done].
  assert (wild (drop i str) (drop j pattern) ↔
    ∃ k, (i ≤ k ≤ length str)%nat ∧ wild (drop k str) (drop (S j) pattern)) as Hstar.
  { rewrite (drop_cons_lookup _ _ _ Hpj), wild_star_iff. split.
    - intros (k & Hk & Hw). rewrite length_drop in Hk. rewrite drop_drop in Hw.
      exists (i + k)%nat. split; [lia|done].
    - intros (k & Hk & Hw). exists (k - i)%nat. rewrite length_drop, drop_drop. split; [lia|].
      by replace (i + (k - i))%nat with k by lia. }
  destruct has; [|destruct H as [_ H]; by rewrite H].
  pose proof H as (Hj & Ha & Hi & Hs & HA & HB). rewrite HA. split.
  - intros (k & Hk & Hw). destruct (wild_later _ _ _ _ k H) as (k1 & Hk1 & Hw1); [lia|lia|done|].
    rewrite (drop_cons_lookup _ _ _ Hpj), wild_star_iff in Hw1. destruct Hw1 as (d & Hd & Hw1).
    rewrite length_drop in Hd. rewrite drop_drop in Hw1. exists (k1 + d)%nat. split; [lia|done].
  - intros Hex. apply Hstar, HB in Hex. exists mtch. split; [lia|done].
Qed.

Lemma wild_inv_byte i j asterisk mtch has b q : str !! i = Some b → pattern !! j = Some q →
  q ≠ star → b = q ∨ q = question →
  wild_inv i j asterisk mtch has → wild_inv (S i) (S j) asterisk mtch has.
Proof.
  intros Hb Hq Hns Hbq H. pose proof (lookup_lt_Some _ _ _ Hq).
  assert (wild (drop i str) (drop j pattern) ↔ wild (drop (S i) str) (drop (S j) pattern)) as Hw.
  { rewrite (drop_cons_lookup _ _ _ Hb), (drop_cons_lookup _ _ _ Hq), wild_cons_iff by done. split.
    - intros (b' & t & [= <- <-] & _ & ?). done.
    - intros ?. eexists _, _. split; [done|]. done. }
  destruct has.
  - destruct H as (Hj & Ha & Hi & Hs & HA & HB). split_and!; [lia|lia|lia| |done|by rewrite HB].
    replace (S j - S asterisk)%nat with (S (j - S asterisk)) by lia.
    rewrite (take_S_r _ _ q).
    + rewrite not_elem_of_app. split; [done|]. intros Hx. apply list_elem_of_singleton in Hx. done.
    + rewrite lookup_drop. by replace (S asterisk + (j - S asterisk))%nat with j by lia.
  - destruct H as [Hj H]. split; [lia|]. by rewrite H.
Qed.

(** A mismatch at [i], [j]. *)
Definition mismatch (i j : nat) : Prop :=
  ∃ b, str !! i = Some b ∧
    ∀ q, pattern !! j = Some q → q ≠ star ∧ b ≠ q ∧ q ≠ question.

Lemma mismatch_not_wild i j : (j ≤ length pattern)%nat → mismatch i j →
  ¬ wild (drop i str) (drop j pattern).
Proof.
  intros Hj (b & Hb & Hq). rewrite (drop_cons_lookup _ _ _ Hb).
  destruct (pattern !! j) as [q|] eqn:E.
  - destruct (Hq q eq_refl) as (H1 & H2 & H3). rewrite (drop_cons_lookup _ _ _ E), wild_cons_iff by done.
    intros (b' & t & [= <- <-] & [|] & _); done.
  - apply lookup_ge_None in E. rewrite (drop_ge pattern j) by lia. by rewrite wild_nil_iff.
Qed.

Lemma wild_inv_back i j asterisk mtch : mismatch i j →
  wild_inv i j asterisk mtch true → wild_inv (S mtch) (S asterisk) asterisk (S mtch) true.
Proof.
  intros Hm (Hj & Ha & Hi & Hs & HA & HB). apply mismatch_not_wild in Hm; [|done].
  split_and!; [lia|lia|lia|rewrite Nat.sub_diag; simpl; apply not_elem_of_nil| |done].
  rewrite HA. split.
  - intros (k & Hk & Hw). exists k. split; [|done].
    assert (k ≠ mtch) by (intros ->; by apply Hm, HB). lia.
  - intros (k & Hk & Hw). exists k. split; [lia|done].
Qed.

Lemma wild_inv_end i j asterisk mtch has : i = length str →
  wild_inv i j asterisk mtch has → wild str pattern ↔ wild [] (drop j pattern).
Proof.
  intros Hi H. destruct has.
  2:{ destruct H as [_ H]. by rewrite H, drop_ge by lia. }
  pose proof H as (Hj & Ha & Hij & Hs & HA & HB). rewrite (drop_ge str i) in HB by lia.
  rewrite HA, <-HB. split.
  - intros (k & Hk & Hw). destruct (wild_later _ _ _ _ k H) as (k1 & Hk1 & Hw1); [lia|lia|done|].
    apply HB. by rewrite drop_ge in Hw1 by lia.
  - intros Hw. exists mtch. split; [lia|done].
Qed.

(** ** The loop *)

Lemma index_nat {A} (s : list A) (i : nat) x : s !! i = Some x → index s (Z.of_nat i) = Ret x.
Proof. intros H. unfold index. rewrite znth_nonneg by lia. by rewrite Nat2Z.id, H. Qed.

Lemma at_byte_Some (s : list byte) (j : nat) q f : s !! j = Some q → at_byte s (Z.of_nat j) f = f q.
Proof.
  intros H. unfold at_byte. pose proof (lookup_lt_Some _ _ _ H). rewrite len_length.
  destruct (Z.ltb_spec (Z.of_nat j) (Z.of_nat (length s))); [|lia]. by rewrite (index_nat _ _ q).
Qed.
Lemma at_byte_None (s : list byte) (j : nat) f : s !! j = None → at_byte s (Z.of_nat j) f = Ret false.
Proof.
  intros H%lookup_ge_None. unfold at_byte. rewrite len_length.
  destruct (Z.ltb_spec (Z.of_nat j) (Z.of_nat (length s))); [lia|done].
Qed.

Lemma byte_eqb_spec a b : reflect (a = b) (Byte.eqb a b).
Proof.
  destruct (Byte.eqb a b) eqn:E; constructor; [by apply Byte.byte_dec_bl|].
  intros ->. by rewrite Byte.byte_dec_lb in E.
Qed.

Definition ast_z (has : bool) (a : nat) : Z := if has then Z.of_nat a else -1.

Definition loop_result (o : option Z) : Prop :=
  ∃ j, o = Some j ∧ (if j <? 0 then ¬ wild str pattern
    else 0 ≤ j ≤ len pattern ∧ (wild str pattern ↔ wild [] (zdrop j pattern))).

(** What the loop does after a mismatch, given that the rest of it is right. *)
Lemma loop_back fuel i j asterisk mtch has :
  (∀ i j asterisk mtch has,
    wild_inv i j asterisk mtch has → (i ≤ length str)%nat → (mtch ≤ i)%nat →
    ((length str - mtch) * S (length pattern) + (length pattern - j) < fuel)%nat →
    ∃ o, wildcard_loop fuel str pattern (Z.of_nat i) (Z.of_nat j) (ast_z has asterisk) (Z.of_nat mtch)
           = Ret o ∧ loop_result o) →
  wild_inv i j asterisk mtch has → mismatch i j → (i < length str)%nat → (mtch ≤ i)%nat →
  (j ≤ length pattern)%nat →
  ((length str - mtch) * S (length pattern) + (length pattern - j) < S fuel)%nat →
  ∃ o, (if 0 <=? ast_z has asterisk then
          wildcard_loop fuel str pattern (Z.of_nat mtch + 1) (ast_z has asterisk + 1)
            (ast_z has asterisk) (Z.of_nat mtch + 1)
        else Ret (Some (-1))) = Ret o ∧ loop_result o.
Proof.
  intros IH HI Hmis Hi Hm Hj Hf. destruct has; simpl ast_z.
  - destruct (Z.leb_spec 0 (Z.of_nat asterisk)); [|lia].
    replace (Z.of_nat mtch + 1) with (Z.of_nat (S mtch)) by lia.
    replace (Z.of_nat asterisk + 1) with (Z.of_nat (S asterisk)) by lia.
    apply (IH (S mtch) (S asterisk) asterisk (S mtch) true); [by eapply wild_inv_back|lia|lia|].
    replace (length str - mtch)%nat with (S (length str - S mtch)) in Hf by lia. simpl in Hf. lia.
  - exists (Some (-1)). split; [done|]. exists (-1). split; [done|]. simpl.
    destruct HI as [_ ->]. by apply mismatch_not_wild.
Qed.

Lemma wildcard_loop_spec fuel : ∀ i j asterisk mtch has,
  wild_inv i j asterisk mtch has → (i ≤ length str)%nat → (mtch ≤ i)%nat →
  ((length str - mtch) * S (length pattern) + (length pattern - j) < fuel)%nat →
  ∃ o, wildcard_loop fuel str pattern (Z.of_nat i) (Z.of_nat j) (ast_z has asterisk) (Z.of_nat mtch)
         = Ret o ∧ loop_result o.
Proof.
  induction fuel as [|fuel IH]; intros i j asterisk mtch has HI Hi Hm Hf; [by apply Nat.nlt_0_r in Hf|].
  assert (j ≤ length pattern)%nat as Hj by (destruct has; apply HI).
  cbn [wildcard_loop]. rewrite len_length.
  destruct (Z.ltb_spec (Z.of_nat i) (Z.of_nat (length str))) as [Hlt|Hge].
  2:{ exists (Some (Z.of_nat j)). split; [done|]. exists (Z.of_nat j). split; [done|].
      destruct (Z.ltb_spec (Z.of_nat j) 0); [lia|]. rewrite len_length. split; [lia|].
      rewrite (wild_inv_end i j asterisk mtch has) by (done || lia). unfold zdrop. by rewrite Nat2Z.id. }
  destruct (lookup_lt_is_Some_2 str i) as [b Hb]; [lia|].
  destruct (pattern !! j) as [q|] eqn:Hq.
  - rewrite !(at_byte_Some _ _ q) by done. simpl. pose proof (lookup_lt_Some _ _ _ Hq).
    destruct (byte_eqb_spec q star) as [->|Hns].
    { replace (Z.of_nat j + 1) with (Z.of_nat (S j)) by lia. apply (IH i (S j) j i true); [|lia..|].
      - eapply wild_inv_star; [lia|done|exact HI].
      - assert ((length str - i) * S (length pattern) ≤ (length str - mtch) * S (length pattern))%nat
          by (apply Nat.mul_le_mono_r; lia). lia. }
    rewrite (index_nat _ _ b) by done. simpl.
    destruct (Byte.eqb b q || Byte.eqb q question) eqn:E.
    { replace (Z.of_nat i + 1) with (Z.of_nat (S i)) by lia.
      replace (Z.of_nat j + 1) with (Z.of_nat (S j)) by lia.
      apply (IH (S i) (S j) asterisk mtch has); [|lia..].
      apply (wild_inv_byte i j asterisk mtch has b q); try done.
      apply orb_true_iff in E as [E|E]; apply Byte.byte_dec_bl in E; auto. }
    apply orb_false_iff in E as [E1 E2].
    assert (mismatch i j) as Hmis.
    { exists b. split; [done|]. intros q' Hq'. rewrite Hq in Hq'. injection Hq' as <-. split_and!; [done|..].
      - intros ->. by rewrite Byte.byte_dec_lb in E1.
      - intros ->. by rewrite Byte.byte_dec_lb in E2. }
    apply (loop_back fuel i j asterisk mtch has); done || lia.
  - rewrite !at_byte_None by done. simpl.
    assert (mismatch i j) as Hmis by (exists b; split; [done|]; congruence).
    apply (loop_back fuel i j asterisk mtch has); done || lia.
Qed.
End wildcard.

Lemma skip_stars_spec fuel : ∀ pattern j, 0 ≤ j ≤ len pattern → (Z.to_nat (len pattern - j) ≤ fuel)%nat →
  ∃ j', skip_stars fuel pattern j = Ret j' ∧ (j' = len pattern ↔ wild [] (zdrop j pattern)).
Proof.
  assert (∀ pattern, wild [] (zdrop (len pattern) pattern)) as Hend.
  { intros pattern. rewrite zdrop_ge by lia. constructor. }
  induction fuel as [|fuel IH]; intros pattern j Hj Hf.
  { exists j. split; [done|]. replace j with (len pattern) by lia. by split. }
  cbn [skip_stars]. replace j with (Z.of_nat (Z.to_nat j)) by lia.
  destruct (pattern !! Z.to_nat j) as [q|] eqn:Hq.
  - rewrite (at_byte_Some _ _ q) by done. simpl. pose proof (lookup_lt_Some _ _ _ Hq) as Hlt.
    rewrite len_length in *. unfold zdrop at 1. rewrite Nat2Z.id, (drop_cons_lookup _ _ _ Hq).
    destruct (byte_eqb_spec q star) as [->|Hns].
    + destruct (IH pattern (Z.of_nat (Z.to_nat j) + 1)) as (j' & -> & Hiff);
        [rewrite len_length; lia|rewrite len_length; lia|].
      exists j'. split; [done|]. rewrite <-len_length, Hiff. unfold zdrop.
      replace (Z.to_nat (Z.of_nat (Z.to_nat j) + 1)) with (S (Z.to_nat j)) by lia.
      rewrite wild_star_iff. split.
      * intros Hw. exists 0%nat. split; [simpl; lia|done].
      * intros (k & _ & Hw). by rewrite drop_nil in Hw.
    + eexists. split; [done|]. split; [lia|]. intros (b & t & ? & _)%wild_cons_iff; done.
  - rewrite at_byte_None by done. simpl. apply lookup_ge_None in Hq. rewrite len_length in Hj.
    eexists. split; [done|]. replace (Z.of_nat (Z.to_nat j)) with (len pattern) by (rewrite len_length; lia).
    by split.
Qed.

(** ** Properties *)

Lemma WildcardMatch_decides str pattern :
  ∃ b, WildcardMatch str pattern = Ret (Some b) ∧ (b = true ↔ wild str pattern).
Proof.
  unfold WildcardMatch.
  destruct (wildcard_loop_spec str pattern (wildcard_fuel str pattern) 0 0 0 0 false) as (o & Ho & j & -> & Hj).
  { split; [lia|]. done. }
  { lia. } { lia. } { unfold wildcard_fuel. lia. }
  cbn [ast_z] in Ho. change (Z.of_nat 0) with 0 in Ho. rewrite Ho. simpl.
  destruct (j <? 0).
  - exists false. split; [done|]. split; [done|tauto].
  - destruct Hj as [Hj Hw].
    destruct (skip_stars_spec (length pattern) pattern j Hj) as (j' & -> & Hj');
      [rewrite len_length; lia|]. simpl.
    eexists. split; [done|]. by rewrite Z.eqb_eq, Hj', Hw.
Qed.

(** A pattern without wildcards stands for itself. *)
Lemma wild_plain str pattern : star ∉ pattern → question ∉ pattern → wild str pattern ↔ str = pattern.
Proof.
  revert str. induction pattern as [|q p IH]; intros str Hs Hq; [apply wild_nil_iff|].
  apply not_elem_of_cons in Hs as [Hs Hs'], Hq as [Hq Hq']. rewrite wild_cons_iff by done.
  split.
  - intros (b & t & -> & [-> | ->] & H); [|done]. by rewrite (proj1 (IH t Hs' Hq') H).
  - intros ->. exists q, p. split_and!; [done|by left|by apply IH].
Qed.

(** C14. [WildcardMatch] terminates without reading outside its arguments and
    decides the pattern language: [*] stands for any bytes, [?] for any one
    byte, every other byte for itself. *)
Theorem WildcardMatch_correct str pattern :
  ∃ b, WildcardMatch str pattern = Ret (Some b) ∧ (b = true ↔ wild str pattern) ∧
    (star ∉ pattern → question ∉ pattern → (b = true ↔ str = pattern)).
Proof.
  destruct (WildcardMatch_decides str pattern) as (b & Hb & Hw). exists b. split_and!; [done..|].
  intros. by rewrite Hw, wild_plain.
Qed.
