(* ===== verification/Unicode.v ===== *)
(** * Runes

    UTF-8 as Go decodes and encodes it, and the functions of [strings] and
    [strconv] that look at runes.  The Unicode character tables are data of the
    run-time library and stay parameters; what Go decides without a table
    (ASCII case, Latin-1 printability, white space) is defined here. *)

From S2P Require Import Prelude GoBytes GoStrings.

Class UnicodeTables := {
  upper_table : Z → Z;
  lower_table : Z → Z;
  print_table : Z → bool;
  letter_table : Z → bool;
  lower_letter_table : Z → bool;
  digit_table : Z → bool;
  fold_table : Z → Z;
}.

(** The tables of a run-time library that knows only the characters above. *)
Definition no_tables : UnicodeTables :=
  {| upper_table := id; lower_table := id; print_table := λ _, false; letter_table := λ _, false;
     lower_letter_table := λ _, false; digit_table := λ _, false; fold_table := id |}.

(** ** UTF-8 *)

Definition RuneError : Z := 65533.

Definition cont (lo hi : Z) (b : byte) : bool := (lo <=? bz b) && (bz b <=? hi).

(** [utf8.DecodeRune] of a non-empty string: the rune and its width. *)
Definition decode_rune (s : list byte) : Z * Z :=
  let bad := (RuneError, 1) in
  match s with
  | [] => (RuneError, 0)
  | b0 :: s1 =>
      let x := bz b0 in
      if x <? 128 then (x, 1)
      else if x <? 194 then bad
      else if x <? 224 then
        match s1 with
        | b1 :: _ =>
            if cont 128 191 b1 then (Z.lor (Z.shiftl (Z.land x 31) 6) (Z.land (bz b1) 63), 2) else bad
        | _ => bad
        end
      else if x <? 240 then
        let lo := if x =? 224 then 160 else 128 in
        let hi := if x =? 237 then 159 else 191 in
        match s1 with
        | b1 :: b2 :: _ =>
            if cont lo hi b1 && cont 128 191 b2
            then (Z.lor (Z.lor (Z.shiftl (Z.land x 15) 12) (Z.shiftl (Z.land (bz b1) 63) 6))
                    (Z.land (bz b2) 63), 3)
            else bad
        | _ => bad
        end
      else if x <? 245 then
        let lo := if x =? 240 then 144 else 128 in
        let hi := if x =? 244 then 143 else 191 in
        match s1 with
        | b1 :: b2 :: b3 :: _ =>
            if cont lo hi b1 && cont 128 191 b2 && cont 128 191 b3
            then (Z.lor (Z.lor (Z.lor (Z.shiftl (Z.land x 7) 18) (Z.shiftl (Z.land (bz b1) 63) 12))
                    (Z.shiftl (Z.land (bz b2) 63) 6)) (Z.land (bz b3) 63), 4)
            else bad
        | _ => bad
        end
      else bad
  end.

(** [utf8.AppendRune] *)
Definition encode_rune (r : Z) : list byte :=
  let r := if (r <? 0) || (1114111 <? r) || ((55296 <=? r) && (r <=? 57343)) then RuneError else r in
  let low k := to_byte (Z.lor 128 (Z.land (Z.shiftr r k) 63)) in
  if r <? 128 then [to_byte r]
  else if r <? 2048 then [to_byte (Z.lor 192 (Z.shiftr r 6)); low 0]
  else if r <? 65536 then [to_byte (Z.lor 224 (Z.shiftr r 12)); low 6; low 0]
  else [to_byte (Z.lor 240 (Z.shiftr r 18)); low 12; low 6; low 0].

(** [for _, r := range s]; every step takes at least one byte. *)
Fixpoint runes_of (fuel : nat) (s : list byte) : list Z :=
  match fuel, s with
  | S fuel, _ :: _ => let '(r, n) := decode_rune s in r :: runes_of fuel (zdrop n s)
  | _, _ => []
  end.
Definition runes (s : list byte) : list Z := runes_of (length s) s.

(** [%-Ns]: padded on the right to [n] runes. *)
Definition pad_right (n : Z) (s : list byte) : list byte := s ++ replicate (Z.to_nat (n - len (runes s))) Byte.x20.

(** ** Case *)

Definition ascii (s : list byte) : bool := forallb (λ b, bz b <? 128) s.

Definition upper_byte (b : byte) : byte :=
  if (97 <=? bz b) && (bz b <=? 122) then to_byte (bz b - 32) else b.
Definition lower_byte (b : byte) : byte :=
  if (65 <=? bz b) && (bz b <=? 90) then to_byte (bz b + 32) else b.

Section case.
Context `{UnicodeTables}.

(** [unicode.ToUpper], [unicode.ToLower] *)
Definition rune_upper (r : Z) : Z :=
  if r <? 128 then if (97 <=? r) && (r <=? 122) then r - 32 else r else upper_table r.
Definition rune_lower (r : Z) : Z :=
  if r <? 128 then if (65 <=? r) && (r <=? 90) then r + 32 else r else lower_table r.

(** [strings.ToUpper], [strings.ToLower]: the ASCII case, and [strings.Map]. *)
Definition ToUpper (s : list byte) : list byte :=
  if ascii s then upper_byte <$> s else concat (map (λ r, encode_rune (rune_upper r)) (runes s)).
Definition ToLower (s : list byte) : list byte :=
  if ascii s then lower_byte <$> s else concat (map (λ r, encode_rune (rune_lower r)) (runes s)).

(** [unicode.IsLower], [unicode.IsLetter], [unicode.IsDigit]; up to U+00FF Go
    looks at a table of its own. *)
Definition IsLower (r : Z) : bool :=
  if r <=? 255
  then ((97 <=? r) && (r <=? 122)) || (r =? 181) || ((223 <=? r) && negb (r =? 247))
  else lower_letter_table r.
Definition IsLetter (r : Z) : bool :=
  if r <=? 255
  then ((97 <=? r) && (r <=? 122)) || ((65 <=? r) && (r <=? 90)) || (r =? 170) || (r =? 181) || (r =? 186)
       || ((192 <=? r) && negb (r =? 215) && negb (r =? 247))
  else letter_table r.
Definition IsDigit (r : Z) : bool :=
  if r <=? 255 then (48 <=? r) && (r <=? 57) else digit_table r.
End case.

(** [for i, r := range s]: the runes with their places. *)
Fixpoint rune_offsets_of (fuel : nat) (i : Z) (s : list byte) : list (Z * Z) :=
  match fuel, s with
  | S fuel, _ :: _ => let '(r, n) := decode_rune s in (i, r) :: rune_offsets_of fuel (i + n) (zdrop n s)
  | _, _ => []
  end.
Definition rune_offsets (s : list byte) : list (Z * Z) := rune_offsets_of (length s) 0 s.

(** ** White space *)

(** [unicode.IsSpace] *)
Definition is_space (r : Z) : bool :=
  ((9 <=? r) && (r <=? 13)) || (r =? 32) || (r =? 133) || (r =? 160) || (r =? 5760)
  || ((8192 <=? r) && (r <=? 8202)) || (r =? 8232) || (r =? 8233) || (r =? 8239)
  || (r =? 8287) || (r =? 12288).

(** [strings.Fields]: [cur] is the field being read. *)
Fixpoint fields_loop (fuel : nat) (s cur : list byte) : list (list byte) :=
  let flush l := match cur with [] => l | _ => cur :: l end in
  match fuel, s with
  | S fuel, _ :: _ =>
      let '(r, n) := decode_rune s in
      if is_space r then flush (fields_loop fuel (zdrop n s) [])
      else fields_loop fuel (zdrop n s) (cur ++ ztake n s)
  | _, _ => flush []
  end.
Definition Fields (s : list byte) : list (list byte) := fields_loop (length s) s [].

(** [strings.TrimSpace] *)
Fixpoint trim_left_space (fuel : nat) (s : list byte) : list byte :=
  match fuel, s with
  | S fuel, _ :: _ =>
      let '(r, n) := decode_rune s in
      if is_space r then trim_left_space fuel (zdrop n s) else s
  | _, _ => s
  end.

(** [utf8.DecodeLastRune]: the start byte is looked for among the last four. *)
Definition decode_last_rune (s : list byte) : Z * Z :=
  let try_at k := let '(r, n) := decode_rune (zdrop (len s - k) s) in
    if (k <=? len s) && (n =? k) then Some (r, n) else None in
  match try_at 1 with
  | Some (r, n) =>
      if r =? RuneError then
        match try_at 2, try_at 3, try_at 4 with
        | Some x, _, _ => x
        | None, Some x, _ => x
        | None, None, Some x => x
        | _, _, _ => (r, n)
        end
      else (r, n)
  | None => (RuneError, Z.min 1 (len s))
  end.

Fixpoint trim_right_space (fuel : nat) (s : list byte) : list byte :=
  match fuel, s with
  | S fuel, _ :: _ =>
      let '(r, n) := decode_last_rune s in
      if is_space r then trim_right_space fuel (ztake (len s - n) s) else s
  | _, _ => s
  end.

Definition TrimSpace (s : list byte) : list byte :=
  let s := trim_left_space (length s) s in trim_right_space (length s) s.

(** ** Replacing and splitting *)

(** [strings.ReplaceAll(s, old, new)] for a non-empty [old]. *)
Fixpoint replace_loop (fuel : nat) (s old new : list byte) : list byte :=
  match fuel, s with
  | S fuel, b :: s' =>
      if HasPrefix s old then new ++ replace_loop fuel (zdrop (len old) s) old new
      else b :: replace_loop fuel s' old new
  | _, _ => s
  end.
Definition ReplaceAll (s old new : list byte) : list byte := replace_loop (length s) s old new.

(** [strings.SplitN(s, sep, 2)] for a non-empty [sep]. *)
Definition SplitN2 (s sep : list byte) : list (list byte) :=
  let i := Index s sep in
  if i <? 0 then [s] else [ztake i s; zdrop (i + len sep) s].

(** ** Quoting *)

Section quote.
Context `{UnicodeTables}.

(** [strconv.IsPrint] *)
Definition IsPrint (r : Z) : bool :=
  if r <=? 255 then ((32 <=? r) && (r <? 127)) || ((161 <=? r) && negb (r =? 173))
  else print_table r.

Definition hex4 (r : Z) : list byte :=
  fmt_02x (Z.land (Z.shiftr r 8) 255) ++ fmt_02x (Z.land r 255).

(** [appendEscapedRune] *)
Definition escape_rune (r : Z) : list byte :=
  if (r =? 34) || (r =? 92) then [Byte.x5c; to_byte r]
  else if IsPrint r then encode_rune r
  else if r =? 7 then gs "\a" else if r =? 8 then gs "\b" else if r =? 12 then gs "\f"
  else if r =? 10 then gs "\n" else if r =? 13 then gs "\r" else if r =? 9 then gs "\t"
  else if r =? 11 then gs "\v"
  else if (r <? 32) || (r =? 127) then gs "\x" ++ fmt_02x r
  else if r <? 65536 then gs "\u" ++ hex4 r
  else gs "\U" ++ hex4 (Z.shiftr r 16) ++ hex4 (Z.land r 65535).

Fixpoint quote_loop (fuel : nat) (s : list byte) : list byte :=
  match fuel, s with
  | S fuel, b :: _ =>
      let '(r, n) := decode_rune s in
      (if (n =? 1) && (r =? RuneError) then gs "\x" ++ fmt_02x (bz b) else escape_rune r)
      ++ quote_loop fuel (zdrop n s)
  | _, _ => []
  end.

(** [strconv.Quote], [%q] *)
Definition Quote (s : list byte) : list byte := [Byte.x22] ++ quote_loop (length s) s ++ [Byte.x22].
End quote.

(** ** Dates

    [time.Unix(ms/1000, (ms%1000)*1e6).UTC()] in the layout
    [2006-01-02T15:04:05.000Z]: the proleptic Gregorian calendar. *)

(** [n >= 0] in decimal, padded with zeros to [w] digits. *)
Definition pad (w : Z) (n : Z) : list byte :=
  let d := fmt_uint 10 n in replicate (Z.to_nat (w - len d)) Byte.x30 ++ d.

(** Year, month and day of the day [days] after 1970-01-01. *)
Definition civil (days : Z) : Z * Z * Z :=
  let z := days + 719468 in
  let era := z / 146097 in
  let doe := z mod 146097 in
  let yoe := (doe - doe / 1460 + doe / 36524 - doe / 146096) / 365 in
  let doy := doe - (365 * yoe + yoe / 4 - yoe / 100) in
  let mp := (5 * doy + 2) / 153 in
  let d := doy - (153 * mp + 2) / 5 + 1 in
  let m := if mp <? 10 then mp + 3 else mp - 9 in
  let y := yoe + era * 400 in
  (if m <=? 2 then y + 1 else y, m, d).

Definition fmt_year (y : Z) : list byte := if y <? 0 then gs "-" ++ pad 4 (- y) else pad 4 y.

Definition fmt_millis (ms : Z) : list byte :=
  let '(y, m, d) := civil (ms / 86400000) in
  let t := ms mod 86400000 in
  fmt_year y ++ gs "-" ++ pad 2 m ++ gs "-" ++ pad 2 d ++ gs "T" ++
  pad 2 (t / 3600000) ++ gs ":" ++ pad 2 (t / 60000 mod 60) ++ gs ":" ++
  pad 2 (t / 1000 mod 60) ++ gs "." ++ pad 3 (t mod 1000) ++ gs "Z".

Example fmt_millis_epoch : fmt_millis (-1) = gs "1969-12-31T23:59:59.999Z".
Proof. reflexivity. Qed.
Example fmt_millis_leap : fmt_millis 1709208000123 = gs "2024-02-29T12:00:00.123Z".
Proof. reflexivity. Qed.

(** ** Facts about ASCII text *)

Lemma decode_ascii b s : bz b < 128 → decode_rune (b :: s) = (bz b, 1).
Proof. intros H. unfold decode_rune. by destruct (Z.ltb_spec (bz b) 128); [|lia]. Qed.

(** A byte of a word: ASCII and not white space. *)
Definition word_byte (b : byte) : bool := (bz b <? 128) && negb (is_space (bz b)).
Definition word (w : list byte) : Prop := w ≠ [] ∧ Forall (λ b, word_byte b = true) w.

Lemma fields_loop_word w : Forall (λ b, word_byte b = true) w → ∀ fuel s cur,
  fields_loop (length w + fuel) (w ++ s) cur = fields_loop fuel s (cur ++ w).
Proof.
  induction 1 as [|b w Hb Hw IH]; intros fuel s cur; [by rewrite app_nil_r|].
  simpl length. cbn [Nat.add fields_loop app]. unfold word_byte in Hb. zbool.
  rewrite decode_ascii by done.
  match goal with H : is_space _ = false |- _ => rewrite H end.
  change (zdrop 1 (b :: w ++ s)) with (w ++ s). change (ztake 1 (b :: w ++ s)) with [b].
  by rewrite IH, <-app_assoc.
Qed.

Lemma fields_loop_space fuel s cur : cur ≠ [] →
  fields_loop (S fuel) (Byte.x20 :: s) cur = cur :: fields_loop fuel s [].
Proof. intros H. cbn [fields_loop]. rewrite decode_ascii by done. simpl. by destruct cur. Qed.

(** Words separated by one space are the fields of the line. *)
Lemma Fields_Join ws : Forall word ws → Fields (Join ws (gs " ")) = ws.
Proof.
  unfold Fields. induction 1 as [|w ws [Hne Hw] Hws IH]; [done|].
  destruct ws as [|w2 ws].
  - cbn [Join]. rewrite <-(app_nil_r w) at 2. rewrite <-(Nat.add_0_r (length w)), fields_loop_word by done.
    simpl. by destruct w.
  - cbn [Join]. change (gs " ") with [Byte.x20]. simpl app.
    rewrite length_app, fields_loop_word by done. simpl length.
    rewrite fields_loop_space by done. simpl app. f_equal. exact IH.
Qed.

Lemma upper_byte_ascii b : bz b < 128 → bz (upper_byte b) < 128.
Proof.
  intros H. unfold upper_byte. pose proof (bz_range b).
  destruct (Z.leb_spec 97 (bz b)), (Z.leb_spec (bz b) 122); simpl; try done.
  rewrite bz_to_byte_small by lia. lia.
Qed.

Lemma upper_byte_idem b : upper_byte (upper_byte b) = upper_byte b.
Proof.
  unfold upper_byte at 2 3. pose proof (bz_range b).
  destruct (Z.leb_spec 97 (bz b)), (Z.leb_spec (bz b) 122); simpl;
    unfold upper_byte; rewrite ?bz_to_byte_small by lia;
    repeat match goal with |- context [?x <=? ?y] => destruct (Z.leb_spec x y) end; simpl; try done; lia.
Qed.

Lemma ToUpper_idem `{UnicodeTables} s : ascii s = true → ToUpper (ToUpper s) = ToUpper s.
Proof.
  intros Ha. unfold ToUpper at 2 3. rewrite Ha. unfold ToUpper.
  assert (ascii (upper_byte <$> s) = true) as ->.
  { unfold ascii in *. rewrite forallb_forall in *. intros b Hb%list_elem_of_In.
    apply list_elem_of_fmap in Hb as (x & -> & Hx%list_elem_of_In).
    specialize (Ha x Hx). zbool. apply Z.ltb_lt. by apply upper_byte_ascii. }
  rewrite <-list_fmap_compose. apply list_fmap_ext. intros ?? _. simpl. apply upper_byte_idem.
Qed.

(** An ASCII white-space byte. *)
Definition space_byte (b : byte) : bool := (bz b <? 128) && is_space (bz b).

Lemma decode_last_ascii s b : bz b < 128 → decode_last_rune (s ++ [b]) = (bz b, 1).
Proof.
  intros Hb. unfold decode_last_rune. len_simpl. replace (len s + (1 + 0) - 1) with (len s) by lia.
  rewrite zdrop_app_eq, decode_ascii by done. pose proof (len_nonneg s).
  destruct (Z.leb_spec 1 (len s + (1 + 0))); [|lia]. cbn [andb Z.eqb Pos.eqb].
  unfold RuneError. by destruct (Z.eqb_spec (bz b) 65533); [lia|].
Qed.

Lemma trim_left_space_word l s fuel : Forall (λ b, space_byte b = true) l →
  match s with b :: _ => word_byte b = true | [] => False end →
  (length l ≤ fuel)%nat → trim_left_space fuel (l ++ s) = s.
Proof.
  intros Hl Hs. revert fuel. induction Hl as [|b l Hb Hl IH]; intros fuel Hf.
  - destruct s as [|b s]; [done|]. destruct fuel; [done|]. cbn [trim_left_space app].
    unfold word_byte in Hs. zbool. rewrite decode_ascii by done.
    by match goal with H : is_space _ = false |- _ => rewrite H end.
  - destruct fuel as [|fuel]; [simpl in Hf; lia|]. cbn [trim_left_space app].
    unfold space_byte in Hb. zbool. rewrite decode_ascii by done.
    match goal with H : is_space _ = true |- _ => rewrite H end. apply IH. simpl in Hf. lia.
Qed.

Lemma trim_right_space_word s r fuel : Forall (λ b, space_byte b = true) r →
  match last s with Some b => word_byte b = true | None => False end →
  (length r ≤ fuel)%nat → trim_right_space fuel (s ++ r) = s.
Proof.
  intros Hr Hs. revert fuel. induction r as [|b r IH] using rev_ind; intros fuel Hf.
  - rewrite app_nil_r. destruct s as [|b s _] using rev_ind; [done|]. rewrite last_snoc in Hs.
    unfold word_byte in Hs. zbool. destruct fuel; [by destruct s|].
    assert (∃ x y, s ++ [b] = x :: y) as (x & y & E) by (destruct s; simpl; eauto).
    rewrite E. cbn [trim_right_space]. rewrite <-E, decode_last_ascii by done.
    by match goal with H : is_space _ = false |- _ => rewrite H end.
  - rewrite length_app in Hf. simpl in Hf. destruct fuel as [|fuel]; [lia|].
    apply Forall_app in Hr as [Hr Hb]. rewrite Forall_singleton in Hb. unfold space_byte in Hb. zbool.
    rewrite app_assoc. assert (∃ x y, (s ++ r) ++ [b] = x :: y) as (x & y & E) by (destruct (s ++ r); simpl; eauto).
    rewrite E. cbn [trim_right_space]. rewrite <-E. rewrite decode_last_ascii; [|assumption].
    match goal with H : is_space _ = true |- _ => rewrite H end.
    rewrite ztake_app_eq by (len_simpl; lia). apply IH; [done|lia].
Qed.

(** Text that starts and ends with a byte of a word. *)
Definition trimmed_text (s : list byte) : Prop :=
  match s with b :: _ => word_byte b = true | [] => False end ∧
  match last s with Some b => word_byte b = true | None => False end.

(** White space around such a text goes, the text stays. *)
Lemma TrimSpace_text l s r : Forall (λ b, space_byte b = true) l → trimmed_text s →
  Forall (λ b, space_byte b = true) r → TrimSpace (l ++ s ++ r) = s.
Proof.
  intros Hl [Hh Ht] Hr. unfold TrimSpace. rewrite trim_left_space_word; [|done| |rewrite !length_app; lia].
  - apply trim_right_space_word; [done|done|rewrite length_app; lia].
  - by destruct s.
Qed.

Lemma word_trimmed w : word w → trimmed_text w.
Proof.
  intros [Hne Hw]. split.
  - destruct w; [done|]. by inversion Hw.
  - destruct w as [|b w _] using rev_ind; [done|]. rewrite last_snoc. apply Forall_app in Hw as [_ Hb].
    by rewrite Forall_singleton in Hb.
Qed.

Lemma TrimSpace_word l w r : Forall (λ b, space_byte b = true) l → word w →
  Forall (λ b, space_byte b = true) r → TrimSpace (l ++ w ++ r) = w.
Proof. intros. apply TrimSpace_text; [done|by apply word_trimmed|done]. Qed.
