(* ===== verification/Charset.v ===== *)
(** * Texts in other character sets (src/tcpport/text.go)

    [ReadToStringWithCharset] over any reader.  The encodings are those of
    golang.org/x/text, a parameter. *)

From S2P Require Import Prelude GoBytes GoStrings Unicode Window Reader.

(** [htmlindex.Get], and what [transform.NewReader] with the decoder of an
    encoding makes of the bytes in front of [io.EOF]: the text, and the error
    behind it other than [io.EOF]. *)
Class Encodings := {
  Encoding : Type;
  htmlindex_Get : list byte → error + Encoding;
  NewDecoder : Encoding → list byte → list byte * option error }.

(** [io.ReadAll], which starts with a buffer of 512 bytes. *)
Fixpoint ReadAll {R} `{io_Reader R} (fuel : nat) (r : R) (acc : list byte) : sched (list byte * option error) :=
  match fuel with
  | O => Blocked
  | S fuel =>
      '(b, err, r) ← rd_Read r 512;
      match err with
      | Some EOF => Done (acc ++ b, None)
      | Some e => Done (acc ++ b, Some e)
      | None => ReadAll fuel r (acc ++ b)
      end
  end.

Section charset.
Context {R : Type} `{io_Reader_ok R} `{UnicodeTables} `{Encodings}.

(** [io.ReadAll(transform.NewReader(reader, encoder.NewDecoder()))]: an error
    of the reader comes behind the text in front of it. *)
Definition ReadAll_decoded (fuel : nat) (r : R) (e : Encoding) : sched (list byte * option error) :=
  '(data, err) ← ReadAll fuel r [];
  let '(text, derr) := NewDecoder e data in
  Done (text, match derr with Some e => Some e | None => err end).

Definition utf8_name (charset : list byte) : bool := str_eqb charset (gs "UTF-8") || str_eqb charset (gs "UTF8").
Definition gb_name (charset : list byte) : bool := str_eqb charset (gs "GBK") || str_eqb charset (gs "GB2312").

Definition ReadToStringWithCharset (fuel : nat) (reader : R) (charset : list byte) : sched (list byte * option error) :=
  let charset := ToUpper charset in
  if utf8_name charset then
    '(data, err) ← ReadAll fuel reader [];
    match err with Some e => Done ([], Some e) | None => Done (data, None) end
  else
    let charset := if gb_name charset then gs "GB18030" else charset in
    match htmlindex_Get charset with
    | inl err => Done ([], Some err)
    | inr encoder =>
        '(data, err) ← ReadAll_decoded fuel reader encoder;
        match err with Some e => Done ([], Some e) | None => Done (data, None) end
    end.

(** ** Properties *)

Lemma ReadAll_spec fuel : ∀ r acc, ready r → (length (pending r) < fuel)%nat → ReadAll fuel r acc = Done (acc ++ pending r, None).
Proof.
  induction fuel as [|fuel IH]; intros r acc Hr Hf; [lia|]. cbn [ReadAll]. destruct (decide (pending r = [])) as [Hnil|Hne].
  - destruct (rd_eof r 512 Hr Hnil) as (r' & -> & _). cbn [mbind sched_bind]. by rewrite Hnil.
  - destruct (rd_some r 512 Hr ltac:(lia) Hne) as (b & r' & -> & Hr' & Hp & _ & Hb). cbn [mbind sched_bind].
    specialize (Hb ltac:(lia)). rewrite Hp, length_app in Hf. destruct b as [|x b]; [done|]. simpl in Hf.
    rewrite IH by (done || lia). by rewrite Hp, <-app_assoc.
Qed.

(** What a finished reader comes to: its bytes in UTF-8, whatever the case of
    the name; else the text of the decoder, all names of the Chinese sets
    standing for GB18030; nothing but an error when there is no such encoding
    or the decoder fails. *)
Theorem charset_texts fuel r charset (Hr : ready r) (Hf : (length (pending r) < fuel)%nat) :
  ReadToStringWithCharset fuel r charset = Done
    (if utf8_name (ToUpper charset) then (pending r, None)
     else match htmlindex_Get (if gb_name (ToUpper charset) then gs "GB18030" else ToUpper charset) with
          | inl err => ([], Some err)
          | inr e => match NewDecoder e (pending r) with (text, None) => (text, None) | (_, Some err) => ([], Some err) end
          end).
Proof.
  unfold ReadToStringWithCharset, ReadAll_decoded. destruct (utf8_name _); [by rewrite ReadAll_spec|].
  destruct (htmlindex_Get _) as [err|e]; [done|]. rewrite ReadAll_spec by done. cbn [mbind sched_bind app].
  by destruct (NewDecoder e (pending r)) as [text [err|]].
Qed.
End charset.
