(* ===== verification/Redis.v ===== *)
(** * Redis (src/redisport)

    The RESP reader: commands (client to server) and replies (server to
    client), the detector and the printer. *)

From S2P Require Import Prelude GoBytes GoStrings Unicode Window Reader.

(** RESP types *)
Definition TypeSimpleString : byte := Byte.x2b.
Definition TypeError : byte := Byte.x2d.
Definition TypeInteger : byte := Byte.x3a.
Definition TypeBulkString : byte := Byte.x24.
Definition TypeArray : byte := Byte.x2a.

Definition RESPType (b : byte) : list byte :=
  if decide (b = TypeSimpleString) then gs "SimpleString"
  else if decide (b = TypeError) then gs "Error"
  else if decide (b = TypeInteger) then gs "Integer"
  else if decide (b = TypeBulkString) then gs "BulkString"
  else if decide (b = TypeArray) then gs "Array"
  else gs "Unknown(0x" ++ fmt_x (bz b) ++ gs ")".

Record RESPCommand := mkRESPCommand {
  cmd_Raw : list byte; Command : list byte; Args : list (list byte); ArgCount : Z }.

Record RESPResponse := mkRESPResponse {
  resp_Raw : list byte; resp_Type : byte; resp_Value : list byte; IsError : bool }.

(** [line, err := r.ReadString('\n'); line = strings.TrimRight(line, "\r\n")] *)
Definition read_line : parser (list byte) := l ← read_string; mret (TrimRight l crlf).

(** [make([]byte, blen+2)]; the addition is on int64. *)
Definition read_bulk (blen : Z) : parser (list byte) :=
  buf ← read_n (int64 (blen + 2)); lift (sub buf 0 blen).

Section redis.
Context `{UnicodeTables}.

(** The loop of [ReadRESPCommand]: iteration [i], arguments and raw lines so
    far.  Every iteration consumes a line or ends the loop, so the length of
    the input is fuel enough. *)
Fixpoint command_loop (fuel : nat) (i count : Z) (args rawLines : list (list byte))
  : parser (list (list byte) * list (list byte)) :=
  match fuel with
  | O => spin
  | S fuel =>
      if i <? count then
        bl ← read_line;
        let rawLines := rawLines ++ [bl] in
        match bl with
        | t :: num =>
            if Byte.eqb t TypeBulkString then
              match Atoi num with
              | None => command_loop fuel (i + 1) count args rawLines
              | Some blen =>
                  if blen <? 0 then command_loop fuel (i + 1) count (args ++ [[]]) rawLines
                  else
                    val ← read_bulk blen;
                    command_loop fuel (i + 1) count (args ++ [val]) (rawLines ++ [val])
              end
            else command_loop fuel (i + 1) count args rawLines
        | [] => command_loop fuel (i + 1) count args rawLines
        end
      else mret (args, rawLines)
  end.

Definition ReadRESPCommand : parser RESPCommand :=
  line ← read_line;
  match line with
  | [] => throw EOF
  | t :: num =>
      if negb (Byte.eqb t TypeArray) then
        match Fields line with
        | [] => mret (mkRESPCommand line [] [] 0)
        | p :: parts => mret (mkRESPCommand line (ToUpper p) parts (1 + len parts))
        end
      else
        match Atoi num with
        | None => throw (ErrText (gs "bad array count: " ++ line))
        | Some count =>
            (* make([]string, 0, count): 16 bytes each *)
            if make_ok count 16 then
              '(args, rawLines) ← (λ s, command_loop (S (length s)) 0 count [] [line] s);
              let cmd := match args with [] => [] | a :: _ => ToUpper a end in
              mret (mkRESPCommand (Join rawLines (gs "\r\n")) cmd args (len args))
            else lift Panic
        end
  end.

(** [fmt.Sprintf("[%d elements: %s, ...]")] and the shorter form. *)
Definition array_value (count : Z) (parts : list (list byte)) : list byte :=
  if 4 <? len parts
  then gs "[" ++ Itoa count ++ gs " elements: " ++ Join (ztake 3 parts) (gs ", ") ++ gs ", ...]"
  else gs "[" ++ Join parts (gs ", ") ++ gs "]".

(** [for i < count { sub, err := rd(r); if err != nil { break }; ... }] *)
Fixpoint array_loop (rd : parser RESPResponse) (fuel : nat) (i count : Z) (parts : list (list byte))
  : parser (list (list byte)) :=
  match fuel with
  | O => spin
  | S fuel =>
      if i <? count then
        r ← try rd;
        match r with
        | inl sub => array_loop rd fuel (i + 1) count (parts ++ [resp_Value sub])
        | inr _ => mret parts
        end
      else mret parts
  end.

(** [fuel] bounds the depth of nested arrays. *)
Fixpoint read_response (fuel : nat) : parser RESPResponse :=
  match fuel with
  | O => spin
  | S fuel =>
      line ← read_line;
      match line with
      | [] => throw EOF
      | t :: v =>
          let resp val := mkRESPResponse line t val false in
          if Byte.eqb t TypeSimpleString then mret (resp v)
          else if Byte.eqb t TypeError then mret (mkRESPResponse line t v true)
          else if Byte.eqb t TypeInteger then mret (resp v)
          else if Byte.eqb t TypeBulkString then
            match Atoi v with
            | None => mret (resp [])
            | Some blen =>
                if blen <? 0 then mret (resp (gs "(nil)"))
                else val ← read_bulk blen; mret (resp val)
            end
          else if Byte.eqb t TypeArray then
            match Atoi v with
            | None => mret (resp [])
            | Some count =>
                if count <? 0 then mret (resp (gs "(nil array)"))
                else if make_ok count 16 then
                  parts ← (λ s, array_loop (read_response fuel) (S (length s)) 0 count [] s);
                  mret (resp (array_value count parts))
                else lift Panic
            end
          else mret (resp [])
      end
  end.

Definition ReadRESPResponse : parser RESPResponse := λ s, read_response (S (length s)) s.
End redis.

Definition DetectRESP (data : list byte) : bool :=
  match data with
  | [] => false
  | b :: _ =>
      Byte.eqb b TypeArray || Byte.eqb b TypeSimpleString || Byte.eqb b TypeError
      || Byte.eqb b TypeInteger || Byte.eqb b TypeBulkString
  end.

(** ** Known commands *)

Definition redisCommands : list (list byte) := map gs [
  (* Keys *)
  "DEL"; "DUMP"; "EXISTS"; "EXPIRE"; "EXPIREAT"; "KEYS"; "MIGRATE"; "MOVE"; "OBJECT";
  "PERSIST"; "PEXPIRE"; "PEXPIREAT"; "PTTL"; "RANDOMKEY"; "RENAME"; "RENAMENX"; "RESTORE";
  "SORT"; "TTL"; "TYPE"; "SCAN"; "UNLINK";
  (* Strings *)
  "APPEND"; "BITCOUNT"; "BITOP"; "BITPOS"; "DECR"; "DECRBY"; "GET"; "GETBIT"; "GETRANGE";
  "GETSET"; "INCR"; "INCRBY"; "INCRBYFLOAT"; "MGET"; "MSET"; "MSETNX"; "PSETEX"; "SET";
  "SETBIT"; "SETEX"; "SETNX"; "SETRANGE"; "STRLEN";
  (* Hashes *)
  "HDEL"; "HEXISTS"; "HGET"; "HGETALL"; "HINCRBY"; "HINCRBYFLOAT"; "HKEYS"; "HLEN"; "HMGET";
  "HMSET"; "HSET"; "HSETNX"; "HVALS"; "HSCAN"; "HSTRLEN";
  (* Lists *)
  "BLPOP"; "BRPOP"; "BRPOPLPUSH"; "LINDEX"; "LINSERT"; "LLEN"; "LPOP"; "LPUSH"; "LPUSHX";
  "LRANGE"; "LREM"; "LSET"; "LTRIM"; "RPOP"; "RPOPLPUSH"; "RPUSH"; "RPUSHX";
  (* Sets *)
  "SADD"; "SCARD"; "SDIFF"; "SDIFFSTORE"; "SINTER"; "SINTERSTORE"; "SISMEMBER"; "SMEMBERS";
  "SMOVE"; "SPOP"; "SRANDMEMBER"; "SREM"; "SUNION"; "SUNIONSTORE"; "SSCAN";
  (* Sorted Sets *)
  "ZADD"; "ZCARD"; "ZCOUNT"; "ZINCRBY"; "ZINTERSTORE"; "ZLEXCOUNT"; "ZRANGE"; "ZRANGEBYLEX";
  "ZRANGEBYSCORE"; "ZRANK"; "ZREM"; "ZREMRANGEBYLEX"; "ZREMRANGEBYRANK"; "ZREMRANGEBYSCORE";
  "ZREVRANGE"; "ZREVRANGEBYLEX"; "ZREVRANGEBYSCORE"; "ZREVRANK"; "ZSCORE"; "ZUNIONSTORE";
  "ZSCAN";
  (* Pub/Sub *)
  "PSUBSCRIBE"; "PUBLISH"; "PUBSUB"; "PUNSUBSCRIBE"; "SUBSCRIBE"; "UNSUBSCRIBE";
  (* Transactions *)
  "DISCARD"; "EXEC"; "MULTI"; "UNWATCH"; "WATCH";
  (* Scripting *)
  "EVAL"; "EVALSHA"; "SCRIPT";
  (* Server *)
  "AUTH"; "CLIENT"; "CLUSTER"; "COMMAND"; "CONFIG"; "DBSIZE"; "DEBUG"; "ECHO"; "FLUSHALL";
  "FLUSHDB"; "INFO"; "LATENCY"; "MEMORY"; "MONITOR"; "PING"; "QUIT"; "REPLICAOF"; "ROLE";
  "SAVE"; "SELECT"; "SHUTDOWN"; "SLAVEOF"; "SLOWLOG"; "SYNC"; "TIME";
  (* Streams *)
  "XADD"; "XDEL"; "XLEN"; "XRANGE"; "XREAD"; "XREVRANGE"; "XGROUP"; "XPENDING"; "XACK";
  (* Sentinel *)
  "SENTINEL"]%string.

Section known.
Context `{UnicodeTables}.
Definition IsKnownRedisCommand (cmd : list byte) : bool := bool_decide (ToUpper cmd ∈ redisCommands).

(** ** The printer (src/redisport/printer.go) *)

Definition FormatRESPCommand (cmd : RESPCommand) : list byte :=
  (match Command cmd with
   | [] => gs "  " ++ cmd_Raw cmd
   | _ => gs "  " ++ Command cmd ++ (if IsKnownRedisCommand (Command cmd) then [] else gs " (custom)")
   end)
  ++ (match Args cmd with
      | _ :: k :: more => gs "  " ++ k ++ (match more with [] => [] | _ => gs "  ..." end)
      | _ => []
      end)
  ++ [newline].
End known.

Definition FormatRESPResponse (resp : RESPResponse) : list byte :=
  let typeName := RESPType (resp_Type resp) in
  if IsError resp then gs "  [" ++ typeName ++ gs "] ERR: " ++ resp_Value resp ++ [newline]
  else
    let v := resp_Value resp in
    let v := if 200 <? len v then ztake 200 v ++ gs "..." else v in
    gs "  [" ++ typeName ++ gs "] " ++ v ++ [newline].

Definition FormatRESPURL (cmd : RESPCommand) : list byte :=
  match Command cmd with
  | [] => cmd_Raw cmd ++ [newline]
  | _ => Command cmd ++ (match Args cmd with _ :: k :: _ => gs " " ++ k | _ => [] end) ++ [newline]
  end.

(** ** Termination *)

Lemma progress_read_line s : progress 1 read_line s.
Proof. apply progress_then; [apply progress_read_string|]. intros. apply progress_ret. Qed.

Lemma progress_read_bulk n s : progress 0 (read_bulk n) s.
Proof.
  unfold read_bulk. apply progress_then.
  - eapply progress_weaken; [|apply progress_read_n]. lia.
  - intros. apply progress_lift.
Qed.
#[export] Hint Resolve progress_read_line progress_read_bulk : gohints.

Lemma read_line_shorter s l r : read_line s = Got l r → (length r < length s)%nat.
Proof. intros H. by pose proof (progress_Got _ _ _ _ _ (progress_read_line s) H). Qed.

Section termination.
Context `{UnicodeTables}.

Lemma command_loop_progress fuel : ∀ s i count args raw, (length s < fuel)%nat →
  progress 0 (command_loop fuel i count args raw) s.
Proof.
  induction fuel as [|fuel IH]; intros s i count args raw Hf; [lia|]. cbn [command_loop].
  destruct (i <? count); [|apply progress_ret].
  eapply progress_then; [eapply progress_weaken; [|apply progress_read_line]; lia|].
  intros bl r Hr%read_line_shorter.
  destruct bl as [|t num]; [apply IH; lia|].
  destruct (Byte.eqb _ _); [|apply IH; lia].
  destruct (Atoi num) as [blen|]; [|apply IH; lia].
  destruct (blen <? 0); [apply IH; lia|].
  eapply progress_then; [apply progress_read_bulk|]. intros v r2 Hr2.
  apply (progress_Got 0) in Hr2; [|apply progress_read_bulk]. apply IH. lia.
Qed.

Lemma ReadRESPCommand_progress s : progress 1 ReadRESPCommand s.
Proof.
  unfold ReadRESPCommand. eapply progress_then; [apply progress_read_line|]. intros line r _.
  destruct line as [|t num]; [apply progress_throw|].
  destruct (negb _). { destruct (Fields _); apply progress_ret. }
  destruct (Atoi num); [|apply progress_throw]. destruct (make_ok _ _); [|done].
  eapply progress_then; [apply (command_loop_progress (S (length r))); lia|].
  intros [args raw] r2 _. apply progress_ret.
Qed.

Lemma array_loop_progress rd fuel : (∀ s, (length s < fuel)%nat → progress 1 rd s) →
  ∀ f s i count parts, (length s < f)%nat → (length s < fuel)%nat →
  progress 0 (array_loop rd f i count parts) s.
Proof.
  intros Hrd f. induction f as [|f IH]; intros s i count parts Hf Hs; [lia|]. cbn [array_loop].
  destruct (i <? count); [|apply progress_ret]. specialize (Hrd s Hs).
  eapply progress_then; [by eapply progress_try|]. intros x r Hr. unfold try in Hr.
  destruct (rd s) as [a r'|e r'| |] eqn:E; try done; injection Hr as <- <-.
  - apply (progress_Got 1) in E; [|done]. apply IH; lia.
  - apply progress_ret.
Qed.

Lemma read_response_progress fuel : ∀ s, (length s < fuel)%nat → progress 1 (read_response fuel) s.
Proof.
  induction fuel as [|fuel IH]; intros s Hf; [lia|]. cbn [read_response].
  eapply progress_then; [apply progress_read_line|]. intros line r Hr%read_line_shorter.
  destruct line as [|t v]; [apply progress_throw|].
  repeat (destruct (Byte.eqb _ _); [try apply progress_ret|]); try apply progress_ret.
  - destruct (Atoi v) as [blen|]; [|apply progress_ret]. destruct (blen <? 0); [apply progress_ret|].
    eapply progress_then; [apply progress_read_bulk|]. intros. apply progress_ret.
  - destruct (Atoi v) as [count|]; [|apply progress_ret]. destruct (count <? 0); [apply progress_ret|].
    destruct (make_ok _ _); [|done].
    eapply progress_then; [apply (array_loop_progress (read_response fuel) fuel); [done|lia|lia]|].
    intros. apply progress_ret.
Qed.
End termination.

(** ** The encoders a client and a server use *)

Definition line_byte (b : byte) : Prop := b ∉ crlf.
Definition enc_line (t : byte) (v : list byte) : list byte := t :: v ++ crlf.
Definition enc_bulk (b : list byte) : list byte := enc_line TypeBulkString (Itoa (len b)) ++ b ++ crlf.
Definition enc_command (args : list (list byte)) : list byte :=
  enc_line TypeArray (Itoa (len args)) ++ concat (map enc_bulk args).

(** The bulk can be allocated. *)
Definition fits (b : list byte) : Prop := len b + 2 ≤ max_alloc.

Inductive reply : Type :=
| RSimple (s : list byte)
| RError (s : list byte)
| RInt (n : Z)
| RBulk (b : list byte)
| RNil
| RArray (l : list reply)
| RNilArray.

Fixpoint enc_reply (r : reply) : list byte :=
  match r with
  | RSimple s => enc_line TypeSimpleString s
  | RError s => enc_line TypeError s
  | RInt n => enc_line TypeInteger (Itoa n)
  | RBulk b => enc_bulk b
  | RNil => enc_line TypeBulkString (Itoa (-1))
  | RArray l => enc_line TypeArray (Itoa (len l)) ++ concat (map enc_reply l)
  | RNilArray => enc_line TypeArray (Itoa (-1))
  end.

Fixpoint reply_ok (r : reply) : Prop :=
  match r with
  | RSimple s | RError s => Forall line_byte s
  | RInt n => - 2 ^ 63 ≤ n < 2 ^ 63
  | RBulk b => fits b
  | RArray l => len l * 16 ≤ max_alloc ∧ fold_right (λ r P, reply_ok r ∧ P) True l
  | RNil | RNilArray => True
  end.

Fixpoint reply_value (r : reply) : list byte :=
  match r with
  | RSimple s | RError s => s
  | RInt n => Itoa n
  | RBulk b => b
  | RNil => gs "(nil)"
  | RArray l => array_value (len l) (map reply_value l)
  | RNilArray => gs "(nil array)"
  end.

Definition reply_head (r : reply) : list byte :=
  match r with
  | RSimple s => TypeSimpleString :: s
  | RError s => TypeError :: s
  | RInt n => TypeInteger :: Itoa n
  | RBulk b => TypeBulkString :: Itoa (len b)
  | RNil => TypeBulkString :: Itoa (-1)
  | RArray l => TypeArray :: Itoa (len l)
  | RNilArray => TypeArray :: Itoa (-1)
  end.

(** What the tool shows of a reply. *)
Definition reply_resp (r : reply) : RESPResponse :=
  mkRESPResponse (reply_head r) (default Byte.x00 (head (reply_head r))) (reply_value r)
    (match r with RError _ => true | _ => false end).

(** ** Reading lines *)

Lemma read_line_enc t v rest : line_byte t → Forall line_byte v →
  read_line (enc_line t v ++ rest) = Got (t :: v) rest.
Proof.
  intros Ht Hv. assert (Forall line_byte (t :: v)) as Hl by (by constructor).
  assert (∀ l, Forall line_byte l → newline ∉ l) as Hnl.
  { intros l Hfl Hin. rewrite Forall_forall in Hfl. apply (Hfl _ Hin). unfold crlf. set_solver. }
  unfold read_line, read_string, mbind, parser_bind, enc_line, crlf.
  change ((t :: v ++ [Byte.x0d; Byte.x0a]) ++ rest) with (((t :: v) ++ [Byte.x0d; Byte.x0a]) ++ rest).
  rewrite <-app_assoc. change ([Byte.x0d; Byte.x0a] ++ rest) with ([Byte.x0d] ++ newline :: rest).
  rewrite app_assoc, split_line_app.
  2:{ rewrite not_elem_of_app. split; [by apply Hnl|]. intros ?%list_elem_of_singleton. discriminate. }
  unfold mret, parser_ret. f_equal. rewrite <-app_assoc. apply TrimRight_crlf.
  - repeat constructor; unfold crlf; set_solver.
  - destruct (last (t :: v)) as [b|] eqn:E; [|done]. apply last_Some_elem_of in E.
    rewrite Forall_forall in Hl. by apply Hl.
Qed.

Lemma Itoa_line n : Forall line_byte (Itoa n).
Proof.
  unfold Itoa, fmt_int. assert (∀ m, 0 ≤ m → Forall line_byte (fmt_uint 10 m)) as Hd.
  { intros m Hm. eapply Forall_impl; [apply (fmt_uint_parse m Hm)|]. simpl. intros b Hb Hin.
    unfold is_digit in Hb. zbool. unfold crlf in Hin.
    apply elem_of_cons in Hin as [->|Hin]; [cbn in *; lia|].
    apply list_elem_of_singleton in Hin as ->. cbn in *. lia. }
  destruct (Z.ltb_spec n 0); [|apply Hd; lia].
  constructor; [|apply Hd; lia]. unfold line_byte, crlf. set_solver.
Qed.

Lemma line_byte_type t : t ∈ [TypeSimpleString; TypeError; TypeInteger; TypeBulkString; TypeArray] →
  line_byte t.
Proof. intros H. unfold line_byte, crlf. set_solver. Qed.

Lemma read_bulk_enc b rest : fits b → read_bulk (len b) (b ++ crlf ++ rest) = Got b rest.
Proof.
  intros Hf. unfold fits, max_alloc in Hf. pose proof (len_nonneg b). unfold read_bulk.
  change (int64 (len b + 2)) with (sint 64 (len b + 2)). rewrite sint_small by lia.
  rewrite app_assoc. erewrite bind_Got.
  2:{ apply read_n_app; [|unfold max_alloc; lia]. unfold crlf. len_simpl. lia. }
  unfold lift. rewrite sub_Ret by (unfold crlf; len_simpl; lia).
  rewrite zdrop_nonpos by lia. by rewrite ztake_app_eq by lia.
Qed.

Lemma Atoi_len {A} (l : list A) : len l ≤ max_alloc → Atoi (Itoa (len l)) = Some (len l).
Proof. intros. pose proof (len_nonneg l). unfold max_alloc in *. apply Atoi_Itoa. lia. Qed.

Lemma make_len {A} (l : list A) k : 0 ≤ k → len l * k ≤ max_alloc → make_ok (len l) k = true.
Proof.
  intros. unfold make_ok. pose proof (len_nonneg l).
  destruct (Z.leb_spec 0 (len l)), (Z.leb_spec (len l * k) max_alloc); lia || done.
Qed.

Section roundtrip.
Context `{UnicodeTables}.

Lemma command_loop_enc args : ∀ fuel i count acc raw rest,
  count = i + len args → (length args < fuel)%nat → Forall fits args →
  command_loop fuel i count acc raw (concat (map enc_bulk args) ++ rest)
    = Got (acc ++ args, raw ++ concat (map (λ a, [TypeBulkString :: Itoa (len a); a]) args)) rest.
Proof.
  induction args as [|a args IH]; intros [|fuel] i count acc raw rest Hc Hf Hfit; simpl in Hf; try lia.
  - change (len []) with 0 in Hc. cbn [command_loop]. destruct (Z.ltb_spec i count); [lia|].
    by rewrite !app_nil_r.
  - rewrite len_cons in Hc. pose proof (len_nonneg args). cbn [command_loop].
    destruct (Z.ltb_spec i count); [|lia]. inversion Hfit as [|? ? Ha Hargs]; subst.
    cbn [map concat]. unfold enc_bulk at 1. rewrite <-!app_assoc.
    erewrite bind_Got by (apply read_line_enc; [apply line_byte_type; set_solver|apply Itoa_line]).
    cbv beta iota. byte_cases.
    rewrite Atoi_len by (unfold fits in Ha; lia).
    pose proof (len_nonneg a). destruct (Z.ltb_spec (len a) 0); [lia|].
    erewrite bind_Got by (by apply read_bulk_enc).
    rewrite IH by (lia || done). by rewrite <-!app_assoc.
Qed.

Definition command_of (args : list (list byte)) : RESPCommand :=
  mkRESPCommand
    (Join ((TypeArray :: Itoa (len args))
       :: concat (map (λ a, [TypeBulkString :: Itoa (len a); a]) args)) (gs "\r\n"))
    (match args with [] => [] | a :: _ => ToUpper a end) args (len args).

Lemma enc_command_length args rest :
  (length args ≤ length (concat (map enc_bulk args) ++ rest))%nat.
Proof.
  rewrite length_app. induction args as [|a args IH]; simpl; [lia|]. rewrite length_app. lia.
Qed.

Lemma read_command_enc args rest : len args * 16 ≤ max_alloc → Forall fits args →
  ReadRESPCommand (enc_command args ++ rest) = Got (command_of args) rest.
Proof.
  intros Hl Hfit. pose proof (len_nonneg args). unfold ReadRESPCommand, enc_command.
  rewrite <-app_assoc.
  erewrite bind_Got by (apply read_line_enc; [apply line_byte_type; set_solver|apply Itoa_line]).
  cbv beta iota. byte_cases. cbn [negb].
  rewrite Atoi_len, make_len by (done || lia).
  pose proof (enc_command_length args rest).
  erewrite bind_Got by (apply command_loop_enc; [lia|lia|done]). done.
Qed.

Lemma enc_replies_length l rest : (length l ≤ length (concat (map enc_reply l) ++ rest))%nat.
Proof.
  rewrite length_app. induction l as [|r l IH]; simpl; [lia|]. rewrite length_app.
  assert (1 ≤ length (enc_reply r))%nat; [|lia]. destruct r; simpl; lia.
Qed.

Lemma read_response_enc fuel : ∀ r rest, (length (enc_reply r ++ rest) < fuel)%nat → reply_ok r →
  read_response fuel (enc_reply r ++ rest) = Got (reply_resp r) rest.
Proof.
  induction fuel as [|fuel IH]; intros r rest Hf Hr; [lia|]. cbn [read_response].
  destruct r as [s|s|n|b| |l|].
  all: cbn [enc_reply reply_ok] in *.
  - erewrite bind_Got by (apply read_line_enc; [apply line_byte_type; set_solver|done]). done.
  - erewrite bind_Got by (apply read_line_enc; [apply line_byte_type; set_solver|done]). done.
  - erewrite bind_Got by (apply read_line_enc; [apply line_byte_type; set_solver|apply Itoa_line]). done.
  - unfold enc_bulk. rewrite <-!app_assoc.
    erewrite bind_Got by (apply read_line_enc; [apply line_byte_type; set_solver|apply Itoa_line]).
    cbv beta iota. byte_cases. rewrite Atoi_len by (unfold fits in Hr; lia).
    pose proof (len_nonneg b). destruct (Z.ltb_spec (len b) 0); [lia|].
    erewrite bind_Got by (by apply read_bulk_enc). done.
  - erewrite bind_Got by (apply read_line_enc; [apply line_byte_type; set_solver|apply Itoa_line]). done.
  - destruct Hr as [Hl Hr]. rewrite <-app_assoc in *. pose proof (len_nonneg l).
    erewrite bind_Got by (apply read_line_enc; [apply line_byte_type; set_solver|apply Itoa_line]).
    cbv beta iota. byte_cases. rewrite Atoi_len by lia.
    destruct (Z.ltb_spec (len l) 0); [lia|]. rewrite make_len by lia.
    rewrite length_app in Hf. unfold enc_line in Hf. simpl in Hf.
    assert (∀ l acc i f rest, fold_right (λ r P, reply_ok r ∧ P) True l →
      (length (concat (map enc_reply l) ++ rest) < fuel)%nat → (length l < f)%nat →
      array_loop (read_response fuel) f i (i + len l) acc (concat (map enc_reply l) ++ rest)
      = Got (acc ++ map reply_value l) rest) as Hloop.
    { clear Hf Hr Hl l rest H0 H1. intros l. induction l as [|r l IHl]; intros acc i [|f] rest Hok Hf Hlf; simpl in Hlf; try lia.
      - change (len []) with 0. cbn [array_loop]. destruct (Z.ltb_spec i (i + 0)); [lia|].
        by rewrite app_nil_r.
      - rewrite len_cons. pose proof (len_nonneg l). cbn [array_loop].
        destruct (Z.ltb_spec i (i + (1 + len l))); [|lia]. destruct Hok as [Hr Hok].
        cbn [map concat] in *. rewrite <-app_assoc in *.
        erewrite bind_Got.
        2:{ unfold try. rewrite IH by done. reflexivity. }
        cbv beta iota. rewrite Z.add_assoc. rewrite IHl; [|done| |lia].
        + by rewrite <-app_assoc.
        + rewrite length_app in Hf. lia. }
    pose proof (enc_replies_length l rest).
    erewrite bind_Got by (apply (Hloop l [] 0); [done|lia|lia]). done.
  - erewrite bind_Got by (apply read_line_enc; [apply line_byte_type; set_solver|apply Itoa_line]). done.
Qed.
End roundtrip.

(** ** Properties *)

Section properties.
Context `{UnicodeTables}.

(** C15. Pipelined commands, each an array of binary-safe bulk strings, are
    read back one by one: same arguments in the same order, the first of
    them upper-cased as the command, nothing of the next command consumed. *)
Theorem commands_roundtrip (cmds : list (list (list byte))) rest
  (Hfit : Forall (λ args, len args * 16 ≤ max_alloc ∧ Forall fits args) cmds) :
  many (length cmds) ReadRESPCommand (concat (map enc_command cmds) ++ rest)
    = Got (map command_of cmds) rest.
Proof.
  apply many_roundtrip. intros args rest' Hin. rewrite Forall_forall in Hfit.
  destruct (Hfit args Hin). by apply read_command_enc.
Qed.

(** C16. Replies of every kind, arrays nested to any depth included, are read
    back one by one with the value the tool shows for them. *)
Theorem replies_roundtrip (rs : list reply) rest (Hok : Forall reply_ok rs) :
  many (length rs) ReadRESPResponse (concat (map enc_reply rs) ++ rest)
    = Got (map reply_resp rs) rest.
Proof.
  apply many_roundtrip. intros r rest' Hin. rewrite Forall_forall in Hok.
  apply read_response_enc; [lia|by apply Hok].
Qed.

(** Both readers terminate on every input: they return a value, an error
    or panic, and a message that is read consumes at least a byte, so the
    handler's loop over a finite stream ends. *)
Theorem redis_readers_progress s :
  progress 1 ReadRESPCommand s ∧ progress 1 ReadRESPResponse s.
Proof. split; [apply ReadRESPCommand_progress|apply read_response_progress; lia]. Qed.

(** Inline commands: the words of the line are the command and its
    arguments. *)
Theorem inline_command ws w line rest
  (Hw : Forall word (w :: ws)) (Hline : line = Join (w :: ws) (gs " "))
  (Hstar : head w ≠ Some TypeArray) (Hb : Forall line_byte line) :
  ReadRESPCommand (line ++ crlf ++ rest)
    = Got (mkRESPCommand line (ToUpper w) ws (1 + len ws)) rest.
Proof.
  destruct w as [|t w']; [inversion Hw as [|? ? [? _]]; done|].
  assert (∃ v, line = t :: v) as [v Hv].
  { rewrite Hline. simpl. destruct ws; by eexists. }
  rewrite Hv in Hb |- *. inversion Hb as [|? ? Ht Hbv]; subst t.
  unfold ReadRESPCommand. rewrite app_assoc.
  change ((x :: v) ++ crlf) with (enc_line x v).
  erewrite bind_Got by (by apply read_line_enc). cbv beta iota.
  destruct (Byte.eqb x TypeArray) eqn:E.
  { apply Byte.byte_dec_bl in E as ->. done. }
  cbn [negb]. rewrite <-Hv, Hline, Fields_Join by done. done.
Qed.

(** A command whose array count is negative ([*-1], which the protocol
    has as the null array) makes the reader of the command panic, while the
    reader of the replies answers it as a null array. *)
Theorem negative_count_panics n rest (Hn : - 2 ^ 63 ≤ n < 0) :
  ReadRESPCommand (enc_line TypeArray (Itoa n) ++ rest) = Panicked ∧
  ReadRESPResponse (enc_line TypeArray (Itoa n) ++ rest)
    = Got (mkRESPResponse (TypeArray :: Itoa n) TypeArray (gs "(nil array)") false) rest.
Proof.
  assert (line_byte TypeArray) as Ht by (apply line_byte_type; set_solver).
  split.
  - unfold ReadRESPCommand. erewrite bind_Got by (apply read_line_enc; [done|apply Itoa_line]).
    cbv beta iota. byte_cases. cbn [negb]. rewrite Atoi_Itoa by lia.
    unfold make_ok. destruct (Z.leb_spec 0 n); [lia|]. done.
  - unfold ReadRESPResponse. cbn [read_response].
    erewrite bind_Got by (apply read_line_enc; [done|apply Itoa_line]).
    cbv beta iota. byte_cases. rewrite Atoi_Itoa by lia.
    destruct (Z.ltb_spec n 0); [|lia]. done.
Qed.
End properties.

(** ** The properties at work *)

Definition demo_cmds : list (list (list byte)) :=
  [[gs "set"; gs "k"; newline :: gs "$1"]; []; [gs "get"; gs "k"]].
Definition demo_replies : list reply :=
  [RSimple (gs "OK"); RArray [RInt (-7); RNil; RArray [RBulk (gs "x"); RError (gs "no")]]; RNilArray].

Lemma line_bytes_bool s : forallb (λ b, bool_decide (b ∉ crlf)) s = true → Forall line_byte s.
Proof.
  rewrite forallb_forall, Forall_forall. intros Hs b Hb%list_elem_of_In.
  by apply Hs, bool_decide_eq_true_1 in Hb.
Qed.

Lemma commands_roundtrip_witness :
  many 3 (ReadRESPCommand (H := no_tables)) (concat (map enc_command demo_cmds) ++ gs "tail")
    = Got (map (command_of (H := no_tables)) demo_cmds) (gs "tail").
Proof.
  apply (commands_roundtrip (H := no_tables) demo_cmds (gs "tail")).
  repeat constructor; unfold fits; vm_compute; congruence.
Defined.

Lemma replies_roundtrip_witness :
  many 3 ReadRESPResponse (concat (map enc_reply demo_replies) ++ gs "tail")
    = Got (map reply_resp demo_replies) (gs "tail").
Proof.
  apply (replies_roundtrip demo_replies (gs "tail")).
  unfold demo_replies. rewrite !Forall_cons. cbn [reply_ok fold_right]. unfold fits. split_and!;
    first [exact I | apply line_bytes_bool; vm_compute; reflexivity | constructor | lia
      | vm_compute; congruence].
Defined.

Lemma inline_command_witness :
  ReadRESPCommand (H := no_tables) (gs "set k v" ++ crlf ++ gs "tail")
    = Got (mkRESPCommand (gs "set k v") (gs "SET") [gs "k"; gs "v"] 3) (gs "tail").
Proof.
  apply (inline_command (H := no_tables) [gs "k"; gs "v"] (gs "set") (gs "set k v") (gs "tail")).
  - repeat constructor; done.
  - reflexivity.
  - vm_compute. congruence.
  - by apply line_bytes_bool.
Defined.

Lemma negative_count_panics_witness :
  ReadRESPCommand (H := no_tables) (gs "*-1" ++ crlf) = Panicked.
Proof. apply (negative_count_panics (H := no_tables) (-1) []). lia. Defined.
