(* ===== verification/MySQL.v ===== *)
(** * MySQL (src/mysqlport)

    Packets, messages of both directions, the length-encoded integer, the
    detector and the printer. *)

From S2P Require Import Prelude GoBytes GoStrings Unicode Window Reader.

Definition HeaderSize : Z := 4.
Definition MaxPayloadLen : Z := 2 ^ 24 - 1.

(** Client command types *)
Definition ComSleep : byte := Byte.x00.
Definition ComQuit : byte := Byte.x01.
Definition ComInitDB : byte := Byte.x02.
Definition ComQuery : byte := Byte.x03.
Definition ComFieldList : byte := Byte.x04.
Definition ComCreateDB : byte := Byte.x05.
Definition ComDropDB : byte := Byte.x06.
Definition ComRefresh : byte := Byte.x07.
Definition ComShutdown : byte := Byte.x08.
Definition ComStatistics : byte := Byte.x09.
Definition ComProcessInfo : byte := Byte.x0a.
Definition ComConnect : byte := Byte.x0b.
Definition ComProcessKill : byte := Byte.x0c.
Definition ComDebug : byte := Byte.x0d.
Definition ComPing : byte := Byte.x0e.
Definition ComTime : byte := Byte.x0f.
Definition ComDelayedInsert : byte := Byte.x10.
Definition ComChangeUser : byte := Byte.x11.
Definition ComBinlogDump : byte := Byte.x12.
Definition ComTableDump : byte := Byte.x13.
Definition ComConnectOut : byte := Byte.x14.
Definition ComRegisterSlave : byte := Byte.x15.
Definition ComStmtPrepare : byte := Byte.x16.
Definition ComStmtExecute : byte := Byte.x17.
Definition ComStmtSendLongData : byte := Byte.x18.
Definition ComStmtClose : byte := Byte.x19.
Definition ComStmtReset : byte := Byte.x1a.
Definition ComSetOption : byte := Byte.x1b.
Definition ComStmtFetch : byte := Byte.x1c.
Definition ComDaemon : byte := Byte.x1d.
Definition ComBinlogDumpGTID : byte := Byte.x1e.
Definition ComResetConnection : byte := Byte.x1f.

(** [commandNames], indexed by the command byte. *)
Definition commandNames : list (list byte) := map gs [
  "Sleep"; "Quit"; "InitDB"; "Query"; "FieldList"; "CreateDB"; "DropDB"; "Refresh"; "Shutdown";
  "Statistics"; "ProcessInfo"; "Connect"; "ProcessKill"; "Debug"; "Ping"; "Time";
  "DelayedInsert"; "ChangeUser"; "BinlogDump"; "TableDump"; "ConnectOut"; "RegisterSlave";
  "StmtPrepare"; "StmtExecute"; "StmtSendLongData"; "StmtClose"; "StmtReset"; "SetOption";
  "StmtFetch"; "Daemon"; "BinlogDumpGTID"; "ResetConnection"]%string.

Definition CommandName (b : byte) : list byte :=
  match znth commandNames (bz b) with
  | Some name => name
  | None => gs "UNKNOWN(0x" ++ fmt_02x (bz b) ++ gs ")"
  end.

(** Server response types *)
Definition ResponseOK : byte := Byte.x00.
Definition ResponseEOF : byte := Byte.xfe.
Definition ResponseERR : byte := Byte.xff.

Record MySQLPacket := mkPacket {
  Length : Z; SequenceID : byte; Payload : list byte; Direction : list byte }.

Record MySQLMessage := mkMessage {
  Packets : list MySQLPacket;
  Type_ : list byte;
  Summary : list byte;
  Command : byte;
  CommandName_ : list byte;
  Query : list byte;
  ProtocolVersion : byte;
  ServerVersion : list byte;
  AuthPlugin : list byte;
  AffectedRows : Z;
  LastInsertID : Z;
  StatusFlags : Z;
  ErrorCode : Z;
  ErrorMsg : list byte;
  SQLState : list byte }.

(** A message of one packet, the other fields zero; one setter per field. *)
Definition new_message (pkt : MySQLPacket) : MySQLMessage :=
  mkMessage [pkt] [] [] Byte.x00 [] [] Byte.x00 [] [] 0 0 0 0 [] [].
Definition set_Type (x : list byte) (m : MySQLMessage) : MySQLMessage :=
  mkMessage (Packets m) x (Summary m) (Command m) (CommandName_ m) (Query m)
    (ProtocolVersion m) (ServerVersion m) (AuthPlugin m) (AffectedRows m) (LastInsertID m)
    (StatusFlags m) (ErrorCode m) (ErrorMsg m) (SQLState m).
Definition set_Summary (x : list byte) (m : MySQLMessage) : MySQLMessage :=
  mkMessage (Packets m) (Type_ m) x (Command m) (CommandName_ m) (Query m) (ProtocolVersion
    m) (ServerVersion m) (AuthPlugin m) (AffectedRows m) (LastInsertID m) (StatusFlags m)
    (ErrorCode m) (ErrorMsg m) (SQLState m).
Definition set_Command (x : byte) (m : MySQLMessage) : MySQLMessage :=
  mkMessage (Packets m) (Type_ m) (Summary m) x (CommandName_ m) (Query m) (ProtocolVersion
    m) (ServerVersion m) (AuthPlugin m) (AffectedRows m) (LastInsertID m) (StatusFlags m)
    (ErrorCode m) (ErrorMsg m) (SQLState m).
Definition set_CommandName (x : list byte) (m : MySQLMessage) : MySQLMessage :=
  mkMessage (Packets m) (Type_ m) (Summary m) (Command m) x (Query m) (ProtocolVersion m)
    (ServerVersion m) (AuthPlugin m) (AffectedRows m) (LastInsertID m) (StatusFlags m)
    (ErrorCode m) (ErrorMsg m) (SQLState m).
Definition set_Query (x : list byte) (m : MySQLMessage) : MySQLMessage :=
  mkMessage (Packets m) (Type_ m) (Summary m) (Command m) (CommandName_ m) x
    (ProtocolVersion m) (ServerVersion m) (AuthPlugin m) (AffectedRows m) (LastInsertID m)
    (StatusFlags m) (ErrorCode m) (ErrorMsg m) (SQLState m).
Definition set_ProtocolVersion (x : byte) (m : MySQLMessage) : MySQLMessage :=
  mkMessage (Packets m) (Type_ m) (Summary m) (Command m) (CommandName_ m) (Query m) x
    (ServerVersion m) (AuthPlugin m) (AffectedRows m) (LastInsertID m) (StatusFlags m)
    (ErrorCode m) (ErrorMsg m) (SQLState m).
Definition set_ServerVersion (x : list byte) (m : MySQLMessage) : MySQLMessage :=
  mkMessage (Packets m) (Type_ m) (Summary m) (Command m) (CommandName_ m) (Query m)
    (ProtocolVersion m) x (AuthPlugin m) (AffectedRows m) (LastInsertID m) (StatusFlags m)
    (ErrorCode m) (ErrorMsg m) (SQLState m).
Definition set_AuthPlugin (x : list byte) (m : MySQLMessage) : MySQLMessage :=
  mkMessage (Packets m) (Type_ m) (Summary m) (Command m) (CommandName_ m) (Query m)
    (ProtocolVersion m) (ServerVersion m) x (AffectedRows m) (LastInsertID m) (StatusFlags
    m) (ErrorCode m) (ErrorMsg m) (SQLState m).
Definition set_AffectedRows (x : Z) (m : MySQLMessage) : MySQLMessage :=
  mkMessage (Packets m) (Type_ m) (Summary m) (Command m) (CommandName_ m) (Query m)
    (ProtocolVersion m) (ServerVersion m) (AuthPlugin m) x (LastInsertID m) (StatusFlags m)
    (ErrorCode m) (ErrorMsg m) (SQLState m).
Definition set_LastInsertID (x : Z) (m : MySQLMessage) : MySQLMessage :=
  mkMessage (Packets m) (Type_ m) (Summary m) (Command m) (CommandName_ m) (Query m)
    (ProtocolVersion m) (ServerVersion m) (AuthPlugin m) (AffectedRows m) x (StatusFlags m)
    (ErrorCode m) (ErrorMsg m) (SQLState m).
Definition set_StatusFlags (x : Z) (m : MySQLMessage) : MySQLMessage :=
  mkMessage (Packets m) (Type_ m) (Summary m) (Command m) (CommandName_ m) (Query m)
    (ProtocolVersion m) (ServerVersion m) (AuthPlugin m) (AffectedRows m) (LastInsertID m) x
    (ErrorCode m) (ErrorMsg m) (SQLState m).
Definition set_ErrorCode (x : Z) (m : MySQLMessage) : MySQLMessage :=
  mkMessage (Packets m) (Type_ m) (Summary m) (Command m) (CommandName_ m) (Query m)
    (ProtocolVersion m) (ServerVersion m) (AuthPlugin m) (AffectedRows m) (LastInsertID m)
    (StatusFlags m) x (ErrorMsg m) (SQLState m).
Definition set_ErrorMsg (x : list byte) (m : MySQLMessage) : MySQLMessage :=
  mkMessage (Packets m) (Type_ m) (Summary m) (Command m) (CommandName_ m) (Query m)
    (ProtocolVersion m) (ServerVersion m) (AuthPlugin m) (AffectedRows m) (LastInsertID m)
    (StatusFlags m) (ErrorCode m) x (SQLState m).
Definition set_SQLState (x : list byte) (m : MySQLMessage) : MySQLMessage :=
  mkMessage (Packets m) (Type_ m) (Summary m) (Command m) (CommandName_ m) (Query m)
    (ProtocolVersion m) (ServerVersion m) (AuthPlugin m) (AffectedRows m) (LastInsertID m)
    (StatusFlags m) (ErrorCode m) (ErrorMsg m) x.

(** ** Packets *)

Definition ReadMySQLPacket : parser MySQLPacket :=
  header ← read_n HeaderSize;
  b0 ← lift (index header 0); b1 ← lift (index header 1); b2 ← lift (index header 2);
  seq ← lift (index header 3);
  let length := le24 b0 b1 b2 in
  payload ← read_n length;
  mret (mkPacket length seq payload []).

(** ** Length-encoded integers *)

Definition readLenEncInt (data : list byte) (pos : Z) : go (Z * Z) :=
  if len data <=? pos then Ret (0, pos)
  else
    b ← index data pos;
    if bz b <? 251 then Ret (bz b, pos + 1)
    else if beq b 252 then
      if len data <=? pos + 2 then Ret (0, pos)
      else t ← sub data (pos + 1) (pos + 3); v ← le_uint 2 t; Ret (v, pos + 3)
    else if beq b 253 then
      if len data <=? pos + 3 then Ret (0, pos)
      else
        b1 ← index data (pos + 1); b2 ← index data (pos + 2); b3 ← index data (pos + 3);
        Ret (le24 b1 b2 b3, pos + 4)
    else if beq b 254 then
      if len data <=? pos + 8 then Ret (0, pos)
      else t ← sub data (pos + 1) (pos + 9); v ← le_uint 8 t; Ret (v, pos + 9)
    else Ret (0, pos).

(** ** Client packets *)

(** [if len(msg.Query) > 200 { msg.Query = msg.Query[:200] + "..." }] *)
Definition truncate200 (q : list byte) : list byte :=
  if 200 <? len q then ztake 200 q ++ gs "..." else q.

Definition parseClientPacket (payload : list byte) (msg : MySQLMessage) : go MySQLMessage :=
  match payload with
  | [] => Ret msg
  | c :: body =>
      let msg := set_Type (gs "command") (set_CommandName (CommandName c) (set_Command c msg)) in
      if decide (c = ComQuery) then
        let q := truncate200 body in
        Ret (set_Summary (gs "Query: " ++ q) (set_Query q msg))
      else if decide (c = ComStmtPrepare) then
        let q := truncate200 body in
        Ret (set_Summary (gs "Prepare: " ++ q) (set_Query q msg))
      else if decide (c = ComStmtExecute) then
        if 5 <=? len payload then
          stmtID ← le_at 4 payload 1;
          Ret (set_Summary (gs "Execute stmt_id=" ++ Itoa stmtID) msg)
        else Ret msg
      else if decide (c = ComInitDB) then Ret (set_Summary (gs "Use DB: " ++ body) (set_Query body msg))
      else if decide (c = ComQuit) then Ret (set_Summary (gs "Quit") msg)
      else if decide (c = ComPing) then Ret (set_Summary (gs "Ping") msg)
      else if decide (c = ComBinlogDump ∨ c = ComBinlogDumpGTID) then Ret (set_Summary (gs "BinlogDump") msg)
      else if decide (c = ComRegisterSlave) then Ret (set_Summary (gs "RegisterSlave") msg)
      else Ret (set_Summary (CommandName c) msg)
  end.

(** ** Server packets *)

(** [for pos < len(p) && p[pos] != 0x00 { pos++ }] *)
Fixpoint find_null (fuel : nat) (p : list byte) (pos : Z) : go Z :=
  match fuel with
  | O => Ret pos
  | S fuel =>
      if pos <? len p then
        b ← index p pos;
        if negb (beq b 0) then find_null fuel p (pos + 1) else Ret pos
      else Ret pos
  end.

(** [for end > pos && p[end] != 0x00 { end-- }] *)
Fixpoint find_null_back (fuel : nat) (p : list byte) (pos e : Z) : go Z :=
  match fuel with
  | O => Ret e
  | S fuel =>
      if pos <? e then
        b ← index p e;
        if negb (beq b 0) then find_null_back fuel p pos (e - 1) else Ret e
      else Ret e
  end.

Definition parseHandshake (payload : list byte) (msg : MySQLMessage) : go MySQLMessage :=
  b ← index payload 0;
  let msg := set_ProtocolVersion b (set_Type (gs "handshake") msg) in
  pos ← find_null (length payload) payload 1;
  version ← sub payload 1 pos;
  let pos := pos + 1 in
  plugin ← (if pos + 13 <? len payload then
              e ← find_null_back (length payload) payload pos (len payload - 1);
              if (pos <? e) && (e <? len payload - 1)
              then sub payload (e + 1) (len payload) else Ret []
            else Ret []);
  Ret (set_Summary (gs "Handshake: MySQL " ++ version ++ gs " (plugin=" ++ plugin ++ gs ")")
         (set_AuthPlugin plugin (set_ServerVersion version msg))).

Definition parseOK (payload : list byte) (msg : MySQLMessage) : go MySQLMessage :=
  let msg := set_Type (gs "ok") msg in
  if len payload <? 7 then Ret (set_Summary (gs "OK") msg)
  else
    '(rows, pos) ← readLenEncInt payload 1;
    '(id, pos) ← readLenEncInt payload pos;
    let msg := set_LastInsertID id (set_AffectedRows rows msg) in
    msg ← (if pos + 1 <? len payload
           then f ← le_at 2 payload pos; Ret (set_StatusFlags f msg) else Ret msg);
    Ret (set_Summary (gs "OK (rows=" ++ Itoa rows ++ gs ", insert_id=" ++ Itoa id ++ gs ")") msg).

Definition parseERR (payload : list byte) (msg : MySQLMessage) : go MySQLMessage :=
  let msg := set_Type (gs "error") msg in
  msg ← (if 3 <=? len payload then e ← le_at 2 payload 1; Ret (set_ErrorCode e msg) else Ret msg);
  msg ← (if 3 <? len payload then
           b ← index payload 3;
           if beq b 35 then
             st ← sub payload 4 9;
             m ← sub payload 9 (len payload);
             Ret (set_ErrorMsg m (set_SQLState st msg))
           else m ← sub payload 3 (len payload); Ret (set_ErrorMsg m msg)
         else Ret msg);
  Ret (set_Summary (gs "ERROR " ++ Itoa (ErrorCode msg) ++ gs " (" ++ SQLState msg ++ gs "): "
         ++ ErrorMsg msg) msg).

Definition parseServerPacket (payload : list byte) (msg : MySQLMessage) : go MySQLMessage :=
  match payload with
  | [] => Ret msg
  | firstByte :: _ =>
      if beq firstByte 10 && (4 <? len payload) then parseHandshake payload msg
      else if decide (firstByte = ResponseOK ∨ firstByte = ResponseEOF) then parseOK payload msg
      else if decide (firstByte = ResponseERR) then parseERR payload msg
      else if decide (firstByte = ResponseEOF) then
        let msg := set_Type (gs "eof") msg in
        msg ← (if 5 <=? len payload then f ← le_at 2 payload 3; Ret (set_StatusFlags f msg) else Ret msg);
        Ret (set_Summary (gs "EOF") msg)
      else
        '(colCount, _) ← readLenEncInt payload 0;
        if (0 <? colCount) && (colCount <? 10000) then
          Ret (set_Summary (gs "ResultSet: " ++ Itoa colCount ++ gs " columns")
                 (set_AffectedRows colCount (set_Type (gs "resultset") msg)))
        else Ret (set_Summary (Itoa (len payload) ++ gs " bytes payload") (set_Type (gs "unknown") msg))
  end.

Definition client_dir : list byte := gs "C->S".

Definition ReadMySQLMessage (direction : list byte) : parser MySQLMessage :=
  pkt ← ReadMySQLPacket;
  let pkt := mkPacket (Length pkt) (SequenceID pkt) (Payload pkt) direction in
  let msg := new_message pkt in
  if str_eqb direction client_dir then lift (parseClientPacket (Payload pkt) msg)
  else lift (parseServerPacket (Payload pkt) msg).

(** ** The detector *)

Definition mysql_marker (b : byte) : bool :=
  beq b 10 || ((1 <=? bz b) && (bz b <=? 31))
  || Byte.eqb b ResponseOK || Byte.eqb b ResponseERR || Byte.eqb b ResponseEOF.

Definition DetectMySQL (data : list byte) : go bool :=
  if len data <? 4 then Ret false
  else
    b0 ← index data 0; b1 ← index data 1; b2 ← index data 2;
    let length := le24 b0 b1 b2 in
    if (length =? 0) || (MaxPayloadLen <? length) then Ret false
    else if uint32 (4 + length) <=? len data then
      payload ← sub data 4 (uint32 (4 + length));
      match payload with
      | [] => Ret false
      | b :: _ =>
          if mysql_marker b then Ret true
          else
            '(colCount, _) ← readLenEncInt payload 0;
            Ret ((0 <? colCount) && (colCount <=? 4096))
      end
    else if 4 <? len data then b ← index data 4; Ret (mysql_marker b)
    else Ret false.

(** ** The printer (src/mysqlport/printer.go) *)

Definition SanitizeQuery (q : list byte) : list byte :=
  let q := TrimSpace q in
  let q := ReplaceAll q [Byte.x0a] (gs " ") in
  let q := ReplaceAll q [Byte.x0d] [] in
  let q := ReplaceAll q [Byte.x09] (gs " ") in
  Join (Fields q) (gs " ").

Definition FormatMySQLMessage (msg : MySQLMessage) : list byte :=
  if str_eqb (Type_ msg) (gs "handshake") then
    gs "  Handshake v" ++ Itoa (bz (ProtocolVersion msg)) ++ [newline]
    ++ gs "  Server: " ++ ServerVersion msg ++ [newline]
    ++ (if str_eqb (AuthPlugin msg) [] then [] else gs "  Auth: " ++ AuthPlugin msg ++ [newline])
  else if str_eqb (Type_ msg) (gs "command") then
    gs "  " ++ CommandName_ msg
    ++ (if str_eqb (Query msg) [] then [] else gs "  " ++ SanitizeQuery (Query msg)) ++ [newline]
  else if str_eqb (Type_ msg) (gs "ok") then
    gs "  OK  rows=" ++ Itoa (AffectedRows msg) ++ gs "  insert_id=" ++ Itoa (LastInsertID msg) ++ [newline]
  else if str_eqb (Type_ msg) (gs "error") then
    gs "  ERROR " ++ Itoa (ErrorCode msg) ++ gs " (" ++ SQLState msg ++ gs "): " ++ ErrorMsg msg ++ [newline]
  else if str_eqb (Type_ msg) (gs "resultset") then
    gs "  ResultSet: " ++ Itoa (AffectedRows msg) ++ gs " columns" ++ [newline]
  else if str_eqb (Type_ msg) (gs "eof") then gs "  EOF" ++ [newline]
  else gs "  " ++ Summary msg ++ [newline].

Definition FormatMySQLURL (msg : MySQLMessage) : list byte :=
  if str_eqb (Type_ msg) (gs "command") then
    (if str_eqb (Query msg) [] then CommandName_ msg else SanitizeQuery (Query msg)) ++ [newline]
  else if str_eqb (Type_ msg) (gs "error") then
    gs "ERROR " ++ Itoa (ErrorCode msg) ++ gs ": " ++ ErrorMsg msg ++ [newline]
  else if str_eqb (Type_ msg) (gs "handshake") then gs "Handshake " ++ ServerVersion msg ++ [newline]
  else Summary msg ++ [newline].

(** ** The length-encoded integer *)

(** It stays inside the data and never moves backwards. *)
Lemma readLenEncInt_returns data pos : 0 ≤ pos →
  returns (readLenEncInt data pos)
    (λ '(v, p), 0 ≤ v < 2 ^ 64 ∧ pos ≤ p ≤ Z.max pos (len data)).
Proof.
  intros Hpos. unfold readLenEncInt. destruct (Z.leb_spec (len data) pos); [apply returns_Ret; lia|].
  eapply returns_bind; [by apply returns_index|]. intros b _. pose proof (bz_range b).
  destruct (Z.ltb_spec (bz b) 251); [apply returns_Ret; lia|].
  destruct (beq b 252).
  { destruct (Z.leb_spec (len data) (pos + 2)); [apply returns_Ret; lia|].
    eapply returns_bind; [apply returns_sub; lia|]. intros t [_ Ht].
    eapply returns_bind; [apply (returns_le_uint 2); lia|]. intros v [_ ?]. apply returns_Ret. lia. }
  destruct (beq b 253).
  { destruct (Z.leb_spec (len data) (pos + 3)); [apply returns_Ret; lia|].
    do 3 (eapply returns_bind; [apply returns_index; lia|]; intros ? _).
    apply returns_Ret. pose proof (le24_range a a0 a1). lia. }
  destruct (beq b 254).
  { destruct (Z.leb_spec (len data) (pos + 8)); [apply returns_Ret; lia|].
    eapply returns_bind; [apply returns_sub; lia|]. intros t [_ Ht].
    eapply returns_bind; [apply (returns_le_uint 8); lia|]. intros v [_ ?]. apply returns_Ret. lia. }
  apply returns_Ret. lia.
Qed.

(** The encoding of the protocol. *)
Definition enc_lenenc (n : Z) : list byte :=
  if n <? 251 then [to_byte n]
  else if n <? 2 ^ 16 then Byte.xfc :: le_bytes 2 n
  else if n <? 2 ^ 24 then Byte.xfd :: le_bytes 3 n
  else Byte.xfe :: le_bytes 8 n.

Lemma enc_lenenc_len n : 1 ≤ len (enc_lenenc n) ≤ 9.
Proof. unfold enc_lenenc. repeat destruct (_ <? _); len_simpl; lia. Qed.

Lemma le_uint_bytes n k : 0 ≤ k < 256 ^ Z.of_nat n → le_uint (Z.of_nat n) (le_bytes n k) = Ret k.
Proof.
  intros Hk. unfold le_uint. rewrite len_le_bytes, Z.leb_refl, ztake_ge by (rewrite len_le_bytes; lia).
  by rewrite le_val_bytes_small.
Qed.

Lemma readLenEncInt_enc pre n rest : 0 ≤ n < 2 ^ 64 →
  readLenEncInt (pre ++ enc_lenenc n ++ rest) (len pre) = Ret (n, len pre + len (enc_lenenc n)).
Proof.
  intros Hn. pose proof (enc_lenenc_len n). pose proof (len_nonneg rest). unfold readLenEncInt.
  destruct (Z.leb_spec (len (pre ++ enc_lenenc n ++ rest)) (len pre)) as [Hle|_].
  { rewrite !len_app in Hle. lia. }
  pose proof (index_app_r pre (enc_lenenc n ++ rest) 0 ltac:(lia)) as Hi. rewrite Z.add_0_r in Hi.
  rewrite Hi. clear Hi. revert H. unfold enc_lenenc.
  destruct (Z.ltb_spec n 251).
  { intros _. simpl. rewrite bz_to_byte_small by lia. destruct (Z.ltb_spec n 251); [|lia].
    do 2 f_equal. }
  destruct (Z.ltb_spec n (2 ^ 16)).
  { intros _. cbn [app]. rewrite index_cons_0. cbn [mbind go_bind]. byte_cases.
    change (bz Byte.xfc <? 251) with false. cbv iota.
    destruct (Z.leb_spec (len (pre ++ Byte.xfc :: le_bytes 2 n ++ rest)) (len pre + 2)) as [Hle|_].
    { rewrite !len_app, len_cons, len_app, len_le_bytes in Hle. lia. }
    rewrite sub_app_r by lia. change (Byte.xfc :: le_bytes 2 n ++ rest) with ([Byte.xfc] ++ le_bytes 2 n ++ rest).
    rewrite sub_mid by (len_simpl; lia). cbn [mbind go_bind].
    rewrite (le_uint_bytes 2) by lia. cbn [mbind go_bind]. do 2 f_equal. }
  destruct (Z.ltb_spec n (2 ^ 24)).
  { intros _. cbn [app]. rewrite index_cons_0. cbn [mbind go_bind]. byte_cases.
    change (bz Byte.xfd <? 251) with false. cbv iota.
    destruct (Z.leb_spec (len (pre ++ Byte.xfd :: le_bytes 3 n ++ rest)) (len pre + 3)) as [Hle|_].
    { rewrite !len_app, len_cons, len_app, len_le_bytes in Hle. lia. }
    rewrite !index_app_r by lia. cbn [le_bytes app].
    change (index (?a :: ?b :: ?c :: ?d :: ?e) 1) with (Ret b).
    change (index (?a :: ?b :: ?c :: ?d :: ?e) 2) with (Ret c).
    change (index (?a :: ?b :: ?c :: ?d :: ?e) 3) with (Ret d).
    cbn [mbind go_bind]. rewrite le24_val. change [to_byte n; to_byte (n / 256); to_byte (n / 256 / 256)]
      with (le_bytes 3 n). rewrite le_val_bytes_small by lia. do 2 f_equal. }
  intros _. cbn [app]. rewrite index_cons_0. cbn [mbind go_bind]. byte_cases.
  change (bz Byte.xfe <? 251) with false. cbv iota.
  destruct (Z.leb_spec (len (pre ++ Byte.xfe :: le_bytes 8 n ++ rest)) (len pre + 8)) as [Hle|_].
  { rewrite !len_app, len_cons, len_app, len_le_bytes in Hle. lia. }
  rewrite sub_app_r by lia. change (Byte.xfe :: le_bytes 8 n ++ rest) with ([Byte.xfe] ++ le_bytes 8 n ++ rest).
  rewrite sub_mid by (len_simpl; lia). cbn [mbind go_bind].
  rewrite (le_uint_bytes 8) by lia. cbn [mbind go_bind]. do 2 f_equal.
Qed.

(** ** Packets *)

Definition packet_ok (p : byte * list byte) : Prop := len p.2 < 2 ^ 24.

(** The header: the length in three bytes and the sequence number. *)
Definition enc_packet (p : byte * list byte) : list byte :=
  le_bytes 3 (len p.2) ++ [p.1] ++ p.2.
Definition packet_of (p : byte * list byte) : MySQLPacket := mkPacket (len p.2) p.1 p.2 [].

Lemma read_packet_header h0 h1 h2 q s :
  ReadMySQLPacket (h0 :: h1 :: h2 :: q :: s)
    = (payload ← read_n (le24 h0 h1 h2); mret (mkPacket (le24 h0 h1 h2) q payload [])) s.
Proof.
  unfold ReadMySQLPacket. change (h0 :: h1 :: h2 :: q :: s) with ([h0; h1; h2; q] ++ s).
  erewrite bind_Got by (apply read_n_app; [done|vm_compute; congruence]). done.
Qed.

Lemma read_packet_enc p rest : packet_ok p →
  ReadMySQLPacket (enc_packet p ++ rest) = Got (packet_of p) rest.
Proof.
  destruct p as [q payload]. unfold packet_ok, enc_packet, packet_of. cbn [fst snd]. intros Hp.
  pose proof (len_nonneg payload). cbn [le_bytes app]. rewrite read_packet_header.
  assert (le24 (to_byte (len payload)) (to_byte (len payload / 256)) (to_byte (len payload / 256 / 256))
    = len payload) as ->.
  { rewrite le24_val. apply (le_val_bytes_small 3). lia. }
  erewrite bind_Got by (apply read_n_app; [done|unfold max_alloc; lia]). done.
Qed.

Lemma ReadMySQLPacket_spec s : ReadMySQLPacket s ≠ Panicked ∧ progress 4 ReadMySQLPacket s.
Proof.
  destruct (read_n_cases HeaderSize s) as [(h & r & Hh & -> & Hl)|(e & He & Hl & _)];
    [vm_compute; split; congruence| |].
  - destruct h as [|h0 [|h1 [|h2 [|q [|x h]]]]]; try (unfold HeaderSize in Hl; len_lia).
    change ([h0; h1; h2; q] ++ r) with (h0 :: h1 :: h2 :: q :: r).
    unfold progress. rewrite read_packet_header. pose proof (le24_range h0 h1 h2).
    destruct (read_n_cases (le24 h0 h1 h2) r) as [(b & r2 & Hb & -> & _)|(e & He & _)]; [unfold max_alloc; lia| |].
    + erewrite bind_Got by exact Hb. split; [done|]. simpl. rewrite length_app. lia.
    + unfold mbind, parser_bind. rewrite He. split; [done|]. simpl. lia.
  - unfold progress, ReadMySQLPacket, mbind, parser_bind. rewrite He. split; [done|]. simpl. lia.
Qed.

(** ** Where a message can panic *)

(** An error packet with the state marker but without the five bytes of the
    state. *)
Definition short_error (payload : list byte) : Prop :=
  head payload = Some ResponseERR ∧ znth payload 3 = Some Byte.x23 ∧ len payload < 9.

Lemma parseClientPacket_returns payload msg : returns (parseClientPacket payload msg) (λ _, True).
Proof.
  destruct payload as [|x body]; [by apply returns_Ret|]. unfold parseClientPacket.
  repeat (case_decide; [first [by apply returns_Ret | idtac]|]); try by apply returns_Ret.
  destruct (Z.leb_spec 5 (len (x :: body))); [|by apply returns_Ret].
  eapply returns_bind; [apply returns_le_at; lia|]. intros. by apply returns_Ret.
Qed.

Lemma find_null_returns p fuel : ∀ pos, 0 ≤ pos ≤ len p →
  returns (find_null fuel p pos) (λ q, pos ≤ q ≤ len p).
Proof.
  induction fuel as [|fuel IH]; intros pos Hpos; [apply returns_Ret; lia|]. cbn [find_null].
  destruct (Z.ltb_spec pos (len p)); [|apply returns_Ret; lia].
  eapply returns_bind; [apply returns_index; lia|]. intros b _.
  destruct (negb _); [|apply returns_Ret; lia].
  eapply returns_mono; [apply IH; lia|]. simpl. lia.
Qed.

Lemma find_null_back_returns p pos fuel : 0 ≤ pos → ∀ e, e < len p →
  returns (find_null_back fuel p pos e) (λ q, q ≤ e).
Proof.
  intros Hp. induction fuel as [|fuel IH]; intros e He; [apply returns_Ret; lia|]. cbn [find_null_back].
  destruct (Z.ltb_spec pos e); [|apply returns_Ret; lia].
  eapply returns_bind; [apply returns_index; lia|]. intros b _.
  destruct (negb _); [|apply returns_Ret; lia].
  eapply returns_mono; [apply IH; lia|]. simpl. lia.
Qed.

Lemma parseHandshake_returns payload msg : 4 < len payload →
  returns (parseHandshake payload msg) (λ m, Type_ m = gs "handshake").
Proof.
  intros Hl. unfold parseHandshake. eapply returns_bind; [apply returns_index; lia|]. intros b _.
  eapply returns_bind; [apply find_null_returns; lia|]. cbv beta. intros pos Hpos.
  eapply returns_bind; [apply returns_sub; lia|]. intros v _.
  eapply returns_bind with (P := λ _, True); [|intros; by apply returns_Ret].
  destruct (Z.ltb_spec (pos + 1 + 13) (len payload)); [|by apply returns_Ret].
  eapply returns_bind; [apply find_null_back_returns; lia|]. cbv beta. intros e He.
  destruct (Z.ltb_spec (pos + 1) e), (Z.ltb_spec e (len payload - 1)); simpl; try by apply returns_Ret.
  eapply returns_mono; [apply returns_sub; lia|done].
Qed.

Lemma parseOK_returns payload msg : returns (parseOK payload msg) (λ m, Type_ m = gs "ok").
Proof.
  unfold parseOK. destruct (Z.ltb_spec (len payload) 7); [by apply returns_Ret|].
  eapply returns_bind; [apply readLenEncInt_returns; lia|]. intros [rows pos] [_ Hpos].
  eapply returns_bind; [apply readLenEncInt_returns; lia|]. intros [id pos2] [_ Hpos2].
  eapply returns_bind with (P := λ m, Type_ m = gs "ok"); [|intros m Hm; by apply returns_Ret].
  destruct (Z.ltb_spec (pos2 + 1) (len payload)); [|by apply returns_Ret].
  eapply returns_bind; [apply returns_le_at; lia|]. intros. by apply returns_Ret.
Qed.

Lemma parseERR_returns payload msg : ¬ short_error payload → head payload = Some ResponseERR →
  returns (parseERR payload msg) (λ m, Type_ m = gs "error").
Proof.
  intros Hs Hh. unfold parseERR.
  eapply returns_bind with (P := λ m, Type_ m = gs "error").
  { destruct (Z.leb_spec 3 (len payload)); [|by apply returns_Ret].
    eapply returns_bind; [apply returns_le_at; lia|]. intros. by apply returns_Ret. }
  intros m Hm. eapply returns_bind with (P := λ m, Type_ m = gs "error"); [|intros; by apply returns_Ret].
  destruct (Z.ltb_spec 3 (len payload)); [|by apply returns_Ret].
  eapply returns_bind; [apply returns_index; lia|]. intros b Hb.
  destruct (beq b 35) eqn:E.
  - assert (9 ≤ len payload).
    { destruct (Z.le_gt_cases 9 (len payload)); [done|]. destruct Hs. split_and!; [done| |done].
      rewrite Hb. f_equal. unfold beq in E. zbool. by apply bz_inj. }
    eapply returns_bind; [apply returns_sub; lia|]. intros st _.
    eapply returns_bind; [apply returns_sub; lia|]. intros ms _. by apply returns_Ret.
  - eapply returns_bind; [apply returns_sub; lia|]. intros ms _. by apply returns_Ret.
Qed.

Lemma parseERR_panics payload msg : short_error payload → parseERR payload msg = Panic.
Proof.
  intros (Hh & H3 & Hl). assert (3 < len payload).
  { assert (is_Some (znth payload 3)) as Hi by (by eexists). apply znth_Some in Hi. lia. }
  unfold parseERR. destruct (Z.leb_spec 3 (len payload)); [|lia].
  destruct (returns_le_at 2 payload 1) as (x & -> & _); [lia..|]. cbn [mbind go_bind].
  destruct (Z.ltb_spec 3 (len payload)); [|lia]. unfold index. rewrite H3. cbn [of_option mbind go_bind].
  byte_cases. by rewrite (sub_Panic payload 4 9) by lia.
Qed.

Definition server_types : list (list byte) :=
  [[]; gs "handshake"; gs "ok"; gs "error"; gs "resultset"; gs "unknown"].

Lemma parseServerPacket_returns payload msg : ¬ short_error payload → Type_ msg = [] →
  returns (parseServerPacket payload msg) (λ m, Type_ m ∈ server_types).
Proof.
  intros Hs Hm. destruct payload as [|b body].
  { apply returns_Ret. rewrite Hm. constructor. }
  assert (∀ m t, returns m (λ m, Type_ m = t) → t ∈ server_types → returns m (λ m, Type_ m ∈ server_types)) as Hin.
  { intros m t Hr Ht. eapply returns_mono; [exact Hr|]. intros x ->. done. }
  unfold parseServerPacket.
  destruct (beq b 10 && (4 <? len (b :: body))) eqn:E.
  { zbool. eapply Hin; [by apply parseHandshake_returns|]. repeat constructor. }
  case_decide; [eapply Hin; [apply parseOK_returns|repeat constructor]|].
  case_decide as Herr.
  { eapply Hin; [apply parseERR_returns; [done|by rewrite Herr]|repeat constructor]. }
  case_decide; [tauto|].
  eapply returns_bind; [apply readLenEncInt_returns; lia|]. intros [n p] _.
  destruct ((0 <? n) && (n <? 10000)); apply returns_Ret; repeat constructor.
Qed.

Lemma parseServerPacket_panics payload msg : short_error payload → parseServerPacket payload msg = Panic.
Proof.
  intros Hs. pose proof Hs as (Hh & _). destruct payload as [|b body]; [done|]. injection Hh as ->.
  unfold parseServerPacket. change (beq ResponseERR 10) with false. simpl andb. cbv iota.
  rewrite decide_False by (intros [?|?]; done). rewrite decide_True by done. by apply parseERR_panics.
Qed.

Lemma ReadMySQLMessage_eq dir s : ReadMySQLMessage dir s =
  match ReadMySQLPacket s with
  | Got pkt rest =>
      let msg := new_message (mkPacket (Length pkt) (SequenceID pkt) (Payload pkt) dir) in
      lift (if str_eqb dir client_dir then parseClientPacket (Payload pkt) msg
            else parseServerPacket (Payload pkt) msg) rest
  | Fail e rest => Fail e rest
  | Panicked => Panicked
  | Spin => Spin
  end.
Proof.
  unfold ReadMySQLMessage, mbind, parser_bind. destruct (ReadMySQLPacket s) as [pkt r| | |]; try done.
  simpl. by destruct (str_eqb dir client_dir).
Qed.

(** ** Packets a server sends *)

Definition enc_ok (rows id flags : Z) (info : list byte) : list byte :=
  [ResponseOK] ++ enc_lenenc rows ++ enc_lenenc id ++ le_bytes 2 flags ++ info.

Definition ok_message (rows id flags : Z) (msg : MySQLMessage) : MySQLMessage :=
  set_Summary (gs "OK (rows=" ++ Itoa rows ++ gs ", insert_id=" ++ Itoa id ++ gs ")")
    (set_StatusFlags flags (set_LastInsertID id (set_AffectedRows rows (set_Type (gs "ok") msg)))).

Lemma parseOK_enc rows id flags info msg :
  0 ≤ rows < 2 ^ 64 → 0 ≤ id < 2 ^ 64 → 0 ≤ flags < 2 ^ 16 → 2 ≤ len info →
  parseServerPacket (enc_ok rows id flags info) msg = Ret (ok_message rows id flags msg).
Proof.
  intros Hr Hi Hf Hinfo. pose proof (enc_lenenc_len rows). pose proof (enc_lenenc_len id).
  unfold parseServerPacket, enc_ok. cbn [app]. change (beq ResponseOK 10) with false. cbn [andb].
  rewrite decide_True by auto. unfold parseOK.
  set (p := ResponseOK :: enc_lenenc rows ++ enc_lenenc id ++ le_bytes 2 flags ++ info).
  assert (Hp : len p = 1 + len (enc_lenenc rows) + len (enc_lenenc id) + 2 + len info)
    by (unfold p; len_simpl; lia).
  destruct (Z.ltb_spec (len p) 7); [lia|].
  assert (readLenEncInt p 1 = Ret (rows, 1 + len (enc_lenenc rows))) as ->.
  { apply (readLenEncInt_enc [ResponseOK] rows (enc_lenenc id ++ le_bytes 2 flags ++ info)). done. }
  cbn [mbind go_bind].
  assert (readLenEncInt p (1 + len (enc_lenenc rows))
    = Ret (id, 1 + len (enc_lenenc rows) + len (enc_lenenc id))) as ->.
  { pose proof (readLenEncInt_enc ([ResponseOK] ++ enc_lenenc rows) id (le_bytes 2 flags ++ info) Hi) as He.
    rewrite len_app, <-app_assoc in He. exact He. }
  cbn [mbind go_bind]. rewrite Hp.
  destruct (Z.ltb_spec (1 + len (enc_lenenc rows) + len (enc_lenenc id) + 1)
    (1 + len (enc_lenenc rows) + len (enc_lenenc id) + 2 + len info)); [|lia].
  unfold le_at.
  assert (sub p (1 + len (enc_lenenc rows) + len (enc_lenenc id))
    (1 + len (enc_lenenc rows) + len (enc_lenenc id) + 2) = Ret (le_bytes 2 flags)) as ->.
  { unfold p. change (ResponseOK :: ?x) with ([ResponseOK] ++ x). rewrite !app_assoc, <-(app_assoc _ (le_bytes 2 flags)).
    apply sub_mid; len_simpl; lia. }
  cbn [mbind go_bind]. rewrite (le_uint_bytes 2) by lia. done.
Qed.

Definition enc_err (code : Z) (state text : list byte) : list byte :=
  [ResponseERR] ++ le_bytes 2 code ++ [Byte.x23] ++ state ++ text.

Definition err_message (code : Z) (state text : list byte) (msg : MySQLMessage) : MySQLMessage :=
  set_Summary (gs "ERROR " ++ Itoa code ++ gs " (" ++ state ++ gs "): " ++ text)
    (set_ErrorMsg text (set_SQLState state (set_ErrorCode code (set_Type (gs "error") msg)))).

Lemma parseERR_enc code state text msg :
  0 ≤ code < 2 ^ 16 → len state = 5 →
  parseServerPacket (enc_err code state text) msg = Ret (err_message code state text msg).
Proof.
  intros Hc Hs. pose proof (len_nonneg text).
  unfold parseServerPacket, enc_err. cbn [app]. change (beq ResponseERR 10) with false. cbn [andb].
  rewrite decide_False by (intros [?|?]; done). rewrite decide_True by done. unfold parseERR.
  set (p := ResponseERR :: le_bytes 2 code ++ Byte.x23 :: state ++ text).
  assert (Hp : len p = 9 + len text) by (unfold p; len_simpl; lia).
  rewrite Hp. destruct (Z.leb_spec 3 (9 + len text)), (Z.ltb_spec 3 (9 + len text)); try lia.
  unfold le_at.
  assert (sub p 1 (1 + 2) = Ret (le_bytes 2 code)) as ->.
  { apply (sub_mid [ResponseERR] (le_bytes 2 code)); len_simpl; lia. }
  cbn [mbind go_bind]. rewrite (le_uint_bytes 2) by lia. cbn [mbind go_bind].
  change (index p 3) with (Ret Byte.x23). cbn [mbind go_bind]. byte_cases.
  assert (sub p 4 9 = Ret state) as ->.
  { apply (sub_mid (ResponseERR :: le_bytes 2 code ++ [Byte.x23]) state text); len_simpl; lia. }
  assert (sub p 9 (9 + len text) = Ret text) as ->.
  { unfold p. rewrite <-(app_nil_r text) at 1.
    pose proof (sub_mid (ResponseERR :: le_bytes 2 code ++ Byte.x23 :: state) text [] 9 (9 + len text)) as Hm.
    rewrite <-Hm by (len_simpl; lia). f_equal. }
  done.
Qed.

(** ** The detector *)

Lemma DetectMySQL_returns data : returns (DetectMySQL data) (λ _, True).
Proof.
  unfold DetectMySQL. destruct (Z.ltb_spec (len data) 4); [by apply returns_Ret|].
  do 3 (eapply returns_bind; [apply returns_index; lia|]; intros ? _).
  pose proof (le24_range a a0 a1). destruct (_ || _); [by apply returns_Ret|].
  unfold uint32. rewrite uint_small by lia. destruct (Z.leb_spec (4 + le24 a a0 a1) (len data)).
  - eapply returns_bind; [apply returns_sub; lia|]. intros p _. destruct p as [|b p]; [by apply returns_Ret|].
    destruct (mysql_marker b); [by apply returns_Ret|].
    eapply returns_bind; [apply readLenEncInt_returns; lia|]. intros [n q] _. by apply returns_Ret.
  - destruct (Z.ltb_spec 4 (len data)); [|by apply returns_Ret].
    eapply returns_bind; [apply returns_index; lia|]. intros. by apply returns_Ret.
Qed.

Lemma DetectMySQL_enc q b body rest : len (b :: body) < 2 ^ 24 →
  DetectMySQL (enc_packet (q, b :: body) ++ rest)
    = if mysql_marker b then Ret true
      else '(n, _) ← readLenEncInt (b :: body) 0; Ret ((0 <? n) && (n <=? 4096)).
Proof.
  intros Hl. assert (0 < len (b :: body)) by (rewrite len_cons; pose proof (len_nonneg body); lia).
  pose proof (len_nonneg rest). set (payload := b :: body) in *. unfold DetectMySQL.
  assert (len (enc_packet (q, payload) ++ rest) = 4 + len payload + len rest) as ->.
  { unfold enc_packet. cbn [fst snd]. len_simpl. lia. }
  destruct (Z.ltb_spec (4 + len payload + len rest) 4); [lia|].
  unfold enc_packet. cbn [fst snd le_bytes app].
  change (index (?a :: ?b :: ?c :: ?l) 0) with (Ret a).
  change (index (?a :: ?b :: ?c :: ?l) 1) with (Ret b).
  change (index (?a :: ?b :: ?c :: ?l) 2) with (Ret c). cbn [mbind go_bind].
  assert (le24 (to_byte (len payload)) (to_byte (len payload / 256)) (to_byte (len payload / 256 / 256))
    = len payload) as ->.
  { rewrite le24_val. apply (le_val_bytes_small 3). lia. }
  destruct (Z.eqb_spec (len payload) 0); [lia|].
  destruct (Z.ltb_spec MaxPayloadLen (len payload)) as [Hm|_]; [unfold MaxPayloadLen in Hm; lia|]. cbn [orb].
  unfold uint32. rewrite uint_small by lia.
  destruct (Z.leb_spec (4 + len payload) (4 + len payload + len rest)); [|lia].
  assert (sub (to_byte (len payload) :: to_byte (len payload / 256) :: to_byte (len payload / 256 / 256)
    :: q :: payload ++ rest) 4 (4 + len payload) = Ret payload) as ->.
  { apply (sub_mid [to_byte (len payload); to_byte (len payload / 256); to_byte (len payload / 256 / 256); q]);
      len_simpl; lia. }
  done.
Qed.

(** The plugin name of a handshake is looked for behind the last NUL, so the
    terminated name that the protocol prescribes is never found. *)
Lemma parseHandshake_plugin payload msg m : 4 < len payload → last payload = Some Byte.x00 →
  AuthPlugin msg = [] → parseHandshake payload msg = Ret m → AuthPlugin m = [].
Proof.
  intros Hl Hlast Hm. unfold parseHandshake.
  destruct (returns_index payload 0) as (b & -> & _); [lia|]. cbn [mbind go_bind].
  destruct (find_null_returns payload (length payload) 1) as (pos & -> & Hpos); [lia|].
  cbn [mbind go_bind]. destruct (returns_sub payload 1 pos) as (v & -> & _); [lia..|]. cbn [mbind go_bind].
  assert (index payload (len payload - 1) = Ret Byte.x00) as Hi.
  { unfold index. rewrite znth_nonneg by lia.
    replace (Z.to_nat (len payload - 1)) with (Nat.pred (length payload)) by (rewrite len_length; lia).
    by rewrite <-last_lookup, Hlast. }
  assert (find_null_back (length payload) payload (pos + 1) (len payload - 1) = Ret (len payload - 1)) as ->.
  { destruct (length payload); [done|]. cbn [find_null_back]. destruct (_ <? _); [|done].
    rewrite Hi. cbn [mbind go_bind]. by byte_cases. }
  cbn [mbind go_bind]. rewrite Z.ltb_irrefl, andb_false_r. destruct (_ <? _); by intros [= <-].
Qed.

Lemma parseOK_plugin payload msg m : parseOK payload msg = Ret m → AuthPlugin m = AuthPlugin msg.
Proof.
  unfold parseOK. destruct (_ <? 7); [by intros [= <-]|].
  intros H. apply go_bind_inv in H as ([rows p1] & _ & H). apply go_bind_inv in H as ([id p2] & _ & H).
  apply go_bind_inv in H as (m1 & H1 & [= <-]). revert H1. destruct (_ <? _); [|by intros [= <-]].
  destruct (le_at _ _ _); [|done]. by intros [= <-].
Qed.

Lemma parseERR_plugin payload msg m : parseERR payload msg = Ret m → AuthPlugin m = AuthPlugin msg.
Proof.
  unfold parseERR. intros HE.
  apply go_bind_inv in HE as (m1 & H1 & HE). apply go_bind_inv in HE as (m2 & H2 & [= <-]).
  assert (AuthPlugin m1 = AuthPlugin msg) as <-.
  { revert H1. destruct (_ <=? _); [|by intros [= <-]]. destruct (le_at _ _ _); [|done]. by intros [= <-]. }
  revert H2. destruct (_ <? _); [|by intros [= <-]]. destruct (index _ _); [|done]. cbn [mbind go_bind].
  destruct (beq _ _).
  - destruct (sub _ 4 9); [|done]. cbn [mbind go_bind]. destruct (sub _ 9 _); [|done]. by intros [= <-].
  - destruct (sub _ _ _); [|done]. by intros [= <-].
Qed.

Lemma parseServerPacket_plugin payload msg m : last payload = Some Byte.x00 → AuthPlugin msg = [] →
  parseServerPacket payload msg = Ret m → AuthPlugin m = [].
Proof.
  intros Hlast Hmsg. destruct payload as [|b body]; [done|]. unfold parseServerPacket.
  destruct (beq b 10 && (4 <? len (b :: body))) eqn:E.
  { zbool. intros HE. by eapply parseHandshake_plugin in HE. }
  case_decide. { by intros ->%parseOK_plugin. }
  case_decide. { by intros ->%parseERR_plugin. }
  case_decide; [tauto|].
  destruct (readLenEncInt (b :: body) 0) as [[n p]|]; [|done]. cbn [mbind go_bind].
  destruct ((0 <? n) && (n <? 10000)); by intros [= <-].
Qed.

(** ** Properties *)

(** Packets written one behind the other are read back one by one, with
    their sequence number and exactly their payload. *)
Theorem packets_roundtrip (ps : list (byte * list byte)) rest (Hok : Forall packet_ok ps) :
  many (length ps) ReadMySQLPacket (concat (map enc_packet ps) ++ rest) = Got (map packet_of ps) rest.
Proof.
  apply many_roundtrip. intros p r Hp. rewrite Forall_forall in Hok. by apply read_packet_enc, Hok.
Qed.

Lemma progress_ReadMySQLMessage dir s : progress 4 (ReadMySQLMessage dir) s.
Proof.
  unfold ReadMySQLMessage. apply progress_then; [apply ReadMySQLPacket_spec|]. intros. progress_steps.
Qed.

(** C19. Reading a message panics exactly on a server's error packet that has
    the state marker [#] and is shorter than the state it announces; no other
    input makes it panic, and every message read consumes its header. *)
Theorem ReadMySQLMessage_panics_iff dir s :
  progress 4 (ReadMySQLMessage dir) s ∧
  (ReadMySQLMessage dir s = Panicked ↔
   ∃ pkt rest, ReadMySQLPacket s = Got pkt rest ∧ dir ≠ client_dir ∧ short_error (Payload pkt)).
Proof.
  split; [apply progress_ReadMySQLMessage|]. rewrite ReadMySQLMessage_eq.
  destruct (ReadMySQLPacket_spec s) as [Hnp _].
  destruct (ReadMySQLPacket s) as [pkt rest|e rest| |]; try done.
  2-3: split; [done|]; by intros (? & ? & ? & _).
  cbv zeta. set (msg := new_message _). destruct (str_eqb_spec dir client_dir) as [->|Hd].
  - destruct (parseClientPacket_returns (Payload pkt) msg) as (m & -> & _). simpl.
    split; [done|]. intros (? & ? & _ & ? & _). done.
  - destruct (decide (short_error (Payload pkt))) as [Hs|Hs].
    + rewrite parseServerPacket_panics by done. simpl. split; [|done]. intros _. by eexists _, _.
    + destruct (parseServerPacket_returns (Payload pkt) msg Hs) as (m & -> & _); [done|]. simpl.
      split; [done|]. intros (p & r & [= <- <-] & _ & ?). done.
Qed.

(** The length-encoded integer of any 64-bit value is read back wherever
    it stands in a packet; reading never leaves the data and never moves
    backwards. *)
Theorem lenenc_roundtrip pre n rest pos data (Hn : 0 ≤ n < 2 ^ 64) (Hpos : 0 ≤ pos) :
  readLenEncInt (pre ++ enc_lenenc n ++ rest) (len pre) = Ret (n, len pre + len (enc_lenenc n)) ∧
  ∃ v p, readLenEncInt data pos = Ret (v, p) ∧ 0 ≤ v < 2 ^ 64 ∧ pos ≤ p ≤ Z.max pos (len data).
Proof.
  split; [by apply readLenEncInt_enc|].
  destruct (readLenEncInt_returns data pos Hpos) as ([v p] & ? & ?). by exists v, p.
Qed.

(** C18. The results of a server are shown as it sent them: the affected rows,
    the insert id and the status of an OK packet, the code, the state and the
    text of an error packet. *)
Theorem server_results_roundtrip q rows id flags info code state text rest
  (Hrows : 0 ≤ rows < 2 ^ 64) (Hid : 0 ≤ id < 2 ^ 64) (Hflags : 0 ≤ flags < 2 ^ 16)
  (Hinfo : 2 ≤ len info < 2 ^ 20) (Hcode : 0 ≤ code < 2 ^ 16) (Hstate : len state = 5)
  (Htext : len text < 2 ^ 20) :
  let zero payload := new_message (mkPacket (len payload) q payload (gs "S->C")) in
  let ok := enc_ok rows id flags info in
  let err := enc_err code state text in
  ReadMySQLMessage (gs "S->C") (enc_packet (q, ok) ++ rest) = Got (ok_message rows id flags (zero ok)) rest ∧
  ReadMySQLMessage (gs "S->C") (enc_packet (q, err) ++ rest) = Got (err_message code state text (zero err)) rest.
Proof.
  intros zero ok err. pose proof (enc_lenenc_len rows). pose proof (enc_lenenc_len id).
  rewrite !ReadMySQLMessage_eq, !read_packet_enc.
  - cbn [packet_of Length SequenceID Payload fst snd]. change (str_eqb (gs "S->C") client_dir) with false.
    cbv iota zeta. unfold ok, err. rewrite parseOK_enc, parseERR_enc by (done || lia). done.
  - unfold packet_ok, err, enc_err. cbn [snd]. len_simpl. lia.
  - unfold packet_ok, ok, enc_ok. cbn [snd]. len_simpl. lia.
Qed.

(** No message has the type [eof] that the printer knows, since the OK
    branch takes the marker 0xfe first; and the authentication plugin of a
    handshake that ends in NUL, as the protocol has it, is never shown. *)
Theorem eof_and_plugin_unreachable dir s m rest
  (Hm : ReadMySQLMessage dir s = Got m rest) (Hd : dir ≠ client_dir) :
  Type_ m ≠ gs "eof" ∧
  (∀ pkt r, ReadMySQLPacket s = Got pkt r → last (Payload pkt) = Some Byte.x00 → AuthPlugin m = []).
Proof.
  rewrite ReadMySQLMessage_eq in Hm. destruct (ReadMySQLPacket s) as [pkt r| | |]; try done.
  cbv zeta in Hm. set (msg := new_message _) in Hm. destruct (str_eqb_spec dir client_dir); [done|].
  destruct (parseServerPacket (Payload pkt) msg) as [m'|] eqn:E; [|done]. injection Hm as -> ->.
  split.
  - destruct (decide (short_error (Payload pkt))) as [Hs|Hs].
    { by rewrite parseServerPacket_panics in E. }
    pose proof (returns_inv _ _ _ (parseServerPacket_returns _ msg Hs eq_refl) E) as Ht.
    cbv beta in Ht. intros Heq. rewrite Heq in Ht. unfold server_types in Ht.
    repeat (apply elem_of_cons in Ht as [Ht|Ht]; [by vm_compute in Ht|]). by apply elem_of_nil in Ht.
  - intros pkt' r' [= <- <-] Hlast. by eapply (parseServerPacket_plugin (Payload pkt) msg).
Qed.

(** The detector never panics, and takes every whole packet that starts a
    client command or a server's answer. *)
Theorem DetectMySQL_total data q b body rest (Hl : len (b :: body) < 2 ^ 24)
  (Hb : 1 ≤ bz b ≤ 31 ∨ b ∈ [ResponseOK; ResponseERR; ResponseEOF]) :
  DetectMySQL data ≠ Panic ∧ DetectMySQL (enc_packet (q, b :: body) ++ rest) = Ret true.
Proof.
  split; [apply returns_True, DetectMySQL_returns|]. rewrite DetectMySQL_enc by done.
  assert (mysql_marker b = true) as ->; [|done]. unfold mysql_marker.
  destruct Hb as [Hb|Hb].
  - destruct (Z.leb_spec 1 (bz b)), (Z.leb_spec (bz b) 31); try lia.
  - repeat (apply elem_of_cons in Hb as [->|Hb]; [done|]). by apply elem_of_nil in Hb.
Qed.

(** ** The properties at work *)

Lemma packets_roundtrip_witness :
  many 2 ReadMySQLPacket (concat (map enc_packet [(Byte.x00, gs "abc"); (Byte.x01, [])]) ++ gs "zz")
    = Got [mkPacket 3 Byte.x00 (gs "abc") []; mkPacket 0 Byte.x01 [] []] (gs "zz").
Proof.
  apply (packets_roundtrip [(Byte.x00, gs "abc"); (Byte.x01, [])] (gs "zz")).
  repeat constructor; unfold packet_ok; vm_compute; congruence.
Defined.

Lemma lenenc_roundtrip_witness :
  readLenEncInt (gs "ab" ++ enc_lenenc 70000 ++ gs "z") (len (gs "ab")) = Ret (70000, 6).
Proof. apply (lenenc_roundtrip (gs "ab") 70000 (gs "z") 0 []); lia. Defined.

Lemma server_results_roundtrip_witness :
  ∃ m, ReadMySQLMessage (gs "S->C") (enc_packet (Byte.x01, enc_err 1064 (gs "42000") (gs "syntax"))) = Got m []
    ∧ SQLState m = gs "42000".
Proof.
  eexists. split.
  - rewrite <-(app_nil_r (enc_packet _)).
    refine (proj2 (server_results_roundtrip Byte.x01 1 0 2 (gs "  ") 1064 (gs "42000") (gs "syntax") []
      _ _ _ _ _ _ _)); try lia; vm_compute; split; congruence || reflexivity.
  - reflexivity.
Defined.

Lemma eof_and_plugin_unreachable_witness :
  ∃ m, ReadMySQLMessage (gs "S->C") (enc_packet (Byte.x00, [ResponseEOF; Byte.x00; Byte.x00; Byte.x02; Byte.x00]))
    = Got m [] ∧ Type_ m ≠ gs "eof".
Proof.
  eexists. assert (ReadMySQLMessage (gs "S->C") (enc_packet (Byte.x00, [ResponseEOF; Byte.x00; Byte.x00; Byte.x02; Byte.x00]))
    = Got (set_Summary (gs "OK") (set_Type (gs "ok") (new_message (mkPacket 5 Byte.x00
        [ResponseEOF; Byte.x00; Byte.x00; Byte.x02; Byte.x00] (gs "S->C"))))) []) as E by (vm_compute; reflexivity).
  split; [exact E|]. apply (eof_and_plugin_unreachable _ _ _ _ E). vm_compute. congruence.
Defined.

Lemma DetectMySQL_total_witness :
  DetectMySQL (enc_packet (Byte.x00, ComQuery :: gs "SELECT 1") ++ []) = Ret true.
Proof.
  apply (DetectMySQL_total [] Byte.x00 ComQuery (gs "SELECT 1") []).
  - vm_compute. congruence.
  - left. vm_compute. split; congruence.
Defined.
