(* ===== verification/ZooKeeper.v ===== *)
(** * ZooKeeper (src/zookeeperport)

    Requests and responses of the wire protocol, the detector and the printer. *)

From S2P Require Import Prelude GoBytes GoStrings Window Reader.

Definition TypeNotification : Z := -1.
Definition zkHeaderSize : Z := 12.
Definition MaxZKMessageSize : Z := Z.shiftl 1 20.

Definition opcodeNames : list (Z * list byte) :=
  [(-1, gs "notification"); (1, gs "create"); (2, gs "delete"); (3, gs "exists"); (4, gs "getData");
   (5, gs "setData"); (6, gs "getACL"); (7, gs "setACL"); (8, gs "getChildren"); (9, gs "sync");
   (11, gs "ping"); (12, gs "getChildren2"); (13, gs "check"); (14, gs "multi"); (15, gs "create2");
   (16, gs "reconfig"); (20, gs "removeWatches")].

Definition OpcodeName (t : Z) : list byte :=
  match assoc t opcodeNames with
  | Some name => name
  | None => gs "unknown(" ++ Itoa t ++ gs ")"
  end.

Definition IsValidType (t : Z) : bool :=
  match assoc t opcodeNames with Some _ => true | None => false end.

Record ZKRequest := mkZKRequest {
  req_Length : Z; req_XID : Z; req_Type : Z; req_OpName : list byte; req_Path : list byte;
  req_Summary : list byte; req_Direction : list byte }.

Record ZKResponse := mkZKResponse {
  resp_Length : Z; resp_XID : Z; resp_ZXID : Z; resp_Err : Z; resp_OpName : list byte;
  resp_Summary : list byte; resp_Direction : list byte }.

Inductive ZKMessage := Request (r : ZKRequest) | Response (r : ZKResponse).

Definition DetectZK (data : list byte) : go bool :=
  if len data <? 4 then Ret false
  else
    totalLen ← be_at 4 data 0;
    let totalLen := int32 totalLen in
    if (totalLen <? zkHeaderSize) || (MaxZKMessageSize <? totalLen) then Ret false
    else if (totalLen <? 4) || (len data <? totalLen) then Ret false
    else if len data <? 12 then Ret false
    else typ ← be_at 4 data 8; Ret (IsValidType (int32 typ)).

(** The first string of the body: a length in four bytes and the bytes. *)
Definition extractFirstString (body : list byte) : go (list byte) :=
  if len body <? 4 then Ret []
  else
    strLen ← be_at 4 body 0;
    let strLen := int32 strLen in
    if strLen <? 0 then Ret []
    else
      let start := 4 in
      let e := start + strLen in
      if len body <? e then Ret [] else sub body start e.

Definition parseZKRequest (length xid typ : Z) (opName body direction : list byte) : go ZKRequest :=
  path ← extractFirstString body;
  let summary :=
    match path with
    | [] => opName ++ gs " (xid=" ++ Itoa xid ++ gs ", body=" ++ Itoa (len body) ++ gs " bytes)"
    | _ => opName ++ gs " " ++ path ++ gs " (xid=" ++ Itoa xid ++ gs ")"
    end in
  Ret (mkZKRequest length xid typ opName path summary direction).

Definition response_summary (opName : list byte) (zxid err xid : Z) : list byte :=
  if negb (err =? 0)
  then opName ++ gs " response (zxid=0x" ++ fmt_x zxid ++ gs ", err=" ++ Itoa err ++ gs ", xid=" ++ Itoa xid ++ gs ")"
  else opName ++ gs " response (zxid=0x" ++ fmt_x zxid ++ gs ", xid=" ++ Itoa xid ++ gs ")".

Definition parseZKResponse (length xid typ : Z) (opName body direction : list byte) : go ZKResponse :=
  '(zxid, err) ← (if 12 <=? len body then
                    z ← be_at 8 body 0; e ← be_at 4 body 8; Ret (int64 z, int32 e)
                  else Ret (0, 0));
  Ret (mkZKResponse length xid zxid err opName (response_summary opName zxid err xid) direction).

Definition ReadZKMessage (direction : list byte) : parser ZKMessage :=
  header ← read_n zkHeaderSize;
  totalLen ← lift (be_at 4 header 0); xid ← lift (be_at 4 header 4); typ ← lift (be_at 4 header 8);
  let totalLen := int32 totalLen in
  let xid := int32 xid in
  let typ := int32 typ in
  if (totalLen <? zkHeaderSize) || (MaxZKMessageSize <? totalLen) then
    throw (ErrText (gs "invalid ZK message length: " ++ Itoa totalLen))
  else
    let bodyLen := int32 (totalLen - zkHeaderSize) in
    body ← read_n bodyLen;
    let opName := OpcodeName typ in
    if str_eqb direction (gs "C->S")
    then r ← lift (parseZKRequest totalLen xid typ opName body direction); mret (Request r)
    else r ← lift (parseZKResponse totalLen xid typ opName body direction); mret (Response r).

(** ** The printer (src/zookeeperport/printer.go) *)

Definition FormatZKRequest (req : ZKRequest) : list byte :=
  gs "  " ++ req_Summary req ++ [newline]
  ++ (if str_eqb (req_Path req) [] then [] else gs "  Path: " ++ req_Path req ++ [newline])
  ++ gs "  XID: " ++ Itoa (req_XID req) ++ gs "  Type: " ++ req_OpName req ++ [newline].

Definition FormatZKResponse (resp : ZKResponse) : list byte :=
  gs "  " ++ resp_Summary resp ++ [newline]
  ++ (if negb (resp_Err resp =? 0) then gs "  Error: " ++ Itoa (resp_Err resp) ++ [newline] else [])
  ++ gs "  XID: " ++ Itoa (resp_XID resp) ++ gs "  ZXID: 0x" ++ fmt_x (resp_ZXID resp)
  ++ gs "  Type: " ++ resp_OpName resp ++ [newline].

Definition FormatZKURL (req : ZKRequest) : list byte :=
  if str_eqb (req_Path req) [] then req_OpName req ++ [newline]
  else req_OpName req ++ gs " " ++ req_Path req ++ [newline].

(** ** No panics *)

Lemma extractFirstString_returns body : returns (extractFirstString body) (λ p, len p ≤ len body).
Proof.
  unfold extractFirstString. pose proof (len_nonneg body).
  destruct (Z.ltb_spec (len body) 4); [apply returns_Ret; len_lia|].
  eapply returns_bind; [apply returns_be_at; lia|]. intros v _.
  destruct (Z.ltb_spec (int32 v) 0); [apply returns_Ret; len_lia|].
  destruct (Z.ltb_spec (len body) (4 + int32 v)); [apply returns_Ret; len_lia|].
  eapply returns_mono; [apply returns_sub; lia|]. cbv beta. intros p [_ ?]. lia.
Qed.

Lemma parseZKRequest_returns l x t o body d : returns (parseZKRequest l x t o body d) (λ _, True).
Proof.
  unfold parseZKRequest. eapply returns_bind; [apply extractFirstString_returns|].
  intros. by apply returns_Ret.
Qed.

Lemma parseZKResponse_returns l x t o body d : returns (parseZKResponse l x t o body d) (λ _, True).
Proof.
  unfold parseZKResponse. apply returns_bind with (P := λ _, True); [|intros [??] _; by apply returns_Ret].
  destruct (Z.leb_spec 12 (len body)); [|by apply returns_Ret].
  eapply returns_bind; [apply returns_be_at; lia|]. intros z _.
  eapply returns_bind; [apply returns_be_at; lia|]. intros e _. by apply returns_Ret.
Qed.

(** What [ReadZKMessage] does behind the header. *)
Definition read_body (direction : list byte) (totalLen xid typ : Z) : parser ZKMessage :=
  if (totalLen <? zkHeaderSize) || (MaxZKMessageSize <? totalLen) then
    throw (ErrText (gs "invalid ZK message length: " ++ Itoa totalLen))
  else
    let bodyLen := int32 (totalLen - zkHeaderSize) in
    body ← read_n bodyLen;
    let opName := OpcodeName typ in
    if str_eqb direction (gs "C->S")
    then r ← lift (parseZKRequest totalLen xid typ opName body direction); mret (Request r)
    else r ← lift (parseZKResponse totalLen xid typ opName body direction); mret (Response r).

Lemma be_at_header (h : list byte) a rest : len h = 12 → 0 ≤ a → a + 4 ≤ 12 →
  be_at 4 (h ++ rest) a = be_at 4 h a.
Proof.
  intros Hh Ha Ha4. pose proof (len_nonneg rest). rewrite !be_at_Ret by (len_simpl; lia).
  rewrite zdrop_app_le by lia. by rewrite ztake_app_le by (len_simpl; lia).
Qed.

Lemma ReadZKMessage_header direction s : 12 ≤ len s → ∃ t x y,
  be_at 4 s 0 = Ret t ∧ be_at 4 s 4 = Ret x ∧ be_at 4 s 8 = Ret y ∧
  ReadZKMessage direction s = read_body direction (int32 t) (int32 x) (int32 y) (zdrop 12 s).
Proof.
  intros Hl. destruct (read_n_cases 12 s) as [(h & r & Hh & -> & Hhl)|(e & _ & ? & _)]; [unfold max_alloc; lia| |lia].
  destruct (returns_be_at 4 h 0) as (t & Ht & _); [lia..|].
  destruct (returns_be_at 4 h 4) as (x & Hx & _); [lia..|].
  destruct (returns_be_at 4 h 8) as (y & Hy & _); [lia..|].
  exists t, x, y. rewrite !be_at_header by lia. split_and!; [done..|].
  unfold ReadZKMessage. erewrite bind_Got by exact Hh.
  erewrite bind_Got by (unfold lift; by rewrite Ht). erewrite bind_Got by (unfold lift; by rewrite Hx).
  erewrite bind_Got by (unfold lift; by rewrite Hy). by rewrite zdrop_app_eq by lia.
Qed.

Lemma read_body_cases direction t x y s :
  (∃ e, read_body direction t x y s = Fail e s ∧ (t < 12 ∨ 2 ^ 20 < t)) ∨
  (12 ≤ t ≤ 2 ^ 20 ∧
   ((∃ e, read_body direction t x y s = Fail e [] ∧ len s < t - 12) ∨
    ∃ m, read_body direction t x y s = Got m (zdrop (t - 12) s) ∧ t - 12 ≤ len s)).
Proof.
  unfold read_body. change zkHeaderSize with 12. change MaxZKMessageSize with (2 ^ 20).
  destruct (Z.ltb_spec t 12); [left; eexists; split; [reflexivity|lia]|].
  destruct (Z.ltb_spec (2 ^ 20) t); [left; eexists; split; [reflexivity|lia]|]. right. split; [lia|].
  cbn [orb]. unfold int32. rewrite sint_small by lia.
  destruct (read_n_cases (t - 12) s) as [(b & r & Hb & -> & Hl)|(e & He & ? & _)]; [unfold max_alloc; lia| |].
  - right. rewrite zdrop_app_eq by done.
    destruct (parseZKRequest_returns t x y (OpcodeName y) b direction) as (q & Hq & _).
    destruct (parseZKResponse_returns t x y (OpcodeName y) b direction) as (p & Hp & _).
    pose proof (len_nonneg r). exists (if str_eqb direction (gs "C->S") then Request q else Response p).
    split; [|len_simpl; lia]. erewrite bind_Got by exact Hb.
    destruct (str_eqb direction (gs "C->S")); erewrite bind_Got by (unfold lift; by rewrite ?Hq, ?Hp); done.
  - left. exists e. split; [|done]. unfold mbind, parser_bind. by rewrite He.
Qed.

Lemma DetectZK_returns data : returns (DetectZK data) (λ _, True).
Proof.
  unfold DetectZK. destruct (Z.ltb_spec (len data) 4); [by apply returns_Ret|].
  eapply returns_bind; [apply returns_be_at; lia|]. intros t _.
  destruct ((int32 t <? zkHeaderSize) || _); [by apply returns_Ret|].
  destruct ((int32 t <? 4) || _); [by apply returns_Ret|].
  destruct (Z.ltb_spec (len data) 12); [by apply returns_Ret|].
  eapply returns_bind; [apply returns_be_at; lia|]. intros. by apply returns_Ret.
Qed.

(** ** Encoding *)

(** A frame in the reader's terms: the length counts itself. *)
Definition enc_zk (xid typ : Z) (body : list byte) : list byte :=
  be_bytes 4 (12 + len body) ++ be_bytes 4 xid ++ be_bytes 4 typ ++ body.

Definition enc_string (path : list byte) : list byte := be_bytes 4 (len path) ++ path.

Lemma read_zk_enc direction xid typ body rest : is_int32 xid → is_int32 typ → len body ≤ 2 ^ 20 - 12 →
  ReadZKMessage direction (enc_zk xid typ body ++ rest)
    = read_body direction (12 + len body) xid typ (body ++ rest).
Proof.
  intros Hx Ht Hb. pose proof (len_nonneg body). pose proof (len_nonneg rest).
  destruct (ReadZKMessage_header direction (enc_zk xid typ body ++ rest)) as (t & x & y & H1 & H2 & H3 & ->).
  { unfold enc_zk. len_simpl. lia. }
  unfold enc_zk in *. rewrite <-!app_assoc in *.
  rewrite (be_at_head 4) in H1 by done. injection H1 as <-.
  rewrite (be_at_mid 4 (be_bytes 4 (12 + len body))) in H2 by done. injection H2 as <-.
  rewrite app_assoc, (be_at_mid 4) in H3 by done. injection H3 as <-.
  rewrite !int32_mod by (try done; unfold is_int32; lia). f_equal.
Qed.

Definition request_of (m : Z * Z * list byte * list byte) : ZKRequest :=
  let '(xid, typ, path, more) := m in
  let l := 12 + len (enc_string path ++ more) in
  mkZKRequest l xid typ (OpcodeName typ) path
    (match path with
     | [] => OpcodeName typ ++ gs " (xid=" ++ Itoa xid ++ gs ", body=" ++ Itoa (l - 12) ++ gs " bytes)"
     | _ => OpcodeName typ ++ gs " " ++ path ++ gs " (xid=" ++ Itoa xid ++ gs ")"
     end) (gs "C->S").
Definition enc_request (m : Z * Z * list byte * list byte) : list byte :=
  let '(xid, typ, path, more) := m in enc_zk xid typ (enc_string path ++ more).
Definition request_ok (m : Z * Z * list byte * list byte) : Prop :=
  let '(xid, typ, path, more) := m in
  is_int32 xid ∧ is_int32 typ ∧ len path + len more ≤ 2 ^ 20 - 16.

Lemma extractFirstString_enc path more : len path < 2 ^ 31 →
  extractFirstString (enc_string path ++ more) = Ret path.
Proof.
  intros Hp. pose proof (len_nonneg path). pose proof (len_nonneg more). unfold extractFirstString, enc_string.
  assert (len ((be_bytes 4 (len path) ++ path) ++ more) = 4 + len path + len more) as -> by (len_simpl; lia).
  destruct (Z.ltb_spec (4 + len path + len more) 4); [lia|]. rewrite <-app_assoc.
  rewrite (be_at_head 4) by done. cbn [mbind go_bind].
  rewrite int32_mod by (unfold is_int32; lia). destruct (Z.ltb_spec (len path) 0); [lia|].
  destruct (Z.ltb_spec (4 + len path + len more) (4 + len path)); [lia|].
  apply sub_mid; len_simpl; lia.
Qed.

Lemma read_n_body body rest n : n = len body → n ≤ 2 ^ 20 → read_n (int32 n) (body ++ rest) = Got body rest.
Proof.
  intros -> Hn. pose proof (len_nonneg body). unfold int32. rewrite sint_small by lia.
  apply read_n_app; [done|unfold max_alloc; lia].
Qed.

Lemma read_request m rest : request_ok m →
  ReadZKMessage (gs "C->S") (enc_request m ++ rest) = Got (Request (request_of m)) rest.
Proof.
  destruct m as [[[xid typ] path] more]. intros (Hx & Ht & Hl).
  pose proof (len_nonneg path). pose proof (len_nonneg more).
  assert (len (enc_string path ++ more) = 4 + len path + len more) as Hb by (unfold enc_string; len_simpl; lia).
  unfold enc_request. rewrite read_zk_enc by (done || lia). unfold read_body, request_of.
  rewrite Hb. change zkHeaderSize with 12. change MaxZKMessageSize with (2 ^ 20).
  destruct (Z.ltb_spec (12 + (4 + len path + len more)) 12); [lia|].
  destruct (Z.ltb_spec (2 ^ 20) (12 + (4 + len path + len more))); [lia|]. cbn [orb].
  erewrite bind_Got by (apply read_n_body; lia). change (str_eqb (gs "C->S") (gs "C->S")) with true. cbv iota.
  unfold parseZKRequest. rewrite extractFirstString_enc by lia. rewrite Hb.
  replace (12 + (4 + len path + len more) - 12) with (4 + len path + len more) by lia. done.
Qed.

Lemma read_response xid typ zxid err more rest :
  is_int32 xid → is_int32 typ → is_int64 zxid → is_int32 err → len more ≤ 2 ^ 20 - 24 →
  ReadZKMessage (gs "S->C") (enc_zk xid typ (be_bytes 8 zxid ++ be_bytes 4 err ++ more) ++ rest)
    = Got (Response (mkZKResponse (24 + len more) xid zxid err (OpcodeName typ)
        (response_summary (OpcodeName typ) zxid err xid) (gs "S->C"))) rest.
Proof.
  intros Hx Ht Hz He Hm. pose proof (len_nonneg more). set (body := be_bytes 8 zxid ++ _).
  assert (len body = 12 + len more) as Hb by (unfold body; len_simpl; lia).
  rewrite read_zk_enc by (done || lia). unfold read_body. rewrite Hb.
  change zkHeaderSize with 12. change MaxZKMessageSize with (2 ^ 20).
  destruct (Z.ltb_spec (12 + (12 + len more)) 12); [lia|].
  destruct (Z.ltb_spec (2 ^ 20) (12 + (12 + len more))); [lia|]. cbn [orb].
  erewrite bind_Got by (apply read_n_body; lia). change (str_eqb (gs "S->C") (gs "C->S")) with false. cbv iota.
  unfold parseZKResponse. rewrite Hb. destruct (Z.leb_spec 12 (12 + len more)); [|lia].
  unfold body. rewrite (be_at_head 8) by done. cbn [mbind go_bind].
  rewrite (be_at_mid 4 (be_bytes 8 zxid)) by done. cbn [mbind go_bind].
  rewrite int64_mod, int32_mod by done.
  replace (12 + (12 + len more)) with (24 + len more) by lia. done.
Qed.

(** ** Properties *)

(** C20. Requests written one behind the other are read back one by one, each
    with its xid, its type and the path at the start of its body. *)
Theorem requests_roundtrip (ms : list (Z * Z * list byte * list byte)) rest (Hok : Forall request_ok ms) :
  many (length ms) (ReadZKMessage (gs "C->S")) (concat (map enc_request ms) ++ rest)
    = Got (map (λ m, Request (request_of m)) ms) rest.
Proof.
  apply many_roundtrip. intros m r Hm. rewrite Forall_forall in Hok. by apply read_request, Hok.
Qed.

(** A response is read back with its xid, transaction id and error code,
    negative ones included. *)
Theorem response_roundtrip xid typ zxid err more rest
  (Hx : is_int32 xid) (Ht : is_int32 typ) (Hz : is_int64 zxid) (He : is_int32 err)
  (Hm : len more ≤ 2 ^ 20 - 24) :
  ReadZKMessage (gs "S->C") (enc_zk xid typ (be_bytes 8 zxid ++ be_bytes 4 err ++ more) ++ rest)
    = Got (Response (mkZKResponse (24 + len more) xid zxid err (OpcodeName typ)
        (response_summary (OpcodeName typ) zxid err xid) (gs "S->C"))) rest.
Proof. by apply read_response. Qed.

Lemma progress_ReadZKMessage direction s : progress 12 (ReadZKMessage direction) s.
Proof.
  unfold ReadZKMessage. apply progress_then; [apply (progress_read_n 12)|]. intros. progress_steps.
Qed.

(** No input makes the reader or the detector panic, and a message read
    consumes at least its header. *)
Theorem zookeeper_total direction s :
  ReadZKMessage direction s ≠ Panicked ∧ progress 12 (ReadZKMessage direction) s ∧ DetectZK s ≠ Panic.
Proof.
  assert (DetectZK s ≠ Panic) as Hd by (apply returns_True, DetectZK_returns).
  pose proof (progress_ReadZKMessage direction s) as Hp. split_and!; try done. clear Hd Hp.
  destruct (Z.le_gt_cases 12 (len s)) as [Hl|Hl].
  - destruct (ReadZKMessage_header direction s Hl) as (t & x & y & _ & _ & _ & ->).
    destruct (read_body_cases direction (int32 t) (int32 x) (int32 y) (zdrop 12 s))
      as [(e & -> & _)|[_ [(e & -> & _)|(m & -> & _)]]]; done.
  - destruct (read_n_cases 12 s) as [(b & r & Hb & -> & ?)|(e & He & _)]; [unfold max_alloc; lia| |].
    { rewrite len_app in Hl. pose proof (len_nonneg r). lia. }
    unfold ReadZKMessage, mbind, parser_bind. change zkHeaderSize with 12. by rewrite He.
Qed.

(** Whatever the detector takes, the reader reads: a message is returned
    for the data, in either direction, and nothing of the data behind it is
    consumed. *)
Theorem DetectZK_reads direction data (Hd : DetectZK data = Ret true) :
  ∃ t m, be_at 4 data 0 = Ret t ∧ 12 ≤ int32 t ≤ len data ∧
    ReadZKMessage direction data = Got m (zdrop (int32 t) data).
Proof.
  unfold DetectZK in Hd. destruct (Z.ltb_spec (len data) 4); [discriminate|].
  destruct (returns_be_at 4 data 0) as (t & Ht & _); [lia..|]. rewrite Ht in Hd. cbn [mbind go_bind] in Hd.
  change zkHeaderSize with 12 in Hd. change MaxZKMessageSize with (2 ^ 20) in Hd.
  destruct (Z.ltb_spec (int32 t) 12); [discriminate|].
  destruct (Z.ltb_spec (2 ^ 20) (int32 t)); [discriminate|]. cbn [orb] in Hd.
  destruct (Z.ltb_spec (int32 t) 4); [lia|]. destruct (Z.ltb_spec (len data) (int32 t)); [discriminate|].
  destruct (ReadZKMessage_header direction data) as (t' & x & y & Ht' & _ & _ & ->); [lia|].
  rewrite Ht in Ht'. injection Ht' as <-. exists t.
  destruct (read_body_cases direction (int32 t) (int32 x) (int32 y) (zdrop 12 data))
    as [(e & _ & ?)|[_ [(e & _ & Hlt)|(m & -> & _)]]].
  - lia.
  - revert Hlt. len_simpl. lia.
  - exists m. split_and!; [done|lia|lia|]. rewrite zdrop_zdrop by lia. do 2 f_equal. lia.
Qed.

(** On the wire ZooKeeper's length does not count its own four bytes;
    the reader takes it to do so.  It stops four bytes before the end of such
    a frame, and what it leaves is read as the start of the next one. *)
Theorem frame_length_desync direction xid typ body rest
  (Hx : is_int32 xid) (Ht : is_int32 typ) (Hb : 4 ≤ len body ≤ 2 ^ 20 - 8) :
  ∃ m, ReadZKMessage direction
         (be_bytes 4 (8 + len body) ++ be_bytes 4 xid ++ be_bytes 4 typ ++ body ++ rest)
       = Got m (zdrop (len body - 4) body ++ rest).
Proof.
  pose proof (len_nonneg rest). set (s := be_bytes 4 (8 + len body) ++ _).
  destruct (ReadZKMessage_header direction s) as (t & x & y & H1 & _ & _ & ->).
  { unfold s. len_simpl. lia. }
  unfold s in H1. rewrite (be_at_head 4) in H1 by done. injection H1 as <-.
  rewrite int32_mod by (unfold is_int32; lia). change (zdrop 12 s) with (body ++ rest).
  destruct (read_body_cases direction (8 + len body) (int32 x) (int32 y) (body ++ rest))
    as [(e & _ & ?)|[_ [(e & _ & Hlt)|(m & -> & _)]]].
  - lia.
  - rewrite len_app in Hlt. lia.
  - exists m. f_equal. rewrite zdrop_app_le by lia. do 2 f_equal. lia.
Qed.

(** ** The properties at work *)

Lemma requests_roundtrip_witness :
  many 2 (ReadZKMessage (gs "C->S"))
    (concat (map enc_request [(7, 4, gs "/a/b", [Byte.x00]); (-2, 11, [], [])]) ++ gs "z")
  = Got [Request (request_of (7, 4, gs "/a/b", [Byte.x00])); Request (request_of (-2, 11, [], []))] (gs "z").
Proof.
  apply (requests_roundtrip [(7, 4, gs "/a/b", [Byte.x00]); (-2, 11, [], [])] (gs "z")).
  repeat constructor; unfold is_int32; vm_compute; congruence.
Defined.

Lemma response_roundtrip_witness :
  ReadZKMessage (gs "S->C") (enc_zk 7 4 (be_bytes 8 255 ++ be_bytes 4 (-101) ++ []) ++ [])
    = Got (Response (mkZKResponse 24 7 255 (-101) (gs "getData")
        (gs "getData response (zxid=0xff, err=-101, xid=7)") (gs "S->C"))) [].
Proof. apply (response_roundtrip 7 4 255 (-101) [] []); unfold is_int32, is_int64; vm_compute; split || idtac; congruence. Defined.

Lemma DetectZK_reads_witness : ∃ t m,
  be_at 4 (enc_zk 1 11 []) 0 = Ret t ∧ 12 ≤ int32 t ≤ len (enc_zk 1 11 []) ∧
  ReadZKMessage (gs "C->S") (enc_zk 1 11 []) = Got m (zdrop (int32 t) (enc_zk 1 11 [])).
Proof. apply DetectZK_reads. vm_compute. reflexivity. Defined.

Lemma frame_length_desync_witness : ∃ m,
  ReadZKMessage (gs "C->S") (be_bytes 4 16 ++ be_bytes 4 1 ++ be_bytes 4 3 ++ (be_bytes 4 4 ++ gs "/abc") ++ [])
    = Got m (gs "/abc").
Proof.
  apply (frame_length_desync (gs "C->S") 1 3 (be_bytes 4 4 ++ gs "/abc") []);
    unfold is_int32; vm_compute; split; congruence.
Defined.
