(* ===== verification/WebSocket.v ===== *)
(** * WebSocket (src/websocketport)

    The frame reader with its masking, the detector and the printer. *)

From S2P Require Import Prelude GoBytes GoStrings Unicode Window Reader.

Definition OpContinuation : Z := 0.
Definition OpText : Z := 1.
Definition OpBinary : Z := 2.
Definition OpClose : Z := 8.
Definition OpPing : Z := 9.
Definition OpPong : Z := 10.

Definition OpcodeName (op : Z) : list byte :=
  if op =? OpContinuation then gs "Continuation"
  else if op =? OpText then gs "Text"
  else if op =? OpBinary then gs "Binary"
  else if op =? OpClose then gs "Close"
  else if op =? OpPing then gs "Ping"
  else if op =? OpPong then gs "Pong"
  else gs "Unknown(0x" ++ fmt_x op ++ gs ")".

Record WebSocketMessage := mkWSMessage {
  OpCode : Z; OpName : list byte; PayloadLen : Z; Payload : list byte;
  IsText : bool; IsBinary : bool; IsControl : bool; ws_FIN : bool;
  Direction : list byte; Summary : list byte }.

Section websocket.
Context `{UnicodeTables}.

(** [opcode := b0 & 0x0F]; the length in [b1] is not looked at. *)
Definition isValidWebSocketFrameStart (b0 b1 : byte) : bool :=
  let opcode := Z.land (bz b0) 15 in
  bool_decide (opcode ∈ [OpContinuation; OpText; OpBinary; OpClose; OpPing; OpPong]).

Definition DetectWebSocket (data : list byte) : bool :=
  match data with
  | [] => false
  | b0 :: tl =>
      let lower := ToLower data in
      if Contains data crlf
         && ((Contains lower (gs "upgrade:") && Contains lower (gs "websocket"))
             || (Contains lower (gs "101") && Contains lower (gs "switching")))
      then true
      else match tl with b1 :: _ => isValidWebSocketFrameStart b0 b1 | [] => false end
  end.

(** [for i := range payload { payload[i] ^= maskKey[i%4] }] *)
Definition unmask (maskKey payload : list byte) : list byte :=
  imap (λ i b, to_byte (Z.lxor (bz b) (bz (nth (i mod 4) maskKey Byte.x00)))) payload.

(** [opcode > 0xA || (opcode > 2 && opcode < 8)] *)
Definition bad_opcode (opcode : Z) : bool := (10 <? opcode) || ((2 <? opcode) && (opcode <? 8)).

(** The payload length: seven bits, or two or eight bytes that follow. *)
Definition read_length (payloadLen7 : Z) : parser Z :=
  if payloadLen7 =? 126 then
    extLen ← wrap (gs "websocket: failed to read extended length (16-bit): ") (read_n 2);
    v ← lift (be_uint 2 extLen); mret v
  else if payloadLen7 =? 127 then
    extLen ← wrap (gs "websocket: failed to read extended length (64-bit): ") (read_n 8);
    v ← lift (be_uint 8 extLen); mret (int64 v)
  else mret payloadLen7.

Definition truncate200 (q : list byte) : list byte :=
  if 200 <? len q then ztake 200 q ++ gs "..." else q.

(** The message of a frame: the switch on the opcode. *)
Definition frame_message (opcode : Z) (fin : bool) (payloadLen : Z) (payload direction : list byte)
  : go WebSocketMessage :=
  let opName := OpcodeName opcode in
  let msg pl text bin summary :=
    mkWSMessage opcode opName payloadLen pl text bin (8 <=? opcode) fin direction summary in
  let bytes := gs " frame: " ++ Itoa payloadLen ++ gs " bytes" in
  if opcode =? OpText then
    let pl := truncate200 payload in
    Ret (msg pl true false (opName ++ gs " frame: " ++ Quote pl))
  else if opcode =? OpBinary then Ret (msg [] false true (opName ++ bytes))
  else if opcode =? OpClose then
    if 2 <=? len payload then
      code ← be_at 2 payload 0;
      let reason := zdrop 2 payload in
      let pl := gs "code=" ++ Itoa code ++
        (if str_eqb reason [] then [] else gs " reason=" ++ Quote reason) in
      Ret (msg pl false false (opName ++ gs " frame: code=" ++ Itoa code ++ gs " " ++ reason))
    else Ret (msg [] false false (opName ++ gs " frame"))
  else if opcode =? OpPing then Ret (msg [] false false (opName ++ bytes))
  else if opcode =? OpPong then Ret (msg [] false false (opName ++ bytes))
  else if opcode =? OpContinuation then
    Ret (msg [] false false (opName ++ bytes ++ gs " (FIN=" ++ fmt_bool fin ++ gs ")"))
  else Ret (msg [] false false (opName ++ bytes)).

Definition ReadWebSocketMessage (direction : list byte) : parser WebSocketMessage :=
  header ← wrap (gs "websocket: failed to read header: ") (read_n 2);
  b0 ← lift (index header 0); b1 ← lift (index header 1);
  let fin := negb (Z.land (bz b0) 128 =? 0) in
  let opcode := Z.land (bz b0) 15 in
  let masked := negb (Z.land (bz b1) 128 =? 0) in
  let payloadLen7 := Z.land (bz b1) 127 in
  if bad_opcode opcode then throw (ErrText (gs "websocket: invalid opcode 0x" ++ fmt_x opcode))
  else
    payloadLen ← read_length payloadLen7;
    maskKey ← (if masked then wrap (gs "websocket: failed to read mask key: ") (read_n 4)
               else mret [Byte.x00; Byte.x00; Byte.x00; Byte.x00]);
    if 65536 <? payloadLen then
      throw (ErrText (gs "websocket: payload too large: " ++ Itoa payloadLen ++ gs " bytes"))
    else
      payload ← wrap (gs "websocket: failed to read payload: ") (read_n payloadLen);
      let payload := if masked then unmask maskKey payload else payload in
      lift (frame_message opcode fin payloadLen payload direction).

(** ** The printer (src/websocketport/printer.go) *)

Definition FormatWebSocketMessage (msg : WebSocketMessage) : list byte :=
  let arrow := if str_eqb (Direction msg) (gs "S→C") || str_eqb (Direction msg) (gs "response")
               then gs "←" else gs "→" in
  gs "  WS " ++ arrow ++ gs " " ++ OpName msg ++ (if ws_FIN msg then gs " [FIN]" else [])
  ++ (if IsText msg then gs " " ++ Quote (Payload msg)
      else if IsBinary msg then gs " (" ++ Itoa (PayloadLen msg) ++ gs " bytes)"
      else if OpCode msg =? OpClose then gs " " ++ Payload msg
      else gs " (" ++ Itoa (PayloadLen msg) ++ gs " bytes)")
  ++ [newline].

Definition FormatWebSocketURL (msg : WebSocketMessage) : list byte :=
  gs "WS " ++ Summary msg ++ [newline].
End websocket.

(** ** Masking *)

Lemma lxor_byte a b : 0 ≤ Z.lxor (bz a) (bz b) < 256.
Proof.
  pose proof (bz_range a). pose proof (bz_range b).
  assert (0 ≤ Z.lxor (bz a) (bz b)) by (apply Z.lxor_nonneg; lia). split; [done|].
  destruct (Z.eq_dec (Z.lxor (bz a) (bz b)) 0) as [->|]; [lia|].
  apply (Z.log2_lt_pow2 _ 8); [lia|]. pose proof (Z.log2_lxor (bz a) (bz b) ltac:(lia) ltac:(lia)).
  assert (∀ x, 0 ≤ x < 256 → Z.log2 x < 8) as Hlog.
  { intros x Hx. destruct (Z.eq_dec x 0) as [->|]; [done|]. apply Z.log2_lt_pow2; lia. }
  pose proof (Hlog (bz a) ltac:(lia)). pose proof (Hlog (bz b) ltac:(lia)). lia.
Qed.

Lemma len_unmask key p : len (unmask key p) = len p.
Proof. unfold unmask. by rewrite !len_length, length_imap. Qed.

Lemma unmask_unmask key p : unmask key (unmask key p) = p.
Proof.
  apply list_eq. intros i. unfold unmask. rewrite !list_lookup_imap.
  destruct (p !! i) as [b|]; [|done]. simpl. f_equal. set (k := nth _ _ _).
  rewrite bz_to_byte_small by apply lxor_byte.
  by rewrite Z.lxor_assoc, Z.lxor_nilpotent, Z.lxor_0_r, to_byte_bz.
Qed.

(** ** The two bytes of the header *)

Lemma land_low7 x : 0 ≤ x < 128 →
  Z.land x 128 = 0 ∧ Z.land (128 + x) 128 = 128 ∧ Z.land x 127 = x ∧ Z.land (128 + x) 127 = x.
Proof.
  intros Hx. assert (forallb (λ n, let x := Z.of_nat n in
    (Z.land x 128 =? 0) && (Z.land (128 + x) 128 =? 128) && (Z.land x 127 =? x)
    && (Z.land (128 + x) 127 =? x)) (seq 0 128) = true) as H by (vm_compute; reflexivity).
  rewrite forallb_forall in H. specialize (H (Z.to_nat x)). rewrite Z2Nat.id in H by lia.
  assert (In (Z.to_nat x) (seq 0 128)) as Hin by (apply in_seq; lia). specialize (H Hin). cbv zeta in H.
  zbool. done.
Qed.

(** A frame: final or not, opcode, the client's key, the payload. *)
Record frame := mkFrame { f_fin : bool; f_op : Z; f_key : option (list byte); f_payload : list byte }.

Definition len_field (n : Z) : Z * list byte :=
  if n <? 126 then (n, []) else if n <? 65536 then (126, be_bytes 2 n) else (127, be_bytes 8 n).

Definition enc_frame (f : frame) : list byte :=
  let '(len7, ext) := len_field (len (f_payload f)) in
  to_byte ((if f_fin f then 128 else 0) + f_op f)
  :: to_byte ((if f_key f then 128 else 0) + len7)
  :: ext ++ (match f_key f with
             | Some key => key ++ unmask key (f_payload f)
             | None => f_payload f
             end).

Definition opcodes : list Z := [OpContinuation; OpText; OpBinary; OpClose; OpPing; OpPong].

Definition frame_ok (f : frame) : Prop :=
  f_op f ∈ opcodes ∧ len (f_payload f) ≤ 65536 ∧
  match f_key f with Some key => len key = 4 | None => True end.

Section frames.
Context `{UnicodeTables}.

(** What is read behind the header. *)
Definition read_frame_rest (b0 b1 : byte) (direction : list byte) : parser WebSocketMessage :=
  let fin := negb (Z.land (bz b0) 128 =? 0) in
  let opcode := Z.land (bz b0) 15 in
  let masked := negb (Z.land (bz b1) 128 =? 0) in
  let payloadLen7 := Z.land (bz b1) 127 in
  if bad_opcode opcode then throw (ErrText (gs "websocket: invalid opcode 0x" ++ fmt_x opcode))
  else
    payloadLen ← read_length payloadLen7;
    maskKey ← (if masked then wrap (gs "websocket: failed to read mask key: ") (read_n 4)
               else mret [Byte.x00; Byte.x00; Byte.x00; Byte.x00]);
    if 65536 <? payloadLen then
      throw (ErrText (gs "websocket: payload too large: " ++ Itoa payloadLen ++ gs " bytes"))
    else
      payload ← wrap (gs "websocket: failed to read payload: ") (read_n payloadLen);
      let payload := if masked then unmask maskKey payload else payload in
      lift (frame_message opcode fin payloadLen payload direction).

Lemma read_frame_header b0 b1 s direction :
  ReadWebSocketMessage direction (b0 :: b1 :: s) = read_frame_rest b0 b1 direction s.
Proof.
  unfold ReadWebSocketMessage. change (b0 :: b1 :: s) with ([b0; b1] ++ s).
  erewrite bind_Got by (apply wrap_Got, read_n_app; [done|vm_compute; congruence]). done.
Qed.

Lemma read_short s direction : len s < 2 → ∃ e, ReadWebSocketMessage direction s = Fail e [].
Proof.
  intros Hl. destruct (read_n_cases 2 s) as [(b & r & _ & -> & ?)|(e & He & _)]; [unfold max_alloc; lia| |].
  { rewrite len_app in Hl. pose proof (len_nonneg r). lia. }
  eexists. unfold ReadWebSocketMessage, mbind, parser_bind, wrap. by rewrite He.
Qed.

Lemma frame_message_returns op fin n p dir :
  returns (frame_message op fin n p dir) (λ m, OpCode m = op ∧ PayloadLen m = n ∧ ws_FIN m = fin
    ∧ IsText m = (op =? OpText) ∧ IsBinary m = (op =? OpBinary) ∧ IsControl m = (8 <=? op) ∧ Direction m = dir).
Proof.
  unfold frame_message.
  destruct (Z.eqb_spec op OpText) as [->|]; [by apply returns_Ret|].
  destruct (Z.eqb_spec op OpBinary) as [->|]; [by apply returns_Ret|].
  destruct (Z.eqb_spec op OpClose) as [->|].
  { destruct (Z.leb_spec 2 (len p)); [|by apply returns_Ret].
    eapply returns_bind; [apply returns_be_at; lia|]. intros code _. by apply returns_Ret. }
  repeat destruct (op =? _); by apply returns_Ret.
Qed.

(** ** Frames of both sides *)

Lemma opcode_byte fin op : op ∈ opcodes →
  let b := to_byte ((if fin : bool then 128 else 0) + op) in
  Z.land (bz b) 15 = op ∧ negb (Z.land (bz b) 128 =? 0) = fin ∧ bad_opcode op = false.
Proof.
  intros Hop. unfold opcodes in Hop.
  repeat (apply elem_of_cons in Hop as [->|Hop]; [by destruct fin|]). by apply elem_of_nil in Hop.
Qed.

Lemma length_byte (masked : bool) x : 0 ≤ x < 128 →
  let b := to_byte ((if masked then 128 else 0) + x) in
  Z.land (bz b) 127 = x ∧ negb (Z.land (bz b) 128 =? 0) = masked.
Proof.
  intros Hx. destruct (land_low7 x Hx) as (H1 & H2 & H3 & H4). cbv zeta.
  rewrite bz_to_byte_small by (destruct masked; lia). destruct masked.
  - by rewrite H4, H2.
  - by rewrite Z.add_0_l, H3, H1.
Qed.

Lemma read_length_enc n rest : 0 ≤ n ≤ 65536 → let '(len7, ext) := len_field n in
  0 ≤ len7 < 128 ∧ read_length len7 (ext ++ rest) = Got n rest.
Proof.
  intros Hn. unfold len_field, read_length.
  assert (∀ k, 0 ≤ n < 256 ^ Z.of_nat k → be_uint (Z.of_nat k) (be_bytes k n) = Ret n) as Hbe.
  { intros k Hk. unfold be_uint. rewrite len_be_bytes, Z.leb_refl, ztake_ge by (rewrite len_be_bytes; lia).
    by rewrite be_val_bytes_small. }
  destruct (Z.ltb_spec n 126).
  { destruct (Z.eqb_spec n 126), (Z.eqb_spec n 127); try lia. split; [lia|done]. }
  destruct (Z.ltb_spec n 65536).
  { split; [lia|]. change (126 =? 126) with true. cbv iota.
    erewrite bind_Got by (apply wrap_Got, read_n_app; [by rewrite len_be_bytes|unfold max_alloc; lia]).
    unfold lift, mbind, parser_bind. assert (be_uint 2 (be_bytes 2 n) = Ret n) as -> by (apply (Hbe 2%nat); lia). done. }
  split; [lia|]. change (127 =? 126) with false. change (127 =? 127) with true. cbv iota.
  erewrite bind_Got by (apply wrap_Got, read_n_app; [by rewrite len_be_bytes|unfold max_alloc; lia]).
  unfold lift, mbind, parser_bind. assert (be_uint 8 (be_bytes 8 n) = Ret n) as -> by (apply (Hbe 8%nat); lia). unfold mret, parser_ret.
  f_equal. unfold int64. apply sint_small; lia.
Qed.

Lemma read_frame_enc f rest direction : frame_ok f →
  ReadWebSocketMessage direction (enc_frame f ++ rest)
    = lift (frame_message (f_op f) (f_fin f) (len (f_payload f)) (f_payload f) direction) rest.
Proof.
  destruct f as [fin op key payload]. intros (Hop & Hl & Hk). unfold enc_frame. cbn [f_fin f_op f_key f_payload] in *.
  pose proof (len_nonneg payload) as H0.
  pose proof (λ r, read_length_enc (len payload) r ltac:(lia)) as Hlen.
  destruct (len_field (len payload)) as [len7 ext]. destruct (Hlen []) as [H7 _].
  cbn [app]. rewrite read_frame_header. unfold read_frame_rest.
  destruct (opcode_byte fin op Hop) as (-> & -> & ->).
  destruct (length_byte (if key then true else false) len7 H7) as [E7 Em].
  replace (if key then 128 else 0) with (if (if key then true else false) then 128 else 0) by (by destruct key).
  rewrite E7, Em. rewrite <-app_assoc.
  erewrite bind_Got by (apply Hlen). 
  destruct (Z.ltb_spec 65536 (len payload)); [lia|]. destruct key as [key|].
  - rewrite <-app_assoc. erewrite bind_Got by (apply wrap_Got, read_n_app; [done|unfold max_alloc; lia]).
    erewrite bind_Got by (apply wrap_Got, read_n_app; [by rewrite len_unmask|unfold max_alloc; lia]).
    cbv zeta. by rewrite unmask_unmask.
  - erewrite bind_Got by reflexivity.
    erewrite bind_Got by (apply wrap_Got, read_n_app; [done|unfold max_alloc; lia]). done.
Qed.
End frames.

(** ** Where a frame can panic *)

Lemma be_uint_exact n s : len s = n → be_uint n s = Ret (be_val s).
Proof. intros <-. unfold be_uint. rewrite Z.leb_refl, ztake_ge by lia. done. Qed.

Lemma int64_neg v : 0 ≤ v < 2 ^ 64 → int64 v < 0 ↔ 2 ^ 63 ≤ v.
Proof.
  intros Hv. unfold int64, sint. destruct (Z.le_gt_cases (2 ^ 63) v).
  - replace (v + 2 ^ (64 - 1)) with (v - 2 ^ 63 + 1 * 2 ^ 64) by lia.
    rewrite Z.mod_add, Z.mod_small by lia. lia.
  - rewrite Z.mod_small by lia. lia.
Qed.

Lemma read_length_127 ext tail : len ext = 8 → read_length 127 (ext ++ tail) = Got (int64 (be_val ext)) tail.
Proof.
  intros Hx. unfold read_length. change (127 =? 126) with false. change (127 =? 127) with true. cbv iota.
  erewrite bind_Got by (apply wrap_Got, read_n_app; [by rewrite Hx|unfold max_alloc; lia]).
  unfold lift, mbind, parser_bind. by rewrite be_uint_exact.
Qed.

(** A length is negative only with eight bytes whose top bit is set. *)
Lemma read_length_cases l7 s : 0 ≤ l7 < 128 →
  (l7 ≠ 127 ∨ len s < 8) ∧ ((∃ e, read_length l7 s = Fail e []) ∨
    ∃ n r, read_length l7 s = Got n r ∧ (length r ≤ length s)%nat ∧ 0 ≤ n) ∨
  (l7 = 127 ∧ ∃ ext tail, s = ext ++ tail ∧ len ext = 8).
Proof.
  intros Hl. destruct (Z.eq_dec l7 127) as [->|H127].
  - destruct (Z.lt_ge_cases (len s) 8) as [Hlt|Hge].
    + left. split; [by right|]. left. destruct (read_n_cases 8 s) as [(b & r & _ & -> & ?)|(e & He & _)];
        [unfold max_alloc; lia|rewrite len_app in Hlt; pose proof (len_nonneg r); lia|].
      eexists. unfold read_length, mbind, parser_bind, wrap. simpl. by rewrite He.
    + right. split; [done|]. exists (ztake 8 s), (zdrop 8 s). rewrite ztake_zdrop. split; [done|len_simpl; lia].
  - left. split; [by left|]. unfold read_length.
    destruct (Z.eqb_spec l7 127); [done|]. destruct (Z.eqb_spec l7 126) as [->|].
    + destruct (read_n_cases 2 s) as [(b & r & Hb & -> & Hbl)|(e & He & _)]; [unfold max_alloc; lia| |].
      * right. exists (be_val b), r. erewrite bind_Got by (by apply wrap_Got).
        unfold lift, mbind, parser_bind. rewrite be_uint_exact by done. split; [done|].
        rewrite length_app. pose proof (be_val_range b). lia.
      * left. eexists. unfold mbind, parser_bind, wrap. by rewrite He.
    + right. exists l7, s. split; [done|]. lia.
Qed.

Section panics.
Context `{UnicodeTables}.

Lemma land_byte b : 0 ≤ Z.land (bz b) 127 < 128.
Proof.
  pose proof (bz_range b). change 127 with (Z.ones 7). rewrite Z.land_ones by lia.
  apply Z.mod_pos_bound. lia.
Qed.

(** The payload: a negative length panics, any other does not. *)
Definition read_payload (opcode : Z) (fin masked : bool) (maskKey : list byte) (payloadLen : Z)
  (direction : list byte) : parser WebSocketMessage :=
  if 65536 <? payloadLen then
    throw (ErrText (gs "websocket: payload too large: " ++ Itoa payloadLen ++ gs " bytes"))
  else
    payload ← wrap (gs "websocket: failed to read payload: ") (read_n payloadLen);
    let payload := if masked then unmask maskKey payload else payload in
    lift (frame_message opcode fin payloadLen payload direction).

Lemma read_payload_spec op fin masked key n dir s :
  (read_payload op fin masked key n dir s = Panicked ↔ n < 0) ∧
  progress 0 (read_payload op fin masked key n dir) s.
Proof.
  unfold read_payload. destruct (Z.ltb_spec 65536 n).
  { split; [split; [done|lia]|apply progress_throw]. }
  destruct (Z.le_gt_cases 0 n) as [Hn|Hn].
  - destruct (read_n_cases n s) as [(b & r & Hb & -> & Hbl)|(e & He & _)]; [unfold max_alloc; lia| |].
    + unfold progress. erewrite bind_Got by (by apply wrap_Got).
      destruct (frame_message_returns op fin n (if masked then unmask key b else b) dir) as (m & -> & _).
      simpl. split; [split; [done|lia]|]. rewrite length_app. lia.
    + unfold progress, mbind, parser_bind, wrap. rewrite He. simpl. split; [split; [done|lia]|lia].
  - unfold progress, mbind, parser_bind, wrap. rewrite read_n_bad by lia. split; [split; [lia|done]|done].
Qed.

Definition read_masked (opcode : Z) (fin masked : bool) (direction : list byte) (payloadLen : Z)
  : parser WebSocketMessage :=
  maskKey ← (if masked then wrap (gs "websocket: failed to read mask key: ") (read_n 4)
             else mret [Byte.x00; Byte.x00; Byte.x00; Byte.x00]);
  read_payload opcode fin masked maskKey payloadLen direction.

Lemma read_masked_spec op fin masked dir n s :
  (read_masked op fin masked dir n s = Panicked ↔ n < 0 ∧ (masked = true → 4 ≤ len s)) ∧
  progress 0 (read_masked op fin masked dir n) s.
Proof.
  unfold read_masked. destruct masked.
  - destruct (read_n_cases 4 s) as [(b & r & Hb & -> & Hbl)|(e & He & Hlt & _)]; [unfold max_alloc; lia| |].
    + destruct (read_payload_spec op fin true b n dir r) as [Hp Hpr]. unfold progress in *.
      erewrite bind_Got by (by apply wrap_Got). rewrite Hp, len_app. pose proof (len_nonneg r). split.
      * split; [intros; split; [done|]; intros; lia|tauto].
      * rewrite length_app. destruct (read_payload _ _ _ _ _ _ _); lia || done.
    + unfold progress, mbind, parser_bind, wrap. rewrite He. simpl. split; [|lia].
      split; [done|]. intros [_ Hx]. specialize (Hx eq_refl). lia.
  - destruct (read_payload_spec op fin false [Byte.x00; Byte.x00; Byte.x00; Byte.x00] n dir s) as [Hp Hpr].
    unfold progress in *. erewrite bind_Got by reflexivity. rewrite Hp. split; [|done].
    split; [done|tauto].
Qed.

Lemma read_frame_rest_eq b0 b1 dir s : read_frame_rest b0 b1 dir s =
  (if bad_opcode (Z.land (bz b0) 15)
   then throw (ErrText (gs "websocket: invalid opcode 0x" ++ fmt_x (Z.land (bz b0) 15)))
   else n ← read_length (Z.land (bz b1) 127);
        read_masked (Z.land (bz b0) 15) (negb (Z.land (bz b0) 128 =? 0))
          (negb (Z.land (bz b1) 128 =? 0)) dir n) s.
Proof. reflexivity. Qed.

(** The header and the eight bytes that make a frame panic. *)
Definition panic_frame (b0 b1 : byte) (ext tail : list byte) : Prop :=
  len ext = 8 ∧ bad_opcode (Z.land (bz b0) 15) = false ∧ Z.land (bz b1) 127 = 127 ∧
  2 ^ 63 ≤ be_val ext ∧ (Z.land (bz b1) 128 ≠ 0 → 4 ≤ len tail).

Lemma read_frame_rest_spec b0 b1 dir s :
  progress 0 (read_frame_rest b0 b1 dir) s ∧
  (read_frame_rest b0 b1 dir s = Panicked ↔ ∃ ext tail, s = ext ++ tail ∧ panic_frame b0 b1 ext tail).
Proof.
  unfold progress. rewrite read_frame_rest_eq. unfold panic_frame. destruct (bad_opcode _).
  { simpl. split; [lia|]. split; [done|]. by intros (? & ? & _ & _ & ? & _). }
  destruct (read_length_cases _ s (land_byte b1)) as [[Hno Hc]|[H7 (ext & tail & -> & Hx)]].
  - assert ((∃ ext tail, s = ext ++ tail ∧ len ext = 8 ∧ false = false ∧ Z.land (bz b1) 127 = 127 ∧
      2 ^ 63 ≤ be_val ext ∧ (Z.land (bz b1) 128 ≠ 0 → 4 ≤ len tail)) ↔ False) as ->.
    { split; [|done]. intros (ext & tail & -> & Hx & _ & H7 & _). rewrite len_app in Hno.
      pose proof (len_nonneg tail). destruct Hno; lia || done. }
    destruct Hc as [[e He]|(n & r & Hr & Hlr & Hn)].
    + unfold mbind, parser_bind. rewrite He. simpl. split; [lia|done].
    + erewrite bind_Got by exact Hr.
      destruct (read_masked_spec (Z.land (bz b0) 15) (negb (Z.land (bz b0) 128 =? 0))
        (negb (Z.land (bz b1) 128 =? 0)) dir n r) as [Hp Hpr].
      unfold progress in Hpr. rewrite Hp. split; [|split; [lia|done]].
      destruct (read_masked _ _ _ _ _ _); lia || done.
  - rewrite H7. erewrite bind_Got by (by apply read_length_127).
    destruct (read_masked_spec (Z.land (bz b0) 15) (negb (Z.land (bz b0) 128 =? 0))
      (negb (Z.land (bz b1) 128 =? 0)) dir (int64 (be_val ext)) tail) as [Hp Hpr].
    unfold progress in Hpr. rewrite Hp, length_app. split; [destruct (read_masked _ _ _ _ _ _); lia || done|].
    pose proof (be_val_range ext) as Hr. rewrite Hx in Hr. rewrite int64_neg by lia.
    rewrite negb_true_iff, Z.eqb_neq. split.
    + intros [??]. by exists ext, tail.
    + intros (ext' & tail' & He & Hx' & _ & _ & Hv & Hk).
      apply app_inj_1 in He as [-> ->]; [done|]. rewrite !len_length in *. lia.
Qed.
End panics.

(** ** Properties *)

Section properties.
Context `{UnicodeTables}.

(** Frames of both sides, masked or not, of every opcode and of every
    length the reader takes, are read back: the message has the opcode, the
    final flag and the length of the frame and is made from its unmasked
    payload, and nothing behind the frame is consumed. *)
Theorem frame_roundtrip f rest direction (Hf : frame_ok f) :
  ∃ m, frame_message (f_op f) (f_fin f) (len (f_payload f)) (f_payload f) direction = Ret m ∧
    ReadWebSocketMessage direction (enc_frame f ++ rest) = Got m rest ∧
    OpCode m = f_op f ∧ ws_FIN m = f_fin f ∧ PayloadLen m = len (f_payload f).
Proof.
  destruct (frame_message_returns (f_op f) (f_fin f) (len (f_payload f)) (f_payload f) direction)
    as (m & Hm & ? & ? & ? & _).
  exists m. split; [done|]. rewrite read_frame_enc, Hm by done. done.
Qed.

(** Masking is its own inverse and keeps the length. *)
Theorem unmask_involutive key payload :
  unmask key (unmask key payload) = payload ∧ len (unmask key payload) = len payload.
Proof. split; [apply unmask_unmask|apply len_unmask]. Qed.

Lemma progress_ReadWebSocketMessage direction s : progress 2 (ReadWebSocketMessage direction) s.
Proof.
  unfold ReadWebSocketMessage. apply progress_then; [apply progress_wrap, (progress_read_n 2)|].
  intros. unfold read_length. progress_steps.
Qed.

(** The reader panics exactly on a frame with a known opcode whose
    64-bit length has its top bit set (and whose mask, if it has one, is
    there); every message read consumes at least the header. *)
Theorem ReadWebSocketMessage_panics_iff direction s :
  progress 2 (ReadWebSocketMessage direction) s ∧
  (ReadWebSocketMessage direction s = Panicked ↔
   ∃ b0 b1 ext tail, s = b0 :: b1 :: ext ++ tail ∧ panic_frame b0 b1 ext tail).
Proof.
  split; [apply progress_ReadWebSocketMessage|]. destruct s as [|b0 [|b1 s]].
  - destruct (read_short [] direction) as [e He]; [change (len []) with 0; lia|].
    rewrite He. split; [done|]. by intros (? & ? & ? & ? & ? & _).
  - destruct (read_short [b0] direction) as [e He]; [change (len [b0]) with 1; lia|].
    rewrite He. split; [done|]. by intros (? & ? & ? & ? & ? & _).
  - rewrite read_frame_header. destruct (read_frame_rest_spec b0 b1 direction s) as [_ Hp]. rewrite Hp. split.
    + intros (ext & tail & -> & Hx). by exists b0, b1, ext, tail.
    + intros (? & ? & ext & tail & [= <- <- ->] & Hx). by exists ext, tail.
Qed.

(** The detector looks at four bits of the first byte only, so it takes
    every HTTP request that starts with P or H ([POST], [PUT], [PATCH],
    [HEAD]) for a frame. *)
Theorem detects_http_requests rest :
  DetectWebSocket (gs "POST " ++ rest) = true ∧ DetectWebSocket (gs "PUT " ++ rest) = true ∧
  DetectWebSocket (gs "PATCH " ++ rest) = true ∧ DetectWebSocket (gs "HEAD " ++ rest) = true.
Proof. split_and!; unfold DetectWebSocket; cbn [app gs String.list_byte_of_string]; by destruct (Contains _ crlf && _). Qed.
End properties.

(** ** The properties at work *)

Definition demo_frame : frame := mkFrame true OpText (Some (gs "key!")) (gs "hello").

Lemma frame_roundtrip_witness :
  ∃ m, ReadWebSocketMessage (H := no_tables) (gs "C->S") (enc_frame demo_frame ++ gs "zz") = Got m (gs "zz") ∧
    Payload m = gs "hello".
Proof.
  destruct (frame_roundtrip (H := no_tables) demo_frame (gs "zz") (gs "C->S")) as (m & Hm & Hr & _).
  - split; [unfold opcodes; repeat constructor|]. vm_compute. split; congruence.
  - exists m. split; [exact Hr|]. revert Hm. vm_compute. by intros [= <-].
Defined.
