(* ===== verification/Bson.v ===== *)
(** * BSON (src/mongoport/mongo_protocol.go)

    The walk over a BSON document: its first key, the value of a field, the
    conversion to a map and the map's JSON text.

    A slice of the message buffer keeps the bytes behind it as spare capacity,
    and a slice expression is checked against the capacity: [extra] is the
    number of bytes of the buffer behind [data]. *)

From S2P Require Import Prelude GoBytes GoStrings Unicode.

(** ** Scanning without building values *)

(** [for end < len(data) && data[end] != 0x00 { end++ }] *)
Fixpoint scan_null (fuel : nat) (data : list byte) (pos : Z) : go Z :=
  match fuel with
  | O => Ret pos
  | S fuel =>
      if pos <? len data then
        b ← index data pos;
        if negb (beq b 0) then scan_null fuel data (pos + 1) else Ret pos
      else Ret pos
  end.
(** At most [len data] steps from any position. *)
Definition find_null (data : list byte) (pos : Z) : go Z := scan_null (length data) data pos.

Definition extractBSONFirstKey (data : list byte) : go (list byte) :=
  if len data <? 5 then Ret []
  else
    typ ← index data 4;
    if beq typ 0 then Ret []
    else e ← find_null data 5; sub data 5 e.

Definition skipBSONValue (data : list byte) (pos : Z) (typ : byte) : go Z :=
  if len data <=? pos then Ret pos
  else if beq typ 1 then Ret (pos + 8)
  else if beq typ 2 then
    if pos + 4 <=? len data then l ← le_at 4 data pos; Ret (pos + 4 + l) else Ret pos
  else if beq typ 3 || beq typ 4 then
    if pos + 4 <=? len data then l ← le_at 4 data pos; Ret (pos + l) else Ret pos
  else if beq typ 5 then
    if pos + 5 <=? len data then l ← le_at 4 data pos; Ret (pos + 5 + l) else Ret pos
  else if beq typ 8 then Ret (pos + 1)
  else if beq typ 9 then Ret (pos + 8)
  else if beq typ 10 then Ret pos
  else if beq typ 16 then Ret (pos + 4)
  else if beq typ 18 then Ret (pos + 8)
  else if beq typ 19 then Ret (pos + 16)
  else Ret pos.

Fixpoint extract_loop (fuel : nat) (data field : list byte) (pos : Z) : comp (list byte) :=
  match fuel with
  | O => NoFuel
  | S fuel =>
      if pos <? len data - 1 then
        typ ← of_go (index data pos);
        if beq typ 0 then Val []
        else
          let keyStart := pos + 1 in
          pos ← of_go (find_null data keyStart);
          key ← of_go (sub data keyStart pos);
          pos ← of_go (skipBSONValue data (pos + 1) typ);
          if str_eqb key field && negb (str_eqb field []) then Val (gs "(found)")
          else extract_loop fuel data field pos
      else Val []
  end.

Definition extractBSONValue (data field : list byte) : comp (list byte) :=
  if len data <? 5 then Val [] else extract_loop (S (length data)) data field 4.

(** ** Values *)

(** The values a [map[string]interface{}] of [bsonToMap] can hold; a double is
    kept as its bits, a document as its entries in the order of their first
    insertion ([BDoc []] is also the nil map). *)
Inductive bson : Type :=
| BNull
| BBool (b : bool)
| BInt32 (n : Z)
| BInt64 (n : Z)
| BDouble (bits : Z)
| BStr (s : list byte)
| BDoc (m : list (list byte * bson))
| BArr (l : list bson).

Definition doc : Type := list (list byte * bson).

(** [m[key] = val] *)
Fixpoint doc_set (m : doc) (k : list byte) (v : bson) : doc :=
  match m with
  | [] => [(k, v)]
  | (k', v') :: m => if decide (k = k') then (k, v) :: m else (k', v') :: doc_set m k v
  end.
(** [v, ok := m[key]] *)
Fixpoint doc_get (m : doc) (k : list byte) : option bson :=
  match m with
  | [] => None
  | (k', v) :: m => if decide (k = k') then Some v else doc_get m k
  end.

(** [for i := 0; ; i++ { v, ok := arr[strconv.Itoa(i)]; ... }] *)
Fixpoint arr_items (fuel : nat) (arr : doc) (i : Z) : list bson :=
  match fuel with
  | O => []
  | S fuel =>
      match doc_get arr (Itoa i) with
      | Some v => v :: arr_items fuel arr (i + 1)
      | None => []
      end
  end.

Section parse.
(** [bsonToMap] on a slice and its spare capacity; [None] is the nil map. *)
Context (bsonToMap : list byte → Z → comp (option doc)).

(** The value at [pos] behind the key, and the position behind it. *)
Definition parse_value (data : list byte) (extra : Z) (typ : byte) (pos : Z) : comp (bson * Z) :=
  let n := len data in
  if beq typ 1 then
    if pos + 8 <=? n then bits ← of_go (le_at 8 data pos); Val (BDouble bits, pos + 8)
    else Val (BNull, pos)
  else if beq typ 2 then
    if pos + 4 <=? n then
      length ← of_go (le_at 4 data pos);
      let e := pos + 4 + length in
      if (e <=? n) && (1 <? length) then s ← of_go (sub data (pos + 4) (e - 1)); Val (BStr s, e)
      else if e <=? n then Val (BStr [], e)
      else Val (BNull, e)
    else Val (BNull, pos)
  else if beq typ 3 then
    if pos + 4 <=? n then
      docLen ← of_go (le_at 4 data pos);
      let e := pos + docLen in
      if e <=? n then
        d ← of_go (sub data pos e);
        m ← bsonToMap d (extra + (n - e));
        Val (BDoc (default [] m), e)
      else Val (BNull, e)
    else Val (BNull, pos)
  else if beq typ 4 then
    if pos + 4 <=? n then
      arrLen ← of_go (le_at 4 data pos);
      let e := pos + arrLen in
      if e <=? n then
        d ← of_go (sub data pos e);
        m ← bsonToMap d (extra + (n - e));
        let arr := default [] m in
        Val (BArr (arr_items (S (List.length arr)) arr 0), e)
      else Val (BNull, e)
    else Val (BNull, pos)
  else if beq typ 5 then
    if pos + 5 <=? n then
      binLen ← of_go (le_at 4 data pos);
      let e := pos + 5 + binLen in
      Val (if e <=? n then BStr (gs "<binary " ++ Itoa binLen ++ gs " bytes>") else BNull, e)
    else Val (BNull, pos)
  else if beq typ 6 then Val (BStr (gs "undefined"), pos)
  else if beq typ 7 then
    if pos + 12 <=? n then
      d ← of_go (sub data pos (pos + 12));
      Val (BStr (gs "ObjectId(" ++ [Byte.x22] ++ fmt_x_bytes d ++ [Byte.x22] ++ gs ")"), pos + 12)
    else Val (BNull, pos)
  else if beq typ 8 then
    if pos <? n then b ← of_go (index data pos); Val (BBool (negb (beq b 0)), pos + 1)
    else Val (BNull, pos)
  else if beq typ 9 then
    if pos + 8 <=? n then ms ← of_go (le_at 8 data pos); Val (BStr (fmt_millis (int64 ms)), pos + 8)
    else Val (BNull, pos)
  else if beq typ 10 then Val (BNull, pos)
  else if beq typ 11 then
    patEnd ← of_go (find_null data pos);
    pat ← of_go (sub data pos patEnd);
    let optStart := patEnd + 1 in
    optEnd ← of_go (find_null data optStart);
    (* data[optStart:optEnd]: equal bounds up to the capacity are the empty slice *)
    opt ← of_go (if (n <? optEnd) && (optStart =? optEnd) && (optEnd <=? n + extra) then Ret []
                 else sub data optStart optEnd);
    Val (BStr (gs "/" ++ pat ++ gs "/" ++ opt), optEnd + 1)
  else if beq typ 13 then
    if pos + 4 <=? n then
      codeLen ← of_go (le_at 4 data pos);
      let e := pos + 4 + codeLen in
      if (e <=? n) && (1 <? codeLen) then s ← of_go (sub data (pos + 4) (e - 1)); Val (BStr s, e)
      else Val (BNull, e)
    else Val (BNull, pos)
  else if beq typ 15 then
    if pos + 4 <=? n then
      totalLen ← of_go (le_at 4 data pos);
      let e := pos + totalLen in
      Val (if e <=? n then BStr (gs "<javascript with scope>") else BNull, e)
    else Val (BNull, pos)
  else if beq typ 16 then
    if pos + 4 <=? n then v ← of_go (le_at 4 data pos); Val (BInt32 (int32 v), pos + 4)
    else Val (BNull, pos)
  else if beq typ 17 then
    if pos + 8 <=? n then v ← of_go (le_at 8 data pos); Val (BInt64 (int64 v), pos + 8)
    else Val (BNull, pos)
  else if beq typ 18 then
    if pos + 8 <=? n then v ← of_go (le_at 8 data pos); Val (BInt64 (int64 v), pos + 8)
    else Val (BNull, pos)
  else if beq typ 19 then
    if pos + 16 <=? n then Val (BStr (gs "<decimal128>"), pos + 16) else Val (BNull, pos)
  else if beq typ 127 then Val (BStr (gs "<MinKey>"), pos)
  else if beq typ 255 then Val (BStr (gs "<MaxKey>"), pos)
  else Val (BNull, pos).

(** The key, the value and the next position, capped at the end. *)
Definition parseBSONElement (data : list byte) (extra pos : Z) : comp (list byte * bson * Z) :=
  if len data <=? pos then Val ([], BNull, pos)
  else
    typ ← of_go (index data pos);
    let keyStart := pos + 1 in
    pos ← of_go (find_null data keyStart);
    if len data <=? pos then Val ([], BNull, pos)
    else
      key ← of_go (sub data keyStart pos);
      '(val, nextPos) ← parse_value data extra typ (pos + 1);
      Val (key, val, if len data <? nextPos then len data else nextPos).

(** The loop of [bsonToMap]: [pos < docSize-1]. *)
Fixpoint doc_loop (fuel : nat) (data : list byte) (extra docSize pos : Z) (m : doc) : comp doc :=
  match fuel with
  | O => NoFuel
  | S fuel =>
      if pos <? docSize - 1 then
        b ← of_go (index data pos);
        if beq b 0 then Val m
        else
          '(key, val, next) ← parseBSONElement data extra pos;
          let m := match key with [] => m | _ => doc_set m key val end in
          if next <=? pos then Val m else doc_loop fuel data extra docSize next m
      else Val m
  end.
End parse.

(** The recursion goes to strictly shorter slices, so the length of the
    document is fuel enough. *)
Fixpoint to_map (fuel : nat) (data : list byte) (extra : Z) : comp (option doc) :=
  match fuel with
  | O => NoFuel
  | S fuel =>
      if len data <? 5 then Val None
      else
        docSize ← of_go (le_at 4 data 0);
        let docSize := if (docSize <? 5) || (len data <? docSize) then len data else docSize in
        m ← doc_loop (to_map fuel) (S (length data)) data extra docSize 4 [];
        Val (Some m)
  end.

Definition bsonToMap (data : list byte) (extra : Z) : comp (option doc) :=
  to_map (S (length data)) data extra.

(** ** JSON *)

Definition json_rune (r : Z) : list byte :=
  if r =? 34 then [Byte.x5c; Byte.x22]
  else if r =? 92 then [Byte.x5c; Byte.x5c]
  else if r =? 10 then gs "\n"
  else if r =? 13 then gs "\r"
  else if r =? 9 then gs "\t"
  else if r <? 32 then gs "\u" ++ hex4 r
  else encode_rune r.

Definition jsonEscape (s : list byte) : list byte := concat (map json_rune (runes s)).

Definition json_string (s : list byte) : list byte := [Byte.x22] ++ jsonEscape s ++ [Byte.x22].

(** What the printer of a value takes from the run-time library: the decimal
    text of a double and the order in which a map is ranged over. *)
Class JsonRuntime := {
  FormatFloat : Z → list byte;
  map_order : list (list byte * list byte) → list (list byte * list byte);
}.

Section json.
Context `{JsonRuntime}.

Fixpoint writeJSONValue (v : bson) : list byte :=
  match v with
  | BNull => gs "null"
  | BBool b => fmt_bool b
  | BInt32 n | BInt64 n => Itoa n
  | BDouble bits => FormatFloat bits
  | BStr s => json_string s
  | BDoc m =>
      let entries := map_order (map (λ kv, (kv.1, writeJSONValue kv.2)) m) in
      gs "{" ++ Join (map (λ kt, json_string kt.1 ++ gs ":" ++ kt.2) entries) (gs ",") ++ gs "}"
  | BArr l => gs "[" ++ Join (map writeJSONValue l) (gs ",") ++ gs "]"
  end.

Definition mapToJSON (m : doc) : list byte := writeJSONValue (BDoc m).

Definition bsonToJSON (data : list byte) (extra : Z) : comp (list byte) :=
  o ← bsonToMap data extra;
  match o with None => Val [] | Some m => Val (mapToJSON m) end.
End json.
