(* ===== verification/BsonProps.v ===== *)
(** * BSON: termination, panics and the round trip *)

From S2P Require Import Prelude GoBytes GoStrings Unicode Bson.

(** ** Scanning *)

Lemma scan_null_returns data fuel : ∀ pos, 0 ≤ pos →
  returns (scan_null fuel data pos) (λ q, pos ≤ q ≤ Z.max pos (len data)).
Proof.
  induction fuel as [|fuel IH]; intros pos Hp; [apply returns_Ret; lia|]. cbn [scan_null].
  destruct (Z.ltb_spec pos (len data)); [|apply returns_Ret; lia].
  eapply returns_bind; [apply returns_index; lia|]. intros b _.
  destruct (negb _); [|apply returns_Ret; lia].
  eapply returns_mono; [apply IH; lia|]. cbv beta. lia.
Qed.
Lemma bson_find_null_returns data pos : 0 ≤ pos →
  returns (find_null data pos) (λ q, pos ≤ q ≤ Z.max pos (len data)).
Proof. apply scan_null_returns. Qed.

(** A key without NUL is read up to its terminator. *)
Lemma scan_null_key key : Byte.x00 ∉ key → ∀ fuel pre rest, (length key < fuel)%nat →
  scan_null fuel (pre ++ key ++ Byte.x00 :: rest) (len pre) = Ret (len pre + len key).
Proof.
  induction key as [|b key IH]; intros Hk [|fuel] pre rest Hf; simpl in Hf; try lia; cbn [scan_null].
  - destruct (Z.ltb_spec (len pre) (len (pre ++ [] ++ Byte.x00 :: rest))) as [_|Hge].
    2:{ rewrite !len_app, len_cons in Hge. change (len []) with 0 in Hge. pose proof (len_nonneg rest). lia. }
    pose proof (index_app_r pre ([] ++ Byte.x00 :: rest) 0) as Hi. rewrite Z.add_0_r in Hi. rewrite Hi by lia.
    cbn [app]. rewrite index_cons_0. simpl. by rewrite Z.add_0_r.
  - apply not_elem_of_cons in Hk as [Hb Hk].
    destruct (Z.ltb_spec (len pre) (len (pre ++ (b :: key) ++ Byte.x00 :: rest))) as [_|Hge].
    2:{ rewrite !len_app, !len_cons in Hge. pose proof (len_nonneg rest). pose proof (len_nonneg key). lia. }
    pose proof (index_app_r pre ((b :: key) ++ Byte.x00 :: rest) 0) as Hi. rewrite Z.add_0_r in Hi. rewrite Hi by lia.
    cbn [app]. rewrite index_cons_0. cbn [mbind go_bind].
    assert (beq b 0 = false) as ->. { unfold beq. apply Z.eqb_neq. intros H0. apply Hb. by apply bz_inj. }
    cbn [negb]. specialize (IH Hk fuel (pre ++ [b]) rest ltac:(lia)).
    rewrite <-app_assoc, len_app in IH. change (len [b]) with 1 in IH. rewrite len_cons.
    replace (len pre + (1 + len key)) with (len pre + 1 + len key) by lia. exact IH.
Qed.

Lemma find_null_key key pre rest : Byte.x00 ∉ key →
  find_null (pre ++ key ++ Byte.x00 :: rest) (len pre) = Ret (len pre + len key).
Proof. intros. apply scan_null_key; [done|]. rewrite !length_app. simpl. lia. Qed.

(** Without a terminator the scan ends at the end of the data. *)
Lemma scan_null_end key : Byte.x00 ∉ key → ∀ fuel pre, (length key ≤ fuel)%nat →
  scan_null fuel (pre ++ key) (len pre) = Ret (len pre + len key).
Proof.
  induction key as [|b key IH]; intros Hk [|fuel] pre Hf; simpl in Hf; try lia; cbn [scan_null].
  - f_equal. change (len []) with 0. lia.
  - rewrite app_nil_r, Z.ltb_irrefl. f_equal. change (len []) with 0. lia.
  - apply not_elem_of_cons in Hk as [Hb Hk].
    destruct (Z.ltb_spec (len pre) (len (pre ++ b :: key))) as [_|Hge].
    2:{ rewrite len_app, len_cons in Hge. pose proof (len_nonneg key). lia. }
    pose proof (index_app_r pre (b :: key) 0) as Hi. rewrite Z.add_0_r in Hi. rewrite Hi by lia.
    rewrite index_cons_0. cbn [mbind go_bind].
    assert (beq b 0 = false) as ->. { unfold beq. apply Z.eqb_neq. intros H0. apply Hb. by apply bz_inj. }
    cbn [negb]. specialize (IH Hk fuel (pre ++ [b]) ltac:(lia)).
    rewrite <-app_assoc, len_app in IH. change (len [b]) with 1 in IH. rewrite len_cons.
    replace (len pre + (1 + len key)) with (len pre + 1 + len key) by lia. exact IH.
Qed.

Lemma find_null_end key pre : Byte.x00 ∉ key → find_null (pre ++ key) (len pre) = Ret (len pre + len key).
Proof. intros. apply scan_null_end; [done|]. rewrite length_app. lia. Qed.

Lemma find_null_beyond data pos : len data ≤ pos → find_null data pos = Ret pos.
Proof.
  intros Hp. unfold find_null. destruct (length data) as [|fuel]; [done|]. cbn [scan_null].
  by destruct (Z.ltb_spec pos (len data)); [lia|].
Qed.

Lemma skipBSONValue_returns data pos typ : 0 ≤ pos → returns (skipBSONValue data pos typ) (λ q, pos ≤ q).
Proof.
  intros Hp. unfold skipBSONValue.
  repeat match goal with
  | |- returns (if beq ?a ?b || beq ?a ?c then _ else _) _ => destruct (beq a b || beq a c)
  | |- returns (if beq ?a ?b then _ else _) _ => destruct (beq a b)
  | |- returns (if ?a <=? ?b then _ else _) _ => destruct (Z.leb_spec a b)
  | |- returns (le_at _ _ _ ≫= _) _ =>
      eapply returns_bind; [apply returns_le_at; lia|cbv beta; intros ? [_ ?]]
  | |- returns (Ret _) _ => apply returns_Ret; lia
  end.
Qed.

Lemma extract_loop_terminates data field fuel : ∀ pos, 0 ≤ pos → (Z.to_nat (len data - pos) < fuel)%nat →
  terminates False (extract_loop fuel data field pos) (λ v, v = [] ∨ v = gs "(found)").
Proof.
  induction fuel as [|fuel IH]; intros pos Hp Hf; [lia|]. cbn [extract_loop].
  destruct (Z.ltb_spec pos (len data - 1)); [|by left].
  eapply terminates_bind; [apply terminates_go, returns_index; lia|]. intros typ _.
  destruct (beq typ 0); [by left|].
  eapply terminates_bind; [apply terminates_go, bson_find_null_returns; lia|]. cbv beta. intros q Hq.
  eapply terminates_bind; [apply terminates_go, returns_sub; lia|]. intros key _.
  eapply terminates_bind; [apply terminates_go, skipBSONValue_returns; lia|]. cbv beta. intros p2 Hp2.
  destruct (_ && _); [by right|]. apply IH; lia.
Qed.

(** ** Termination and panics of the conversion *)

(** The only slice expression that can leave the buffer is the one of an
    unterminated regular expression at the very end of it. *)
Definition may_panic (data : list byte) (extra : Z) : Prop := extra = 0 ∧ Byte.x0b ∈ data.

Lemma may_panic_sub data extra a b d : sub data a b = Ret d → 0 ≤ extra →
  may_panic d (extra + (len data - b)) → may_panic data extra.
Proof.
  intros Hs He [H0 Hin]. apply sub_inv in Hs as (? & ? & ->). split; [lia|].
  rewrite <-(ztake_zdrop a data), <-(ztake_zdrop (b - a) (zdrop a data)), !elem_of_app. tauto.
Qed.

Section terminates.
Context (data : list byte) (extra : Z) (Hextra : 0 ≤ extra).
Context (rec : list byte → Z → comp (option doc)).
Context (Hrec : ∀ d e, (length d < length data)%nat → 0 ≤ e → terminates (may_panic d e) (rec d e) (λ _, True)).

Lemma rec_sub pos e d : 0 < pos → sub data pos e = Ret d →
  terminates (may_panic data extra) (rec d (extra + (len data - e))) (λ _, True).
Proof.
  intros Hp Hs. pose proof (sub_inv _ _ _ _ Hs) as (? & ? & Hd).
  eapply terminates_mono; [apply Hrec| |done].
  - assert (len d < len data) by (rewrite Hd; len_simpl; lia). rewrite !len_length in *. lia.
  - lia.
  - intros. by eapply may_panic_sub.
Qed.

Lemma sub_terminates a b : 0 ≤ a ≤ b → b ≤ len data →
  terminates (may_panic data extra) (of_go (sub data a b)) (λ d, sub data a b = Ret d).
Proof. intros. rewrite sub_Ret by lia. done. Qed.

Lemma le_at_terminates n a : 0 ≤ a → 0 ≤ n → a + n ≤ len data →
  terminates (may_panic data extra) (of_go (le_at n data a)) (λ v, 0 ≤ v).
Proof.
  intros. apply terminates_go. eapply returns_mono; [by apply returns_le_at|]. cbv beta. lia.
Qed.

(** One branch of the switch: the guard and what it protects. *)
Local Ltac branch :=
  match goal with
  | |- terminates _ (if beq ?a ?b then _ else _) _ => destruct (beq a b)
  | |- terminates _ (if ?a <=? ?b then _ else _) _ => destruct (Z.leb_spec a b)
  | |- terminates _ (if ?a <? ?b then _ else _) _ => destruct (Z.ltb_spec a b)
  | |- terminates _ (if (?a <=? ?b) && (?c <? ?d) then _ else _) _ =>
      destruct (Z.leb_spec a b), (Z.ltb_spec c d); cbn [andb]
  | |- terminates _ (of_go (le_at _ _ _) ≫= _) _ =>
      eapply terminates_bind; [apply le_at_terminates; lia|cbv beta; intros ? ?]
  | |- terminates _ (of_go (sub _ _ _) ≫= _) _ =>
      eapply terminates_bind; [apply sub_terminates; lia|cbv beta; intros ? ?]
  | |- terminates _ (of_go (index _ _) ≫= _) _ =>
      eapply terminates_bind; [apply terminates_go, returns_index; lia|cbv beta; intros ? ?]
  | |- terminates _ (rec _ _ ≫= _) _ =>
      eapply terminates_bind; [by eapply rec_sub; [|eassumption]; lia|cbv beta; intros ? _]
  | |- terminates _ (Val _) _ => simpl; lia
  end.

Lemma parse_value_terminates typ pos : 0 < pos ≤ len data → typ ∈ data →
  terminates (may_panic data extra) (parse_value rec data extra typ pos) (λ '(_, p), pos ≤ p).
Proof.
  intros Hp Htyp. unfold parse_value. cbv zeta.
  destruct (beq typ 11) eqn:E11.
  { assert (typ = Byte.x0b) as -> by (unfold beq in E11; apply Z.eqb_eq in E11; by apply bz_inj).
    byte_cases. pose proof (bson_find_null_returns data pos ltac:(lia)) as (patEnd & -> & Hpe). cbn [of_go mbind comp_bind].
    branch. pose proof (bson_find_null_returns data (patEnd + 1) ltac:(lia)) as (optEnd & -> & Hoe). cbn [of_go mbind comp_bind].
    eapply terminates_bind with (Q := λ _, True); [|intros ? _; simpl; lia].
    destruct (Z.ltb_spec (len data) optEnd), (Z.eqb_spec (patEnd + 1) optEnd),
      (Z.leb_spec optEnd (len data + extra)); cbn [andb]; try done;
      try (rewrite sub_Panic by lia; simpl; split; [lia|done]);
      (rewrite sub_Ret by lia; done). }
  clear E11. repeat branch.
Qed.

Lemma parseBSONElement_terminates pos : 0 ≤ pos →
  terminates (may_panic data extra) (parseBSONElement rec data extra pos)
    (λ '(_, _, p), pos < len data → pos < p).
Proof.
  intros Hp. unfold parseBSONElement. destruct (Z.leb_spec (len data) pos); [simpl; lia|].
  destruct (returns_index data pos ltac:(lia)) as (typ & -> & Htyp). cbn [of_go mbind comp_bind].
  destruct (bson_find_null_returns data (pos + 1) ltac:(lia)) as (q & -> & Hq). cbn [of_go mbind comp_bind].
  destruct (Z.leb_spec (len data) q); [simpl; lia|].
  eapply terminates_bind; [apply sub_terminates; lia|]. intros key _.
  eapply terminates_bind; [apply parse_value_terminates; [lia|by eapply znth_elem_of]|].
  intros [v p] Hpv. simpl. destruct (Z.ltb_spec (len data) p); lia.
Qed.

Lemma doc_loop_terminates docSize : docSize ≤ len data → ∀ fuel pos m, 0 ≤ pos →
  (Z.to_nat (len data - pos) < fuel)%nat →
  terminates (may_panic data extra) (doc_loop rec fuel data extra docSize pos m) (λ _, True).
Proof.
  intros Hds fuel. induction fuel as [|fuel IH]; intros pos m Hp Hf; [lia|]. cbn [doc_loop].
  destruct (Z.ltb_spec pos (docSize - 1)); [|done].
  eapply terminates_bind; [apply terminates_go, returns_index; lia|]. intros b _.
  destruct (beq b 0); [done|].
  eapply terminates_bind; [by apply parseBSONElement_terminates|]. intros [[key val] next] Hn.
  destruct (Z.leb_spec next pos); [done|]. apply IH; lia.
Qed.
End terminates.

Lemma to_map_terminates fuel : ∀ data extra, (length data < fuel)%nat → 0 ≤ extra →
  terminates (may_panic data extra) (to_map fuel data extra) (λ _, True).
Proof.
  induction fuel as [|fuel IH]; intros data extra Hf He; [lia|]. cbn [to_map].
  destruct (Z.ltb_spec (len data) 5); [done|].
  eapply terminates_bind; [apply terminates_go, returns_le_at; lia|]. intros ds _. cbv zeta.
  eapply terminates_bind with (Q := λ _, True); [|done].
  apply doc_loop_terminates; [done| | |lia|].
  - intros d e Hd. apply IH. lia.
  - destruct (Z.ltb_spec ds 5), (Z.ltb_spec (len data) ds); simpl; lia.
  - rewrite len_length. lia.
Qed.

Lemma bsonToMap_terminates data extra : 0 ≤ extra →
  terminates (may_panic data extra) (bsonToMap data extra) (λ _, True).
Proof. intros. by apply to_map_terminates; [lia|]. Qed.

(** ** The encoding *)

Definition type_of (v : bson) : byte :=
  match v with
  | BDouble _ => Byte.x01 | BStr _ => Byte.x02 | BDoc _ => Byte.x03 | BArr _ => Byte.x04
  | BBool _ => Byte.x08 | BNull => Byte.x0a | BInt32 _ => Byte.x10 | BInt64 _ => Byte.x12
  end.

Definition element (k : list byte) (t : byte) (v : list byte) : list byte := t :: k ++ Byte.x00 :: v.
Definition wrap_doc (elements : list byte) : list byte :=
  le_bytes 4 (len elements + 5) ++ elements ++ [Byte.x00].

Fixpoint enc_value (v : bson) : list byte :=
  match v with
  | BNull => []
  | BBool b => [if b then Byte.x01 else Byte.x00]
  | BInt32 n => le_bytes 4 n
  | BInt64 n => le_bytes 8 n
  | BDouble bits => le_bytes 8 bits
  | BStr s => le_bytes 4 (len s + 1) ++ s ++ [Byte.x00]
  | BDoc m => wrap_doc (concat (map (λ kv, element kv.1 (type_of kv.2) (enc_value kv.2)) m))
  | BArr l =>
      wrap_doc ((fix go (i : Z) (l : list bson) : list byte :=
        match l with
        | [] => []
        | v :: l => element (Itoa i) (type_of v) (enc_value v) ++ go (i + 1) l
        end) 0 l)
  end.

Definition enc_elements (m : doc) : list byte :=
  concat (map (λ kv, element kv.1 (type_of kv.2) (enc_value kv.2)) m).
Definition enc_doc (m : doc) : list byte := wrap_doc (enc_elements m).

(** An array is the document whose keys are the positions. *)
Fixpoint indexed (i : Z) (l : list bson) : doc :=
  match l with [] => [] | v :: l => (Itoa i, v) :: indexed (i + 1) l end.

Definition key_ok (k : list byte) : Prop := k ≠ [] ∧ Byte.x00 ∉ k.

Fixpoint value_ok (v : bson) : Prop :=
  match v with
  | BNull | BBool _ => True
  | BInt32 n => is_int32 n
  | BInt64 n => is_int64 n
  | BDouble bits => 0 ≤ bits < 2 ^ 64
  | BStr s => len s < 2 ^ 31
  | BDoc m => NoDup (map fst m) ∧ len (enc_value v) < 2 ^ 31 ∧
      fold_right (λ kv P, key_ok kv.1 ∧ value_ok kv.2 ∧ P) True m
  | BArr l => len (enc_value v) < 2 ^ 31 ∧ fold_right (λ v P, value_ok v ∧ P) True l
  end.

Definition doc_ok (m : doc) : Prop := value_ok (BDoc m).

Lemma fold_entries_ok (m : doc) :
  fold_right (λ kv P, key_ok kv.1 ∧ value_ok kv.2 ∧ P) True m ↔ Forall (λ kv, key_ok kv.1 ∧ value_ok kv.2) m.
Proof. induction m as [|kv m IH]; simpl; [by split|]. rewrite Forall_cons, IH. tauto. Qed.

Lemma enc_arr l : enc_value (BArr l) = enc_doc (indexed 0 l).
Proof.
  cbn [enc_value]. unfold enc_doc, enc_elements. f_equal. generalize 0 as i.
  induction l as [|v l IH]; intros i; [done|]. cbn [indexed map concat fst snd]. by rewrite IH.
Qed.
Lemma enc_bdoc m : enc_value (BDoc m) = enc_doc m.
Proof. reflexivity. Qed.

Lemma Itoa_key i : 0 ≤ i → key_ok (Itoa i).
Proof.
  intros Hi. destruct (Itoa_digits i Hi) as [Hd Hne]. split; [done|]. intros Hin.
  rewrite Forall_forall in Hd. by specialize (Hd _ Hin).
Qed.

Lemma indexed_keys l : ∀ i k, 0 ≤ i → k ∈ map fst (indexed i l) → ∃ j, i ≤ j ∧ k = Itoa j.
Proof.
  induction l as [|v l IH]; intros i k Hi Hk; [by apply elem_of_nil in Hk|].
  cbn [indexed map fst] in Hk. apply elem_of_cons in Hk as [->|Hk]; [by exists i|].
  destruct (IH (i + 1) k ltac:(lia) Hk) as (j & ? & ->). exists j. split; [lia|done].
Qed.

Lemma indexed_NoDup l : ∀ i, 0 ≤ i → NoDup (map fst (indexed i l)).
Proof.
  induction l as [|v l IH]; intros i Hi; [constructor|]. cbn [indexed map fst]. apply NoDup_cons. split.
  - intros (j & ? & Hj)%indexed_keys; [|lia]. apply Itoa_inj in Hj; lia.
  - apply IH. lia.
Qed.

Lemma arr_doc_ok l : value_ok (BArr l) → doc_ok (indexed 0 l).
Proof.
  intros [Hl Hv]. unfold doc_ok. cbn [value_ok]. rewrite enc_bdoc. rewrite <-enc_arr.
  split_and!; [by apply indexed_NoDup|done|]. apply fold_entries_ok.
  clear Hl. assert (0 ≤ 0) as Hi by lia. revert Hi Hv. generalize 0 at 2 3 as i.
  induction l as [|v l IH]; intros i Hi Hv; [constructor|]. destruct Hv as [Hv Hl].
  cbn [indexed]. constructor; [split; [by apply Itoa_key|done]|]. apply IH; [lia|done].
Qed.

(** ** Maps *)

Lemma doc_set_fresh m k v : k ∉ map fst m → doc_set m k v = m ++ [(k, v)].
Proof.
  induction m as [|[k' v'] m IH]; intros Hk; [done|]. cbn [map fst] in Hk.
  apply not_elem_of_cons in Hk as [Hne Hk]. cbn [doc_set]. rewrite decide_False by done. by rewrite IH.
Qed.

Lemma doc_get_indexed l : ∀ i j, 0 ≤ i → i ≤ j → doc_get (indexed i l) (Itoa j) = l !! Z.to_nat (j - i).
Proof.
  induction l as [|v l IH]; intros i j Hi Hj; [done|]. cbn [indexed doc_get].
  destruct (decide (Itoa j = Itoa i)) as [He|Hne].
  - apply Itoa_inj in He as ->; [|lia..]. by rewrite Z.sub_diag.
  - assert (j ≠ i) by congruence. rewrite IH by lia.
    replace (Z.to_nat (j - i)) with (S (Z.to_nat (j - (i + 1)))) by lia. done.
Qed.

Lemma arr_items_indexed l : ∀ fuel i, 0 ≤ i → (length l - Z.to_nat i < fuel)%nat →
  arr_items fuel (indexed 0 l) i = drop (Z.to_nat i) l.
Proof.
  intros fuel. induction fuel as [|fuel IH]; intros i Hi Hf; [lia|]. cbn [arr_items].
  rewrite doc_get_indexed by lia. rewrite Z.sub_0_r.
  destruct (l !! Z.to_nat i) as [v|] eqn:E.
  - pose proof (lookup_lt_Some _ _ _ E). rewrite IH by lia.
    replace (Z.to_nat (i + 1)) with (S (Z.to_nat i)) by lia. symmetry. by apply drop_S.
  - apply lookup_ge_None in E. by rewrite drop_ge.
Qed.

Lemma indexed_length l : ∀ i, length (indexed i l) = length l.
Proof. induction l; intros; simpl; auto. Qed.

Lemma enc_doc_len m : len (enc_doc m) = len (enc_elements m) + 5.
Proof. unfold enc_doc, wrap_doc. len_simpl. lia. Qed.

(** A document inside another: its size field and its slice. *)
Lemma doc_slices pre es rest : len (wrap_doc es) < 2 ^ 31 →
  le_at 4 (pre ++ wrap_doc es ++ rest) (len pre) = Ret (len (wrap_doc es)) ∧
  sub (pre ++ wrap_doc es ++ rest) (len pre) (len pre + len (wrap_doc es)) = Ret (wrap_doc es) ∧
  4 < len (wrap_doc es).
Proof.
  assert (len (wrap_doc es) = len es + 5) as Hw by (unfold wrap_doc; len_simpl; lia).
  pose proof (len_nonneg es). rewrite Hw. intros Hl. split_and!; [| |lia].
  - unfold wrap_doc. rewrite <-!app_assoc, (le_at_mid 4) by done. f_equal. apply Z.mod_small. lia.
  - apply sub_mid; [done|]. by rewrite Hw.
Qed.

(** ** Every type of element

    What a document can hold on the wire, after the specification of BSON, less
    the two deprecated types (a pointer into a database and a symbol), behind
    which the walk loses its place.  A timestamp is its eight bytes as a
    number, a piece of code with its scope what follows its length. *)
Inductive wire : Type :=
| WDouble (bits : Z)
| WStr (s : list byte)
| WDoc (m : list (list byte * wire))
| WArr (l : list wire)
| WBinary (subtype : byte) (d : list byte)
| WUndefined
| WObjectId (d : list byte)
| WBool (b : bool)
| WDate (ms : Z)
| WNull
| WRegex (pattern options : list byte)
| WCode (s : list byte)
| WScope (d : list byte)
| WInt32 (n : Z)
| WTimestamp (n : Z)
| WInt64 (n : Z)
| WDecimal (d : list byte)
| WMinKey
| WMaxKey.

Definition tag (w : wire) : byte :=
  match w with
  | WDouble _ => Byte.x01 | WStr _ => Byte.x02 | WDoc _ => Byte.x03 | WArr _ => Byte.x04 | WBinary _ _ => Byte.x05
  | WUndefined => Byte.x06 | WObjectId _ => Byte.x07 | WBool _ => Byte.x08 | WDate _ => Byte.x09 | WNull => Byte.x0a
  | WRegex _ _ => Byte.x0b | WCode _ => Byte.x0d | WScope _ => Byte.x0f | WInt32 _ => Byte.x10 | WTimestamp _ => Byte.x11
  | WInt64 _ => Byte.x12 | WDecimal _ => Byte.x13 | WMinKey => Byte.xff | WMaxKey => Byte.x7f
  end.
Fixpoint enc_wire (w : wire) : list byte :=
  match w with
  | WDouble bits => le_bytes 8 bits
  | WStr s | WCode s => le_bytes 4 (len s + 1) ++ s ++ [Byte.x00]
  | WDoc m => wrap_doc (concat (map (λ kv, element kv.1 (tag kv.2) (enc_wire kv.2)) m))
  | WArr l =>
      wrap_doc ((fix go (i : Z) (l : list wire) : list byte :=
        match l with
        | [] => []
        | w :: l => element (Itoa i) (tag w) (enc_wire w) ++ go (i + 1) l
        end) 0 l)
  | WBinary subtype d => le_bytes 4 (len d) ++ subtype :: d
  | WObjectId d | WDecimal d => d
  | WBool b => [if b then Byte.x01 else Byte.x00]
  | WDate n | WTimestamp n | WInt64 n => le_bytes 8 n
  | WRegex pattern options => pattern ++ Byte.x00 :: options ++ [Byte.x00]
  | WScope d => le_bytes 4 (len d + 4) ++ d
  | WInt32 n => le_bytes 4 n
  | WUndefined | WNull | WMinKey | WMaxKey => []
  end.
Definition wire_elements (m : list (list byte * wire)) : list byte :=
  concat (map (λ kv, element kv.1 (tag kv.2) (enc_wire kv.2)) m).
Definition wire_doc (m : list (list byte * wire)) : list byte := wrap_doc (wire_elements m).

(** What the printer makes of a value: the smallest and the largest key change
    their names, and a piece of code without a byte is null. *)
Fixpoint shown (w : wire) : bson :=
  match w with
  | WDouble bits => BDouble bits
  | WStr s => BStr s
  | WDoc m => BDoc (fold_left (λ acc kv, match kv.1 with [] => acc | _ => doc_set acc kv.1 (shown kv.2) end) m [])
  | WArr l => BArr (map shown l)
  | WBinary _ d => BStr (gs "<binary " ++ Itoa (len d) ++ gs " bytes>")
  | WUndefined => BStr (gs "undefined")
  | WObjectId d => BStr (gs "ObjectId(" ++ [Byte.x22] ++ fmt_x_bytes d ++ [Byte.x22] ++ gs ")")
  | WBool b => BBool b
  | WDate ms => BStr (fmt_millis ms)
  | WNull => BNull
  | WRegex pattern options => BStr (gs "/" ++ pattern ++ gs "/" ++ options)
  | WCode [] => BNull
  | WCode s => BStr s
  | WScope _ => BStr (gs "<javascript with scope>")
  | WInt32 n => BInt32 n
  | WTimestamp n => BInt64 (int64 n)
  | WInt64 n => BInt64 n
  | WDecimal _ => BStr (gs "<decimal128>")
  | WMinKey => BStr (gs "<MaxKey>")
  | WMaxKey => BStr (gs "<MinKey>")
  end.
(** An entry without a key is left out, one with a key that has been there
    takes the place of the first. *)
Definition show_entry (acc : doc) (kv : list byte * wire) : doc :=
  match kv.1 with [] => acc | _ => doc_set acc kv.1 (shown kv.2) end.
Definition shown_entries (m : list (list byte * wire)) : doc := fold_left show_entry m [].

Fixpoint wire_ok (w : wire) : Prop :=
  match w with
  | WDouble bits => 0 ≤ bits < 2 ^ 64
  | WStr s | WCode s => len s < 2 ^ 31
  | WDoc m => len (enc_wire w) < 2 ^ 31 ∧ fold_right (λ kv P, Byte.x00 ∉ kv.1 ∧ wire_ok kv.2 ∧ P) True m
  | WArr l => len (enc_wire w) < 2 ^ 31 ∧ fold_right (λ w P, wire_ok w ∧ P) True l
  | WBinary _ d | WScope d => len d < 2 ^ 31
  | WObjectId d => len d = 12
  | WDecimal d => len d = 16
  | WDate n | WInt64 n => is_int64 n
  | WTimestamp n => 0 ≤ n < 2 ^ 64
  | WRegex pattern options => Byte.x00 ∉ pattern ∧ Byte.x00 ∉ options
  | WInt32 n => is_int32 n
  | WUndefined | WBool _ | WNull | WMinKey | WMaxKey => True
  end.
Definition wire_doc_ok (m : list (list byte * wire)) : Prop := wire_ok (WDoc m).

Lemma fold_wire_ok (m : list (list byte * wire)) :
  fold_right (λ kv P, Byte.x00 ∉ kv.1 ∧ wire_ok kv.2 ∧ P) True m ↔ Forall (λ kv, Byte.x00 ∉ kv.1 ∧ wire_ok kv.2) m.
Proof. induction m as [|kv m IH]; simpl; [by split|]. rewrite Forall_cons, IH. tauto. Qed.
Lemma fold_array_ok (l : list wire) : fold_right (λ w P, wire_ok w ∧ P) True l ↔ Forall wire_ok l.
Proof. induction l as [|w l IH]; simpl; [by split|]. by rewrite Forall_cons, IH. Qed.

(** An array is the document whose keys are the positions. *)
Fixpoint numbered {A} (i : Z) (l : list A) : list (list byte * A) :=
  match l with [] => [] | v :: l => (Itoa i, v) :: numbered (i + 1) l end.
Lemma enc_warr l : enc_wire (WArr l) = wire_doc (numbered 0 l).
Proof.
  cbn [enc_wire]. unfold wire_doc, wire_elements. f_equal. generalize 0 as i.
  induction l as [|v l IH]; intros i; [done|]. cbn [numbered map concat fst snd]. by rewrite IH.
Qed.
Lemma warr_doc_ok l : wire_ok (WArr l) → wire_doc_ok (numbered 0 l).
Proof.
  intros [Hl Hv]. unfold wire_doc_ok. cbn [wire_ok]. change (enc_wire (WDoc (numbered 0 l))) with (wire_doc (numbered 0 l)).
  rewrite <-enc_warr. split; [done|]. apply fold_wire_ok. apply fold_array_ok in Hv.
  clear Hl. assert (0 ≤ 0) as Hi by lia. revert Hi. generalize 0 at 2 3 as i.
  induction Hv as [|w l Hw _ IH]; intros i Hi; [constructor|]. cbn [numbered].
  constructor; [split; [by apply Itoa_key|done]|]. apply IH. lia.
Qed.
Lemma numbered_indexed l : ∀ i, numbered i l = indexed i l.
Proof. induction l as [|v l IH]; intros i; [done|]. cbn. by rewrite IH. Qed.
Lemma map_numbered {A B} (f : A → B) l : ∀ i, map (prod_map id f) (numbered i l) = numbered i (map f l).
Proof. induction l as [|v l IH]; intros i; [done|]. cbn. by rewrite IH. Qed.

(** Entries with different keys are all shown, in their order. *)
Lemma shown_fresh es : ∀ acc, NoDup (map fst (acc ++ map (prod_map id shown) es)) → [] ∉ map fst es →
  fold_left show_entry es acc = acc ++ map (prod_map id shown) es.
Proof.
  induction es as [|[k w] es IH]; intros acc Hnd Hne; [by rewrite app_nil_r|]. cbn [map fst] in Hne.
  apply not_elem_of_cons in Hne as [Hk Hne]. cbn [fold_left map].
  assert (show_entry acc (k, w) = acc ++ [(k, shown w)]) as ->.
  { unfold show_entry. cbn [fst snd]. destruct k as [|b k]; [done|]. apply doc_set_fresh. rewrite map_app in Hnd.
    apply NoDup_app in Hnd as (_ & Hnd & _). intros Hin. apply (Hnd _ Hin). cbn. constructor. }
  rewrite IH; [by rewrite <-app_assoc| |done]. by rewrite <-app_assoc.
Qed.
Lemma shown_numbered l : shown_entries (numbered 0 l) = indexed 0 (map shown l).
Proof.
  assert (map fst (numbered 0 l) = map fst (map (prod_map id shown) (numbered 0 l))) as Hf by (rewrite map_map; by apply map_ext).
  unfold shown_entries. rewrite shown_fresh.
  - by rewrite map_numbered, numbered_indexed.
  - cbn [app]. rewrite map_numbered, numbered_indexed. by apply indexed_NoDup.
  - rewrite Hf, map_numbered, numbered_indexed. intros (j & ? & Hj)%indexed_keys; [|lia].
    destruct (Itoa_digits j ltac:(lia)) as [_ ?]. congruence.
Qed.

(** ** Reading back *)

Section read_back.
Context (rec : list byte → Z → comp (option doc)).

(** A value in the middle of a document. *)
Definition reads_docs (n : nat) : Prop :=
  ∀ m e, wire_doc_ok m → (length (wire_doc m) < n)%nat → rec (wire_doc m) e = Val (Some (shown_entries m)).

Lemma parse_subdocument pre m rest data extra : data = pre ++ wire_doc m ++ rest → wire_doc_ok m → reads_docs (length data) → 0 < len pre →
  let e := len pre + len (wire_doc m) in
  (len pre + 4 <=? len data) = true ∧ le_at 4 data (len pre) = Ret (len (wire_doc m)) ∧ (e <=? len data) = true ∧
  sub data (len pre) e = Ret (wire_doc m) ∧ rec (wire_doc m) extra = Val (Some (shown_entries m)).
Proof.
  intros -> Hm Hrec Hpre e. destruct (doc_slices pre (wire_elements m) rest ltac:(apply Hm)) as (Hat & Hsub & Hle).
  pose proof (len_nonneg rest). fold (wire_doc m) in *. unfold e. rewrite !len_app.
  split_and!; [apply Z.leb_le; lia|done|apply Z.leb_le; lia|done|]. apply Hrec; [done|]. rewrite !length_app, !len_length in *. lia.
Qed.
Lemma parse_text pre s rest data : data = pre ++ (le_bytes 4 (len s + 1) ++ s ++ [Byte.x00]) ++ rest → len s < 2 ^ 31 →
  (len pre + 4 <=? len data) = true ∧ le_at 4 data (len pre) = Ret (len s + 1) ∧ (len pre + 4 + (len s + 1) <=? len data) = true ∧
  sub data (len pre + 4) (len pre + 4 + (len s + 1) - 1) = Ret s.
Proof.
  intros -> Hs. pose proof (len_nonneg s). pose proof (len_nonneg rest). pose proof (len_nonneg pre).
  assert (len (pre ++ (le_bytes 4 (len s + 1) ++ s ++ [Byte.x00]) ++ rest) = len pre + len s + 5 + len rest) as -> by (len_simpl; lia).
  split_and!; [apply Z.leb_le; lia| |apply Z.leb_le; lia|].
  - rewrite <-!app_assoc, (le_at_mid 4) by done. f_equal. apply Z.mod_small. lia.
  - rewrite <-!app_assoc, app_assoc. apply sub_mid; len_simpl; lia.
Qed.

Lemma parse_wire pre w rest extra : wire_ok w → reads_docs (length (pre ++ enc_wire w ++ rest)) → 0 < len pre →
  parse_value rec (pre ++ enc_wire w ++ rest) extra (tag w) (len pre) = Val (shown w, len pre + len (enc_wire w)).
Proof.
  intros Hv Hrec Hpre. pose proof (len_nonneg rest) as Hr.
  set (data := pre ++ enc_wire w ++ rest) in *.
  assert (Hn : len data = len pre + len (enc_wire w) + len rest) by (unfold data; len_simpl; lia).
  unfold parse_value. cbv zeta.
  destruct w as [bits|s|m|l|st d| |d|b|ms| |pt op|s|d|n|n|n|d| |]; cbn [tag]; byte_cases; cbn [wire_ok] in Hv.
  - cbn [enc_wire] in Hn. rewrite Hn, len_le_bytes. destruct (Z.leb_spec (len pre + 8) (len pre + Z.of_nat 8 + len rest)); [|lia].
    unfold data. cbn [enc_wire]. rewrite (le_at_mid 8) by done. cbn [of_go mbind comp_bind]. rewrite Z.mod_small by lia. by rewrite len_le_bytes.
  - destruct (parse_text pre s rest data eq_refl Hv) as (-> & -> & Hs). cbn [of_go mbind comp_bind]. destruct Hs as [-> ->]. cbn [enc_wire].
    assert (len (le_bytes 4 (len s + 1) ++ s ++ [Byte.x00]) = len s + 5) as -> by (len_simpl; lia). pose proof (len_nonneg s).
    destruct (Z.ltb_spec 1 (len s + 1)); cbn [andb of_go mbind comp_bind shown]; [do 2 f_equal; lia|].
    assert (s = []) as -> by (apply len_0_nil; lia). do 2 f_equal. change (len []) with 0. lia.
  - destruct (parse_subdocument pre m rest data (extra + (len data - (len pre + len (wire_doc m)))) eq_refl Hv Hrec Hpre) as (-> & -> & Hs).
    cbn [of_go mbind comp_bind]. destruct Hs as (-> & -> & Hm). cbn [of_go mbind comp_bind]. by rewrite Hm.
  - pose proof (warr_doc_ok l Hv) as Hd. set (m := numbered 0 l) in *.
    destruct (parse_subdocument pre m rest data (extra + (len data - (len pre + len (wire_doc m)))) ltac:(unfold data; by rewrite enc_warr) Hd Hrec Hpre)
      as (-> & -> & Hs).
    cbn [of_go mbind comp_bind]. destruct Hs as (-> & -> & Hm). cbn [of_go mbind comp_bind]. rewrite enc_warr. fold m.
    rewrite Hm. cbn [mbind comp_bind default from_option id]. unfold m. rewrite shown_numbered, arr_items_indexed by (rewrite ?indexed_length; simpl; lia). done.
  - assert (len (enc_wire (WBinary st d)) = len d + 5) as Hl by (cbn [enc_wire]; len_simpl; lia). rewrite Hl in *. pose proof (len_nonneg d).
    destruct (Z.leb_spec (len pre + 5) (len data)); [|lia].
    assert (le_at 4 data (len pre) = Ret (len d)) as ->.
    { unfold data. cbn [enc_wire]. rewrite <-!app_assoc, (le_at_mid 4) by done. f_equal. apply Z.mod_small. lia. }
    cbn [of_go mbind comp_bind]. destruct (Z.leb_spec (len pre + 5 + len d) (len data)); [|lia]. do 2 f_equal. lia.
  - do 2 f_equal. cbn [enc_wire]. by rewrite len_nil, Z.add_0_r.
  - cbn [enc_wire] in Hn. rewrite Hn, Hv. destruct (Z.leb_spec (len pre + 12) (len pre + 12 + len rest)); [|lia].
    unfold data. cbn [enc_wire]. rewrite sub_mid by lia. cbn [of_go mbind comp_bind]. by rewrite Hv.
  - cbn [enc_wire] in Hn. change (len [if b then Byte.x01 else Byte.x00]) with 1 in Hn. rewrite Hn.
    destruct (Z.ltb_spec (len pre) (len pre + 1 + len rest)); [|lia].
    unfold data. cbn [enc_wire]. pose proof (index_app_r pre ([if b then Byte.x01 else Byte.x00] ++ rest) 0) as Hi.
    rewrite Z.add_0_r in Hi. rewrite Hi by lia. by destruct b.
  - cbn [enc_wire] in Hn. rewrite Hn, len_le_bytes. destruct (Z.leb_spec (len pre + 8) (len pre + Z.of_nat 8 + len rest)); [|lia].
    unfold data. cbn [enc_wire]. rewrite (le_at_mid 8) by done. cbn [of_go mbind comp_bind]. by rewrite int64_mod, len_le_bytes.
  - do 2 f_equal. cbn [enc_wire]. by rewrite len_nil, Z.add_0_r.
  - destruct Hv as [Hp Ho].
    assert (data = pre ++ pt ++ Byte.x00 :: (op ++ Byte.x00 :: rest)) as Hd1.
    { unfold data. cbn [enc_wire]. rewrite <-!app_assoc. cbn [app]. by rewrite <-app_assoc. }
    assert (data = (pre ++ pt ++ [Byte.x00]) ++ op ++ Byte.x00 :: rest) as Hd2 by (rewrite Hd1, <-!app_assoc; done).
    assert (len (pre ++ pt ++ [Byte.x00]) = len pre + len pt + 1) as Hl2 by (len_simpl; lia).
    assert (len (enc_wire (WRegex pt op)) = len pt + len op + 2) as Hl by (cbn [enc_wire]; len_simpl; lia).
    pose proof (len_nonneg pt). pose proof (len_nonneg op).
    assert (find_null data (len pre) = Ret (len pre + len pt)) as -> by (rewrite Hd1; by apply find_null_key). cbn [of_go mbind comp_bind].
    assert (sub data (len pre) (len pre + len pt) = Ret pt) as -> by (rewrite Hd1; by apply sub_mid). cbn [of_go mbind comp_bind].
    assert (find_null data (len pre + len pt + 1) = Ret (len pre + len pt + 1 + len op)) as -> by (rewrite Hd2, <-Hl2; by apply find_null_key).
    cbn [of_go mbind comp_bind]. destruct (Z.ltb_spec (len data) (len pre + len pt + 1 + len op)); [lia|]. cbn [andb].
    assert (sub data (len pre + len pt + 1) (len pre + len pt + 1 + len op) = Ret op) as -> by (rewrite Hd2; apply sub_mid; lia).
    cbn [of_go mbind comp_bind]. do 2 f_equal. lia.
  - destruct (parse_text pre s rest data eq_refl Hv) as (-> & -> & Hs). cbn [of_go mbind comp_bind]. destruct Hs as [-> ->]. cbn [enc_wire].
    assert (len (le_bytes 4 (len s + 1) ++ s ++ [Byte.x00]) = len s + 5) as -> by (len_simpl; lia). pose proof (len_nonneg s).
    destruct s as [|c s]; [change (len []) with 0; cbn [Z.add Z.ltb andb shown]; do 2 f_equal; lia|].
    destruct (Z.ltb_spec 1 (len (c :: s) + 1)) as [_|Hx]; [|rewrite len_cons in Hx; pose proof (len_nonneg s); lia].
    cbn [andb of_go mbind comp_bind shown]. do 2 f_equal. lia.
  - assert (len (enc_wire (WScope d)) = len d + 4) as Hl by (cbn [enc_wire]; len_simpl; lia). rewrite Hl in *. pose proof (len_nonneg d).
    destruct (Z.leb_spec (len pre + 4) (len data)); [|lia].
    assert (le_at 4 data (len pre) = Ret (len d + 4)) as ->.
    { unfold data. cbn [enc_wire]. rewrite <-!app_assoc, (le_at_mid 4) by done. f_equal. apply Z.mod_small. lia. }
    cbn [of_go mbind comp_bind]. by destruct (Z.leb_spec (len pre + (len d + 4)) (len data)); [|lia].
  - cbn [enc_wire] in Hn. rewrite Hn, len_le_bytes. destruct (Z.leb_spec (len pre + 4) (len pre + Z.of_nat 4 + len rest)); [|lia].
    unfold data. cbn [enc_wire]. rewrite (le_at_mid 4) by done. cbn [of_go mbind comp_bind]. by rewrite int32_mod, len_le_bytes.
  - cbn [enc_wire] in Hn. rewrite Hn, len_le_bytes. destruct (Z.leb_spec (len pre + 8) (len pre + Z.of_nat 8 + len rest)); [|lia].
    unfold data. cbn [enc_wire]. rewrite (le_at_mid 8) by done. cbn [of_go mbind comp_bind]. rewrite Z.mod_small by lia. by rewrite len_le_bytes.
  - cbn [enc_wire] in Hn. rewrite Hn, len_le_bytes. destruct (Z.leb_spec (len pre + 8) (len pre + Z.of_nat 8 + len rest)); [|lia].
    unfold data. cbn [enc_wire]. rewrite (le_at_mid 8) by done. cbn [of_go mbind comp_bind]. by rewrite int64_mod, len_le_bytes.
  - cbn [enc_wire] in Hn. rewrite Hn, Hv. destruct (Z.leb_spec (len pre + 16) (len pre + 16 + len rest)); [|lia].
    cbn [enc_wire]. by rewrite Hv.
  - do 2 f_equal. cbn [enc_wire]. by rewrite len_nil, Z.add_0_r.
  - do 2 f_equal. cbn [enc_wire]. by rewrite len_nil, Z.add_0_r.
Qed.

Lemma element_len k t v : len (element k t v) = 2 + len k + len v.
Proof. unfold element. rewrite len_cons, len_app, len_cons. lia. Qed.

Lemma parse_element_enc pre k w rest extra : Byte.x00 ∉ k → wire_ok w →
  reads_docs (length (pre ++ element k (tag w) (enc_wire w) ++ rest)) →
  parseBSONElement rec (pre ++ element k (tag w) (enc_wire w) ++ rest) extra (len pre)
    = Val (k, shown w, len pre + len (element k (tag w) (enc_wire w))).
Proof.
  intros Hkn Hv Hrec. pose proof (len_nonneg rest). pose proof (len_nonneg k). pose proof (len_nonneg pre).
  pose proof (len_nonneg (enc_wire w)).
  set (data := pre ++ _) in *. pose proof (element_len k (tag w) (enc_wire w)) as Hel.
  assert (Hn : len data = len pre + (2 + len k + len (enc_wire w)) + len rest) by (unfold data; rewrite !len_app; lia).
  unfold parseBSONElement. rewrite Hn. destruct (Z.leb_spec (len pre + (2 + len k + len (enc_wire w)) + len rest) (len pre)); [lia|].
  assert (index data (len pre) = Ret (tag w)) as ->.
  { unfold data. pose proof (index_app_r pre (element k (tag w) (enc_wire w) ++ rest) 0) as Hi.
    rewrite Z.add_0_r in Hi. rewrite Hi by lia. done. }
  cbn [of_go mbind comp_bind].
  assert (Hdata : data = (pre ++ [tag w]) ++ k ++ Byte.x00 :: enc_wire w ++ rest).
  { unfold data, element. rewrite <-!app_assoc. cbn [app]. by rewrite <-app_assoc. }
  assert (len (pre ++ [tag w]) = len pre + 1) as Hp1 by (rewrite len_app; done).
  assert (find_null data (len pre + 1) = Ret (len pre + 1 + len k)) as ->.
  { rewrite Hdata, <-Hp1. by apply find_null_key. }
  cbn [of_go mbind comp_bind].
  destruct (Z.leb_spec (len pre + (2 + len k + len (enc_wire w)) + len rest) (len pre + 1 + len k)); [lia|].
  assert (sub data (len pre + 1) (len pre + 1 + len k) = Ret k) as -> by (rewrite Hdata; apply sub_mid; lia).
  cbn [of_go mbind comp_bind].
  assert (Hdata2 : data = ((pre ++ [tag w]) ++ k ++ [Byte.x00]) ++ enc_wire w ++ rest).
  { rewrite Hdata, <-!app_assoc. done. }
  assert (len ((pre ++ [tag w]) ++ k ++ [Byte.x00]) = len pre + 1 + len k + 1) as Hp2
    by (len_simpl; lia).
  rewrite <-Hp2. rewrite Hdata2 at 1. rewrite parse_wire; [|done|by rewrite <-Hdata2|lia].
  cbn [mbind comp_bind]. rewrite Hp2, Hel.
  destruct (Z.ltb_spec (len pre + (2 + len k + len (enc_wire w)) + len rest)
    (len pre + 1 + len k + 1 + len (enc_wire w))); [lia|]. do 2 f_equal. lia.
Qed.
End read_back.

(** The elements of a document, one behind the other. *)
Lemma doc_loop_enc rec extra es : ∀ fuel pre acc rest,
  Forall (λ kv, Byte.x00 ∉ kv.1 ∧ wire_ok kv.2) es → (length es < fuel)%nat → 0 < len pre →
  reads_docs rec (length (pre ++ wire_elements es ++ Byte.x00 :: rest)) →
  doc_loop rec fuel (pre ++ wire_elements es ++ Byte.x00 :: rest) extra
    (len pre + len (wire_elements es) + 1) (len pre) acc = Val (fold_left show_entry es acc).
Proof.
  induction es as [|[k v] es IH]; intros [|fuel] pre acc rest Hes Hf Hpre Hrec; simpl in Hf; try lia.
  - cbn [doc_loop]. change (wire_elements []) with (@nil byte). change (len []) with 0.
    destruct (Z.ltb_spec (len pre) (len pre + 0 + 1 - 1)); [lia|]. done.
  - apply Forall_cons in Hes as [[Hk Hv] Hes]. cbn [fst snd] in Hk, Hv.
    change (wire_elements ((k, v) :: es)) with (element k (tag v) (enc_wire v) ++ wire_elements es) in *.
    set (el := element k (tag v) (enc_wire v)) in *.
    assert (2 ≤ len el) as Hel.
    { unfold el. rewrite element_len. pose proof (len_nonneg k). pose proof (len_nonneg (enc_wire v)). lia. }
    pose proof (len_nonneg (wire_elements es)). rewrite <-app_assoc in *.
    set (data := pre ++ el ++ wire_elements es ++ Byte.x00 :: rest) in *.
    cbn [doc_loop]. rewrite len_app.
    destruct (Z.ltb_spec (len pre) (len pre + (len el + len (wire_elements es)) + 1 - 1)); [|lia].
    assert (index data (len pre) = Ret (tag v)) as ->.
    { unfold data. pose proof (index_app_r pre (el ++ wire_elements es ++ Byte.x00 :: rest) 0) as Hi.
      rewrite Z.add_0_r in Hi. rewrite Hi by lia. done. }
    cbn [of_go mbind comp_bind]. assert (beq (tag v) 0 = false) as -> by (by destruct v).
    pose proof (parse_element_enc rec pre k v (wire_elements es ++ Byte.x00 :: rest) extra Hk Hv Hrec) as He.
    fold el data in He. rewrite He. cbn [mbind comp_bind].
    destruct (Z.leb_spec (len pre + len el) (len pre)); [lia|].
    change (match k with [] => acc | _ => doc_set acc k (shown v) end) with (show_entry acc (k, v)). cbn [fold_left].
    specialize (IH fuel (pre ++ el) (show_entry acc (k, v)) rest Hes). rewrite <-!app_assoc in IH.
    cbn [app] in IH. fold data in IH. rewrite len_app in IH.
    replace (len pre + (len el + len (wire_elements es)) + 1) with (len pre + len el + len (wire_elements es) + 1) by lia.
    apply IH; [lia|lia|done].
Qed.

Lemma wire_elements_length m : (length m ≤ length (wire_elements m))%nat.
Proof.
  unfold wire_elements. induction m as [|kv m IH]; [done|]. cbn [map concat length].
  rewrite length_app. unfold element at 1. cbn [length]. lia.
Qed.

Lemma to_map_wire fuel : ∀ m rest extra, wire_doc_ok m → (length (wire_doc m ++ rest) < fuel)%nat →
  to_map fuel (wire_doc m ++ rest) extra = Val (Some (shown_entries m)).
Proof.
  induction fuel as [|fuel IH]; intros m rest extra Hm Hf; [lia|].
  pose proof Hm as [Hsz Hall]. apply fold_wire_ok in Hall. change (enc_wire (WDoc m)) with (wire_doc m) in Hsz.
  assert (len (wire_doc m) = len (wire_elements m) + 5) as Hl by (unfold wire_doc, wrap_doc; len_simpl; lia).
  pose proof (len_nonneg (wire_elements m)). pose proof (len_nonneg rest). rewrite Hl in Hsz.
  cbn [to_map]. rewrite len_app, Hl.
  destruct (Z.ltb_spec (len (wire_elements m) + 5 + len rest) 5); [lia|].
  assert (le_at 4 (wire_doc m ++ rest) 0 = Ret (len (wire_elements m) + 5)) as ->.
  { unfold wire_doc, wrap_doc. rewrite <-!app_assoc, (le_at_head 4) by done. f_equal. apply Z.mod_small. lia. }
  cbn [of_go mbind comp_bind].
  destruct (Z.ltb_spec (len (wire_elements m) + 5) 5); [lia|].
  destruct (Z.ltb_spec (len (wire_elements m) + 5 + len rest) (len (wire_elements m) + 5)); [lia|]. cbn [orb].
  set (pre := le_bytes 4 (len (wire_elements m) + 5)).
  assert (wire_doc m ++ rest = pre ++ wire_elements m ++ Byte.x00 :: rest) as Hdata.
  { unfold wire_doc, wrap_doc, pre. rewrite <-!app_assoc. done. }
  assert (len pre = 4) as Hp by (unfold pre; by rewrite len_le_bytes).
  pose proof (doc_loop_enc (to_map fuel) extra m (S (length (wire_doc m ++ rest))) pre [] rest Hall) as Hloop.
  rewrite Hp in Hloop. replace (4 + len (wire_elements m) + 1) with (len (wire_elements m) + 5) in Hloop by lia.
  rewrite Hdata in Hloop |- *. rewrite Hloop; [done| |lia|].
  - rewrite !length_app. pose proof (wire_elements_length m). lia.
  - intros m' e Hm' Hlt. rewrite <-(app_nil_r (wire_doc m')). apply IH; [done|]. rewrite app_nil_r.
    rewrite Hdata in Hf. lia.
Qed.
Lemma bsonToMap_wire m rest extra : wire_doc_ok m → bsonToMap (wire_doc m ++ rest) extra = Val (Some (shown_entries m)).
Proof. intros Hm. unfold bsonToMap. apply to_map_wire; [done|lia]. Qed.

(** *** The values that are shown as they are *)

Section nested.
Context (P : bson → Prop) (Hnull : P BNull) (Hbool : ∀ b, P (BBool b)) (H32 : ∀ n, P (BInt32 n)) (H64 : ∀ n, P (BInt64 n))
  (Hdouble : ∀ n, P (BDouble n)) (Hstr : ∀ s, P (BStr s))
  (Hdoc : ∀ m, Forall (λ kv, P kv.2) m → P (BDoc m)) (Harr : ∀ l, Forall P l → P (BArr l)).
Fixpoint bson_nested (v : bson) : P v :=
  match v with
  | BNull => Hnull | BBool b => Hbool b | BInt32 n => H32 n | BInt64 n => H64 n | BDouble n => Hdouble n | BStr s => Hstr s
  | BDoc m => Hdoc m ((fix go (m : doc) : Forall (λ kv, P kv.2) m :=
      match m with [] => @List.Forall_nil _ _ | kv :: m => @List.Forall_cons _ (λ kv, P kv.2) _ _ (bson_nested kv.2) (go m) end) m)
  | BArr l => Harr l ((fix go (l : list bson) : Forall P l :=
      match l with [] => @List.Forall_nil _ _ | v :: l => @List.Forall_cons _ P _ _ (bson_nested v) (go l) end) l)
  end.
End nested.

Fixpoint wire_of (v : bson) : wire :=
  match v with
  | BNull => WNull | BBool b => WBool b | BInt32 n => WInt32 n | BInt64 n => WInt64 n | BDouble bits => WDouble bits | BStr s => WStr s
  | BDoc m => WDoc (map (λ kv, (kv.1, wire_of kv.2)) m)
  | BArr l => WArr (map wire_of l)
  end.
Lemma tag_of v : tag (wire_of v) = type_of v.
Proof. by destruct v. Qed.
Lemma enc_of v : enc_wire (wire_of v) = enc_value v.
Proof.
  induction v as [| | | | | |m IH|l IH] using bson_nested; try done; cbn [wire_of enc_wire enc_value]; f_equal.
  - f_equal. rewrite map_map. apply map_ext_Forall. eapply Forall_impl; [exact IH|]. cbv beta. intros kv Hkv. cbn [fst snd]. by rewrite tag_of, Hkv.
  - generalize 0 as i. induction IH as [|v l Hv _ IHl]; intros i; [done|]. cbn [map]. by rewrite tag_of, Hv, IHl.
Qed.
Lemma ok_of v : value_ok v → wire_ok (wire_of v).
Proof.
  induction v as [| | | | | |m IH|l IH] using bson_nested; try done.
  - intros (_ & Hl & Hall). cbn [wire_of wire_ok]. split; [change (len (enc_wire (wire_of (BDoc m))) < 2 ^ 31); by rewrite enc_of|].
    apply fold_wire_ok, Forall_fmap. apply fold_entries_ok in Hall. rewrite Forall_forall in *. intros kv Hkv.
    destruct (Hall kv Hkv) as [[_ Hk] Hv]. split; [done|]. by apply IH.
  - intros (Hl & Hall). cbn [wire_of wire_ok]. split; [change (len (enc_wire (wire_of (BArr l))) < 2 ^ 31); by rewrite enc_of|].
    clear Hl. induction IH as [|v l Hv _ IHl]; [done|]. destruct Hall. split; auto.
Qed.
Lemma shown_of v : value_ok v → shown (wire_of v) = v.
Proof.
  induction v as [| | | | | |m IH|l IH] using bson_nested; try done.
  - intros (Hnd & _ & Hall). apply fold_entries_ok in Hall. cbn [wire_of]. change (shown (WDoc ?m)) with (BDoc (shown_entries m)). f_equal.
    assert (map (prod_map id shown) (map (λ kv, (kv.1, wire_of kv.2)) m) = m) as Hm.
    { rewrite map_map. rewrite <-(map_id m) at 2. apply map_ext_Forall. rewrite Forall_forall in *. intros [k v] Hkv.
      destruct (Hall _ Hkv) as [_ Hv]. unfold prod_map, id. specialize (IH _ Hkv Hv). cbn [fst snd] in *. by rewrite IH. }
    unfold shown_entries. rewrite shown_fresh; [by rewrite Hm|by rewrite Hm|]. rewrite map_map. cbn [fst].
    intros ([k v] & Hk & Hin)%list_elem_of_fmap. rewrite Forall_forall in Hall. destruct (Hall _ Hin) as [[Hne _] _]. by cbn in Hk.
  - intros (_ & Hall). cbn [wire_of shown]. f_equal. rewrite map_map. induction IH as [|v l Hv _ IHl]; [done|]. destruct Hall.
    cbn [map]. by rewrite Hv, IHl.
Qed.
Lemma bsonToMap_enc m rest extra : doc_ok m → bsonToMap (enc_doc m ++ rest) extra = Val (Some m).
Proof.
  intros Hm. pose proof (ok_of _ Hm) as Hw. pose proof (shown_of _ Hm) as Hs. set (wm := map (λ kv, (kv.1, wire_of kv.2)) m).
  change (shown (wire_of (BDoc m))) with (BDoc (shown_entries wm)) in Hs. change (wire_ok (wire_of (BDoc m))) with (wire_doc_ok wm) in Hw.
  rewrite <-(enc_bdoc m), <-enc_of. change (enc_wire (wire_of (BDoc m))) with (wire_doc wm).
  rewrite bsonToMap_wire by done. do 2 f_equal. congruence.
Qed.

(** ** Properties *)

(** C24. Documents nested to any depth, with elements of every type that is
    not deprecated, are converted entry by entry, whatever follows them in the
    message: the value of each is [shown], what is in front of it and behind
    it being of any type and size. Entries without a key are left out, and an
    entry whose key has been there replaces the first; with different keys
    the entries are exactly those of the document, in order. *)
Theorem bson_roundtrip (m : list (list byte * wire)) rest extra (Hm : wire_doc_ok m) :
  bsonToMap (wire_doc m ++ rest) extra = Val (Some (shown_entries m)) ∧
  (NoDup (map fst m) → [] ∉ map fst m → shown_entries m = map (λ kv, (kv.1, shown kv.2)) m).
Proof.
  split; [by apply bsonToMap_wire|]. intros Hnd Hne. unfold shown_entries. rewrite shown_fresh; [|by cbn [app]; rewrite map_map|done].
  by apply map_ext; intros [].
Qed.

(** The conversion ends on every input, however the sizes inside it lie;
    the only way to make it panic is a regular expression in a document that
    ends with the message buffer. *)
Theorem bson_terminates data extra (He : 0 ≤ extra) :
  bsonToMap data extra ≠ NoFuel ∧
  (bsonToMap data extra = Crashed → may_panic data extra).
Proof.
  pose proof (bsonToMap_terminates data extra He) as H. unfold terminates in H.
  destruct (bsonToMap data extra); try done.
Qed.

(** Such a panic exists: a regular expression whose pattern runs to
    the last byte of the message. *)
Theorem bson_regex_panics (key pat : list byte) (size : Z)
  (Hk : Byte.x00 ∉ key) (Hp : Byte.x00 ∉ pat) (Hs : 0 ≤ size < 5) (Hlen : key ++ pat ≠ []) :
  bsonToMap (le_bytes 4 size ++ Byte.x0b :: key ++ Byte.x00 :: pat) 0 = Crashed.
Proof.
  set (data := le_bytes 4 size ++ _). pose proof (len_nonneg key). pose proof (len_nonneg pat).
  assert (Hn : len data = 6 + len key + len pat) by (unfold data; len_simpl; lia).
  assert (1 ≤ len key + len pat) as Hpos.
  { destruct (Z.le_gt_cases 1 (len key + len pat)); [done|]. destruct Hlen. rewrite <-len_app in *.
    apply len_0_nil. pose proof (len_nonneg (key ++ pat)). lia. }
  unfold bsonToMap. cbn [to_map]. rewrite Hn. destruct (Z.ltb_spec (6 + len key + len pat) 5); [lia|].
  assert (le_at 4 data 0 = Ret size) as ->.
  { unfold data. rewrite (le_at_head 4) by done. f_equal. apply Z.mod_small. lia. }
  cbn [of_go mbind comp_bind]. destruct (Z.ltb_spec size 5); [|lia]. cbn [orb doc_loop].
  destruct (Z.ltb_spec 4 (6 + len key + len pat - 1)); [|lia].
  assert (index data 4 = Ret Byte.x0b) as -> by reflexivity. cbn [of_go mbind comp_bind]. byte_cases.
  unfold parseBSONElement. rewrite Hn. destruct (Z.leb_spec (6 + len key + len pat) 4); [lia|].
  assert (index data 4 = Ret Byte.x0b) as -> by reflexivity. cbn [of_go mbind comp_bind].
  assert (find_null data (4 + 1) = Ret (5 + len key)) as ->
    by (apply (find_null_key key (le_bytes 4 size ++ [Byte.x0b]) pat); done).
  cbn [of_go mbind comp_bind]. destruct (Z.leb_spec (6 + len key + len pat) (5 + len key)); [lia|].
  assert (sub data (4 + 1) (5 + len key) = Ret key) as ->
    by (apply (sub_mid (le_bytes 4 size ++ [Byte.x0b]) key (Byte.x00 :: pat)); len_simpl; lia).
  cbn [of_go mbind comp_bind]. unfold parse_value. cbv zeta. byte_cases.
  assert (find_null data (5 + len key + 1) = Ret (6 + len key + len pat)) as ->.
  { assert (data = (le_bytes 4 size ++ Byte.x0b :: key ++ [Byte.x00]) ++ pat) as Hd2
      by (unfold data; rewrite <-app_assoc; cbn [app]; by rewrite <-app_assoc).
    rewrite Hd2. assert (len (le_bytes 4 size ++ Byte.x0b :: key ++ [Byte.x00]) = 6 + len key) as Hp2 by (len_simpl; lia).
    replace (5 + len key + 1) with (6 + len key) by lia. rewrite <-Hp2. by apply find_null_end. }
  cbn [of_go mbind comp_bind]. rewrite sub_Ret by lia. cbn [of_go mbind comp_bind].
  rewrite find_null_beyond by lia. cbn [of_go mbind comp_bind]. rewrite Hn.
  destruct (Z.ltb_spec (6 + len key + len pat) (6 + len key + len pat + 1)); [|lia]. rewrite Z.eqb_refl.
  destruct (Z.leb_spec (6 + len key + len pat + 1) (6 + len key + len pat + 0)); [lia|]. cbn [andb].
  by rewrite sub_Panic by lia.
Qed.

(** ** The properties at work *)

Definition demo_doc : doc :=
  [(gs "find", BStr (gs "users")); (gs "n", BInt32 (-3)); (gs "f", BDouble 4607182418800017408);
   (gs "a", BArr [BNull; BBool true; BDoc [(gs "x", BInt64 5)]]); (gs "e", BDoc [])].

Lemma demo_doc_ok : doc_ok demo_doc.
Proof.
  split_and!.
  - cbn [map fst demo_doc]. by apply (bool_decide_unpack _); vm_compute.
  - vm_compute. reflexivity.
  - assert (∀ s, str_eqb s [] = false → forallb (λ b, negb (Byte.eqb b Byte.x00)) s = true → key_ok s) as Hk.
    { intros s H1 H2. split; [by intros ->|]. rewrite forallb_forall in H2. intros Hin%list_elem_of_In.
      by specialize (H2 _ Hin). }
    assert (NoDup [gs "x"]) as Hx by (apply NoDup_singleton).
    cbn [demo_doc fold_right fst snd value_ok map]. unfold is_int32, is_int64.
    split_and!; first [apply Hk; reflexivity | vm_compute; reflexivity | lia | exact I | exact Hx
      | apply NoDup_nil_2 | vm_compute; congruence].
Qed.

(** An element of every type, one key twice and one that is empty. *)
Definition demo_wire : list (list byte * wire) :=
  [(gs "_id", WObjectId (replicate 12 Byte.x1f)); (gs "d", WDouble 4607182418800017408); (gs "s", WStr (gs "users"));
   (gs "o", WDoc [(gs "t", WTimestamp (2 ^ 63 + 5)); (gs "t", WInt64 (-1))]); (gs "a", WArr [WNull; WBool true; WInt32 (-3)]);
   (gs "b", WBinary Byte.x00 (gs "xyz")); (gs "u", WUndefined); (gs "w", WDate 1709208000123); (gs "", WNull);
   (gs "r", WRegex (gs "^a") (gs "i")); (gs "c", WCode (gs "f()")); (gs "e", WCode []); (gs "z", WScope (gs "abc"));
   (gs "n", WDecimal (replicate 16 Byte.x00)); (gs "x", WMinKey); (gs "y", WMaxKey); (gs "s", WStr (gs "again"))].
Definition demo_shown : doc :=
  [(gs "_id", BStr (gs "ObjectId(" ++ [Byte.x22] ++ gs "1f1f1f1f1f1f1f1f1f1f1f1f" ++ [Byte.x22] ++ gs ")")); (gs "d", BDouble 4607182418800017408);
   (gs "s", BStr (gs "again")); (gs "o", BDoc [(gs "t", BInt64 (-1))]); (gs "a", BArr [BNull; BBool true; BInt32 (-3)]);
   (gs "b", BStr (gs "<binary 3 bytes>")); (gs "u", BStr (gs "undefined")); (gs "w", BStr (gs "2024-02-29T12:00:00.123Z"));
   (gs "r", BStr (gs "/^a/i")); (gs "c", BStr (gs "f()")); (gs "e", BNull); (gs "z", BStr (gs "<javascript with scope>"));
   (gs "n", BStr (gs "<decimal128>")); (gs "x", BStr (gs "<MaxKey>")); (gs "y", BStr (gs "<MinKey>"))].
Lemma demo_wire_ok : wire_doc_ok demo_wire.
Proof.
  split; [vm_compute; reflexivity|]. apply fold_wire_ok.
  repeat apply Forall_cons_2; [..|apply Forall_nil_2]; (split; [by apply (bool_decide_unpack _)|]); cbn [snd wire_ok]; try exact I;
    try (vm_compute; repeat split; congruence).
  - split; [vm_compute; reflexivity|]. split_and!; try exact I; try (by apply (bool_decide_unpack _)); vm_compute; repeat split; congruence.
  - split; by apply (bool_decide_unpack _).
Qed.
Lemma bson_roundtrip_witness : bsonToMap (wire_doc demo_wire ++ gs "tail") 0 = Val (Some demo_shown).
Proof. destruct (bson_roundtrip demo_wire (gs "tail") 0 demo_wire_ok) as [-> _]. vm_compute. reflexivity. Defined.

Lemma bson_terminates_witness : bsonToMap (gs "abcdefgh") 0 ≠ NoFuel.
Proof. apply (bson_terminates (gs "abcdefgh") 0). lia. Defined.

Lemma bson_regex_panics_witness :
  bsonToMap (le_bytes 4 0 ++ Byte.x0b :: gs "k" ++ Byte.x00 :: gs "ab") 0 = Crashed.
Proof. apply bson_regex_panics; [by apply (bool_decide_unpack _); vm_compute..|lia|done]. Defined.
