(* ===== verification/Mongo.v ===== *)
(** * MongoDB (src/mongoport)

    Messages of the wire protocol, the detector and the printer.  Documents
    are in Bson. *)

From S2P Require Import Prelude GoBytes GoStrings Unicode Window Reader Bson BsonProps.

Definition MsgHeaderSize : Z := 16.
Definition MaxMsgSize : Z := 48 * 1024 * 1024.
Definition MinMsgSize : Z := MsgHeaderSize.

Definition OpReply : Z := 1.
Definition OpUpdate : Z := 2001.
Definition OpInsert : Z := 2002.
Definition OpReserved : Z := 2003.
Definition OpQuery : Z := 2004.
Definition OpGetMore : Z := 2005.
Definition OpDelete : Z := 2006.
Definition OpKillCursors : Z := 2007.
Definition OpCommand : Z := 2010.
Definition OpCommandReply : Z := 2011.
Definition OpMsg : Z := 2013.

Definition opcodeNames : list (Z * list byte) :=
  [(OpReply, gs "OP_REPLY"); (OpUpdate, gs "OP_UPDATE"); (OpInsert, gs "OP_INSERT");
   (OpReserved, gs "RESERVED"); (OpQuery, gs "OP_QUERY"); (OpGetMore, gs "OP_GET_MORE");
   (OpDelete, gs "OP_DELETE"); (OpKillCursors, gs "OP_KILL_CURSORS"); (OpCommand, gs "OP_COMMAND");
   (OpCommandReply, gs "OP_COMMANDREPLY"); (OpMsg, gs "OP_MSG")].

Definition OpcodeName (op : Z) : list byte :=
  match assoc op opcodeNames with
  | Some name => name
  | None => gs "UNKNOWN(" ++ Itoa op ++ gs ")"
  end.

Record MsgHeader := mkHeader { MessageLength : Z; RequestID : Z; ResponseTo : Z; OpCode : Z }.

Record MongoMessage := mkMongo {
  Header : MsgHeader; FlagBits : Z; Kind : byte; BodySize : Z;
  Collection : list byte; Command : list byte;
  FullCollectionName : list byte; NumberToSkip : Z; NumberToReturn : Z;
  BSONBody : list byte; NumDocs : Z; Direction : list byte; Summary : list byte }.

(** A message with its header, direction and size; the other fields zero. *)
Definition new_message (h : MsgHeader) (size : Z) (dir : list byte) : MongoMessage :=
  mkMongo h 0 Byte.x00 size [] [] [] 0 0 [] 0 dir [].

Definition set_Summary (s : list byte) (m : MongoMessage) : MongoMessage :=
  mkMongo (Header m) (FlagBits m) (Kind m) (BodySize m) (Collection m) (Command m)
    (FullCollectionName m) (NumberToSkip m) (NumberToReturn m) (BSONBody m) (NumDocs m) (Direction m) s.

Definition TypeAs (t : list byte) (m : MongoMessage) : MongoMessage :=
  set_Summary (t ++ gs " (body=" ++ Itoa (BodySize m) ++ gs " bytes)") m.

(** [for i := 0; i < len(data)-4; i++ { if data[i] == 0x00 { return i + 1 } ... }];
    the second test of the body repeats the first. *)
Fixpoint findBodySection_loop (fuel : nat) (data : list byte) (i : Z) : go Z :=
  match fuel with
  | O => Ret (-1)
  | S fuel =>
      if i <? len data - 4 then
        b ← index data i;
        if beq b 0 then Ret (i + 1) else findBodySection_loop fuel data (i + 1)
      else Ret (-1)
  end.
Definition findBodySection (data : list byte) : go Z := findBodySection_loop (length data) data 0.

Section mongo.
Context `{JsonRuntime}.

Definition parseOpMsg (body : list byte) (m : MongoMessage) : comp MongoMessage :=
  if len body <? 5 then Val (TypeAs (gs "OP_MSG (truncated)") m)
  else
    flags ← of_go (le_at 4 body 0);
    kind ← of_go (index body 4);
    bodyData ← of_go (sub body 5 (len body));
    bodyData ← (if beq kind 1 && (0 <? len bodyData) then
                  idx ← of_go (findBodySection bodyData);
                  if (0 <=? idx) && (idx <? len bodyData) then of_go (sub bodyData idx (len bodyData))
                  else Val bodyData
                else Val bodyData);
    json ← bsonToJSON bodyData 0;
    cmd ← of_go (extractBSONFirstKey bodyData);
    let summary :=
      match cmd with
      | [] => gs "OP_MSG (body=" ++ Itoa (BodySize m) ++ gs " bytes, kind=" ++ Itoa (bz kind) ++ gs ")"
      | _ => gs "OP_MSG " ++ cmd ++ gs " (body=" ++ Itoa (BodySize m) ++ gs " bytes)"
      end in
    coll ← extractBSONValue bodyData cmd;
    Val (mkMongo (Header m) flags kind (BodySize m) coll cmd [] 0 0 json 0 (Direction m) summary).

Definition parseOpQuery (body : list byte) (m : MongoMessage) : comp MongoMessage :=
  if len body <? 12 then
    Val (TypeAs (gs "OP_QUERY (truncated, " ++ Itoa (BodySize m) ++ gs " bytes)") m)
  else
    _ ← of_go (le_at 4 body 0);
    e ← of_go (find_null body 4);
    name ← of_go (sub body 4 e);
    let e := e + 1 in
    '(skip, ret) ← (if e + 8 <=? len body then
                      s ← of_go (le_at 4 body e); r ← of_go (le_at 4 body (e + 4)); Val (int32 s, int32 r)
                    else Val (0, 0));
    Val (mkMongo (Header m) 0 Byte.x00 (BodySize m) [] [] name skip ret [] 0 (Direction m)
           (gs "OP_QUERY " ++ name ++ gs " (skip=" ++ Itoa skip ++ gs ", batch=" ++ Itoa ret ++ gs ")")).

Definition parseOpReply (body : list byte) (m : MongoMessage) : comp MongoMessage :=
  nDocs ← (if 20 <=? len body then
             _ ← of_go (le_at 4 body 0);
             t ← of_go (sub body 4 12); _ ← of_go (le_uint 4 t);
             _ ← of_go (le_at 4 body 12);
             n ← of_go (le_at 4 body 16); Val (int32 n)
           else Val 0);
  json ← (if 20 <? len body then d ← of_go (sub body 20 (len body)); bsonToJSON d 0 else Val []);
  Val (mkMongo (Header m) 0 Byte.x00 (BodySize m) [] [] [] 0 0 json nDocs (Direction m)
         (gs "OP_REPLY (docs=" ++ Itoa nDocs ++ gs ", body=" ++ Itoa (BodySize m) ++ gs " bytes)")).

Definition parseOpInsert (body : list byte) (m : MongoMessage) : comp MongoMessage :=
  _ ← (if 4 <=? len body then f ← of_go (le_at 4 body 0); Val f else Val 0);
  e ← of_go (find_null body 4);
  coll ← of_go (sub body 4 e);
  Val (mkMongo (Header m) 0 Byte.x00 (BodySize m) coll [] [] 0 0 [] 0 (Direction m)
         (gs "OP_INSERT " ++ coll ++ gs " (body=" ++ Itoa (BodySize m) ++ gs " bytes)")).

Definition parseOpCommand (body : list byte) (m : MongoMessage) : comp MongoMessage :=
  if len body <? 8 then Val (TypeAs (gs "OP_COMMAND (truncated)") m)
  else
    e ← of_go (find_null body 0);
    db ← of_go (sub body 0 e);
    let e := e + 1 in
    cmdEnd ← of_go (find_null body e);
    cmdName ← of_go (sub body e cmdEnd);
    Val (mkMongo (Header m) 0 Byte.x00 (BodySize m) [] cmdName [] 0 0 [] 0 (Direction m)
           (gs "OP_COMMAND " ++ db ++ gs "." ++ cmdName ++ gs " (body=" ++ Itoa (BodySize m) ++ gs " bytes)")).

Definition parseBody (body : list byte) (m : MongoMessage) : comp MongoMessage :=
  let op := OpCode (Header m) in
  if op =? OpMsg then parseOpMsg body m
  else if op =? OpQuery then parseOpQuery body m
  else if op =? OpReply then parseOpReply body m
  else if op =? OpInsert then parseOpInsert body m
  else if op =? OpUpdate then Val (TypeAs (gs "UPDATE") m)
  else if op =? OpDelete then Val (TypeAs (gs "DELETE") m)
  else if op =? OpGetMore then Val (TypeAs (gs "GET_MORE") m)
  else if op =? OpKillCursors then Val (TypeAs (gs "KILL_CURSORS") m)
  else if op =? OpCommand then parseOpCommand body m
  else if op =? OpCommandReply then Val (TypeAs (gs "COMMAND_REPLY") m)
  else Val (TypeAs (OpcodeName op) m).

Definition ReadMongoMessage (direction : list byte) : parser MongoMessage :=
  headerBuf ← read_n MsgHeaderSize;
  l ← lift (le_at 4 headerBuf 0); rid ← lift (le_at 4 headerBuf 4);
  rto ← lift (le_at 4 headerBuf 8); op ← lift (le_at 4 headerBuf 12);
  let header := mkHeader (int32 l) (int32 rid) (int32 rto) (int32 op) in
  if (MessageLength header <? MinMsgSize) || (MaxMsgSize <? MessageLength header) then
    throw (ErrText (gs "invalid message length: " ++ Itoa (MessageLength header)))
  else
    let bodyLen := int32 (MessageLength header - MsgHeaderSize) in
    body ← read_n bodyLen;
    liftc (parseBody body (new_message header (len body) direction)).
End mongo.

Definition DetectMongo (data : list byte) : go bool :=
  if len data <? MsgHeaderSize then Ret false
  else
    l ← le_at 4 data 0;
    let msgLen := int32 l in
    if (msgLen <? MinMsgSize) || (MaxMsgSize <? msgLen) then Ret false
    else
      op ← le_at 4 data 12;
      Ret (bool_decide (int32 op ∈ [OpReply; OpUpdate; OpInsert; OpQuery; OpGetMore; OpDelete;
                                    OpKillCursors; OpCommand; OpCommandReply; OpMsg])).

(** ** The printer (src/mongoport/printer.go) *)

Definition ids_line (m : MongoMessage) : list byte :=
  gs "  RequestID: " ++ Itoa (RequestID (Header m)) ++ gs "  ResponseTo: "
  ++ Itoa (ResponseTo (Header m)) ++ [newline].

(** One optional line, written when the text is not empty. *)
Definition opt_line (label text : list byte) : list byte :=
  if str_eqb text [] then [] else label ++ text ++ [newline].

Definition flag_names (bits : Z) : list (list byte) :=
  (if Z.land bits 1 =? 0 then [] else [gs "checksumPresent"])
  ++ (if Z.land bits 2 =? 0 then [] else [gs "moreToCome"])
  ++ (if Z.land bits (Z.shiftl 1 16) =? 0 then [] else [gs "exhaustAllowed"]).

Definition FormatMongoMessage (m : MongoMessage) : list byte :=
  gs "  " ++ Summary m ++ [newline]
  ++ opt_line (gs "  BSON: ") (BSONBody m)
  ++ (if str_eqb (Command m) [] then opt_line (gs "  Collection: ") (Collection m) else [])
  ++ opt_line (gs "  Collection: ") (FullCollectionName m)
  ++ opt_line (gs "  Command: ") (Command m)
  ++ (match flag_names (FlagBits m) with
      | [] => []
      | flags => gs "  Flags: " ++ Join flags (gs ", ") ++ [newline]
      end)
  ++ ids_line m.

Definition FormatMongoResponse (m : MongoMessage) : list byte :=
  gs "  " ++ Summary m ++ [newline]
  ++ opt_line (gs "  BSON: ") (BSONBody m)
  ++ opt_line (gs "  Command: ") (Command m)
  ++ ids_line m.

Definition FormatMongoURL (m : MongoMessage) : list byte := Summary m ++ [newline].

(** ** Reading the header *)

Section facts.
Context `{JsonRuntime}.

Definition read_rest (direction : list byte) (h : MsgHeader) : parser MongoMessage :=
  if (MessageLength h <? MinMsgSize) || (MaxMsgSize <? MessageLength h) then
    throw (ErrText (gs "invalid message length: " ++ Itoa (MessageLength h)))
  else
    let bodyLen := int32 (MessageLength h - MsgHeaderSize) in
    body ← read_n bodyLen;
    liftc (parseBody body (new_message h (len body) direction)).

Definition enc_header (h : MsgHeader) : list byte :=
  le_bytes 4 (MessageLength h) ++ le_bytes 4 (RequestID h) ++ le_bytes 4 (ResponseTo h)
  ++ le_bytes 4 (OpCode h).

Definition header_ok (h : MsgHeader) : Prop :=
  is_int32 (MessageLength h) ∧ is_int32 (RequestID h) ∧ is_int32 (ResponseTo h) ∧ is_int32 (OpCode h).

Lemma read_mongo_header h s direction : header_ok h →
  ReadMongoMessage direction (enc_header h ++ s) = read_rest direction h s.
Proof.
  destruct h as [l rid rto op]. intros (Hl & Hi & Ht & Ho). cbn [MessageLength RequestID ResponseTo OpCode] in *.
  unfold ReadMongoMessage. erewrite bind_Got by (apply read_n_app; [done|vm_compute; congruence]).
  unfold enc_header. cbn [MessageLength RequestID ResponseTo OpCode].
  erewrite bind_Got by (unfold lift; by rewrite (le_at_head 4) by done).
  erewrite bind_Got by (unfold lift; by rewrite (le_at_mid 4 (le_bytes 4 l)) by done).
  erewrite bind_Got by (unfold lift; rewrite app_assoc; by rewrite (le_at_mid 4) by done).
  erewrite bind_Got by (unfold lift; rewrite <-(app_nil_r (le_bytes 4 op)), !app_assoc, <-(app_assoc _ (le_bytes 4 op));
    by rewrite (le_at_mid 4) by done).
  cbv zeta. rewrite !int32_mod by done. done.
Qed.

(** Every input of sixteen bytes starts with a header. *)
Lemma header_of s : 16 ≤ len s → ∃ h, header_ok h ∧ s = enc_header h ++ zdrop 16 s.
Proof.
  intros Hl. set (word a := int32 (le_val (ztake 4 (zdrop a s)))).
  exists (mkHeader (word 0) (word 4) (word 8) (word 12)). split; [split_and!; apply int32_range|].
  assert (∀ a, 0 ≤ a → a + 4 ≤ len s → le_bytes 4 (word a) = ztake 4 (zdrop a s)) as Hw.
  { intros a Ha Ha4. unfold word. set (t := ztake 4 (zdrop a s)).
    assert (length t = 4%nat) as Ht by (apply Nat2Z.inj; rewrite <-len_length; unfold t; len_simpl; lia).
    pose proof (le_bytes_val t) as He. rewrite Ht in He. rewrite <-He at 2.
    change (int32 ?x) with (sint 32 x). pose proof (le_val_range t) as Hr. rewrite len_length, Ht in Hr.
    rewrite <-(le_bytes_mod 4 (sint 32 (le_val t))), <-(le_bytes_mod 4 (le_val t)).
    change (256 ^ Z.of_nat 4) with (2 ^ 32). f_equal. apply (uint_sint 32). lia. }
  unfold enc_header. cbn [MessageLength RequestID ResponseTo OpCode].
  rewrite !Hw by lia. rewrite <-!app_assoc, (zdrop_nonpos 0 s) by lia.
  rewrite <-(ztake_zdrop 4 s) at 1. f_equal.
  rewrite <-(ztake_zdrop 4 (zdrop 4 s)) at 1. f_equal. rewrite zdrop_zdrop by lia.
  rewrite <-(ztake_zdrop 4 (zdrop (4 + 4) s)) at 1. f_equal. rewrite zdrop_zdrop by lia.
  rewrite <-(ztake_zdrop 4 (zdrop (4 + 4 + 4) s)) at 1. f_equal. by rewrite zdrop_zdrop by lia.
Qed.
End facts.

(** ** Panics *)

(** The bodies on which a message of an opcode can panic. *)
Definition can_panic (op : Z) (body : list byte) : Prop :=
  (op = OpInsert ∧ len body < 4) ∨
  (op = OpCommand ∧ 8 ≤ len body ∧ Byte.x00 ∉ body) ∨
  ((op = OpMsg ∨ op = OpReply) ∧ Byte.x0b ∈ body).

Lemma find_null_found data : Byte.x00 ∈ data → ∃ e, find_null data 0 = Ret e ∧ 0 ≤ e < len data.
Proof.
  intros (key & rest & -> & Hk)%list_elem_of_split_l. pose proof (len_nonneg key). pose proof (len_nonneg rest).
  exists (len key). split; [|len_simpl; lia]. by apply (find_null_key key []).
Qed.

Lemma sub_subset {A} (s : list A) a b t x : sub s a b = Ret t → x ∈ t → x ∈ s.
Proof.
  intros (_ & _ & ->)%sub_inv Hx.
  rewrite <-(ztake_zdrop a s), <-(ztake_zdrop (b - a) (zdrop a s)), !elem_of_app. tauto.
Qed.

Lemma findBodySection_returns data : ∀ fuel i, 0 ≤ i →
  returns (findBodySection_loop fuel data i) (λ j, j = -1 ∨ 0 ≤ j < len data).
Proof.
  induction fuel as [|fuel IH]; intros i Hi; [apply returns_Ret; by left|]. cbn [findBodySection_loop].
  destruct (Z.ltb_spec i (len data - 4)); [|apply returns_Ret; by left].
  eapply returns_bind; [apply returns_index; lia|]. intros b _.
  destruct (beq b 0); [apply returns_Ret; right; lia|]. apply IH. lia.
Qed.

Lemma extractBSONFirstKey_returns data : returns (extractBSONFirstKey data) (λ _, True).
Proof.
  unfold extractBSONFirstKey. destruct (Z.ltb_spec (len data) 5); [by apply returns_Ret|].
  eapply returns_bind; [apply returns_index; lia|]. intros typ _. destruct (beq typ 0); [by apply returns_Ret|].
  eapply returns_bind; [apply bson_find_null_returns; lia|]. cbv beta. intros e He.
  eapply returns_mono; [apply returns_sub; lia|done].
Qed.

Lemma extractBSONValue_terminates data field :
  terminates False (extractBSONValue data field) (λ v, v = [] ∨ v = gs "(found)").
Proof.
  unfold extractBSONValue. destruct (len data <? 5); [by left|].
  apply extract_loop_terminates; [lia|]. rewrite len_length. lia.
Qed.

Section panics.
Context `{JsonRuntime}.

Lemma bsonToJSON_terminates data extra : 0 ≤ extra →
  terminates (may_panic data extra) (bsonToJSON data extra) (λ _, True).
Proof.
  intros He. unfold bsonToJSON. eapply terminates_bind; [by apply bsonToMap_terminates|].
  intros [m|] _; done.
Qed.

Lemma parseOpMsg_terminates body m :
  terminates (Byte.x0b ∈ body) (parseOpMsg body m) (λ r, Collection r = Collection m ∨ Collection r = [] ∨ Collection r = gs "(found)").
Proof.
  unfold parseOpMsg. destruct (Z.ltb_spec (len body) 5); [by left|].
  eapply terminates_bind; [apply terminates_go, returns_le_at; lia|]. intros flags _.
  eapply terminates_bind; [apply terminates_go, returns_index; lia|]. intros kind _.
  destruct (returns_sub body 5 (len body)) as (d0 & Hd0 & _); [lia..|]. rewrite Hd0. cbn [of_go mbind comp_bind].
  eapply terminates_bind with (Q := λ d, Byte.x0b ∈ d → Byte.x0b ∈ body).
  { destruct (_ && _); [|intros Hx; by eapply sub_subset].
    destruct (findBodySection_returns d0 (length d0) 0 ltac:(lia)) as (i & Hi & Hir). unfold findBodySection.
    rewrite Hi. cbn [of_go mbind comp_bind].
    destruct (Z.leb_spec 0 i), (Z.ltb_spec i (len d0)); cbn [andb];
      try (intros Hx; by eapply sub_subset).
    destruct (returns_sub d0 i (len d0)) as (d & Hd & _); [lia..|]. rewrite Hd. intros Hx.
    eapply sub_subset; [exact Hd0|]. by eapply sub_subset. }
  intros d Hd.
  eapply terminates_bind.
  { eapply terminates_mono; [apply (bsonToJSON_terminates d 0); lia| |done]. intros [_ Hx]. auto. }
  intros json _. eapply terminates_bind; [apply terminates_go, extractBSONFirstKey_returns|]. intros cmd _.
  eapply terminates_bind with (Q := λ v, v = [] ∨ v = gs "(found)").
  { eapply terminates_mono; [apply extractBSONValue_terminates|done|done]. }
  intros coll Hc. by right.
Qed.

Lemma parseOpQuery_terminates body m : terminates False (parseOpQuery body m) (λ _, True).
Proof.
  unfold parseOpQuery. destruct (Z.ltb_spec (len body) 12); [done|].
  eapply terminates_bind; [apply terminates_go, returns_le_at; lia|]. intros f _.
  eapply terminates_bind; [apply terminates_go, bson_find_null_returns; lia|]. cbv beta. intros e He.
  eapply terminates_bind; [apply terminates_go, returns_sub; lia|]. intros name _.
  eapply terminates_bind with (Q := λ _, True); [|by intros [??] _].
  destruct (Z.leb_spec (e + 1 + 8) (len body)); [|done].
  eapply terminates_bind; [apply terminates_go, returns_le_at; lia|]. intros s _.
  eapply terminates_bind; [apply terminates_go, returns_le_at; lia|]. done.
Qed.

Lemma parseOpReply_terminates body m : terminates (Byte.x0b ∈ body) (parseOpReply body m) (λ _, True).
Proof.
  unfold parseOpReply. eapply terminates_bind with (Q := λ _, True).
  { destruct (Z.leb_spec 20 (len body)); [|done].
    eapply terminates_bind; [apply terminates_go, returns_le_at; lia|]. intros ? _.
    eapply terminates_bind; [apply terminates_go, returns_sub; lia|]. intros t [_ Ht].
    unfold le_uint. destruct (Z.leb_spec 4 (len t)); [|lia]. cbn [of_go mbind comp_bind].
    eapply terminates_bind; [apply terminates_go, returns_le_at; lia|]. intros ? _.
    eapply terminates_bind; [apply terminates_go, returns_le_at; lia|]. done. }
  intros n _. eapply terminates_bind with (Q := λ _, True); [|done].
  destruct (Z.ltb_spec 20 (len body)); [|done].
  destruct (returns_sub body 20 (len body)) as (d & Hd & _); [lia..|]. rewrite Hd. cbn [of_go mbind comp_bind].
  eapply terminates_mono; [apply (bsonToJSON_terminates d 0); lia| |done].
  intros [_ Hx]. by eapply sub_subset.
Qed.

Lemma parseOpInsert_spec body m :
  terminates (len body < 4) (parseOpInsert body m) (λ _, 4 ≤ len body).
Proof.
  unfold parseOpInsert. destruct (Z.leb_spec 4 (len body)).
  - destruct (returns_le_at 4 body 0) as (f & -> & _); [lia..|]. cbn [of_go mbind comp_bind].
    eapply terminates_bind; [apply terminates_go, bson_find_null_returns; lia|]. cbv beta. intros e He.
    eapply terminates_bind; [apply terminates_go, returns_sub; lia|]. done.
  - cbn [mbind comp_bind]. rewrite find_null_beyond by lia. cbn [of_go mbind comp_bind].
    rewrite sub_Panic by lia. simpl. lia.
Qed.

Lemma parseOpCommand_spec body m :
  terminates (8 ≤ len body ∧ Byte.x00 ∉ body) (parseOpCommand body m) (λ _, len body < 8 ∨ Byte.x00 ∈ body).
Proof.
  unfold parseOpCommand. destruct (Z.ltb_spec (len body) 8); [by left|].
  destruct (decide (Byte.x00 ∈ body)) as [Hin|Hnin].
  - destruct (find_null_found body Hin) as (e & -> & He). cbn [of_go mbind comp_bind].
    eapply terminates_bind; [apply terminates_go, returns_sub; lia|]. intros db _.
    eapply terminates_bind; [apply terminates_go, (bson_find_null_returns body (e + 1)); lia|]. cbv beta. intros c Hc.
    eapply terminates_bind; [apply terminates_go, returns_sub; lia|]. intros. by right.
  - pose proof (find_null_end body [] Hnin) as He. change (len []) with 0 in He. cbn [app] in He.
    rewrite He. cbn [of_go mbind comp_bind]. rewrite sub_Ret by lia. cbn [of_go mbind comp_bind].
    rewrite find_null_beyond by lia. cbn [of_go mbind comp_bind]. rewrite sub_Panic by lia. done.
Qed.

Lemma parseBody_terminates body m :
  terminates (can_panic (OpCode (Header m)) body) (parseBody body m) (λ _, True).
Proof.
  unfold parseBody, can_panic. cbv zeta. set (op := OpCode (Header m)).
  destruct (Z.eqb_spec op OpMsg) as [->|].
  { eapply terminates_mono; [apply parseOpMsg_terminates| |done]. tauto. }
  destruct (Z.eqb_spec op OpQuery) as [->|].
  { eapply terminates_mono; [apply parseOpQuery_terminates|done|done]. }
  destruct (Z.eqb_spec op OpReply) as [->|].
  { eapply terminates_mono; [apply parseOpReply_terminates| |done]. tauto. }
  destruct (Z.eqb_spec op OpInsert) as [->|].
  { eapply terminates_mono; [apply parseOpInsert_spec| |done]. tauto. }
  repeat (destruct (op =? OpUpdate); [done|]). repeat (destruct (op =? OpDelete); [done|]).
  destruct (op =? OpGetMore); [done|]. destruct (op =? OpKillCursors); [done|].
  destruct (Z.eqb_spec op OpCommand) as [->|].
  { eapply terminates_mono; [apply parseOpCommand_spec| |done]. tauto. }
  by destruct (op =? OpCommandReply).
Qed.

(** A whole message in front of the input. *)
Lemma read_body direction h body rest : 16 ≤ MessageLength h ≤ MaxMsgSize → len body = MessageLength h - 16 →
  read_rest direction h (body ++ rest) = liftc (parseBody body (new_message h (len body) direction)) rest.
Proof.
  intros Hl Hb. unfold read_rest. change MinMsgSize with 16.
  destruct (Z.ltb_spec (MessageLength h) 16); [lia|].
  destruct (Z.ltb_spec MaxMsgSize (MessageLength h)); [lia|]. cbn [orb]. unfold MaxMsgSize in Hl.
  unfold int32, MsgHeaderSize. rewrite sint_small by lia.
  erewrite bind_Got by (apply read_n_app; [done|unfold max_alloc; lia]). done.
Qed.

Lemma read_mongo_rest_spec direction h s :
  progress 0 (read_rest direction h) s ∧
  (read_rest direction h s = Panicked → ∃ body rest, s = body ++ rest ∧ can_panic (OpCode h) body).
Proof.
  destruct (decide (16 ≤ MessageLength h ≤ MaxMsgSize)) as [Hl|Hl].
  2:{ unfold progress, read_rest. change MinMsgSize with 16.
    destruct ((MessageLength h <? 16) || (MaxMsgSize <? MessageLength h)) eqn:E.
    - unfold throw. split; [lia|done].
    - zbool. lia. }
  destruct (read_n_cases (MessageLength h - 16) s) as [(body & rest & _ & -> & Hb)|(e & He & _)].
  1: unfold max_alloc, MaxMsgSize in *; lia.
  - unfold progress. rewrite read_body by (done || lia). rewrite length_app.
    pose proof (parseBody_terminates body (new_message h (len body) direction)) as Ht. unfold terminates in Ht.
    destruct (parseBody body _); simpl; [split; [lia|done]| |done].
    split; [done|]. intros _. by exists body, rest.
  - unfold progress, read_rest. change MinMsgSize with 16.
    destruct (Z.ltb_spec (MessageLength h) 16); [lia|].
    destruct (Z.ltb_spec MaxMsgSize (MessageLength h)); [lia|]. cbn [orb]. unfold MaxMsgSize in *.
    unfold int32, MsgHeaderSize. rewrite sint_small by lia. unfold mbind, parser_bind. rewrite He.
    simpl. split; [lia|done].
Qed.
End panics.

(** ** Commands *)

Lemma first_element k v m : enc_doc ((k, v) :: m) =
  le_bytes 4 (len (enc_elements ((k, v) :: m)) + 5)
  ++ type_of v :: k ++ Byte.x00 :: enc_value v ++ enc_elements m ++ [Byte.x00].
Proof.
  unfold enc_doc, wrap_doc. f_equal.
  change (enc_elements ((k, v) :: m)) with (element k (type_of v) (enc_value v) ++ enc_elements m).
  unfold element. cbn [app]. f_equal. by rewrite <-!app_assoc.
Qed.

Section command.
Context (k : list byte) (v : bson) (m : doc) (tail : list byte).
Context (Hk : key_ok k).
Let size := le_bytes 4 (len (enc_elements ((k, v) :: m)) + 5).
Let rest := enc_value v ++ enc_elements m ++ [Byte.x00] ++ tail.
Let data := enc_doc ((k, v) :: m) ++ tail.

Lemma command_data : data = (size ++ [type_of v]) ++ k ++ Byte.x00 :: rest.
Proof.
  unfold data, rest, size. rewrite first_element, <-!app_assoc. cbn [app]. rewrite <-!app_assoc.
  cbn [app]. by rewrite <-!app_assoc.
Qed.

Lemma command_len : 7 ≤ len data ∧ len (size ++ [type_of v]) = 5.
Proof.
  rewrite command_data. unfold rest, size. pose proof (len_nonneg k). pose proof (len_nonneg (enc_value v)).
  pose proof (len_nonneg (enc_elements m)). pose proof (len_nonneg tail). split; len_simpl; lia.
Qed.

Lemma command_type : index data 4 = Ret (type_of v) ∧ beq (type_of v) 0 = false.
Proof. split; [by rewrite command_data|by destruct v]. Qed.

Lemma command_key : find_null data 5 = Ret (5 + len k) ∧ sub data 5 (5 + len k) = Ret k.
Proof.
  destruct command_len as [_ H5]. destruct Hk as [_ Hn]. rewrite command_data. split.
  - rewrite <-H5. by apply find_null_key.
  - apply sub_mid; lia.
Qed.

Lemma firstKey_enc : extractBSONFirstKey data = Ret k.
Proof.
  destruct command_len as [Hl _], command_type as [Ht H0], command_key as [Hf Hs].
  unfold extractBSONFirstKey. destruct (Z.ltb_spec (len data) 5); [lia|].
  rewrite Ht. cbn [mbind go_bind]. rewrite H0, Hf. cbn [mbind go_bind]. done.
Qed.

Lemma extractValue_enc : extractBSONValue data k = Val (gs "(found)").
Proof.
  destruct command_len as [Hl _], command_type as [Ht H0], command_key as [Hf Hs].
  unfold extractBSONValue. destruct (Z.ltb_spec (len data) 5); [lia|]. cbn [extract_loop].
  destruct (Z.ltb_spec 4 (len data - 1)); [|lia]. rewrite Ht. cbn [of_go mbind comp_bind]. rewrite H0.
  change (4 + 1) with 5. rewrite Hf. cbn [of_go mbind comp_bind]. rewrite Hs. cbn [of_go mbind comp_bind].
  pose proof (len_nonneg k).
  destruct (skipBSONValue_returns data (5 + len k + 1) (type_of v)) as (p & -> & _); [lia|].
  cbn [of_go mbind comp_bind]. rewrite str_eqb_refl. destruct Hk as [Hne _].
  by destruct (str_eqb_spec k []).
Qed.
End command.

Definition enc_op_msg (flags : Z) (m : doc) (tail : list byte) : list byte :=
  le_bytes 4 flags ++ [Byte.x00] ++ enc_doc m ++ tail.

(** ** Properties *)

Section properties.
Context `{JsonRuntime}.

(** C26. A command in OP_MSG is read back: the flags, the name of the
    command, and the JSON of exactly the document that was sent; but the
    collection shown is the placeholder [(found)] whatever the collection. *)
Theorem op_msg_roundtrip direction h flags k v m tail rest
  (Hh : header_ok h) (Hop : OpCode h = OpMsg) (Hm : doc_ok ((k, v) :: m)) (Hf : 0 ≤ flags < 2 ^ 32)
  (Hlen : MessageLength h = 16 + len (enc_op_msg flags ((k, v) :: m) tail))
  (Hmax : MessageLength h ≤ MaxMsgSize) :
  ∃ msg, ReadMongoMessage direction (enc_header h ++ enc_op_msg flags ((k, v) :: m) tail ++ rest) = Got msg rest ∧
    Header msg = h ∧ FlagBits msg = flags ∧ Command msg = k ∧
    BSONBody msg = mapToJSON ((k, v) :: m) ∧ Collection msg = gs "(found)".
Proof.
  pose proof Hm as (_ & _ & (Hk & _)). cbn [fst] in Hk.
  set (body := enc_op_msg flags ((k, v) :: m) tail) in *. pose proof (len_nonneg body).
  rewrite read_mongo_header by done. rewrite read_body by lia. unfold parseBody. cbn [new_message Header].
  rewrite Hop. change (OpMsg =? OpMsg) with true. cbv iota. unfold parseOpMsg.
  set (d := enc_doc ((k, v) :: m) ++ tail).
  assert (body = le_bytes 4 flags ++ [Byte.x00] ++ d) as Hbody by done.
  assert (len body = 5 + len d) as Hbl by (rewrite Hbody; len_simpl; lia).
  pose proof (len_nonneg d). rewrite Hbl. destruct (Z.ltb_spec (5 + len d) 5); [lia|].
  assert (le_at 4 body 0 = Ret flags) as ->.
  { rewrite Hbody, (le_at_head 4) by done. f_equal. apply Z.mod_small. lia. }
  assert (index body 4 = Ret Byte.x00) as -> by reflexivity.
  assert (sub body 5 (5 + len d) = Ret d) as ->.
  { rewrite Hbody, app_assoc, <-(app_nil_r d) at 1. apply sub_mid; len_simpl; lia. }
  cbn [of_go mbind comp_bind]. change (beq Byte.x00 1 && (0 <? len d)) with false. cbn [mbind comp_bind].
  unfold bsonToJSON, d. rewrite bsonToMap_enc by done. cbn [mbind comp_bind].
  rewrite firstKey_enc by done. cbn [of_go mbind comp_bind]. rewrite extractValue_enc by done.
  cbn [mbind comp_bind liftc]. eexists. split; [reflexivity|]. done.
Qed.

Lemma progress_ReadMongoMessage direction s : progress 16 (ReadMongoMessage direction) s.
Proof.
  unfold ReadMongoMessage. apply progress_then; [apply (progress_read_n 16)|]. intros. progress_steps.
  match goal with |- progress _ (liftc (parseBody ?b ?m)) _ => pose proof (parseBody_terminates b m) as Ht end.
  unfold progress, liftc, terminates in *. by destruct (parseBody _ _).
Qed.

(** The reader ends on every input, takes at least the header when it
    succeeds, and panics at most on three kinds of message: an insert whose
    body is shorter than four bytes, a command without NUL, and a message or
    reply with a regular expression in its document. *)
Theorem ReadMongoMessage_total direction s :
  progress 16 (ReadMongoMessage direction) s ∧
  (ReadMongoMessage direction s = Panicked →
   ∃ h body rest, s = enc_header h ++ body ++ rest ∧ can_panic (OpCode h) body).
Proof.
  split; [apply progress_ReadMongoMessage|]. destruct (Z.le_gt_cases 16 (len s)) as [Hl|Hl].
  - destruct (header_of s Hl) as (h & Hh & Hs). set (s' := zdrop 16 s) in *.
    assert (ReadMongoMessage direction s = read_rest direction h s') as ->
      by (rewrite Hs at 1; by apply read_mongo_header).
    destruct (read_mongo_rest_spec direction h s') as [_ Hpan].
    intros (body & rest & Hb & Hc)%Hpan. exists h, body, rest. split; [|done]. by rewrite Hs, Hb.
  - destruct (read_n_cases 16 s) as [(b & r & _ & -> & ?)|(e & He & _)]; [unfold max_alloc; lia| |].
    { rewrite len_app in Hl. pose proof (len_nonneg r). lia. }
    unfold ReadMongoMessage, mbind, parser_bind, MsgHeaderSize. by rewrite He.
Qed.

(** The first two kinds of message do panic. *)
Theorem mongo_panics direction h body rest
  (Hh : header_ok h) (Hlen : MessageLength h = 16 + len body) (Hmax : MessageLength h ≤ MaxMsgSize)
  (Hbad : OpCode h = OpInsert ∧ len body < 4 ∨ OpCode h = OpCommand ∧ 8 ≤ len body ∧ Byte.x00 ∉ body) :
  ReadMongoMessage direction (enc_header h ++ body ++ rest) = Panicked.
Proof.
  pose proof (len_nonneg body). rewrite read_mongo_header, read_body by (done || lia).
  unfold parseBody. cbn [new_message Header]. destruct Hbad as [[-> Hb]|(-> & Hb & Hn)].
  - change (OpInsert =? OpMsg) with false. change (OpInsert =? OpQuery) with false.
    change (OpInsert =? OpReply) with false. change (OpInsert =? OpInsert) with true. cbv iota.
    pose proof (parseOpInsert_spec body (new_message h (len body) direction)) as Hs. unfold terminates in Hs.
    destruct (parseOpInsert _ _); [lia|done|done].
  - cbn [Z.eqb OpCommand OpMsg OpQuery OpReply OpInsert OpUpdate OpDelete OpGetMore OpKillCursors Pos.eqb].
    pose proof (parseOpCommand_spec body (new_message h (len body) direction)) as Hs. unfold terminates in Hs.
    destruct (parseOpCommand _ _); [|done|done]. destruct Hs as [?|?]; [lia|done].
Qed.
End properties.

Lemma DetectMongo_returns data : returns (DetectMongo data) (λ _, True).
Proof.
  unfold DetectMongo, MsgHeaderSize. destruct (Z.ltb_spec (len data) 16); [by apply returns_Ret|].
  eapply returns_bind; [apply returns_le_at; lia|]. intros l _. cbv zeta.
  destruct (_ || _); [by apply returns_Ret|].
  eapply returns_bind; [apply returns_le_at; lia|]. intros. by apply returns_Ret.
Qed.
(** The detector never panics and takes every message whose header has a
    known opcode and an admissible length. *)
Theorem DetectMongo_total data h rest (Hh : header_ok h)
  (Hlen : 16 ≤ MessageLength h ≤ MaxMsgSize)
  (Hop : OpCode h ∈ [OpReply; OpUpdate; OpInsert; OpQuery; OpGetMore; OpDelete;
                     OpKillCursors; OpCommand; OpCommandReply; OpMsg]) :
  DetectMongo data ≠ Panic ∧ DetectMongo (enc_header h ++ rest) = Ret true.
Proof.
  split.
  - apply returns_True, DetectMongo_returns.
  - destruct h as [l rid rto op]. destruct Hh as (H1 & H2 & H3 & H4).
    cbn [MessageLength RequestID ResponseTo OpCode] in *. unfold enc_header.
    cbn [MessageLength RequestID ResponseTo OpCode]. pose proof (len_nonneg rest).
    set (s := _ ++ rest). assert (len s = 16 + len rest) as Hs by (unfold s; len_simpl; lia).
    unfold DetectMongo, MsgHeaderSize. rewrite Hs. destruct (Z.ltb_spec (16 + len rest) 16); [lia|].
    assert (le_at 4 s 0 = Ret (l mod 256 ^ Z.of_nat 4)) as -> by (unfold s; rewrite <-!app_assoc; by apply (le_at_head 4)).
    cbn [mbind go_bind]. rewrite int32_mod by done. change MinMsgSize with 16.
    destruct (Z.ltb_spec l 16), (Z.ltb_spec MaxMsgSize l); try lia. cbn [orb].
    assert (le_at 4 s 12 = Ret (op mod 256 ^ Z.of_nat 4)) as ->.
    { unfold s. rewrite <-!app_assoc, !(app_assoc _ _ (le_bytes 4 op ++ rest)).
      apply (le_at_mid 4); len_simpl; lia. }
    cbn [mbind go_bind]. rewrite int32_mod by done. by rewrite bool_decide_true.
Qed.

(** ** The properties at work *)

Definition demo_runtime : JsonRuntime := {| FormatFloat := λ _, gs "1"; map_order := id |}.
Definition demo_body : list byte := enc_op_msg 0 demo_doc (gs "sum!").
Definition demo_header : MsgHeader := mkHeader (16 + len demo_body) 9 0 OpMsg.

Lemma op_msg_roundtrip_witness :
  ∃ msg, ReadMongoMessage (H := demo_runtime) (gs "C->S") (enc_header demo_header ++ demo_body ++ []) = Got msg [] ∧
    Command msg = gs "find" ∧ Collection msg = gs "(found)".
Proof.
  destruct (op_msg_roundtrip (H := demo_runtime) (gs "C->S") demo_header 0 (gs "find") (BStr (gs "users"))
    (tl demo_doc) (gs "sum!") []) as (msg & Hr & _ & _ & Hc & _ & Hcol).
  - unfold header_ok, is_int32. vm_compute. repeat split; congruence.
  - reflexivity.
  - exact demo_doc_ok.
  - lia.
  - reflexivity.
  - vm_compute. congruence.
  - exact (ex_intro _ msg (conj Hr (conj Hc Hcol))).
Defined.

Lemma mongo_panics_witness :
  ReadMongoMessage (H := demo_runtime) (gs "C->S") (enc_header (mkHeader 16 1 0 OpInsert) ++ [] ++ []) = Panicked.
Proof.
  apply (mongo_panics (H := demo_runtime)).
  - unfold header_ok, is_int32. vm_compute. repeat split; congruence.
  - reflexivity.
  - vm_compute. congruence.
  - left. split; [reflexivity|]. vm_compute. reflexivity.
Defined.

Lemma DetectMongo_total_witness : DetectMongo (enc_header demo_header ++ []) = Ret true.
Proof.
  apply (DetectMongo_total []).
  - unfold header_ok, is_int32. vm_compute. repeat split; congruence.
  - vm_compute. split; congruence.
  - unfold demo_header. cbn [OpCode]. do 9 right. by left.
Defined.
