(* ===== verification/Http.v ===== *)
(** * HTTP/1.x (src/httpport)

    The reader of requests and responses, the detector and the printer. *)

From S2P Require Import Prelude GoBytes GoStrings Unicode Window Reader.

Definition httpMethods : list (list byte) :=
  map gs ["GET"; "POST"; "PUT"; "DELETE"; "HEAD"; "OPTIONS"; "PATCH"; "TRACE"; "CONNECT"]%string.

Record HTTPMessage := mkHTTP {
  Type_ : list byte; RawLine : list byte; Method : list byte; Path : list byte;
  StatusCode : Z; StatusText : list byte;
  Headers : gmap (list byte) (list byte); RawHeaders : list (list byte); BodySize : Z }.

(** ** [strings.SplitN(s, sep, 3)] and [fmt.Sscanf(s, "%d", &n)] *)

Definition SplitN3 (s sep : list byte) : list (list byte) :=
  match SplitN2 s sep with
  | [a; rest] => a :: SplitN2 rest sep
  | l => l
  end.

(** White space before the number; a line feed is an error. *)
Fixpoint skip_space (fuel : nat) (s : list byte) : option (list byte) :=
  match fuel, s with
  | S fuel, b :: s' =>
      if beq b 13 && HasPrefix s' [newline] then skip_space fuel s'
      else if beq b 10 then None
      else
        let '(r, n) := decode_rune s in
        if is_space r then skip_space fuel (zdrop n s) else Some s
  | _, _ => Some s
  end.

Fixpoint digit_prefix (s : list byte) : list byte :=
  match s with
  | [] => []
  | b :: s => if is_digit b then b :: digit_prefix s else []
  end.

(** The number scanned; [None] leaves the variable as it is. *)
Definition Sscanf_d (s : list byte) : option Z :=
  match skip_space (length s) s with
  | None => None
  | Some s =>
      match s with
      | b :: s' =>
          if beq b 45 || beq b 43
          then match digit_prefix s' with [] => None | ds => Atoi (b :: ds) end
          else match digit_prefix s with [] => None | ds => Atoi ds end
      | [] => None
      end
  end.

Section http.
Context `{UnicodeTables}.

(** The header lines up to an empty one, or to the end of the input. *)
Fixpoint headers_loop (fuel : nat) (headers : gmap (list byte) (list byte)) (raw : list (list byte))
  : parser (gmap (list byte) (list byte) * list (list byte)) :=
  match fuel with
  | O => spin
  | S fuel =>
      r ← try read_string;
      match r with
      | inr _ => mret (headers, raw)
      | inl hdrLine =>
          let hdrLine := TrimRight hdrLine crlf in
          if str_eqb hdrLine [] then mret (headers, raw)
          else
            let raw := raw ++ [hdrLine] in
            let idx := Index hdrLine (gs ":") in
            if 0 <? idx then
              key ← lift (sub hdrLine 0 idx);
              val ← lift (sub hdrLine (idx + 1) (len hdrLine));
              headers_loop fuel (<[ToLower (TrimSpace key) := TrimSpace val]> headers) raw
            else headers_loop fuel headers raw
      end
  end.

(** The first line: a request, a response, or neither. *)
Definition first_line (line : list byte) (parts : list (list byte)) : option HTTPMessage :=
  match parts with
  | p0 :: p1 :: more =>
      if bool_decide (p0 ∈ httpMethods)
      then Some (mkHTTP (gs "request") line p0 p1 0 [] ∅ [] 0)
      else if HasPrefix p0 (gs "HTTP/")
      then Some (mkHTTP (gs "response") line [] [] (default 0 (Sscanf_d p1))
                   (match more with p2 :: _ => p2 | [] => [] end) ∅ [] 0)
      else None
  | _ => None
  end.

Definition with_headers (m : HTTPMessage) (h : gmap (list byte) (list byte)) (raw : list (list byte)) : HTTPMessage :=
  mkHTTP (Type_ m) (RawLine m) (Method m) (Path m) (StatusCode m) (StatusText m) h raw
    (match h !! gs "content-length" with
     | Some cl => default (BodySize m) (Sscanf_d cl)
     | None => BodySize m
     end).

Definition ReadHTTPMessage : parser HTTPMessage :=
  line ← read_string;
  let line := TrimRight line crlf in
  if str_eqb line [] then throw EOF
  else
    let parts := SplitN3 line (gs " ") in
    if len parts <? 2 then throw (ErrText (gs "malformed HTTP line: " ++ line))
    else
      match first_line line parts with
      | None => throw (ErrText (gs "not HTTP: " ++ line))
      | Some msg =>
          '(headers, raw) ← (λ s, headers_loop (S (length s)) ∅ [] s);
          mret (with_headers msg headers raw)
      end.
End http.

Definition DetectHTTP (data : list byte) : bool :=
  if len data <? 8 then false
  else existsb (λ m, HasPrefix data (m ++ gs " ")) httpMethods || HasPrefix data (gs "HTTP/1.").

(** ** The printer *)

Definition key_headers : list (list byte) :=
  map gs ["host"; "content-type"; "content-length"; "user-agent"; "server"; "location"]%string.

Definition FormatHTTP (msg : HTTPMessage) : list byte :=
  (if str_eqb (Type_ msg) (gs "request")
   then gs "  " ++ Method msg ++ gs " " ++ Path msg ++ [newline]
   else gs "  " ++ Itoa (StatusCode msg) ++ gs " " ++ StatusText msg ++ [newline])
  ++ concat (map (λ key, match Headers msg !! key with
                         | Some v => gs "  " ++ key ++ gs ": " ++ v ++ [newline]
                         | None => []
                         end) key_headers).

Definition FormatHTTPURL (msg : HTTPMessage) : list byte :=
  if str_eqb (Type_ msg) (gs "request")
  then Method msg ++ gs " " ++ Path msg ++ [newline]
  else Itoa (StatusCode msg) ++ gs " " ++ StatusText msg ++ [newline].

(** ** Reading messages back *)

Definition space : byte := Byte.x20.
Definition line_text (l : list byte) : Prop := Forall (λ b, b ∉ crlf) l.

Lemma line_text_bool l : forallb (λ b, negb (beq b 13) && negb (beq b 10)) l = true → line_text l.
Proof.
  rewrite forallb_forall. intros Hl. apply Forall_forall. intros b Hb%list_elem_of_In Hin.
  specialize (Hl b Hb). unfold crlf in Hin.
  apply elem_of_cons in Hin as [->|Hin]; [done|]. by apply list_elem_of_singleton in Hin as ->.
Qed.
Lemma word_line w : word w → line_text w.
Proof.
  intros [_ H]. eapply Forall_impl; [exact H|]. cbv beta. intros b Hb Hin. unfold crlf in Hin.
  apply elem_of_cons in Hin as [->|Hin]; [done|]. apply list_elem_of_singleton in Hin as ->. done.
Qed.
Lemma word_no_byte w b : word w → word_byte b = false → b ∉ w.
Proof. intros [_ H] Hb Hin. rewrite Forall_forall in H. specialize (H b Hin). congruence. Qed.

Lemma read_string_line l rest : line_text l → read_string (l ++ crlf ++ rest) = Got (l ++ crlf) rest.
Proof.
  intros Hl. unfold read_string, crlf.
  replace (l ++ [Byte.x0d; Byte.x0a] ++ rest) with ((l ++ [Byte.x0d]) ++ newline :: rest) by by rewrite <-app_assoc.
  rewrite split_line_app; [by rewrite <-app_assoc|].
  intros [Hin|Hin%list_elem_of_singleton]%elem_of_app; [|done].
  unfold line_text in Hl. rewrite Forall_forall in Hl. apply (Hl newline Hin). unfold crlf. set_solver.
Qed.
Lemma TrimRight_line l : line_text l → TrimRight (l ++ crlf) crlf = l.
Proof.
  intros Hl. apply TrimRight_crlf.
  - unfold crlf. repeat constructor; set_solver.
  - destruct l as [|b l _] using rev_ind; [done|]. rewrite last_snoc. apply Forall_app in Hl as [_ Hb].
    by rewrite Forall_singleton in Hb.
Qed.

Lemma SplitN2_first a b d : d ∉ a → SplitN2 (a ++ d :: b) [d] = [a; b].
Proof.
  intros Ha. unfold SplitN2. rewrite Index_first by done. pose proof (len_nonneg a).
  destruct (Z.ltb_spec (len a) 0); [lia|]. rewrite ztake_app_eq by done.
  rewrite (app_assoc a [d] b : a ++ d :: b = _). by rewrite zdrop_app_eq by (len_simpl; lia).
Qed.
Lemma SplitN3_words a b c : word a → word b → SplitN3 (a ++ space :: b ++ space :: c) (gs " ") = [a; b; c].
Proof.
  intros Ha Hb. unfold SplitN3. change (gs " ") with [space].
  rewrite !SplitN2_first by (by apply word_no_byte). done.
Qed.

Lemma TrimRight_prefix s set : ∃ t, s = TrimRight s set ++ t.
Proof.
  unfold TrimRight. assert (∀ l, ∃ t, l = t ++ trim_left_set set l) as H.
  { induction l as [|b l [t IH]]; [by exists []|]. cbn [trim_left_set].
    case_bool_decide; [|by exists []]. exists (b :: t). simpl. by rewrite <-IH. }
  destruct (H (rev s)) as [t Ht]. exists (rev t). rewrite <-rev_app_distr, <-Ht. by rewrite rev_involutive.
Qed.

Lemma SplitN2_head s sep p more : SplitN2 s sep = p :: more → ∃ t, s = p ++ t.
Proof.
  unfold SplitN2. cbv zeta. destruct (_ <? 0); intros [= <- _]; [exists []; by rewrite app_nil_r|].
  eexists. symmetry. apply ztake_zdrop.
Qed.
Lemma SplitN3_head s sep p more : SplitN3 s sep = p :: more → ∃ t, s = p ++ t.
Proof.
  unfold SplitN3. destruct (SplitN2 s sep) as [|a [|rest [|]]] eqn:E; [done|..].
  all: intros [= <- _]; by eapply SplitN2_head.
Qed.

Lemma digit_prefix_digits l : Forall (λ b, is_digit b = true) l → digit_prefix l = l.
Proof. induction 1 as [|b l Hb _ IH]; [done|]. simpl. by rewrite Hb, IH. Qed.

Lemma is_space_digit b : is_digit b = true → is_space (bz b) = false ∧ bz b < 128 ∧ bz b ≠ 13 ∧ bz b ≠ 10 ∧ bz b ≠ 45 ∧ bz b ≠ 43.
Proof. unfold is_digit, is_space. intros H. zbool. split_and!; lia. Qed.

Lemma Sscanf_Itoa n : 0 ≤ n < 2 ^ 63 → Sscanf_d (Itoa n) = Some n.
Proof.
  intros Hn. destruct (Itoa_digits n) as [Hd Hne]; [lia|]. pose proof (Atoi_Itoa n ltac:(lia)) as Ha.
  pose proof (digit_prefix_digits _ Hd) as Hp.
  unfold Sscanf_d. destruct (Itoa n) as [|b s]; [done|]. inversion Hd as [|? ? Hb _]; subst.
  destruct (is_space_digit b Hb) as (Hs & H128 & H13 & H10 & H45 & H43).
  cbn [length skip_space]. unfold beq.
  destruct (Z.eqb_spec (bz b) 13); [lia|]. destruct (Z.eqb_spec (bz b) 10); [lia|]. cbn [andb].
  rewrite decode_ascii, Hs by done.
  destruct (Z.eqb_spec (bz b) 45); [lia|]. destruct (Z.eqb_spec (bz b) 43); [lia|]. cbn [orb].
  by rewrite Hp.
Qed.

Inductive http_head :=
| HRequest (method path version : list byte)
| HResponse (version : list byte) (code : Z) (text : list byte).

Definition head_line (h : http_head) : list byte :=
  match h with
  | HRequest m p v => m ++ space :: p ++ space :: v
  | HResponse v code text => v ++ space :: Itoa code ++ space :: text
  end.
Definition head_ok (h : http_head) : Prop :=
  match h with
  | HRequest m p v => m ∈ httpMethods ∧ word p ∧ line_text v
  | HResponse v code text => word v ∧ HasPrefix v (gs "HTTP/") = true ∧ 0 ≤ code < 2 ^ 63 ∧ line_text text
  end.
Definition head_message (h : http_head) : HTTPMessage :=
  match h with
  | HRequest m p v => mkHTTP (gs "request") (head_line h) m p 0 [] ∅ [] 0
  | HResponse v code text => mkHTTP (gs "response") (head_line h) [] [] code text ∅ [] 0
  end.

Definition header_line (kv : list byte * list byte) : list byte := kv.1 ++ gs ": " ++ kv.2.
Definition header_ok (kv : list byte * list byte) : Prop :=
  word kv.1 ∧ Byte.x3a ∉ kv.1 ∧ trimmed_text kv.2 ∧ line_text kv.2.
Definition enc_http (h : http_head) (hdrs : list (list byte * list byte)) : list byte :=
  head_line h ++ crlf ++ concat (map (λ kv, header_line kv ++ crlf) hdrs) ++ crlf.

Lemma method_word m : m ∈ httpMethods → word m.
Proof.
  assert (Forall word httpMethods) as H.
  { unfold httpMethods. cbn [map]. repeat (first [apply Forall_nil_2|apply Forall_cons_2]); (split; [done|]);
      apply List.Forall_forall; intros b Hb; revert Hb; revert b; apply List.Forall_forall; repeat constructor. }
  rewrite Forall_forall in H. apply H.
Qed.

Section reading.
Context `{UnicodeTables}.

Lemma headers_loop_enc hdrs : ∀ fuel h raw rest, (length hdrs < fuel)%nat → Forall header_ok hdrs →
  headers_loop fuel h raw (concat (map (λ kv, header_line kv ++ crlf) hdrs) ++ crlf ++ rest)
  = Got (fold_left (λ h kv, <[ToLower kv.1 := kv.2]> h) hdrs h, raw ++ map header_line hdrs) rest.
Proof.
  induction hdrs as [|[k v] hdrs IH]; intros [|fuel] h raw rest Hf Hok; simpl in Hf; try lia.
  - cbn [map concat app headers_loop fold_left]. erewrite bind_Got.
    2:{ unfold try. change (crlf ++ rest) with ([] ++ crlf ++ rest). rewrite read_string_line by constructor. reflexivity. }
    cbv beta iota. rewrite app_nil_r. by rewrite (TrimRight_line []) by constructor.
  - inversion Hok as [|? ? (Hk & Hc & Hv & Hl) Hrest]; subst. cbn [fst snd] in *.
    assert (line_text (header_line (k, v))) as Hline.
    { unfold header_line, line_text. cbn [fst snd]. rewrite !Forall_app. split_and!; [by apply word_line| |done].
      change (gs ": ") with [Byte.x3a; Byte.x20]. unfold crlf. repeat constructor; set_solver. }
    cbn [map concat headers_loop fold_left]. rewrite <-!app_assoc. erewrite bind_Got.
    2:{ unfold try. rewrite read_string_line by done. reflexivity. }
    cbv beta iota. rewrite TrimRight_line by done.
    destruct (str_eqb_spec (header_line (k, v)) []) as [E|_].
    { destruct Hk as [Hk _]. unfold header_line in E. cbn [fst snd] in E. by apply app_eq_nil in E as [-> _]. }
    assert (header_line (k, v) = k ++ Byte.x3a :: space :: v) as Hh by done. rewrite Hh.
    change (gs ":") with [Byte.x3a]. rewrite Index_first by done.
    pose proof (len_nonneg k). pose proof (len_nonneg v).
    assert (0 < len k). { destruct Hk as [Hk _]. destruct k; [done|]. len_simpl. pose proof (len_nonneg k). lia. }
    destruct (Z.ltb_spec 0 (len k)); [|lia].
    erewrite bind_Got by (unfold lift; rewrite sub_Ret by (len_simpl; lia); rewrite Z.sub_0_r, zdrop_nonpos, ztake_app_eq by (lia || done); reflexivity).
    erewrite bind_Got.
    2:{ unfold lift. rewrite sub_Ret by (len_simpl; lia).
        rewrite (app_assoc k [Byte.x3a] (space :: v) : k ++ Byte.x3a :: space :: v = _), zdrop_app_eq by (len_simpl; lia).
        rewrite ztake_ge by (len_simpl; lia). reflexivity. }
    rewrite IH by (lia || done). rewrite <-Hh, <-app_assoc.
    assert (TrimSpace k = k) as ->. { rewrite <-(app_nil_r k) at 1. by apply (TrimSpace_word [] k []). }
    assert (TrimSpace (space :: v) = v) as ->.
    { rewrite <-(app_nil_r v) at 1. by apply (TrimSpace_text [space] v []); [repeat constructor|done|]. }
    done.
Qed.

(** The first line is recognised. *)
Lemma first_line_head h : head_ok h →
  line_text (head_line h) ∧ head_line h ≠ [] ∧ len (SplitN3 (head_line h) (gs " ")) = 3 ∧
  first_line (head_line h) (SplitN3 (head_line h) (gs " ")) = Some (head_message h).
Proof.
  assert (space ∉ crlf) as Hsp by (unfold crlf, space; set_solver).
  destruct h as [m p v|v code text]; cbn [head_ok head_line head_message].
  - intros (Hm & Hp & Hv). pose proof (method_word m Hm) as Hw. rewrite SplitN3_words by done.
    split_and!; [| |done|].
    + apply Forall_app_2; [by apply word_line|]. constructor; [done|].
      apply Forall_app_2; [by apply word_line|]. by constructor.
    + destruct Hw as [Hw _]. by destruct m.
    + cbn [first_line]. by rewrite bool_decide_eq_true_2.
  - intros (Hv & Hpre & Hcode & Htext). destruct (Itoa_digits code) as [Hd Hne]; [lia|].
    assert (word (Itoa code)) as Hw.
    { split; [done|]. eapply Forall_impl; [exact Hd|]. intros b Hb. destruct (is_space_digit b Hb) as (Hs & ? & _).
      unfold word_byte. rewrite Hs. by destruct (Z.ltb_spec (bz b) 128); [|lia]. }
    rewrite SplitN3_words by done. split_and!; [| |done|].
    + apply Forall_app_2; [by apply word_line|]. constructor; [done|].
      apply Forall_app_2; [by apply word_line|]. by constructor.
    + destruct Hv as [Hv _]. by destruct v.
    + cbn [first_line]. rewrite Hpre, Sscanf_Itoa by done. rewrite bool_decide_eq_false_2; [done|].
      intros Hin. apply HasPrefix_spec in Hpre as [t ->].
      assert (Forall (λ m, HasPrefix m (gs "HTTP/") = false) httpMethods) as Hno
        by (unfold httpMethods; repeat constructor).
      rewrite Forall_forall in Hno. specialize (Hno _ Hin). by rewrite HasPrefix_app in Hno.
Qed.

Lemma headers_loop_progress fuel : ∀ h raw s, (length s < fuel)%nat → progress 0 (headers_loop fuel h raw) s.
Proof.
  induction fuel as [|fuel IH]; intros h raw s Hf; [lia|]. cbn [headers_loop].
  apply progress_then; [apply (progress_try 1), progress_read_string|].
  intros [l|e] r Hr; [|apply progress_ret]. cbv zeta. destruct (str_eqb _ _); [apply progress_ret|].
  assert (length r < length s)%nat as Hs.
  { unfold try in Hr. destruct (read_string s) eqn:E; try discriminate Hr. injection Hr as -> ->.
    by apply read_string_Got in E as [_ ?]. }
  destruct (0 <? _); [|apply IH; lia].
  apply progress_then; [apply progress_lift|]. intros key r1 Hk. apply progress_then; [apply progress_lift|].
  intros val r2 Hv. apply IH.
  unfold lift in Hk, Hv. destruct (sub _ 0 _); [|done]. injection Hk as <- <-.
  destruct (sub _ _ (len _)); [|done]. injection Hv as <- <-. lia.
Qed.

Lemma progress_ReadHTTPMessage s : progress 1 ReadHTTPMessage s.
Proof.
  unfold ReadHTTPMessage. apply progress_then; [apply progress_read_string|]. intros line r _. progress_steps.
  destruct (first_line _ _); [|apply progress_throw].
  apply progress_then; [apply headers_loop_progress; lia|]. intros [hs raw] r' _. apply progress_ret.
Qed.

(** What does not start with an upper-case letter is no message. *)
Lemma not_http_fails b s : bz b < 65 ∨ 90 < bz b → ∃ e r, ReadHTTPMessage (b :: s) = Fail e r.
Proof.
  intros Hb. unfold ReadHTTPMessage. destruct (read_string (b :: s)) as [l r|e r| |] eqn:E.
  - rewrite (bind_Got _ _ _ _ _ E). cbv zeta. destruct (str_eqb_spec (TrimRight l crlf) []); [by eexists _, _|].
    destruct (len _ <? 2) eqn:El; [by eexists _, _|].
    assert (first_line (TrimRight l crlf) (SplitN3 (TrimRight l crlf) (gs " ")) = None) as ->; [|by eexists _, _].
    destruct (TrimRight_prefix l crlf) as [t Ht]. apply read_string_Got in E as [E _].
    destruct (TrimRight l crlf) as [|b' line] eqn:Eq; [done|]. rewrite Ht in E. injection E as <- _.
    destruct (SplitN3 (b :: line) (gs " ")) as [|p0 [|p1 more]] eqn:Es; [done..|].
    apply SplitN3_head in Es as [t' Hp]. cbn [first_line].
    assert (∀ c m, Byte.eqb b c = false → p0 ≠ c :: m) as Hp0.
    { intros c m Hc ->. injection Hp as -> _. by rewrite byte_eqb_refl in Hc. }
    assert (∀ c, 65 ≤ bz c ≤ 90 → Byte.eqb b c = false) as Hc by (intros; apply byte_eqb_neq; intros ->; lia).
    rewrite bool_decide_eq_false_2.
    + destruct p0 as [|c p0]; [done|]. injection Hp as <- _. change (gs "HTTP/") with (Byte.x48 :: gs "TTP/").
      cbn [HasPrefix]. rewrite Hc; [done|]. vm_compute. split; congruence.
    + unfold httpMethods. cbn [map]. intros Hin.
      repeat (apply elem_of_cons in Hin as [Hin|Hin];
        [refine (Hp0 _ _ (Hc _ _) Hin); vm_compute; split; congruence|]). by apply elem_of_nil in Hin.
  - unfold mbind, parser_bind. rewrite E. by eexists _, _.
  - unfold read_string in E. by destruct (split_line _) as [[??]|].
  - unfold read_string in E. by destruct (split_line _) as [[??]|].
Qed.

(** C21. A request or a response is read back from its head: the first line,
    the headers under their lower-case names, the last one when a name is
    repeated, and the announced length of the body; but the body itself is
    left in the stream, so the next message is read from the start of it, and
    fails unless the body starts with an upper-case letter. *)
Theorem http_head_roundtrip h hdrs body rest (Hh : head_ok h) (Hhdrs : Forall header_ok hdrs) :
  ReadHTTPMessage (enc_http h hdrs ++ body ++ rest)
    = Got (with_headers (head_message h) (fold_left (λ h kv, <[ToLower kv.1 := kv.2]> h) hdrs ∅)
             (map header_line hdrs)) (body ++ rest) ∧
  ∀ b more, body = b :: more → bz b < 65 ∨ 90 < bz b → ∃ e r, ReadHTTPMessage (body ++ rest) = Fail e r.
Proof.
  split.
  - destruct (first_line_head h Hh) as (Hl & Hne & Hlen & Hfirst).
    unfold ReadHTTPMessage, enc_http. rewrite <-!app_assoc.
    erewrite bind_Got by (by apply read_string_line). rewrite TrimRight_line by done.
    rewrite (str_eqb_neq _ _ Hne), Hlen, Hfirst. cbn [Z.ltb Z.compare Pos.compare Pos.compare_cont].
    erewrite bind_Got; [|apply headers_loop_enc; [|done]]; [done|].
    rewrite !length_app. clear. induction hdrs as [|kv hdrs IH]; [simpl; lia|].
    cbn [length map concat]. rewrite length_app. unfold crlf in *. rewrite length_app. simpl in *. lia.
  - intros b more -> Hb. by apply not_http_fails.
Qed.
End reading.

(** ** The properties at work *)

Lemma http_head_roundtrip_witness :
  ReadHTTPMessage (H := no_tables)
    (gs "POST /a HTTP/1.1" ++ crlf ++ gs "Content-Length: 2" ++ crlf ++ crlf ++ gs "{}" ++ gs "GET /b HTTP/1.1" ++ crlf)
  = Got (mkHTTP (gs "request") (gs "POST /a HTTP/1.1") (gs "POST") (gs "/a") 0 []
           {[gs "content-length" := gs "2"]} [gs "Content-Length: 2"] 2) (gs "{}GET /b HTTP/1.1" ++ crlf).
Proof.
  refine (proj1 (http_head_roundtrip (H := no_tables) (HRequest (gs "POST") (gs "/a") (gs "HTTP/1.1"))
    [(gs "Content-Length", gs "2")] (gs "{}") (gs "GET /b HTTP/1.1" ++ crlf) _ _)).
  - split_and!; [by apply (bool_decide_eq_true_1 (gs "POST" ∈ httpMethods))|split; [done|by repeat constructor]|].
    apply line_text_bool. reflexivity.
  - apply Forall_cons_2, Forall_nil_2. split_and!.
    + split; [done|by repeat constructor].
    + by apply (bool_decide_eq_true_1 (Byte.x3a ∉ gs "Content-Length")).
    + by split.
    + apply line_text_bool. reflexivity.
Defined.
