(* ===== verification/Printers.v ===== *)
(** * The printers (src/tcpport/multiprinter.go, printer.go)

    The bounded queues between the handlers and the goroutine that writes, and
    what reaches the standard output and the files of the protocols. *)

From S2P Require Import Prelude GoBytes GoStrings.

(** ** Queues *)

(** A channel with its limit: what is in it and whether it is closed. *)
Record queue (A : Type) := mkQueue { items : list A; q_closed : bool }.
Arguments mkQueue {A} items q_closed.
Arguments items {A} q.
Arguments q_closed {A} q.

Definition new_queue {A} : queue A := mkQueue [] false.

(** [len(q) == limit] *)
Definition q_full {A} (limit : Z) (q : queue A) : bool := len (items q) =? limit.

(** What a send statement comes to. *)
Inductive sent (A : Type) : Type :=
| Sent (a : A)
| Waits
| SendPanics.
Arguments Sent {A} a.
Arguments Waits {A}.
Arguments SendPanics {A}.
#[export] Instance sent_fmap : FMap sent := fun A B f r =>
  match r with Sent a => Sent (f a) | Waits => Waits | SendPanics => SendPanics end.

(** [q <- x]: it panics on a closed channel and waits on a full one. *)
Definition enqueue {A} (limit : Z) (q : queue A) (x : A) : sent (queue A) :=
  if q_closed q then SendPanics
  else if q_full limit q then Waits
  else Sent (mkQueue (items q ++ [x]) false).
(** [close(q)] *)
Definition close_queue {A} (q : queue A) : go (queue A) :=
  if q_closed q then Panic else Ret (mkQueue (items q) true).

(** ** [MultiPrinter] *)

Record printerMsg := mkMsg { Protocol : list byte; Text : list byte }.

Record MultiPrinter := mkPrinter {
  outputQueue : queue printerMsg;
  stdout : list byte;
  files : gmap (list byte) (list byte);
  outputDir : list byte }.

Definition maxQueueLen : Z := 8192.

Definition NewMultiPrinter (outputDir : list byte) : MultiPrinter := mkPrinter new_queue [] ∅ outputDir.

(** The two statements of [Send]: the message is dropped when the queue is
    full; otherwise it is sent, and other goroutines may have filled the queue
    in between. *)
Definition Send_drops (p : MultiPrinter) : bool := q_full maxQueueLen (outputQueue p).
Definition Send_puts (p : MultiPrinter) (m : printerMsg) : sent MultiPrinter :=
  (λ q, mkPrinter q (stdout p) (files p) (outputDir p)) <$> enqueue maxQueueLen (outputQueue p) m.
(** The two without another goroutine in between. *)
Definition Send (p : MultiPrinter) (protocol msg : list byte) : sent MultiPrinter :=
  if Send_drops p then Sent p else Send_puts p (mkMsg protocol msg).

Definition Finish (p : MultiPrinter) : go MultiPrinter :=
  q ← close_queue (outputQueue p); Ret (mkPrinter q (stdout p) (files p) (outputDir p)).

Section multi.
(** Does [os.OpenFile] succeed for the file of a protocol? *)
Context (can_create : list byte → list byte → bool).

(** The files with that of the protocol open, or [None] after the error. *)
Definition getFile (p : MultiPrinter) (protocol : list byte) : option (gmap (list byte) (list byte)) :=
  match files p !! protocol with
  | Some _ => Some (files p)
  | None => if can_create (outputDir p) protocol then Some (<[protocol := []]> (files p)) else None
  end.

(** One round of [run]: the message is written to the standard output and, if
    a directory is set, to the file of its protocol. *)
Definition write_message (p : MultiPrinter) (m : printerMsg) : MultiPrinter :=
  let fs :=
    if str_eqb (outputDir p) [] || str_eqb (Protocol m) [] then files p
    else match getFile p (Protocol m) with
         | Some fs => alter (λ content, content ++ Text m) (Protocol m) fs
         | None => files p
         end in
  mkPrinter (outputQueue p) (stdout p ++ Text m) fs (outputDir p).

(** [run] takes the next message, if there is one. *)
Definition run_one (p : MultiPrinter) : MultiPrinter :=
  match items (outputQueue p) with
  | [] => p
  | m :: rest =>
      write_message (mkPrinter (mkQueue rest (q_closed (outputQueue p))) (stdout p) (files p) (outputDir p)) m
  end.

(** ** The handlers and [run] together *)

(** Goroutine [g] calls [Send] and looks at the queue; it sends the message it
    did not drop; [run] takes a message. *)
Inductive print_op := PCall (g : nat) (m : printerMsg) | PPut (g : nat) | PRun.

(** The printer, and the goroutines between the two statements of [Send]. *)
Definition pstate : Type := MultiPrinter * gmap nat printerMsg.

(** One step, [None] when it cannot be taken: a goroutine that is inside
    [Send] makes no other call, and a send to a full queue waits. *)
Definition print_step (o : print_op) (st : pstate) : option (go pstate) :=
  let '(p, inside) := st in
  match o with
  | PCall g m =>
      match inside !! g with
      | Some _ => None
      | None => Some (Ret (p, if Send_drops p then inside else <[g := m]> inside))
      end
  | PPut g =>
      m ← inside !! g;
      match Send_puts p m with
      | Sent p' => Some (Ret (p', delete g inside))
      | Waits => None
      | SendPanics => Some Panic
      end
  | PRun => Some (Ret (run_one p, inside))
  end.

Fixpoint prints (ops : list print_op) (st : pstate) : option (go pstate) :=
  match ops with
  | [] => Some (Ret st)
  | o :: ops =>
      match print_step o st with
      | Some (Ret st') => prints ops st'
      | r => r
      end
  end.

Definition starts (dir : list byte) : pstate := (NewMultiPrinter dir, ∅).

(** The messages goroutine [g] calls [Send] with. *)
Definition calls_of (g : nat) (ops : list print_op) : list printerMsg :=
  omap (λ o, match o with PCall g' m => if decide (g' = g) then Some m else None | _ => None end) ops.
Definition call_count (ops : list print_op) : Z :=
  len (List.filter (λ o, match o with PCall _ _ => true | _ => false end) ops).
Definition of_goroutine (g : nat) (l : list (nat * printerMsg)) : list printerMsg :=
  omap (λ gm, if decide (gm.1 = g) then Some gm.2 else None) l.

Definition texts (ms : list printerMsg) : list byte := concat (map Text ms).
(** The messages that go to the file of a protocol. *)
Definition for_protocol (protocol : list byte) (ms : list printerMsg) : list printerMsg :=
  List.filter (λ m, str_eqb (Protocol m) protocol) ms.

Lemma texts_app a b : texts (a ++ b) = texts a ++ texts b.
Proof. unfold texts. by rewrite map_app, concat_app. Qed.
Lemma for_protocol_app protocol a b : for_protocol protocol (a ++ b) = for_protocol protocol a ++ for_protocol protocol b.
Proof. apply List.filter_app. Qed.
Lemma for_protocol_one protocol m : for_protocol protocol [m] = if decide (Protocol m = protocol) then [m] else [].
Proof. unfold for_protocol. simpl. unfold str_eqb. by repeat case_decide || case_bool_decide. Qed.

(** What has been written are the messages [ms]: all of them to the standard
    output, and those of a protocol to its file, if it has one. *)
Definition written (p : MultiPrinter) (ms : list printerMsg) : Prop :=
  stdout p = texts ms ∧
  ∀ protocol,
    match files p !! protocol with
    | Some content => content = texts (for_protocol protocol ms) ∧ outputDir p ≠ [] ∧ protocol ≠ []
    | None => outputDir p = [] ∨ protocol = [] ∨ can_create (outputDir p) protocol = false
              ∨ for_protocol protocol ms = []
    end.

Lemma write_message_written p ms m : written p ms → written (write_message p m) (ms ++ [m]).
Proof.
  intros [Hout Hfiles]. unfold write_message. split; cbn [stdout files outputDir].
  { rewrite Hout, texts_app. unfold texts at 3. simpl. by rewrite app_nil_r. }
  intros protocol. specialize (Hfiles protocol). rewrite for_protocol_app, for_protocol_one, texts_app.
  destruct (str_eqb_spec (outputDir p) []) as [Hd|Hd]; cbn [orb].
  { destruct (files p !! protocol); [by destruct Hfiles as (_ & ? & _)|by left]. }
  destruct (str_eqb_spec (Protocol m) []) as [Hp|Hp]; unfold getFile.
  { destruct (decide (Protocol m = protocol)) as [<-|]; [|by rewrite !app_nil_r].
    destruct (files p !! _); [by destruct Hfiles as (_ & _ & ?)|by right; left]. }
  destruct (decide (Protocol m = protocol)) as [<-|Hne].
  - unfold texts at 2. simpl. rewrite app_nil_r.
    destruct (files p !! Protocol m) as [content|] eqn:E; [|destruct (can_create (outputDir p) (Protocol m)) eqn:Ec].
    + destruct Hfiles as (-> & ? & ?). by rewrite lookup_alter_eq, E.
    + rewrite lookup_alter_eq, lookup_insert_eq. split; [|done].
      destruct Hfiles as [?|[?|[?|H]]]; [done|done|congruence|by rewrite H].
    + rewrite E. tauto.
  - rewrite !app_nil_r.
    destruct (files p !! Protocol m) eqn:E; [|destruct (can_create (outputDir p) (Protocol m))];
      rewrite ?lookup_alter_ne, ?lookup_insert_ne by done; done.
Qed.

Lemma calls_of_snoc g ops o : calls_of g (ops ++ [o]) = calls_of g ops ++ calls_of g [o].
Proof. unfold calls_of. apply omap_app. Qed.
Lemma call_count_snoc ops o :
  call_count (ops ++ [o]) = call_count ops + match o with PCall _ _ => 1 | _ => 0 end.
Proof. unfold call_count. rewrite List.filter_app. len_simpl. by destruct o. Qed.
Lemma of_goroutine_snoc g l g' m :
  of_goroutine g (l ++ [(g', m)]) = of_goroutine g l ++ if decide (g' = g) then [m] else [].
Proof. unfold of_goroutine. rewrite omap_app. simpl. by case_decide. Qed.

(** After the steps [ops], [acc] are the messages that were queued, each with
    the goroutine that sent it. *)
Record pinv (ops : list print_op) (st : pstate) (acc : list (nat * printerMsg)) : Prop := {
  pinv_written : ∃ ms, written st.1 ms ∧ ms ++ items (outputQueue st.1) = acc.*2;
  pinv_open : q_closed (outputQueue st.1) = false;
  pinv_bound : len (items (outputQueue st.1)) ≤ maxQueueLen;
  pinv_count : len acc + Z.of_nat (size st.2) ≤ call_count ops;
  pinv_sub g : of_goroutine g acc ++ option_list (st.2 !! g) `sublist_of` calls_of g ops;
  pinv_all g : call_count ops ≤ maxQueueLen → of_goroutine g acc ++ option_list (st.2 !! g) = calls_of g ops }.

Lemma pinv_items ops st acc : pinv ops st acc → len (items (outputQueue st.1)) ≤ len acc.
Proof.
  intros [[ms [_ Hms]] _ _ _ _ _]. apply (f_equal len) in Hms. revert Hms. len_simpl.
  pose proof (len_nonneg ms). lia.
Qed.

Lemma pinv_start dir : pinv [] (starts dir) [].
Proof.
  split; try done. exists []. split; [|done]. split; [done|]. intros protocol. by do 3 right.
Qed.

Lemma pinv_call ops p inside acc g m : inside !! g = None → pinv ops (p, inside) acc →
  pinv (ops ++ [PCall g m]) (p, if Send_drops p then inside else <[g := m]> inside) acc.
Proof.
  intros Hg Hinv. pose proof (pinv_items _ _ _ Hinv) as Hi. destruct Hinv as [Hw Ho Hb Hc Hs Ha].
  cbn [fst snd] in *. unfold Send_drops, q_full.
  split; try done; rewrite ?call_count_snoc; cbn [fst snd].
  - destruct (_ =? _); [lia|]. rewrite map_size_insert_None by done. lia.
  - intros g'. rewrite calls_of_snoc. cbn. specialize (Hs g').
    destruct (_ =? _); [by apply sublist_inserts_r|]. case_decide as Hg'.
    + subst g'. rewrite Hg, app_nil_r in Hs. rewrite lookup_insert_eq. by apply sublist_app.
    + rewrite lookup_insert_ne by done. by rewrite app_nil_r.
  - intros g' Hl. rewrite calls_of_snoc. cbn. pose proof (Ha g' ltac:(lia)) as Hg'.
    destruct (Z.eqb_spec (len (items (outputQueue p))) maxQueueLen); [lia|]. rewrite <-Hg'.
    case_decide as Hd.
    + subst g'. by rewrite lookup_insert_eq, Hg, app_nil_r.
    + rewrite lookup_insert_ne by done. by rewrite app_nil_r.
Qed.

Lemma pinv_put ops p inside acc g m : inside !! g = Some m → q_full maxQueueLen (outputQueue p) = false →
  pinv ops (p, inside) acc →
  pinv (ops ++ [PPut g])
    (mkPrinter (mkQueue (items (outputQueue p) ++ [m]) false) (stdout p) (files p) (outputDir p), delete g inside)
    (acc ++ [(g, m)]).
Proof.
  intros Hg Hf [[ms [Hw Hms]] Ho Hb Hc Hs Ha]. cbn [fst snd] in *. apply Z.eqb_neq in Hf.
  assert (∀ g', of_goroutine g' (acc ++ [(g, m)]) ++ option_list (delete g inside !! g')
                = of_goroutine g' acc ++ option_list (inside !! g')) as Hsame.
  { intros g'. rewrite of_goroutine_snoc. case_decide as Hd.
    - subst g'. by rewrite lookup_delete_eq, Hg, app_nil_r.
    - by rewrite lookup_delete_ne, app_nil_r. }
  split; cbn [fst snd outputQueue items q_closed stdout files outputDir]; rewrite ?call_count_snoc.
  - exists ms. split; [exact Hw|]. by rewrite fmap_app, app_assoc, Hms.
  - done.
  - len_simpl. lia.
  - rewrite map_size_delete_Some by (by exists m). len_simpl.
    assert (size inside ≠ 0%nat) by (intros H0%map_size_empty_inv; by rewrite H0 in Hg). lia.
  - intros g'. rewrite Hsame, calls_of_snoc. cbn. by rewrite app_nil_r.
  - intros g' Hl. rewrite Hsame, calls_of_snoc. cbn. rewrite app_nil_r. apply Ha. lia.
Qed.

(** [run] leaves the goroutines and what they called alone. *)
Lemma pinv_writes ops p p' inside acc ms' : pinv ops (p, inside) acc →
  written p' ms' → ms' ++ items (outputQueue p') = acc.*2 → q_closed (outputQueue p') = false →
  len (items (outputQueue p')) ≤ len (items (outputQueue p)) → pinv (ops ++ [PRun]) (p', inside) acc.
Proof.
  intros [_ _ Hb Hc Hs Ha] Hw' Hms' Ho' Hl. cbn [fst snd] in *.
  split; cbn [fst snd]; rewrite ?call_count_snoc, ?Z.add_0_r; [by exists ms'|done|lia|done| |];
    intros g; rewrite calls_of_snoc; cbn; rewrite app_nil_r; [apply Hs|apply Ha].
Qed.

Lemma pinv_run ops p inside acc : pinv ops (p, inside) acc → pinv (ops ++ [PRun]) (run_one p, inside) acc.
Proof.
  intros Hinv. pose proof Hinv as [[ms [Hw Hms]] Ho _ _ _ _]. cbn [fst snd] in *. unfold run_one.
  destruct (items (outputQueue p)) as [|m rest] eqn:Ei.
  - apply (pinv_writes _ p _ _ _ ms); rewrite ?Ei; done.
  - apply (pinv_writes _ p _ _ _ (ms ++ [m]));
      [done|by apply write_message_written|by rewrite <-app_assoc|done|].
    cbn [outputQueue items write_message]. rewrite Ei. len_simpl. lia.
Qed.

Lemma prints_pinv more : ∀ ops st acc r, pinv ops st acc → prints more st = Some r →
  ∃ st' acc', r = Ret st' ∧ pinv (ops ++ more) st' acc'.
Proof.
  induction more as [|o more IH]; intros ops [p inside] acc r Hinv; cbn [prints].
  { intros [= <-]. rewrite app_nil_r. eauto. }
  rewrite (cons_middle o ops more), app_assoc. pose proof (pinv_open _ _ _ Hinv) as Ho. cbn [fst] in Ho.
  destruct o as [g m|g|]; cbn [print_step].
  - destruct (inside !! g) eqn:Hg; [done|]. by apply IH with acc, pinv_call.
  - destruct (inside !! g) as [m|] eqn:Hg; [|done]. cbn [mbind option_bind].
    unfold Send_puts, enqueue. rewrite Ho. destruct (q_full _ _) eqn:Hf; [done|]. cbn [fmap sent_fmap].
    by eapply IH, pinv_put.
  - by apply IH with acc, pinv_run.
Qed.

(** ** Properties *)

(** C22. The printer keeps the order, for any number of handlers that send at
    the same time: none panics; what has been written and what is queued are
    together messages in the order they were queued, those of each handler in
    the order of its calls; none is lost unless more than the limit were sent;
    the queue stays within the limit; the standard output has the texts of
    what was written, and the file of a protocol those of that protocol; a
    handler that waits can go on when [run] has taken one message. *)
Theorem printer_keeps_order dir ops r (Hr : prints ops (starts dir) = Some r) :
  ∃ p inside ms kept, r = Ret (p, inside) ∧
    written p ms ∧ ms ++ items (outputQueue p) = kept.*2 ∧
    len (items (outputQueue p)) ≤ maxQueueLen ∧
    (∀ g, of_goroutine g kept ++ option_list (inside !! g) `sublist_of` calls_of g ops) ∧
    (call_count ops ≤ maxQueueLen →
     ∀ g, of_goroutine g kept ++ option_list (inside !! g) = calls_of g ops) ∧
    (∀ g m, inside !! g = Some m → ∃ st, prints [PRun; PPut g] (p, inside) = Some (Ret st)).
Proof.
  destruct (prints_pinv ops [] _ _ r (pinv_start dir) Hr) as ([p inside] & acc & -> & [[ms [Hw Hms]] Ho Hb _ Hs Ha]).
  exists p, inside, ms, acc. split_and!; try done; [by intros Hl g; apply Ha|].
  intros g m Hg. cbn [prints print_step fst snd app] in *. rewrite Hg. cbn [mbind option_bind].
  unfold Send_puts, enqueue, run_one, q_full.
  destruct (items (outputQueue p)) as [|m' rest] eqn:Ei; cbn [outputQueue write_message q_closed items]; rewrite Ho.
  - rewrite Ei. by eexists.
  - revert Hb. len_simpl. intros. destruct (Z.eqb_spec (len rest) maxQueueLen); [lia|]. by eexists.
Qed.

(** *** What is sent is written *)

Definition runs (ops : list print_op) : nat := length (List.filter (λ o, match o with PRun => true | _ => false end) ops).

Lemma run_stdout ops : ∀ p inside p' inside', q_closed (outputQueue p) = false → prints ops (p, inside) = Some (Ret (p', inside')) →
  ∃ rest, stdout p' = stdout p ++ texts (take (runs ops) (items (outputQueue p))) ++ rest.
Proof.
  induction ops as [|o ops IH]; intros p inside p' inside' Ho; cbn [prints].
  { intros [= <- <-]. exists []. by rewrite take_0, !app_nil_r. }
  destruct o as [g m|g|]; cbn [print_step].
  - destruct (inside !! g); [done|]. by apply IH.
  - destruct (inside !! g) as [m|]; [|done]. cbn [mbind option_bind]. unfold Send_puts, enqueue. rewrite Ho.
    destruct (q_full _ _); [done|]. cbn [fmap sent_fmap]. intros Hp. apply IH in Hp as [rest Hp]; [|done].
    cbn [stdout outputQueue items] in Hp. change (runs (PPut g :: ops)) with (runs ops). rewrite take_app, texts_app, <-app_assoc in Hp. by eexists.
  - intros Hp. change (runs (PRun :: ops)) with (S (runs ops)). unfold run_one in Hp.
    destruct (items (outputQueue p)) as [|m l] eqn:Ei.
    + apply IH in Hp as [rest Hp]; [|done]. rewrite Ei, take_nil in Hp. by eexists.
    + apply IH in Hp as [rest Hp]; [|done]. cbn [stdout outputQueue items write_message] in Hp. exists rest. rewrite Hp. cbn [take].
      unfold texts. cbn [map concat]. by rewrite <-!app_assoc.
Qed.
Lemma run_queue ms : ∀ p inside, items (outputQueue p) = ms → q_closed (outputQueue p) = false →
  ∃ q, prints (replicate (length ms) PRun) (p, inside) = Some (Ret (q, inside)) ∧ items (outputQueue q) = [] ∧
    q_closed (outputQueue q) = false ∧ stdout q = stdout p ++ texts ms.
Proof.
  induction ms as [|m ms IH]; intros p inside Hi Ho; [exists p; by rewrite app_nil_r|]. cbn [replicate length prints print_step].
  destruct (IH (run_one p) inside) as (q & Hq & Hqi & Hqo & Hqs); [unfold run_one; by rewrite Hi..|].
  exists q. split_and!; [done..|]. rewrite Hqs. unfold run_one. rewrite Hi. unfold texts. cbn. by rewrite <-app_assoc.
Qed.
Lemma put_all inside : ∀ p, items (outputQueue p) = [] → q_closed (outputQueue p) = false →
  ∃ drain q order, prints drain (p, inside) = Some (Ret (q, ∅)) ∧ items (outputQueue q) = [] ∧
    order ≡ₚ (map_to_list inside).*2 ∧ stdout q = stdout p ++ texts order.
Proof.
  induction inside as [|g m inside Hg IH] using map_ind; intros p Hi Ho.
  { exists [], p, []. rewrite map_to_list_empty, app_nil_r. by split_and!. }
  set (p1 := run_one (mkPrinter (mkQueue [m] false) (stdout p) (files p) (outputDir p))).
  destruct (IH p1) as (drain & q & order & Hq & Hqi & Hord & Hqs); [done|done|].
  exists (PPut g :: PRun :: drain), q, (m :: order). split_and!; [|done| |].
  - cbn [prints print_step]. rewrite lookup_insert_eq. cbn [mbind option_bind]. unfold Send_puts, enqueue, q_full. rewrite Ho, Hi.
    cbn [fmap sent_fmap app Z.eqb]. by rewrite delete_insert_id.
  - rewrite map_to_list_insert by done. cbn. by rewrite Hord.
  - rewrite Hqs. cbn. unfold texts. cbn. by rewrite <-app_assoc.
Qed.
Lemma prints_app a b st st' : prints a st = Some (Ret st') → prints (a ++ b) st = prints b st'.
Proof.
  revert st. induction a as [|o a IH]; intros st; cbn [prints app]; [by intros [= ->]|].
  destruct (print_step o st) as [[st1|]|]; [apply IH|done|done].
Qed.

(** C23. What is queued is written: in whatever way the handlers and [run] go
    on, after as many steps of [run] as a message has in front of it, and one
    more, it is on the standard output. And nothing is ever stuck: from every
    state that can be reached, the handlers inside [Send] and [run] can go on
    until all messages of both are written. *)
Theorem printer_writes_what_is_sent dir ops p inside (Hp : prints ops (starts dir) = Some (Ret (p, inside))) :
  (∀ more p' inside', prints more (p, inside) = Some (Ret (p', inside')) →
    ∃ rest, stdout p' = stdout p ++ texts (take (runs more) (items (outputQueue p))) ++ rest) ∧
  ∃ drain q order, prints drain (p, inside) = Some (Ret (q, ∅)) ∧ items (outputQueue q) = [] ∧
    order ≡ₚ (map_to_list inside).*2 ∧ stdout q = stdout p ++ texts (items (outputQueue p) ++ order).
Proof.
  destruct (prints_pinv ops [] _ _ _ (pinv_start dir) Hp) as (st & acc & [= <-] & [_ Ho _ _ _ _]). cbn [fst] in Ho.
  split; [intros more p' inside' Hm; by eapply run_stdout|].
  destruct (run_queue _ p inside eq_refl Ho) as (q1 & Hq1 & Hi1 & Ho1 & Hs1).
  destruct (put_all inside q1 Hi1 Ho1) as (drain & q & order & Hq & Hi & Hord & Hs).
  exists (replicate (length (items (outputQueue p))) PRun ++ drain), q, order. split_and!; [by rewrite (prints_app _ _ _ _ Hq1)|done|done|]. by rewrite Hs, Hs1, texts_app, <-app_assoc.
Qed.

(** [Finish] closes the queue and nothing else: what is queued stays
    unwritten, and a second [Finish], a handler that is inside [Send] and one
    that calls it, unless the queue is full, panic. *)
Theorem Finish_does_not_flush ops dir p inside (Hp : prints ops (starts dir) = Some (Ret (p, inside))) :
  ∃ p', Finish p = Ret p' ∧ stdout p' = stdout p ∧ files p' = files p ∧
    items (outputQueue p') = items (outputQueue p) ∧ Finish p' = Panic ∧
    (∀ g m, inside !! g = Some m → print_step (PPut g) (p', inside) = Some Panic) ∧
    (Send_drops p = false → ∀ protocol msg, Send p' protocol msg = SendPanics).
Proof.
  destruct (prints_pinv ops [] _ _ _ (pinv_start dir) Hp) as (st & acc & [= <-] & [_ Ho _ _ _ _]). cbn [fst] in Ho.
  unfold Finish, close_queue. rewrite Ho. cbn [mbind go_bind].
  eexists. split_and!; try done; [by intros g m Hg; cbn [print_step]; rewrite Hg|].
  intros Hf protocol msg. unfold Send, Send_drops in *. cbn [outputQueue]. unfold q_full in *. cbn [items]. by rewrite Hf.
Qed.
End multi.

(** ** [Printer] *)

Record Printer := mkSingle { single_queue : queue (list byte); outputFile : list byte }.

Definition maxOutputQueueLen : Z := 4096.

(** [None] is the panic on a file that cannot be opened. *)
Definition NewPrinter (opens : list byte → bool) (outputPath : list byte) : go Printer :=
  if str_eqb outputPath [] || opens outputPath then Ret (mkSingle new_queue []) else Panic.
Definition Printer_Send (p : Printer) (msg : list byte) : sent Printer :=
  if q_full maxOutputQueueLen (single_queue p) then Sent p
  else (λ q, mkSingle q (outputFile p)) <$> enqueue maxOutputQueueLen (single_queue p) msg.
Definition Printer_run_one (p : Printer) : Printer :=
  match items (single_queue p) with
  | [] => p
  | m :: rest => mkSingle (mkQueue rest (q_closed (single_queue p))) (outputFile p ++ m)
  end.
Definition Printer_Finish (p : Printer) : go Printer :=
  q ← close_queue (single_queue p); Ret (mkSingle q (outputFile p)).

(** ** The properties at work *)

Lemma printer_keeps_order_witness :
  let m := mkMsg (gs "redis") (gs "x") in
  ∃ p inside ms kept, prints (λ _ _, true) [PCall 1 m; PCall 0 m; PPut 0; PRun] (starts []) = Some (Ret (p, inside)) ∧
    written (λ _ _, true) p ms ∧ ms ++ items (outputQueue p) = kept.*2 ∧
    of_goroutine 1 kept ++ option_list (inside !! 1%nat) = [m].
Proof.
  destruct (printer_keeps_order (λ _ _, true) [] [PCall 1 (mkMsg (gs "redis") (gs "x"));
      PCall 0 (mkMsg (gs "redis") (gs "x")); PPut 0; PRun] _ eq_refl)
    as (p & inside & ms & kept & H1 & H2 & H3 & _ & _ & H4 & _).
  exists p, inside, ms, kept. split; [by rewrite <-H1|]. split; [exact H2|]. split; [exact H3|].
  apply H4. by vm_compute.
Defined.

Lemma Finish_does_not_flush_witness :
  ∃ p', Finish (mkPrinter (mkQueue [mkMsg (gs "redis") (gs "x")] false) [] ∅ []) = Ret p' ∧ stdout p' = [].
Proof.
  destruct (Finish_does_not_flush (λ _ _, true) [PCall 0 (mkMsg (gs "redis") (gs "x")); PPut 0] []
    (mkPrinter (mkQueue [mkMsg (gs "redis") (gs "x")] false) [] ∅ []) ∅) as (p' & H1 & H2 & _); [reflexivity|].
  exists p'. split; [exact H1|exact H2].
Defined.

Lemma printer_writes_what_is_sent_witness :
  let m := mkMsg (gs "redis") (gs "x") in let inside : gmap nat printerMsg := {[1%nat := m]} in
  ∃ drain q order, prints (λ _ _, true) drain (mkPrinter (mkQueue [m] false) [] ∅ [], inside) = Some (Ret (q, ∅)) ∧
    order ≡ₚ (map_to_list inside).*2 ∧ stdout q = gs "x" ++ texts order.
Proof.
  intros m inside. destruct (printer_writes_what_is_sent (λ _ _, true) [] [PCall 1 m; PCall 0 m; PPut 0]
    (mkPrinter (mkQueue [m] false) [] ∅ []) inside) as (_ & drain & q & order & H1 & _ & H2 & H3); [reflexivity|].
  exists drain, q, order. split; [exact H1|]. split; [exact H2|exact H3].
Defined.
