(* ===== verification/Json.v ===== *)
(** * encoding/json

    What the source uses of package encoding/json: [json.Valid], the values
    [json.Unmarshal] sees, and the text [json.MarshalIndent] writes.  A number
    stays its literal; the entries of an object keep their order. *)

From S2P Require Import Prelude GoBytes GoStrings Unicode.

Inductive json : Type :=
| VNull
| VBool (b : bool)
| VNum (literal : list byte)
| VStr (s : list byte)
| VArr (l : list json)
| VObj (m : list (list byte * json)).

(** ** The scanner *)

Definition json_space (b : byte) : bool := beq b 32 || beq b 9 || beq b 13 || beq b 10.
Fixpoint skip_space (s : list byte) : list byte :=
  match s with
  | b :: s' => if json_space b then skip_space s' else s
  | [] => []
  end.

Definition hex_value (b : byte) : option Z :=
  let z := bz b in
  if (48 <=? z) && (z <=? 57) then Some (z - 48)
  else if (97 <=? z) && (z <=? 102) then Some (z - 87)
  else if (65 <=? z) && (z <=? 70) then Some (z - 55)
  else None.
(** Four hexadecimal digits. *)
Definition getu4 (s : list byte) : option (Z * list byte) :=
  match s with
  | a :: b :: c :: d :: s =>
      a ← hex_value a; b ← hex_value b; c ← hex_value c; d ← hex_value d;
      Some (4096 * a + 256 * b + 16 * c + d, s)
  | _ => None
  end.
Definition is_surrogate (r : Z) : bool := (55296 <=? r) && (r <? 57344).
(** [utf16.DecodeRune] *)
Definition utf16_pair (r1 r2 : Z) : Z :=
  if (55296 <=? r1) && (r1 <? 56320) && (56320 <=? r2) && (r2 <? 57344)
  then (r1 - 55296) * 1024 + (r2 - 56320) + 65536 else RuneError.
Definition unescape (b : byte) : option byte :=
  if beq b 34 || beq b 92 || beq b 47 then Some b
  else if beq b 98 then Some (to_byte 8) else if beq b 102 then Some (to_byte 12)
  else if beq b 110 then Some (to_byte 10) else if beq b 114 then Some (to_byte 13)
  else if beq b 116 then Some (to_byte 9) else None.

(** A string behind its opening quote: the text with its escapes resolved and
    invalid UTF-8 replaced. *)
Fixpoint str_body (fuel : nat) (s : list byte) : option (list byte * list byte) :=
  match fuel, s with
  | S fuel, b :: s' =>
      if beq b 34 then Some ([], s')
      else if beq b 92 then
        match s' with
        | [] => None
        | e :: s' =>
            if beq e 117 then
              '(r, s') ← getu4 s';
              if is_surrogate r then
                match s' with
                | b1 :: e1 :: s1 =>
                    if beq b1 92 && beq e1 117 then
                      '(r1, s1) ← getu4 s1;
                      if utf16_pair r r1 =? RuneError
                      then '(t, rest) ← str_body fuel s'; Some (encode_rune RuneError ++ t, rest)
                      else '(t, rest) ← str_body fuel s1; Some (encode_rune (utf16_pair r r1) ++ t, rest)
                    else '(t, rest) ← str_body fuel s'; Some (encode_rune RuneError ++ t, rest)
                | _ => '(t, rest) ← str_body fuel s'; Some (encode_rune RuneError ++ t, rest)
                end
              else '(t, rest) ← str_body fuel s'; Some (encode_rune r ++ t, rest)
            else c ← unescape e; '(t, rest) ← str_body fuel s'; Some (c :: t, rest)
        end
      else if bz b <? 32 then None
      else if bz b <? 128 then '(t, rest) ← str_body fuel s'; Some (b :: t, rest)
      else
        let '(r, n) := decode_rune s in
        '(t, rest) ← str_body fuel (zdrop n s); Some (encode_rune r ++ t, rest)
  | _, _ => None
  end.
Definition json_str (s : list byte) : option (list byte * list byte) := str_body (length s) s.

Fixpoint span_digits (s : list byte) : list byte * list byte :=
  match s with
  | b :: s' => if is_digit b then let '(d, r) := span_digits s' in (b :: d, r) else ([], s)
  | [] => ([], [])
  end.
(** A sign, an integer without leading zeros, a fraction, an exponent. *)
Definition num_sign (s : list byte) : list byte * list byte :=
  match s with b :: s' => if beq b 45 then ([b], s') else ([], s) | [] => ([], []) end.
Definition num_int (s : list byte) : option (list byte * list byte) :=
  match s with
  | b :: s' => if beq b 48 then Some ([b], s') else if is_digit b then Some (span_digits s) else None
  | [] => None
  end.
Definition num_frac (s : list byte) : option (list byte * list byte) :=
  match s with
  | b :: s' =>
      if beq b 46 then match span_digits s' with ([], _) => None | (d, r) => Some (b :: d, r) end
      else Some ([], s)
  | [] => Some ([], [])
  end.
Definition num_exp (s : list byte) : option (list byte * list byte) :=
  match s with
  | b :: s' =>
      if beq b 101 || beq b 69 then
        let '(sg, s'') := match s' with
                          | c :: r => if beq c 43 || beq c 45 then ([c], r) else ([], s')
                          | [] => ([], [])
                          end in
        match span_digits s'' with ([], _) => None | (d, r) => Some ([b] ++ sg ++ d, r) end
      else Some ([], s)
  | [] => Some ([], [])
  end.
Definition json_number (s : list byte) : option (list byte * list byte) :=
  let '(sign, s) := num_sign s in
  '(int, s) ← num_int s; '(frac, s) ← num_frac s; '(exp, s) ← num_exp s;
  Some (sign ++ int ++ frac ++ exp, s).

Definition maxNestingDepth : Z := 10000.

(** A value, and the elements and members behind an opening bracket; [depth]
    is the number of open brackets. *)
Fixpoint value (fuel : nat) (depth : Z) (s : list byte) : option (json * list byte) :=
  match fuel with
  | O => None
  | S fuel =>
      match skip_space s with
      | [] => None
      | (b :: s') as t =>
          if beq b 123 then
            if maxNestingDepth <? depth + 1 then None
            else
              match skip_space s' with
              | c :: r => if beq c 125 then Some (VObj [], r)
                          else '(m, rest) ← members fuel (depth + 1) (c :: r); Some (VObj m, rest)
              | [] => None
              end
          else if beq b 91 then
            if maxNestingDepth <? depth + 1 then None
            else
              match skip_space s' with
              | c :: r => if beq c 93 then Some (VArr [], r)
                          else '(l, rest) ← elements fuel (depth + 1) (c :: r); Some (VArr l, rest)
              | [] => None
              end
          else if beq b 34 then '(x, rest) ← json_str s'; Some (VStr x, rest)
          else if HasPrefix t (gs "null") then Some (VNull, zdrop 4 t)
          else if HasPrefix t (gs "true") then Some (VBool true, zdrop 4 t)
          else if HasPrefix t (gs "false") then Some (VBool false, zdrop 5 t)
          else '(x, rest) ← json_number t; Some (VNum x, rest)
      end
  end
with elements (fuel : nat) (depth : Z) (s : list byte) : option (list json * list byte) :=
  match fuel with
  | O => None
  | S fuel =>
      '(v, s) ← value fuel depth s;
      match skip_space s with
      | b :: s =>
          if beq b 44 then '(l, rest) ← elements fuel depth s; Some (v :: l, rest)
          else if beq b 93 then Some ([v], s) else None
      | [] => None
      end
  end
with members (fuel : nat) (depth : Z) (s : list byte) : option (list (list byte * json) * list byte) :=
  match fuel with
  | O => None
  | S fuel =>
      match skip_space s with
      | b :: s =>
          if beq b 34 then
            '(k, s) ← json_str s;
            match skip_space s with
            | c :: s =>
                if beq c 58 then
                  '(v, s) ← value fuel depth s;
                  match skip_space s with
                  | b :: s =>
                      if beq b 44 then '(m, rest) ← members fuel depth s; Some ((k, v) :: m, rest)
                      else if beq b 125 then Some ([(k, v)], s) else None
                  | [] => None
                  end
                else None
            | [] => None
            end
          else None
      | [] => None
      end
  end.

(** The whole input is one value; every second call takes a byte. *)
Definition parse_json (s : list byte) : option json :=
  match value (S (2 * length s)) 0 s with
  | Some (v, rest) => match skip_space rest with [] => Some v | _ => None end
  | None => None
  end.
(** [json.Valid] *)
Definition Valid (s : list byte) : bool := match parse_json s with Some _ => true | None => false end.

(** ** The encoder *)

Definition quote_byte (b : byte) : list byte :=
  if beq b 34 || beq b 92 then [Byte.x5c; b]
  else if beq b 8 then gs "\b" else if beq b 12 then gs "\f"
  else if beq b 10 then gs "\n" else if beq b 13 then gs "\r" else if beq b 9 then gs "\t"
  else if (bz b <? 32) || beq b 60 || beq b 62 || beq b 38 then gs "\u00" ++ fmt_02x (bz b)
  else [b].
Fixpoint quote_text (fuel : nat) (s : list byte) : list byte :=
  match fuel, s with
  | S fuel, b :: s' =>
      if bz b <? 128 then quote_byte b ++ quote_text fuel s'
      else
        let '(r, n) := decode_rune s in
        (if (r =? RuneError) && (n =? 1) then gs "\ufffd"
         else if (r =? 8232) || (r =? 8233) then gs "\u202" ++ [digit_byte (Z.land r 15)]
         else ztake n s) ++ quote_text fuel (zdrop n s)
  | _, _ => []
  end.
(** A string, with the escapes for HTML. *)
Definition marshal_string (s : list byte) : list byte := [Byte.x22] ++ quote_text (length s) s ++ [Byte.x22].

Fixpoint marshal (v : json) : list byte :=
  match v with
  | VNull => gs "null"
  | VBool b => fmt_bool b
  | VNum x => x
  | VStr s => marshal_string s
  | VArr l => gs "[" ++ Join (map marshal l) (gs ",") ++ gs "]"
  | VObj m => gs "{" ++ Join (map (λ kv, marshal_string kv.1 ++ gs ":" ++ marshal kv.2) m) (gs ",") ++ gs "}"
  end.

(** [json.MarshalIndent] *)
Definition json_newline (prefix indent : list byte) (depth : nat) : list byte :=
  [Byte.x0a] ++ prefix ++ concat (replicate depth indent).
Fixpoint marshal_indent (prefix indent : list byte) (depth : nat) (v : json) : list byte :=
  let nl := json_newline prefix indent in
  match v with
  | VArr [] => gs "[]"
  | VArr l => gs "[" ++ nl (S depth) ++ Join (map (marshal_indent prefix indent (S depth)) l) (gs "," ++ nl (S depth)) ++ nl depth ++ gs "]"
  | VObj [] => gs "{}"
  | VObj m =>
      gs "{" ++ nl (S depth)
      ++ Join (map (λ kv, marshal_string kv.1 ++ gs ": " ++ marshal_indent prefix indent (S depth) kv.2) m) (gs "," ++ nl (S depth))
      ++ nl depth ++ gs "}"
  | v => marshal v
  end.

(** ** Reading back what was written *)

Section json_induction.
Context (P : json → Prop) (Harr : ∀ l, Forall P l → P (VArr l)) (Hobj : ∀ m, Forall (λ kv : list byte * json, P kv.2) m → P (VObj m))
  (Hrest : ∀ v, match v with VArr _ | VObj _ => True | _ => P v end).
Fixpoint json_induction (v : json) : P v :=
  match v with
  | VArr l => Harr l ((fix go (l : list json) : Forall P l :=
                 match l with [] => Forall_nil_2 P | v :: l => Forall_cons_2 P v l (json_induction v) (go l) end) l)
  | VObj m => Hobj m ((fix go (m : list (list byte * json)) : Forall (λ kv : list byte * json, P kv.2) m :=
                 match m with
                 | [] => Forall_nil_2 _
                 | kv :: m => Forall_cons_2 (λ kv : list byte * json, P kv.2) kv m (json_induction kv.2) (go m)
                 end) m)
  | v => Hrest v
  end.
End json_induction.

Definition ascii_text (s : list byte) : Prop := Forall (λ b, bz b < 128) s.
(** ASCII strings, integers, and not too many brackets inside each other. *)
Fixpoint json_ok (depth : nat) (v : json) {struct v} : Prop :=
  match v with
  | VNum x => ∃ n, x = Itoa n
  | VStr s => ascii_text s
  | VArr l => match depth with O => False | S depth => foldr (λ v P, json_ok depth v ∧ P) True l end
  | VObj m => match depth with
              | O => False
              | S depth => foldr (λ kv P, ascii_text kv.1 ∧ json_ok depth kv.2 ∧ P) True m
              end
  | _ => True
  end.

Lemma str_body_byte b fuel s : bz b < 128 →
  str_body (S fuel) (quote_byte b ++ s) = '(t, rest) ← str_body fuel s; Some (b :: t, rest).
Proof. intros Hb. destruct b; first [reflexivity|exfalso; vm_compute in Hb; discriminate]. Qed.
Lemma str_body_quote s : ∀ rest fuel n, ascii_text s → (length s < fuel)%nat → (length s ≤ n)%nat →
  str_body fuel (quote_text n s ++ Byte.x22 :: rest) = Some (s, rest).
Proof.
  induction s as [|b s IH]; intros rest fuel n Hs Hf Hn; (destruct fuel as [|fuel]; [cbn in Hf; lia|]).
  - by destruct n.
  - inv_eq Hs. destruct n as [|n]; [cbn in Hn; lia|]. cbn [quote_text].
    destruct (Z.ltb_spec (bz b) 128); [|lia]. rewrite <-app_assoc, str_body_byte by done.
    rewrite IH; [done|done|cbn in Hf; lia|cbn in Hn; lia].
Qed.
Lemma quote_text_length s : ∀ n, ascii_text s → (length s ≤ n)%nat → (length s ≤ length (quote_text n s))%nat.
Proof.
  induction s as [|b s IH]; intros n Hs Hn; [cbn; lia|]. inv_eq Hs. destruct n as [|n]; [cbn in Hn; lia|]. cbn [quote_text].
  destruct (Z.ltb_spec (bz b) 128); [|lia]. rewrite length_app.
  assert (0 < length (quote_byte b))%nat by (unfold quote_byte; repeat case_match; cbn; lia).
  specialize (IH n H2 ltac:(cbn in Hn; lia)). cbn [length]. lia.
Qed.
Lemma json_str_quote s rest : ascii_text s → json_str (quote_text (length s) s ++ Byte.x22 :: rest) = Some (s, rest).
Proof.
  intros Hs. apply str_body_quote; [done| |done]. rewrite length_app. cbn [length].
  pose proof (quote_text_length s (length s) Hs ltac:(lia)). lia.
Qed.

Lemma span_digits_app d rest : Forall (λ b, is_digit b = true) d →
  match rest with b :: _ => is_digit b = false | [] => True end → span_digits (d ++ rest) = (d, rest).
Proof.
  intros Hd Hr. induction Hd as [|b d Hb _ IH]; cbn.
  - destruct rest as [|b r]; [done|]. cbn. by rewrite Hr.
  - by rewrite Hb, IH.
Qed.
(** What may follow a number in an array or an object. *)
Definition delimiter (rest : list byte) : Prop :=
  match rest with b :: _ => is_digit b = false ∧ beq b 46 = false ∧ beq b 101 = false ∧ beq b 69 = false | [] => True end.

Lemma digits_head fuel : ∀ n, 0 < n < 2 ^ Z.of_nat fuel → ∃ b l, digits 10 fuel n = b :: l ∧ beq b 48 = false.
Proof.
  induction fuel as [|fuel IH]; intros n Hn; [change (2 ^ Z.of_nat 0) with 1 in Hn; lia|].
  cbn [digits]. rewrite Nat2Z.inj_succ, Z.pow_succ_r in Hn by lia. destruct (Z.ltb_spec n 10).
  - exists (digit_byte n), []. split; [done|]. destruct (digit_byte_digit n) as [_ H1]; [lia|].
    unfold beq. rewrite H1. apply Z.eqb_neq. lia.
  - destruct (IH (n / 10)) as (b & l & -> & Hb).
    { split; [apply Z.div_str_pos; lia|]. apply Z.div_lt_upper_bound; lia. }
    by eexists b, _.
Qed.
Lemma fmt_uint_head n : 0 ≤ n → fmt_uint 10 n = [Byte.x30] ∨ ∃ b l, fmt_uint 10 n = b :: l ∧ beq b 48 = false.
Proof.
  intros Hn. destruct (decide (n = 0)) as [->|]; [by left|]. right. apply digits_head. split; [lia|].
  pose proof (Z.log2_spec n ltac:(lia)) as [_ Hl]. pose proof (Z.log2_nonneg n).
  rewrite Nat2Z.inj_succ, Z2Nat.id by lia. done.
Qed.
Lemma json_uint n rest sign : 0 ≤ n → delimiter rest → (sign = [] ∨ sign = [Byte.x2d]) →
  json_number (sign ++ fmt_uint 10 n ++ rest) = Some (sign ++ fmt_uint 10 n, rest).
Proof.
  intros Hn Hr Hsign. destruct (fmt_uint_parse n Hn) as [_ Hd].
  assert (∃ b l, fmt_uint 10 n = b :: l ∧ (beq b 48 = true → l = [])) as (b & l & Hbl & Hl).
  { destruct (fmt_uint_head n Hn) as [H|(b & l & H & Hb)]; rewrite H; eexists _, _; split; try done. by rewrite Hb. }
  rewrite Hbl in *. inv_eq Hd. cbn [app].
  assert (json_number (b :: l ++ rest) = Some (b :: l, rest) ∧ json_number (Byte.x2d :: b :: l ++ rest) = Some (Byte.x2d :: b :: l, rest)) as [Hp Hm].
  { assert (beq b 45 = false) as Hb45. { unfold is_digit in H1. zbool. unfold beq. apply Z.eqb_neq. lia. }
    unfold json_number, num_sign, num_int, num_frac, num_exp. rewrite Hb45. change (beq Byte.x2d 45) with true. cbv iota.
    assert ((if beq b 48 then Some ([b], l ++ rest) else if is_digit b then Some (span_digits (b :: l ++ rest)) else None)
      = Some (b :: l, rest)) as ->.
    { destruct (beq b 48) eqn:E; [by rewrite Hl|]. rewrite H1. f_equal.
      apply (span_digits_app (b :: l)); [by constructor|]. destruct rest; [done|]. by destruct Hr. }
    cbn [mbind option_bind]. destruct rest as [|c r]; [split; cbn; by rewrite ?app_nil_r|]. destruct Hr as (_ & H46 & H101 & H69).
    rewrite H46. cbn [mbind option_bind]. rewrite H101, H69. cbn [orb mbind option_bind app]. by rewrite ?app_nil_r. }
  by destruct Hsign as [-> | ->].
Qed.
Lemma json_Itoa n rest : delimiter rest → json_number (Itoa n ++ rest) = Some (Itoa n, rest).
Proof.
  intros Hr. unfold Itoa, fmt_int. destruct (Z.ltb_spec n 0).
  - apply (json_uint (- n) rest [Byte.x2d]); [lia|done|by right].
  - apply (json_uint n rest []); [lia|done|by left].
Qed.

Lemma value_number fuel depth b t : is_digit b || beq b 45 = true →
  value (S fuel) depth (b :: t) = '(x, rest) ← json_number (b :: t); Some (VNum x, rest).
Proof. intros Hb. destruct b; try discriminate Hb; reflexivity. Qed.
Lemma Itoa_head n : ∃ b l, Itoa n = b :: l ∧ is_digit b || beq b 45 = true.
Proof.
  unfold Itoa, fmt_int. destruct (Z.ltb_spec n 0); [by eexists _, _|].
  destruct (fmt_uint_parse n) as [_ Hd]; [done|]. pose proof (fmt_uint_nonnil 10 n).
  destruct (fmt_uint 10 n) as [|b l]; [done|]. apply Forall_cons in Hd as [Hb _]. exists b, l. split; [done|]. by rewrite Hb.
Qed.
(** A text begins with a byte that is neither a space nor a closing bracket. *)
Definition opens (s : list byte) : Prop := ∃ b t, s = b :: t ∧ json_space b = false ∧ beq b 93 = false ∧ beq b 125 = false.
Lemma marshal_opens k v : json_ok k v → opens (marshal v).
Proof.
  unfold opens. destruct v as [|[|]|x|s|l|m]; cbn [json_ok marshal]; intros Hv; try (by eexists _, _).
  destruct Hv as [n ->]. destruct (Itoa_head n) as (b & t & -> & Hb). exists b, t. split; [done|].
    destruct b; try discriminate Hb; done.
Qed.
Lemma skip_space_opens s rest : opens s → skip_space (s ++ rest) = s ++ rest.
Proof. intros (b & t & -> & Hb & _). cbn. by rewrite Hb. Qed.

Lemma value_string fuel depth s rest : ascii_text s →
  value (S fuel) depth (marshal_string s ++ rest) = Some (VStr s, rest).
Proof.
  intros Hs. unfold marshal_string. cbn [app value skip_space]. change (json_space Byte.x22) with false. cbv iota.
  rewrite <-app_assoc. cbn [app]. change (beq Byte.x22 123) with false. change (beq Byte.x22 91) with false.
  change (beq Byte.x22 34) with true. cbv iota. by rewrite json_str_quote.
Qed.

Definition roundtrip_at (k : nat) (v : json) : Prop := ∀ depth fuel rest,
  json_ok k v → depth + Z.of_nat k ≤ maxNestingDepth → (2 * length (marshal v) ≤ fuel)%nat → delimiter rest →
  value fuel depth (marshal v ++ rest) = Some (v, rest).

Lemma elements_marshal k l : ∀ depth fuel rest, Forall (roundtrip_at k) l → Forall (json_ok k) l → l ≠ [] →
  depth + Z.of_nat k ≤ maxNestingDepth → (2 * length (Join (map marshal l) (gs ",") ++ gs "]") ≤ fuel)%nat →
  elements fuel depth (Join (map marshal l) (gs ",") ++ gs "]" ++ rest) = Some (l, rest).
Proof.
  induction l as [|v l IH]; intros depth fuel rest Hrt Hok Hne Hd Hf; [done|].
  apply Forall_cons in Hrt as [Hv Hrt]. apply Forall_cons in Hok as [Hokv Hok].
  destruct fuel as [|fuel]; [rewrite length_app in Hf; cbn in Hf; lia|].
  destruct l as [|v' l].
  - cbn [map Join] in *. rewrite length_app in Hf. cbn [length gs] in Hf. cbn [elements].
    rewrite (Hv depth fuel); [done|done|done|cbn in Hf; lia|done].
  - change (Join (map marshal (v :: v' :: l)) (gs ",")) with (marshal v ++ gs "," ++ Join (map marshal (v' :: l)) (gs ",")) in *.
    rewrite <-!app_assoc in *. rewrite !length_app in Hf. cbn [length] in Hf. change (length (gs ",")) with 1%nat in Hf. cbn [elements].
    rewrite (Hv depth fuel) by (done || lia). cbn [mbind option_bind].
    change (skip_space (gs "," ++ ?s)) with (Byte.x2c :: s). cbv iota. change (beq Byte.x2c 44) with true. cbv iota.
    rewrite IH; [done|done|done|done|done|]. rewrite length_app. lia.
Qed.

Definition member (kv : list byte * json) : list byte := marshal_string kv.1 ++ gs ":" ++ marshal kv.2.
Lemma members_marshal k m : ∀ depth fuel rest, Forall (λ kv, roundtrip_at k kv.2) m →
  Forall (λ kv, ascii_text kv.1 ∧ json_ok k kv.2) m → m ≠ [] →
  depth + Z.of_nat k ≤ maxNestingDepth → (2 * length (Join (map member m) (gs ",") ++ gs "}") ≤ fuel)%nat →
  members fuel depth (Join (map member m) (gs ",") ++ gs "}" ++ rest) = Some (m, rest).
Proof.
  assert (∀ key v fuel depth s, ascii_text key → json_ok k v → roundtrip_at k v → delimiter s → depth + Z.of_nat k ≤ maxNestingDepth →
    (2 * length (marshal v) ≤ fuel)%nat →
    members (S fuel) depth (member (key, v) ++ s) =
      match skip_space s with
      | b :: s => if beq b 44 then '(m, rest) ← members fuel depth s; Some ((key, v) :: m, rest)
                  else if beq b 125 then Some ([(key, v)], s) else None
      | [] => None
      end) as Hstep.
  { intros key v fuel depth s Hk Hok Hv Hs Hd Hf. unfold member, marshal_string. cbn [fst snd]. rewrite <-!app_assoc.
    cbn [members app skip_space]. change (json_space Byte.x22) with false. cbv iota. change (beq Byte.x22 34) with true. cbv iota.
    rewrite json_str_quote by done. cbn [mbind option_bind]. change (skip_space (gs ":" ++ ?s)) with (Byte.x3a :: s). cbv iota.
    change (beq Byte.x3a 58) with true. cbv iota. by rewrite Hv. }
  induction m as [|[key v] m IH]; intros depth fuel rest Hrt Hok Hne Hd Hf; [done|].
  apply Forall_cons in Hrt as [Hv Hrt]. apply Forall_cons in Hok as [[Hk Hokv] Hok].
  assert (length (marshal v) < length (member (key, v)))%nat as Hlen.
  { unfold member, marshal_string. cbn [snd]. rewrite !length_app. cbn [length]. lia. }
  destruct fuel as [|fuel]; [rewrite length_app in Hf; cbn in Hf; lia|].
  destruct m as [|kv' m].
  - cbn [map Join] in *. rewrite length_app in Hf. cbn [length gs] in Hf. rewrite Hstep by (done || lia). done.
  - change (Join (map member ((key, v) :: kv' :: m)) (gs ",")) with (member (key, v) ++ gs "," ++ Join (map member (kv' :: m)) (gs ",")) in *.
    rewrite <-!app_assoc in *. rewrite !length_app in Hf. cbn [length] in Hf. change (length (gs ",")) with 1%nat in Hf.
    rewrite Hstep by (done || lia).
    change (skip_space (gs "," ++ ?s)) with (Byte.x2c :: s). cbv iota. change (beq Byte.x2c 44) with true. cbv iota.
    rewrite IH; [done|done|done|done|done|]. rewrite length_app. lia.
Qed.

Lemma elements_ok k l : foldr (λ v P, json_ok k v ∧ P) True l ↔ Forall (json_ok k) l.
Proof. induction l as [|v l IH]; cbn; [done|]. by rewrite IH, Forall_cons. Qed.
Lemma members_ok k m : foldr (λ kv P, ascii_text kv.1 ∧ json_ok k kv.2 ∧ P) True m ↔ Forall (λ kv, ascii_text kv.1 ∧ json_ok k kv.2) m.
Proof. induction m as [|v l IH]; cbn; [done|]. rewrite IH, Forall_cons. tauto. Qed.

Lemma value_marshal v : ∀ k, roundtrip_at k v.
Proof.
  revert v. refine (json_induction _ _ _ _).
  - intros l IH k depth fuel rest Hok Hd Hf Hr. destruct k as [|k]; [done|]. cbn [json_ok] in Hok. apply elements_ok in Hok.
    destruct fuel as [|fuel]; [cbn in Hf; lia|]. cbn [marshal] in *. rewrite <-app_assoc. rewrite length_app in Hf. change (length (gs "[")) with 1%nat in Hf.
    cbn [value]. change (skip_space (gs "[" ++ ?s)) with (Byte.x5b :: s). cbv iota.
    change (beq Byte.x5b 123) with false. change (beq Byte.x5b 91) with true. cbv iota.
    destruct (Z.ltb_spec maxNestingDepth (depth + 1)); [lia|].
    destruct l as [|v l]; [done|].
    assert (opens (Join (map marshal (v :: l)) (gs ",") ++ gs "]")) as Ho.
    { apply Forall_cons in Hok as [Hv _]. destruct (marshal_opens k v Hv) as (b & t & Hb & ?).
      destruct l; cbn [map Join]; rewrite Hb; by eexists _, _. }
    rewrite <-app_assoc, app_assoc, skip_space_opens by done.
    destruct Ho as (b & t & Ht & _ & H93 & _). rewrite Ht. cbn [app]. rewrite H93. change (b :: t ++ rest) with ((b :: t) ++ rest).
    rewrite <-Ht, <-app_assoc, (elements_marshal k); [done| |done|done|lia|lia].
    eapply Forall_impl; [exact IH|]. cbv beta. auto.
  - intros m IH k depth fuel rest Hok Hd Hf Hr. destruct k as [|k]; [done|]. cbn [json_ok] in Hok. apply members_ok in Hok.
    destruct fuel as [|fuel]; [cbn in Hf; lia|]. cbn [marshal] in *. fold member in *. rewrite <-app_assoc. rewrite length_app in Hf. change (length (gs "{")) with 1%nat in Hf.
    cbn [value]. change (skip_space (gs "{" ++ ?s)) with (Byte.x7b :: s). cbv iota.
    change (beq Byte.x7b 123) with true. cbv iota.
    destruct (Z.ltb_spec maxNestingDepth (depth + 1)); [lia|].
    destruct m as [|kv m]; [done|].
    assert (opens (Join (map member (kv :: m)) (gs ",") ++ gs "}")) as Ho by (destruct m; by eexists _, _).
    change (λ kv0 : list byte * json, marshal_string kv0.1 ++ gs ":" ++ marshal kv0.2) with member in *.
    rewrite <-app_assoc, app_assoc, skip_space_opens by done.
    destruct Ho as (b & t & Ht & _ & _ & H125). rewrite Ht. cbn [app]. rewrite H125. change (b :: t ++ rest) with ((b :: t) ++ rest).
    rewrite <-Ht, <-app_assoc, (members_marshal k); [done| |done|done|lia|lia].
    eapply Forall_impl; [exact IH|]. cbv beta. auto.
  - intros v. destruct v as [|[|]|x|s|l|m]; try done; intros k depth fuel rest Hok Hd Hf Hr;
      (destruct fuel as [|fuel]; [destruct (marshal_opens k _ Hok) as (b' & t' & E & _); rewrite E in Hf; cbn in Hf; lia|]).
    + by destruct rest.
    + by destruct rest.
    + by destruct rest.
    + destruct Hok as [n ->]. cbn [marshal]. pose proof (json_Itoa n rest Hr) as Hj. destruct (Itoa_head n) as (b & t & Hb & Hd0).
      rewrite Hb in *. cbn [app] in *. by rewrite value_number, Hj.
    + by apply value_string.
Qed.
Lemma parse_marshal k v : json_ok k v → Z.of_nat k ≤ maxNestingDepth → parse_json (marshal v) = Some v.
Proof.
  intros Hok Hk. unfold parse_json. rewrite <-(app_nil_r (marshal v)) at 2.
  rewrite (value_marshal v k); [done|done|lia| |done]. lia.
Qed.

(** What the encoder writes, the decoder reads back: arrays and objects
    nested up to the depth limit, strings, integers, in the order of the keys. *)
Theorem json_roundtrip k v (Hk : Z.of_nat k ≤ maxNestingDepth) (Hv : json_ok k v) :
  parse_json (marshal v) = Some v ∧ Valid (marshal v) = true.
Proof. unfold Valid. by rewrite (parse_marshal k). Qed.
Lemma json_roundtrip_witness :
  let v := VObj [(gs "code", VNum (Itoa 10)); (gs "ext<", VObj [(gs "a", VArr [VStr (gs "b&c"); VNull; VBool true])])] in
  parse_json (marshal v) = Some v ∧ Valid (marshal v) = true.
Proof.
  cbv zeta. apply (json_roundtrip 3); [by vm_compute|]. cbn [json_ok foldr fst snd].
  split_and!; try done; try (by eexists); repeat constructor.
Defined.

(** ** Text that goes on

    A value that ends before the end of an ASCII text is read in the same way
    when more text follows, so no proper prefix of an object is an object. *)

Definition goes_on {A} (p p' : list byte → option (A * list byte)) (s : list byte) : Prop :=
  ∀ x r, p s = Some (x, r) → ascii_text s → ascii_text r ∧ ∀ t, p' (s ++ t) = Some (x, r ++ t).

Lemma ascii_cons b s : ascii_text (b :: s) ↔ bz b < 128 ∧ ascii_text s.
Proof. unfold ascii_text. by rewrite Forall_cons. Qed.
Lemma skip_space_more s b r t : skip_space s = b :: r → skip_space (s ++ t) = b :: r ++ t.
Proof.
  induction s as [|c s IH]; [done|]. cbn [skip_space app]. destruct (json_space c); [apply IH|]. by intros [= -> ->].
Qed.
Lemma skip_space_ascii s b r : skip_space s = b :: r → ascii_text s → bz b < 128 ∧ ascii_text r.
Proof.
  induction s as [|c s IH]; [done|]. cbn [skip_space]. intros E [Hc Hs]%ascii_cons. destruct (json_space c); [by apply IH|].
  by injection E as <- <-.
Qed.
Lemma getu4_more s : goes_on getu4 getu4 s.
Proof.
  intros x r. destruct s as [|a [|b [|c [|d s]]]]; try done. cbn [getu4 app]. intros E Ha.
  destruct (hex_value a) as [a'|]; [cbn in *|done]. destruct (hex_value b) as [b'|]; [cbn in *|done].
  destruct (hex_value c) as [c'|]; [cbn in *|done]. destruct (hex_value d) as [d'|]; [cbn in *|done].
  injection E as <- <-. apply ascii_cons in Ha as [_ Ha]. apply ascii_cons in Ha as [_ Ha]. apply ascii_cons in Ha as [_ Ha].
  by apply ascii_cons in Ha as [_ Ha].
Qed.
Lemma bind_more {A B} (p p' : list byte → option (A * list byte)) s (f : A * list byte → option (B * list byte))
    (f' : list byte → A * list byte → option (B * list byte)) x r :
  goes_on p p' s → ascii_text s → p s ≫= f = Some (x, r) →
  (∀ a s', p s = Some (a, s') → f (a, s') = Some (x, r) → ascii_text s' → ascii_text r ∧ ∀ t, f' t (a, s' ++ t) = Some (x, r ++ t)) →
  ascii_text r ∧ ∀ t, p' (s ++ t) ≫= f' t = Some (x, r ++ t).
Proof.
  intros Hp Hs E Hf. destruct (p s) as [[a s']|] eqn:Ep; [|done]. cbn in E. destruct (Hp a s' Ep Hs) as [Hs' Hp'].
  destruct (Hf a s' eq_refl E Hs') as [Hr Hf']. split; [done|]. intros t. rewrite Hp'. apply Hf'.
Qed.
Lemma str_body_more fuel : ∀ fuel' s, (fuel ≤ fuel')%nat → goes_on (str_body fuel) (str_body fuel') s.
Proof.
  assert (∀ fuel fuel' s (f : list byte → list byte) x r, goes_on (str_body fuel) (str_body fuel') s → ascii_text s →
    ('(t, rest) ← str_body fuel s; Some (f t, rest)) = Some (x, r) →
    ascii_text r ∧ ∀ u, ('(t, rest) ← str_body fuel' (s ++ u); Some (f t, rest)) = Some (x, r ++ u)) as Hgo.
  { intros n n' s f x r Hn Hs E. eapply bind_more; [exact Hn|done|exact E|]. by intros a s' _ [= <- <-] Hs'. }
  induction fuel as [|fuel IH]; intros fuel' s Hf x r; [done|]. destruct fuel' as [|fuel']; [lia|]. assert (fuel ≤ fuel')%nat as Hf' by lia.
  destruct s as [|b s]; [done|]. intros E [Hb Hs]%ascii_cons. cbn [str_body app] in *.
  destruct (beq b 34); [by injection E as <- <-|]. destruct (beq b 92).
  - destruct s as [|e s]; [done|]. apply ascii_cons in Hs as [He Hs]. cbn [app]. destruct (beq e 117).
    + eapply bind_more; [apply getu4_more|done|exact E|]. intros u s1 _ E1 Hs1. cbn beta iota in *. destruct (is_surrogate u).
      * destruct s1 as [|b1 [|e1 s2]]; [by destruct fuel| |].
        -- assert (ascii_text r ∧ ∀ t, ('(t0, rest) ← str_body fuel' ([b1] ++ t); Some (encode_rune RuneError ++ t0, rest)) = Some (x, r ++ t))
             as [Hr Hx] by (by apply (Hgo fuel fuel'); [apply IH| |]).
           split; [done|]. intros t. specialize (Hx t). cbn [app] in *. destruct t as [|e1 t]; [done|].
           destruct (beq b1 92) eqn:E92; [|done]. exfalso. destruct fuel as [|[|fuel]]; cbn [str_body] in E1; [done|..];
             (destruct (beq b1 34) eqn:E34; [unfold beq in *; zbool; lia|]; by rewrite E92 in E1).
        -- cbn [app]. destruct (beq b1 92 && beq e1 117).
           ++ eapply bind_more; [apply getu4_more| |exact E1|].
              { by apply ascii_cons in Hs1 as [_ [_ Hs1]%ascii_cons]. }
              intros u1 s3 _ E2 Hs3. cbn beta iota in *. destruct (_ =? RuneError); [|by apply (Hgo fuel fuel'); [apply IH| |]].
              change (b1 :: e1 :: s2 ++ ?t) with ((b1 :: e1 :: s2) ++ t). apply (Hgo fuel fuel' (b1 :: e1 :: s2)); [by apply IH|done|done].
           ++ by apply (Hgo fuel fuel' (b1 :: e1 :: s2)); [apply IH| |].
      * by apply (Hgo fuel fuel'); [apply IH| |].
    + destruct (unescape e) as [c|]; [|done]. cbn [mbind option_bind] in *. by apply (Hgo fuel fuel' s (cons c)); [apply IH| |].
  - destruct (bz b <? 32); [done|]. destruct (Z.ltb_spec (bz b) 128); [|lia]. by apply (Hgo fuel fuel' s (cons b)); [apply IH| |].
Qed.
Lemma json_str_more s : goes_on json_str json_str s.
Proof.
  intros x r E Hs. unfold json_str in *. split; [by eapply (str_body_more (length s) (length s))|].
  intros t. eapply (str_body_more (length s)); [rewrite length_app; lia|done|done].
Qed.

Lemma span_digits_more s d b r t : span_digits s = (d, b :: r) → span_digits (s ++ t) = (d, (b :: r) ++ t).
Proof.
  revert d. induction s as [|c s IH]; intros d; [done|]. cbn [span_digits app]. destruct (is_digit c).
  - destruct (span_digits s) as [d' r'] eqn:E. intros [= <- ->]. by rewrite (IH d').
  - by intros [= <- <- <-].
Qed.
Lemma span_digits_ascii s d r : span_digits s = (d, r) → ascii_text s → ascii_text r.
Proof.
  revert d. induction s as [|c s IH]; intros d; [by intros [= <- <-]|]. cbn [span_digits]. intros E Hs.
  destruct (is_digit c); [|by injection E as <- <-]. destruct (span_digits s) as [d' r'] eqn:E'. injection E as <- <-.
  apply (IH d' eq_refl). by apply ascii_cons in Hs as [_ Hs].
Qed.
(** A part of a number is read in the same way when there is something
    behind it. *)
Definition part_more (p : list byte → option (list byte * list byte)) : Prop := ∀ s x b r,
  p s = Some (x, b :: r) → ascii_text s → ascii_text (b :: r) ∧ ∀ t, p (s ++ t) = Some (x, (b :: r) ++ t).
Lemma num_int_more : part_more num_int.
Proof.
  intros [|c s] x b r; [done|]. cbn [num_int app]. intros E Hs. destruct (beq c 48).
  { injection E as <- ->. by apply ascii_cons in Hs as [_ Hs]. }
  destruct (is_digit c); [|done]. apply (inj Some) in E. split; [exact (span_digits_ascii _ _ _ E Hs)|]. intros t.
  change (c :: s ++ t) with ((c :: s) ++ t). by rewrite (span_digits_more _ _ _ _ _ E).
Qed.
Lemma num_frac_more : part_more num_frac.
Proof.
  intros [|c s] x b r; [done|]. cbn [num_frac app]. intros E Hs. destruct (beq c 46); [|by injection E as <- <- <-].
  apply ascii_cons in Hs as [_ Hs]. destruct (span_digits s) as [[|a d] r'] eqn:Ed; [done|]. injection E as <- ->.
  split; [exact (span_digits_ascii _ _ _ Ed Hs)|]. intros t. by rewrite (span_digits_more _ _ _ _ _ Ed).
Qed.
Lemma num_exp_more : part_more num_exp.
Proof.
  intros [|c s] x b r; [done|]. cbn [num_exp app]. intros E Hs. destruct (beq c 101 || beq c 69); [|by injection E as <- <- <-].
  apply ascii_cons in Hs as [_ Hs]. destruct s as [|a s]; [done|]. cbn [app].
  assert (∀ sg s', ascii_text s' → match span_digits s' with ([], _) => None | (d, r) => Some ([c] ++ sg ++ d, r) end = Some (x, b :: r) →
    ascii_text (b :: r) ∧ ∀ t, match span_digits (s' ++ t) with ([], _) => None | (d, r) => Some ([c] ++ sg ++ d, r) end = Some (x, (b :: r) ++ t)) as Hd.
  { intros sg s' Hs' E'. destruct (span_digits s') as [[|a' d] r'] eqn:Ed; [done|]. injection E' as <- ->.
    split; [exact (span_digits_ascii _ _ _ Ed Hs')|]. intros t. by rewrite (span_digits_more _ _ _ _ _ Ed). }
  destruct (beq a 43 || beq a 45); [apply (Hd [a] s); [by apply ascii_cons in Hs as [_ ?]|done]|by apply (Hd [] (a :: s))].
Qed.
Lemma json_number_more : part_more json_number.
Proof.
  intros s x b r. unfold json_number. assert (∀ sg s', num_sign s = (sg, s') → s' ≠ [] → ∀ t, num_sign (s ++ t) = (sg, s' ++ t)) as Hsign.
  { destruct s as [|c s]; intros sg s'; [by intros [= <- <-]|]. cbn [num_sign app]. destruct (beq c 45); by intros [= <- <-]. }
  assert (ascii_text s → ascii_text (num_sign s).2) as Hsa.
  { destruct s as [|c s]; [done|]. cbn [num_sign]. intros Hs. destruct (beq c 45); [by apply ascii_cons in Hs as [_ ?]|done]. }
  destruct (num_sign s) as [sg s'] eqn:Es. intros E Hs. specialize (Hsa Hs). cbn [snd] in Hsa.
  destruct (num_int s') as [[i [|b1 s1]]|] eqn:E1; [exfalso; revert E; clear; cbn; intros [=]| |done]. destruct (num_int_more _ _ _ _ E1 Hsa) as [H1 M1].
  cbn [mbind option_bind] in E. destruct (num_frac (b1 :: s1)) as [[f [|b2 s2]]|] eqn:E2; [exfalso; revert E; clear; cbn; intros [=]| |done].
  destruct (num_frac_more _ _ _ _ E2 H1) as [H2 M2]. cbn [mbind option_bind] in E.
  destruct (num_exp (b2 :: s2)) as [[e s3]|] eqn:E3; [|done]. cbn [mbind option_bind] in E. injection E as <- ->.
  destruct (num_exp_more _ _ _ _ E3 H2) as [H3 M3]. split; [done|]. intros t.
  assert (s' ≠ []) as Hne by (intros ->; discriminate E1). rewrite (Hsign sg s' eq_refl Hne). rewrite M1. cbn [mbind option_bind]. rewrite M2. cbn [mbind option_bind]. by rewrite M3.
Qed.

Definition is_number (v : json) : bool := match v with VNum _ => true | _ => false end.
Definition value_more (fuel : nat) : Prop := ∀ fuel' d s v r, (fuel ≤ fuel')%nat → value fuel d s = Some (v, r) → ascii_text s →
  r ≠ [] ∨ is_number v = false → ascii_text r ∧ ∀ t, value fuel' d (s ++ t) = Some (v, r ++ t).
Definition elements_more (fuel : nat) : Prop := ∀ fuel' d s, (fuel ≤ fuel')%nat → goes_on (elements fuel d) (elements fuel' d) s.
Definition members_more (fuel : nat) : Prop := ∀ fuel' d s, (fuel ≤ fuel')%nat → goes_on (members fuel d) (members fuel' d) s.

(** A value behind its first character. *)
Definition value_head (fuel : nat) (depth : Z) (b : byte) (s' : list byte) : option (json * list byte) :=
  if beq b 123 then
    if maxNestingDepth <? depth + 1 then None
    else
      match skip_space s' with
      | c :: r => if beq c 125 then Some (VObj [], r) else '(m, rest) ← members fuel (depth + 1) (c :: r); Some (VObj m, rest)
      | [] => None
      end
  else if beq b 91 then
    if maxNestingDepth <? depth + 1 then None
    else
      match skip_space s' with
      | c :: r => if beq c 93 then Some (VArr [], r) else '(l, rest) ← elements fuel (depth + 1) (c :: r); Some (VArr l, rest)
      | [] => None
      end
  else if beq b 34 then '(x, rest) ← json_str s'; Some (VStr x, rest)
  else if HasPrefix (b :: s') (gs "null") then Some (VNull, zdrop 4 (b :: s'))
  else if HasPrefix (b :: s') (gs "true") then Some (VBool true, zdrop 4 (b :: s'))
  else if HasPrefix (b :: s') (gs "false") then Some (VBool false, zdrop 5 (b :: s'))
  else '(x, rest) ← json_number (b :: s'); Some (VNum x, rest).
Lemma value_eq fuel d s : value (S fuel) d s = match skip_space s with [] => None | b :: s' => value_head fuel d b s' end.
Proof. reflexivity. Qed.

(** What stands behind the next character. *)
Lemma next_more {B} s (f f' : byte → list byte → option (B * list byte)) x r :
  ascii_text s → match skip_space s with [] => None | b :: s' => f b s' end = Some (x, r) →
  (∀ b s', f b s' = Some (x, r) → ascii_text (b :: s') → ascii_text r ∧ ∀ t, f' b (s' ++ t) = Some (x, r ++ t)) →
  ascii_text r ∧ ∀ t, match skip_space (s ++ t) with [] => None | b :: s' => f' b s' end = Some (x, r ++ t).
Proof.
  intros Hs E Hf. destruct (skip_space s) as [|b s'] eqn:Esk; [done|]. pose proof (skip_space_ascii _ _ _ Esk Hs) as Hs'.
  apply ascii_cons in Hs'. destruct (Hf b s' E Hs') as [Hr Hf']. split; [done|]. intros t. by rewrite (skip_space_more _ _ _ _ Esk).
Qed.
Lemma literal_more p (v : json) b s r n x :
  HasPrefix (b :: s) p = true → len p = n → Some (v, zdrop n (b :: s)) = Some (x, r) → ascii_text (b :: s) →
  ascii_text r ∧ ∀ t, HasPrefix (b :: s ++ t) p = true ∧ Some (v, zdrop n (b :: s ++ t)) = Some (x, r ++ t).
Proof.
  intros [u Hu]%HasPrefix_spec <- E Hs. change (b :: s ++ ?t) with ((b :: s) ++ t). rewrite Hu in *.
  rewrite zdrop_app_eq in E by done. injection E as <- <-. apply Forall_app in Hs as [_ Hs]. split; [done|]. intros t.
  rewrite <-app_assoc, HasPrefix_app, zdrop_app_eq by done. done.
Qed.
Lemma prefix_other b s c p : b ≠ c → HasPrefix (b :: s) (c :: p) = false.
Proof. intros H. cbn [HasPrefix]. destruct (Byte.eqb b c) eqn:E; [|done]. by apply Byte.byte_dec_bl in E. Qed.
Lemma number_head b s x : json_number (b :: s) = Some x → is_digit b || beq b 45 = true.
Proof.
  unfold json_number, num_sign. destruct (beq b 45); [by rewrite orb_true_r|]. unfold num_int.
  destruct (beq b 48) eqn:E; [intros _; apply orb_true_iff; left; unfold is_digit, beq in *; zbool; lia|]. by destruct (is_digit b).
Qed.
Lemma value_head_more fuel fuel' d b s v r : elements_more fuel → members_more fuel → (fuel ≤ fuel')%nat →
  value_head fuel d b s = Some (v, r) → ascii_text (b :: s) → r ≠ [] ∨ is_number v = false →
  ascii_text r ∧ ∀ t, value_head fuel' d b (s ++ t) = Some (v, r ++ t).
Proof.
  unfold value_head. intros IHe IHm Hf E Hs Hv. pose proof Hs as [_ Hs1]%ascii_cons.
  destruct (beq b 123).
  { destruct (_ <? _); [done|]. eapply next_more; [done|exact E|]. clear s E Hs Hs1. intros c s E Hs. cbv beta in *. pose proof Hs as [_ Hs1]%ascii_cons.
    destruct (beq c 125); [by injection E as <- <-|]. change (c :: s ++ ?t) with ((c :: s) ++ t).
    eapply bind_more; [by apply IHm|done|exact E|]. by intros m s' _ [= <- <-] Hs'. }
  destruct (beq b 91).
  { destruct (_ <? _); [done|]. eapply next_more; [done|exact E|]. clear s E Hs Hs1. intros c s E Hs. cbv beta in *. pose proof Hs as [_ Hs1]%ascii_cons.
    destruct (beq c 93); [by injection E as <- <-|]. change (c :: s ++ ?t) with ((c :: s) ++ t).
    eapply bind_more; [by apply IHe|done|exact E|]. by intros m s' _ [= <- <-] Hs'. }
  destruct (beq b 34).
  { eapply bind_more; [apply json_str_more|done|exact E|]. by intros m s' _ [= <- <-] Hs'. }
  destruct (HasPrefix (b :: s) (gs "null")) eqn:En.
  { destruct (literal_more _ _ _ _ _ 4 _ En eq_refl E Hs) as [Hr Hx]. split; [done|]. intros t. by destruct (Hx t) as [-> ->]. }
  destruct (HasPrefix (b :: s) (gs "true")) eqn:Et.
  { destruct (literal_more _ _ _ _ _ 4 _ Et eq_refl E Hs) as [Hr Hx]. split; [done|]. intros t. destruct (Hx t) as [-> ->].
    apply HasPrefix_spec in Et as [u [= -> _]]. done. }
  destruct (HasPrefix (b :: s) (gs "false")) eqn:Ef.
  { destruct (literal_more _ _ _ _ _ 5 _ Ef eq_refl E Hs) as [Hr Hx]. split; [done|]. intros t. destruct (Hx t) as [-> ->].
    apply HasPrefix_spec in Ef as [u [= -> _]]. done. }
  destruct (json_number (b :: s)) as [[x r']|] eqn:Ex; [|done]. cbn [mbind option_bind] in E. injection E as <- <-.
  destruct Hv as [Hr|]; [|done]. pose proof (number_head _ _ _ Ex) as Hb. destruct r' as [|c r']; [done|].
  destruct (json_number_more _ _ _ _ Ex Hs) as [Hc Hx]. split; [done|]. intros t. specialize (Hx t). cbn [app] in Hx. rewrite Hx.
  change (gs "null") with (Byte.x6e :: gs "ull"). change (gs "true") with (Byte.x74 :: gs "rue"). change (gs "false") with (Byte.x66 :: gs "alse").
  rewrite !prefix_other; [done|..]; intros ->; discriminate Hb.
Qed.

Lemma text_goes_on fuel : value_more fuel ∧ elements_more fuel ∧ members_more fuel.
Proof.
  induction fuel as [|fuel (IHv & IHe & IHm)]; [by repeat split|].
  assert (∀ d s v r, value fuel d s = Some (v, r) → ascii_text s → ∀ c r', skip_space r = c :: r' →
    ascii_text r ∧ ∀ fuel' t, (fuel ≤ fuel')%nat → value fuel' d (s ++ t) = Some (v, r ++ t)) as Hval.
  { intros d s v r E Hs c r' Hr. assert (r ≠ []) as Hne by (by intros ->). split.
    - apply (IHv fuel d s v r); [lia|done|done|by left].
    - intros fuel' t Hf. apply (IHv fuel' d s v r Hf E Hs). by left. }
  split_and!.
  - intros fuel' d s v r Hf E Hs Hv. destruct fuel' as [|fuel']; [lia|]. setoid_rewrite value_eq. rewrite value_eq in E.
    eapply next_more; [done|exact E|]. intros b s' E' Hs'. eapply value_head_more; try done. lia.
  - intros fuel' d s Hf l r E Hs. destruct fuel' as [|fuel']; [lia|]. cbn [elements] in *.
    destruct (value fuel d s) as [[v s1]|] eqn:Ev; [|done]. cbn [mbind option_bind] in E.
    assert (∃ c s2, skip_space s1 = c :: s2) as (c & s2 & Es) by (destruct (skip_space s1); [done|by eexists _, _]).
    destruct (Hval _ _ _ _ Ev Hs _ _ Es) as [Hs1 Hx]. setoid_rewrite Hx; [|lia]. cbn [mbind option_bind].
    eapply next_more; [done|exact E|]. clear c s2 Es E. intros c s' E [_ Hs']%ascii_cons. cbv beta in *. destruct (beq c 44).
    + eapply bind_more; [apply IHe; lia|done|exact E|]. by intros l' s3 _ [= <- <-] Hs3.
    + destruct (beq c 93); [by injection E as <- <-|done].
  - intros fuel' d s0 Hf m r E0 Hs0. destruct fuel' as [|fuel']; [lia|]. cbn [members] in *.
    eapply next_more; [done|exact E0|]. intros q s1 E1 [_ Hs1]%ascii_cons. cbv beta in *. destruct (beq q 34); [|done].
    eapply bind_more; [apply json_str_more|done|exact E1|]. intros key s2 _ E2 Hs2. cbn beta iota in *.
    eapply next_more; [done|exact E2|]. intros q' s3 E3 [_ Hs3]%ascii_cons. cbv beta in *. destruct (beq q' 58); [|done].
    destruct (value fuel d s3) as [[v s4]|] eqn:Ev; [|done]. cbn [mbind option_bind] in E3.
    assert (∃ c r', skip_space s4 = c :: r') as (c' & r' & Es) by (destruct (skip_space s4); [done|by eexists _, _]).
    destruct (Hval _ _ _ _ Ev Hs3 _ _ Es) as [Hs4 Hx]. setoid_rewrite Hx; [|lia]. cbn [mbind option_bind].
    eapply next_more; [done|exact E3|]. intros c s' E [_ Hs']%ascii_cons. cbv beta in *. destruct (beq c 44).
    + eapply bind_more; [apply IHm; lia|done|exact E|]. by intros l' s5 _ [= <- <-] Hs5.
    + destruct (beq c 125); [by injection E as <- <-|done].
Qed.

(** A proper prefix of a written object or array is not valid. *)
Lemma parse_prefix k v p t : json_ok k v → Z.of_nat k ≤ maxNestingDepth → ascii_text (marshal v) →
  (match v with VArr _ | VObj _ => True | _ => False end) → marshal v = p ++ t → t ≠ [] → parse_json p = None.
Proof.
  intros Hok Hk Ha Hv Hpt Hne. destruct (parse_json p) as [v'|] eqn:E; [exfalso|done].
  unfold parse_json in *. destruct (value _ 0 p) as [[w r]|] eqn:Ep; [|done]. clear E.
  assert (value (S (2 * length (marshal v))) 0 (marshal v ++ []) = Some (v, [])) as Hfull by (apply (value_marshal v k); [done|lia|lia|done]).
  rewrite app_nil_r, Hpt in Hfull. rewrite Hpt in Ha. apply Forall_app in Ha as [Ha _].
  destruct (text_goes_on (S (2 * length p))) as [Hmore _].
  destruct (Hmore (S (2 * length (p ++ t))) 0 p w r) as [_ Hx]; [rewrite length_app; lia|done|done| |].
  - right. destruct p as [|b p]; [done|]. assert (beq b 123 = true ∨ beq b 91 = true ∧ beq b 123 = false) as Hb.
    { destruct v as [| | | |l|m]; try done; cbn [marshal] in Hpt; injection Hpt as <- _; [by right|by left]. }
    rewrite value_eq in Ep. assert (skip_space (b :: p) = b :: p) as Esk.
    { cbn [skip_space]. unfold json_space, beq in *. destruct Hb as [Hb|[Hb _]]; apply Z.eqb_eq in Hb as ->; done. }
    rewrite Esk in Ep. unfold value_head in Ep. destruct Hb as [Hb|[Hb Hb']]; rewrite ?Hb, ?Hb' in Ep.
    all: destruct (_ <? _); [done|]; destruct (skip_space p) as [|c r']; [done|]; destruct (beq c _); [by injection Ep as <- _|].
    + destruct (members _ _ _) as [[m' r'']|]; [|done]. by injection Ep as <- _.
    + destruct (elements _ _ _) as [[m' r'']|]; [|done]. by injection Ep as <- _.
  - specialize (Hx t). rewrite Hfull in Hx. injection Hx as _ Hnil. symmetry in Hnil. by apply app_eq_nil in Hnil as [_ ?].
Qed.

Lemma ascii_app s t : ascii_text s → ascii_text t → ascii_text (s ++ t).
Proof. apply Forall_app_2. Qed.
Lemma ascii_Join l sep : Forall ascii_text l → ascii_text sep → ascii_text (Join l sep).
Proof.
  induction 1 as [|x l Hx Hl IH]; intros Hs; [by constructor|]. destruct l as [|y l]; [done|]. cbn [Join].
  apply ascii_app; [done|]. apply ascii_app; [done|by apply IH].
Qed.
Lemma ascii_quote s : ascii_text s → ascii_text (marshal_string s).
Proof.
  intros Hs. unfold marshal_string. apply ascii_app; [by repeat constructor|]. apply ascii_app; [|by repeat constructor].
  assert (∀ n, ascii_text (quote_text n s)) as H; [|apply H]. induction Hs as [|b s Hb _ IH]; intros n; destruct n as [|n]; try by constructor.
  cbn [quote_text]. destruct (Z.ltb_spec (bz b) 128); [|lia]. apply ascii_app; [|apply IH]. clear -Hb. revert Hb.
  destruct b; intros Hb; (by exfalso; revert Hb; vm_compute) || by repeat constructor.
Qed.
Lemma ascii_Itoa n : ascii_text (Itoa n).
Proof.
  assert (∀ m, 0 ≤ m → ascii_text (fmt_uint 10 m)) as H.
  { intros m Hm. destruct (fmt_uint_parse m Hm) as [_ Hd]. eapply Forall_impl; [exact Hd|]. intros b Hb. unfold is_digit in Hb. zbool. lia. }
  unfold Itoa, fmt_int. destruct (Z.ltb_spec n 0); [|by apply H]. constructor; [done|]. apply H. lia.
Qed.
Lemma marshal_ascii v : ∀ k, json_ok k v → ascii_text (marshal v).
Proof.
  assert (∀ s, Forall (λ b, bz b <? 128 = true) s → ascii_text s) as Hgs by (intros s Hs; eapply Forall_impl; [exact Hs|]; intros ?; apply Z.ltb_lt).
  revert v. refine (json_induction _ _ _ _).
  - intros l IH [|k] Hok; [done|]. cbn [json_ok] in Hok. apply elements_ok in Hok. cbn [marshal].
    apply ascii_app; [by apply Hgs; repeat constructor|]. apply ascii_app; [|by apply Hgs; repeat constructor].
    apply ascii_Join; [|by apply Hgs; repeat constructor]. apply Forall_map. rewrite Forall_forall in *. eauto.
  - intros m IH [|k] Hok; [done|]. cbn [json_ok] in Hok. apply members_ok in Hok. cbn [marshal].
    apply ascii_app; [by apply Hgs; repeat constructor|]. apply ascii_app; [|by apply Hgs; repeat constructor].
    apply ascii_Join; [|by apply Hgs; repeat constructor]. apply Forall_map. rewrite Forall_forall in *. intros kv Hkv.
    destruct (Hok kv Hkv) as [Hk Hv]. apply ascii_app; [by apply ascii_quote|]. apply ascii_app; [by apply Hgs; repeat constructor|]. by apply (IH kv Hkv k).
  - intros v. destruct v as [|[|]|x|s|l|m]; try done; intros k Hok; cbn [marshal].
    + by apply Hgs; repeat constructor.
    + by apply Hgs; repeat constructor.
    + by apply Hgs; repeat constructor.
    + destruct Hok as [n ->]. apply ascii_Itoa.
    + by apply ascii_quote.
Qed.
