(* ===== verification/Java.v ===== *)
(** * Java serialization (src/dubboport/java_deserializer.go)

    The reader of a Java object stream.  Handles, class descriptors and field
    maps are shared and changed after they have been handed out, so the state
    keeps a store of class descriptors and a store of field maps; values refer
    to them by number.

    The texts of the errors are dropped by every caller of the package, so an
    error is only [JErr].  [JOverflow] is a recursion of the model that has
    used up its fuel. *)

From S2P Require Import Prelude GoBytes GoStrings.

Definition _streamMagic : Z := 44269.
Definition _streamVersion : Z := 5.
Definition _tcNull : Z := 112.
Definition _tcReference : Z := 113.
Definition _tcClassDesc : Z := 114.
Definition _tcObject : Z := 115.
Definition _tcString : Z := 116.
Definition _tcArray : Z := 117.
Definition _tcClass : Z := 118.
Definition _tcBlockData : Z := 119.
Definition _tcEndBlockData : Z := 120.
Definition _tcReset : Z := 121.
Definition _tcBlockDataLong : Z := 122.
Definition _tcLongString : Z := 124.
Definition _tcEnum : Z := 126.
Definition _scSerializable : Z := 2.
Definition _scWriteMethod : Z := 1.

Record javaFieldInfo := mkField { typeCode : byte; f_name : list byte; className1 : list byte }.
(** [super] is the number of a descriptor; [None] is nil. *)
Record classDescInfo := mkClass {
  className : list byte; flags : Z; fields : list javaFieldInfo; super : option nat }.

(** What an [interface{}] of the deserializer can hold. A float is kept as the
    bits of its [float64]. *)
Inductive jval : Type :=
| JNil
| JInt (n : Z)
| JChar (n : Z)
| JFloat (bits : Z)
| JBool (b : bool)
| JStr (s : list byte)
| JArr (l : list jval)
| JMap (id : nat)
| JClass (id : nat).

Definition jmap : Type := gmap (list byte) jval.

Record javaDeserializer := mkJ {
  pos : Z; handles : list jval; classes : list classDescInfo; objects : list jmap }.

Inductive jres (A : Type) : Type :=
| JOk (a : A) (d : javaDeserializer)
| JErr (d : javaDeserializer)
| JPanic
| JOverflow.
Arguments JOk {A} a d.
Arguments JErr {A} d.
Arguments JPanic {A}.
Arguments JOverflow {A}.

Definition jm (A : Type) : Type := javaDeserializer → jres A.
#[export] Instance jm_ret : MRet jm := fun A a d => JOk a d.
#[export] Instance jm_bind : MBind jm := fun A B f m d =>
  match m d with
  | JOk a d => f a d
  | JErr d => JErr d
  | JPanic => JPanic
  | JOverflow => JOverflow
  end.

Definition fail {A} : jm A := fun d => JErr d.
Definition jpanic {A} : jm A := fun _ => JPanic.
Definition overflow {A} : jm A := fun _ => JOverflow.
Definition get_pos : jm Z := fun d => JOk (pos d) d.
Definition set_pos (p : Z) : jm unit := fun d => JOk tt (mkJ p (handles d) (classes d) (objects d)).
Definition skip (n : Z) : jm unit := p ← get_pos; set_pos (p + n).
(** [d.handles = append(d.handles, v)] *)
Definition newHandle (v : jval) : jm unit := fun d =>
  JOk tt (mkJ (pos d) (handles d ++ [v]) (classes d) (objects d)).
Definition handle_count : jm nat := fun d => JOk (length (handles d)) d.
(** [d.handles[h] = v] *)
Definition set_handle (h : nat) (v : jval) : jm unit := fun d =>
  JOk tt (mkJ (pos d) (<[h:=v]> (handles d)) (classes d) (objects d)).
(** [d.handles[h]], [h] in range or an error. *)
Definition get_handle (h : Z) : jm jval := fun d =>
  match znth (handles d) h with Some v => JOk v d | None => JErr d end.
(** A new descriptor, a new map. *)
Definition new_class (c : classDescInfo) : jm nat := fun d =>
  JOk (length (classes d)) (mkJ (pos d) (handles d) (classes d ++ [c]) (objects d)).
Definition set_class (id : nat) (c : classDescInfo) : jm unit := fun d =>
  JOk tt (mkJ (pos d) (handles d) (<[id:=c]> (classes d)) (objects d)).
Definition get_class (id : nat) : jm classDescInfo := fun d =>
  match classes d !! id with Some c => JOk c d | None => JPanic end.
Definition new_object (m : jmap) : jm nat := fun d =>
  JOk (length (objects d)) (mkJ (pos d) (handles d) (classes d) (objects d ++ [m])).
(** [if _, exists := result[k]; !exists { result[k] = v }] *)
Definition set_missing (id : nat) (k : list byte) (v : jval) : jm unit := fun d =>
  match objects d !! id with
  | Some m => JOk tt (mkJ (pos d) (handles d) (classes d)
                        (<[id := match m !! k with Some _ => m | None => <[k:=v]> m end]> (objects d)))
  | None => JPanic
  end.

(** [float64(math.Float32frombits(b))], as bits. *)
Definition float64_of_float32 (b : Z) : Z :=
  let s := Z.shiftl (Z.shiftr b 31) 63 in
  let e := Z.land (Z.shiftr b 23) 255 in
  let m := Z.land b 8388607 in
  if e =? 255 then s + Z.shiftl 2047 52 + (if m =? 0 then 0 else Z.lor (Z.shiftl m 29) (2 ^ 51))
  else if e =? 0 then
    if m =? 0 then s
    else let k := Z.log2 m in s + Z.shiftl (k + 874) 52 + Z.shiftl (m - 2 ^ k) (52 - k)
  else s + Z.shiftl (e + 896) 52 + Z.shiftl m 29.

Section data.
Context (data : list byte).

Definition at_end : jm bool := p ← get_pos; mret (len data <=? p).
(** [d.data[d.pos]] *)
Definition cur : jm Z := fun d =>
  match index data (pos d) with Ret b => JOk (bz b) d | Panic => JPanic end.
(** [if d.pos+n > len(d.data) { return error }; v := binary.BigEndian...; d.pos += n] *)
Definition be_read (n : Z) : jm Z := fun d =>
  if len data <? pos d + n then JErr d
  else match be_at n data (pos d) with
       | Ret v => JOk v (mkJ (pos d + n) (handles d) (classes d) (objects d))
       | Panic => JPanic
       end.
(** [if d.pos >= len(d.data) { return error }; v := d.data[d.pos]; d.pos++] *)
Definition byte_read : jm Z :=
  e ← at_end; if e : bool then fail else c ← cur; _ ← skip 1; mret c.
(** [if d.pos >= len(d.data) || d.data[d.pos] != tc { return error }; d.pos++] *)
Definition expect_tag (tc : Z) : jm unit :=
  e ← at_end; if e : bool then fail else c ← cur; if c =? tc then skip 1 else fail.
(** [if length < 0 || d.pos+length > len(d.data) { return error }; s :=
    string(d.data[d.pos:d.pos+length]); d.pos += length]; the sum is an [int]. *)
Definition text_read (length : Z) : jm (list byte) := fun d =>
  if (length <? 0) || (len data <? int64 (pos d + length)) then JErr d
  else match sub data (pos d) (int64 (pos d + length)) with
       | Ret s => JOk s (mkJ (pos d + length) (handles d) (classes d) (objects d))
       | Panic => JPanic
       end.

Definition readUTF : jm (list byte) :=
  length ← be_read 2; if length =? 0 then mret [] else text_read length.

Definition readString : jm (list byte) :=
  _ ← expect_tag _tcString;
  length ← be_read 2; s ← text_read length; _ ← newHandle (JStr s); mret s.

Definition readLongString : jm (list byte) :=
  _ ← expect_tag _tcLongString;
  length ← be_read 8; s ← text_read (int64 length); _ ← newHandle (JStr s); mret s.

Definition readReference : jm jval :=
  _ ← expect_tag _tcReference; h ← be_read 4; get_handle h.

Definition readObjectString : jm (list byte) :=
  e ← at_end;
  if e : bool then fail
  else
    tc ← cur;
    if tc =? _tcString then readString
    else if tc =? _tcLongString then readLongString
    else if tc =? _tcReference then
      _ ← skip 1; h ← be_read 4; v ← get_handle h;
      match v with JStr s => mret s | _ => fail end
    else fail.

(** ** Block data *)

Definition skipBlockDataLong : jm unit :=
  _ ← expect_tag _tcBlockDataLong;
  size ← be_read 4;
  p ← get_pos; if len data <? p + size then fail else skip size.

Definition skipBlockData : jm unit :=
  e ← at_end;
  if e : bool then fail
  else
    tc ← cur;
    if tc =? _tcBlockData then
      _ ← skip 1; size ← byte_read;
      p ← get_pos; if len data <? p + size then fail else skip size
    else if tc =? _tcBlockDataLong then skipBlockDataLong
    else if tc =? _tcEndBlockData then skip 1
    else fail.

Fixpoint annotation_loop (fuel : nat) : jm unit :=
  match fuel with
  | O => overflow
  | S fuel =>
      e ← at_end;
      if e : bool then fail
      else
        tc ← cur;
        if tc =? _tcEndBlockData then skip 1
        else if tc =? _tcBlockData then _ ← skipBlockData; annotation_loop fuel
        else if tc =? _tcBlockDataLong then _ ← skipBlockDataLong; annotation_loop fuel
        else fail
  end.
Definition skipObjectAnnotation : jm unit := annotation_loop (S (length data)).

(** ** Class descriptors *)

(** [fieldCount] field descriptors. *)
Fixpoint read_fields (n : nat) : jm (list javaFieldInfo) :=
  match n with
  | O => mret []
  | S n =>
      typeCode ← byte_read;
      name ← readUTF;
      cn ← (if (typeCode =? 91) || (typeCode =? 76) then readObjectString else mret []);
      rest ← read_fields n;
      mret (mkField (to_byte typeCode) name cn :: rest)
  end.

(** The part of [readClassDesc] behind the tag, [readClassDesc] being the
    recursive call for the super class. *)
Definition class_body (readClassDesc : jm (option nat)) : jm (option nat) :=
  name ← readUTF;
  p ← get_pos;
  if len data <? p + 8 then fail
  else
    _ ← skip 8;
    id ← new_class (mkClass name 0 [] None);
    _ ← newHandle (JClass id);
    flags ← byte_read;
    fieldCount ← be_read 2;
    fields ← read_fields (Z.to_nat fieldCount);
    _ ← set_class id (mkClass name flags fields None);
    _ ← (if negb (Z.land flags _scSerializable =? 0) && negb (Z.land flags _scWriteMethod =? 0)
         then skipObjectAnnotation else mret tt);
    sup ← readClassDesc;
    _ ← set_class id (mkClass name flags fields sup);
    mret (Some id).

Fixpoint classdesc_loop (fuel : nat) : jm (option nat) :=
  match fuel with
  | O => overflow
  | S fuel =>
      e ← at_end;
      if e : bool then fail
      else
        tc ← cur;
        if tc =? _tcNull then _ ← skip 1; mret None
        else if tc =? _tcReference then
          _ ← skip 1; h ← be_read 4; v ← get_handle h;
          match v with JClass id => mret (Some id) | _ => fail end
        else if tc =? _tcClassDesc then _ ← skip 1; class_body (classdesc_loop fuel)
        else fail
  end.
Definition readClassDesc : jm (option nat) := classdesc_loop (S (length data)).

(** ** Values *)

Definition isPrimitiveTypeCode (c : byte) : bool :=
  bool_decide (c ∈ gs "BCDFIJSZ").

(** The primitive cases of [readFieldValue]; [readRawPrimitive] is the same. *)
Definition readRawPrimitive (typeCode : byte) : jm jval :=
  if beq typeCode 66 then v ← byte_read; mret (JInt (sint 8 v))
  else if beq typeCode 67 then v ← be_read 2; mret (JChar v)
  else if beq typeCode 68 then v ← be_read 8; mret (JFloat v)
  else if beq typeCode 70 then v ← be_read 4; mret (JFloat (float64_of_float32 v))
  else if beq typeCode 73 then v ← be_read 4; mret (JInt (int32 v))
  else if beq typeCode 74 then v ← be_read 8; mret (JInt (int64 v))
  else if beq typeCode 83 then v ← be_read 2; mret (JInt (sint 16 v))
  else if beq typeCode 90 then v ← byte_read; mret (JBool (negb (v =? 0)))
  else fail.

(** What follows calls [readContent]; [chain] bounds the walks up the super
    classes. *)
Section content.
Context (chain : nat) (readContent : jm jval).

Definition readFieldValue (typeCode : byte) : jm jval :=
  if beq typeCode 91 || beq typeCode 76 then readContent else readRawPrimitive typeCode.

Definition write_method (c : classDescInfo) : bool := negb (Z.land (flags c) _scWriteMethod =? 0).
(** The next byte looks like block data. *)
Definition at_block : jm bool :=
  e ← at_end;
  if e : bool then mret false
  else tc ← cur; mret ((tc =? _tcBlockData) || (tc =? _tcBlockDataLong)).

Fixpoint read_values (fs : list javaFieldInfo) (result : nat) : jm unit :=
  match fs with
  | [] => mret tt
  | f :: fs =>
      v ← readFieldValue (typeCode f);
      _ ← set_missing result (f_name f) v;
      read_values fs result
  end.

(** A descriptor's own part of the walk up the super classes, for
    [readClassData] and [skipClassData]: [values] are its field values. *)
Definition class_part (c : classDescInfo) (values : jm unit) : jm unit :=
  block ← (if write_method c then at_block else mret false);
  if block : bool then skipObjectAnnotation
  else _ ← values; if write_method c then skipObjectAnnotation else mret tt.

Fixpoint class_chain (visit : classDescInfo → jm unit) (fuel : nat) (desc : option nat) : jm unit :=
  match desc with
  | None => mret tt
  | Some id =>
      match fuel with
      | O => overflow
      | S fuel => c ← get_class id; _ ← visit c; class_chain visit fuel (super c)
      end
  end.

Definition read_part (result : nat) (c : classDescInfo) : jm unit := class_part c (read_values (fields c) result).
Definition readClassData (desc : option nat) (result : nat) : jm unit :=
  class_chain (read_part result) chain desc.

Definition readObject : jm jval :=
  _ ← expect_tag _tcObject;
  classDesc ← readClassDesc;
  result ← new_object ∅;
  _ ← newHandle (JMap result);
  _ ← readClassData classDesc result;
  mret (JMap result).

(** The elements of an array; every element takes a byte, so [S (length data)]
    rounds are enough. *)
Fixpoint array_loop (fuel : nat) (elemType : byte) (size : Z) : jm (list jval) :=
  if size <=? 0 then mret []
  else
    match fuel with
    | O => overflow
    | S fuel =>
        v ← (if isPrimitiveTypeCode elemType then readRawPrimitive elemType else readContent);
        l ← array_loop fuel elemType (size - 1);
        mret (v :: l)
    end.

Definition elem_type (name : list byte) : byte :=
  match name with
  | b :: t :: _ => if beq b 91 then t else Byte.x4c
  | _ => Byte.x4c
  end.

Definition readArray : jm jval :=
  _ ← expect_tag _tcArray;
  classDesc ← readClassDesc;
  match classDesc with
  | None => fail
  | Some id =>
      size ← be_read 4;
      handle ← handle_count;
      _ ← newHandle JNil;
      c ← get_class id;
      l ← array_loop (S (length data)) (elem_type (className c)) size;
      _ ← set_handle handle (JArr l);
      mret (JArr l)
  end.

Definition readEnum : jm jval :=
  _ ← expect_tag _tcEnum;
  _ ← readClassDesc;
  enumName ← readObjectString;
  _ ← newHandle (JStr enumName);
  mret (JStr enumName).

Definition readClass : jm jval :=
  _ ← expect_tag _tcClass;
  desc ← readClassDesc;
  className ← (match desc with None => mret [] | Some id => c ← get_class id; mret (className c) end);
  _ ← newHandle (JStr className);
  m ← new_object {[gs "class" := JStr className]};
  mret (JMap m).

Definition read_content : jm jval :=
  e ← at_end;
  if e : bool then fail
  else
    tc ← cur;
    if tc =? _tcNull then _ ← skip 1; mret JNil
    else if tc =? _tcReference then readReference
    else if tc =? _tcObject then readObject
    else if tc =? _tcString then s ← readString; mret (JStr s)
    else if tc =? _tcLongString then s ← readLongString; mret (JStr s)
    else if tc =? _tcArray then readArray
    else if tc =? _tcEnum then readEnum
    else if tc =? _tcClass then readClass
    else if (tc =? _tcBlockData) || (tc =? _tcBlockDataLong) then _ ← skipBlockData; mret JNil
    else fail.

(** [skipClassData]: the values are read and dropped. *)
Fixpoint skip_values (fs : list javaFieldInfo) : jm unit :=
  match fs with
  | [] => mret tt
  | f :: fs =>
      _ ← (if isPrimitiveTypeCode (typeCode f) then readFieldValue (typeCode f) else readContent);
      skip_values fs
  end.
Definition skip_part (c : classDescInfo) : jm unit := class_part c (skip_values (fields c)).
Definition skipClassData (desc : option nat) : jm unit := class_chain skip_part chain desc.
Definition skipClassDescWithData : jm unit := desc ← readClassDesc; skipClassData desc.
End content.

(** The recursion: [fuel] levels of nested content. *)
Fixpoint content (chain fuel : nat) : jm jval :=
  match fuel with
  | O => overflow
  | S fuel => read_content chain (content chain fuel)
  end.

(** A level takes a byte; a walk passes over at most as many classes as there
    are, that is bytes of descriptors, before it takes a byte. *)
Definition chain_fuel : nat := S (length data) * S (length data).
Definition readContent : jm jval := content chain_fuel (S (length data)).
End data.

(** ** [fmt.Sprintf("%v", x)]

    What the text of a value takes from the run-time library: a [float64] in
    the shortest form of [%v], and the address of a class descriptor. *)
Class JavaRuntime := { FormatG : Z → list byte; pointer_text : nat → list byte }.

Section text.
Context `{JavaRuntime}.

Definition fmt_field (f : javaFieldInfo) : list byte :=
  gs "{" ++ Itoa (bz (typeCode f)) ++ gs " " ++ f_name f ++ gs " " ++ className1 f ++ gs "}".
Definition fmt_pointer (id : option nat) : list byte :=
  match id with Some id => pointer_text id | None => gs "<nil>" end.
Definition fmt_class (c : classDescInfo) : list byte :=
  gs "&{" ++ className c ++ gs " " ++ Itoa (flags c) ++ gs " [" ++ Join (map fmt_field (fields c)) (gs " ")
  ++ gs "] " ++ fmt_pointer (super c) ++ gs "}".

(** A value below the top; [objs] are the maps, [fuel] bounds the maps on the
    way down: a map that is inside itself has no text, the recursion of Go
    does not end. *)
Fixpoint fmt_inner (objs : list jmap) (fuel : nat) (v : jval) {struct fuel} : comp (list byte) :=
  (fix go (v : jval) : comp (list byte) :=
    match v with
    | JNil => Val (gs "<nil>")
    | JInt n | JChar n => Val (Itoa n)
    | JFloat bits => Val (FormatG bits)
    | JBool b => Val (fmt_bool b)
    | JStr s => Val s
    | JArr l => ts ← mapM go l; Val (gs "[" ++ Join ts (gs " ") ++ gs "]")
    | JMap id =>
        match fuel with
        | O => NoFuel
        | S fuel =>
            match objs !! id with
            | None => Crashed
            | Some m =>
                ts ← mapM (λ kv, t ← fmt_inner objs fuel kv.2; Val (kv.1 ++ gs ":" ++ t)) (sorted_entries m);
                Val (gs "map[" ++ Join ts (gs " ") ++ gs "]")
            end
        end
    | JClass id => Val (pointer_text id)
    end) v.

Definition Sprintf_v (d : javaDeserializer) (v : jval) : comp (list byte) :=
  match v with
  | JClass id => match classes d !! id with Some c => Val (fmt_class c) | None => Crashed end
  | _ => fmt_inner (objects d) (S (length (objects d))) v
  end.
Definition sprintf_v (v : jval) : jm (list byte) := fun d =>
  match Sprintf_v d v with Val t => JOk t d | Crashed => JPanic | NoFuel => JOverflow end.
End text.

(** ** The entry points *)

(** The values found, with the maps they refer to. *)
Record jargs := mkArgs { args_map : jmap; args_objects : list jmap }.

Definition start (p : Z) : javaDeserializer := mkJ p [] [] [].

Section entry.
Context (data : list byte).

(** The top-level objects, merged into [result]; [None] ends the loop. *)
Fixpoint args_loop (fuel : nat) (result : jmap) (d : javaDeserializer) : comp (jmap * javaDeserializer) :=
  match fuel with
  | O => NoFuel
  | S fuel =>
      if len data <=? pos d then Val (result, d)
      else
        tc ← of_go (index data (pos d));
        if beq tc _tcEndBlockData
        then args_loop fuel result (mkJ (pos d + 1) (handles d) (classes d) (objects d))
        else if beq tc _tcReset
        then args_loop fuel result (mkJ (pos d + 1) [] (classes d) (objects d))
        else
          match readContent data d with
          | JOk v d =>
              match v with
              | JMap id =>
                  match objects d !! id with
                  | Some m => args_loop fuel (result ∪ m) d
                  | None => Crashed
                  end
              | _ => args_loop fuel result d
              end
          | JErr d => Val (result, d)
          | JPanic => Crashed
          | JOverflow => NoFuel
          end
  end.

(** The stream header is at [p]. *)
Definition stream_header (p : Z) : go bool :=
  if p + 4 <=? len data then
    m ← be_at 2 data p; v ← be_at 2 data (p + 2);
    Ret ((m =? _streamMagic) && (v =? _streamVersion))
  else Ret false.

(** [None] is an error. *)
Definition deserializeJavaArgs : comp (option jargs) :=
  if len data <? 1 then Val None
  else
    header ← of_go (stream_header 0);
    '(result, d) ← args_loop (S (length data)) ∅ (start (if header : bool then 4 else 0));
    if decide (result = ∅) then Val None else Val (Some (mkArgs result (objects d))).
End entry.

Section body.
Context `{JavaRuntime} (body : list byte).

Fixpoint scan_header (fuel : nat) (scan : Z) : go (option Z) :=
  match fuel with
  | O => Ret None
  | S fuel =>
      if scan + 4 <=? len body then
        h ← stream_header body scan;
        if h : bool then Ret (Some scan) else scan_header fuel (scan + 1)
      else Ret None
  end.
Fixpoint scan_object (fuel : nat) (scan : Z) : go (option Z) :=
  match fuel with
  | O => Ret None
  | S fuel =>
      if scan <? len body then
        b ← index body scan;
        if beq b _tcObject then Ret (Some scan) else scan_object fuel (scan + 1)
      else Ret None
  end.

Definition ParseJavaSerializedArgs (startPos : Z) : comp (option jargs) :=
  if (startPos <? 0) || (len body <=? startPos) then Val None
  else
    let from p := t ← of_go (sub body p (len body)); deserializeJavaArgs t in
    header ← of_go (stream_header body startPos);
    if header : bool then from startPos
    else
      b ← of_go (index body startPos);
      if beq b _tcObject then from startPos
      else
        h ← of_go (scan_header (length body) startPos);
        match h with
        | Some scan => from scan
        | None =>
            o ← of_go (scan_object (length body) startPos);
            match o with Some scan => from scan | None => Val None end
        end.

Fixpoint class_scan (fuel : nat) (p : Z) (name : list byte) : go Z :=
  match fuel with
  | O => Ret (-1)
  | S fuel =>
      let n := len name in
      if p + 3 + n <=? len body then
        b ← index body p;
        if negb (beq b _tcClassDesc) then class_scan fuel (p + 1) name
        else
          utfLen ← be_at 2 body (p + 1);
          if negb (utfLen =? n) then class_scan fuel (p + 1) name
          else
            s ← sub body (p + 3) (p + 3 + n);
            if str_eqb s name then Ret p else class_scan fuel (p + 1) name
      else Ret (-1)
  end.
Definition findClassDesc (startPos : Z) (name : list byte) : go Z :=
  class_scan (S (length body)) startPos name.

Definition readEntryValue : jm (list byte) :=
  e ← at_end body;
  if e : bool then fail
  else
    tc ← cur body;
    if tc =? _tcString then readString body
    else if tc =? _tcLongString then readLongString body
    else if tc =? _tcReference then
      ref ← readReference body;
      match ref with JStr s => mret s | _ => sprintf_v ref end
    else if tc =? _tcNull then _ ← skip 1; mret []
    else if tc =? _tcObject then
      obj ← readObject body (chain_fuel body) (readContent body);
      match obj with
      | JMap id => λ d, match objects d !! id with
                        | Some m => sprintf_v (default obj (m !! gs "value")) d
                        | None => JPanic
                        end
      | _ => sprintf_v obj
      end
    else _ ← readContent body; mret (gs "<non-string>").

Fixpoint entries_loop (fuel : nat) (result : gmap (list byte) (list byte)) (d : javaDeserializer)
  : comp (gmap (list byte) (list byte)) :=
  match fuel with
  | O => NoFuel
  | S fuel =>
      if len body <=? pos d then Val result
      else
        match readObjectString body d with
        | JErr _ => Val result
        | JPanic => Crashed
        | JOverflow => NoFuel
        | JOk key d =>
            if len body <=? pos d then Val result
            else
              match readEntryValue d with
              | JOk val d => entries_loop fuel (<[key:=val]> result) d
              | JErr _ => Val (<[key := gs "<parse-error>"]> result)
              | JPanic => Crashed
              | JOverflow => NoFuel
              end
        end
  end.

Definition ParseJavaSerializedAttachments (startPos : Z) : comp (option (gmap (list byte) (list byte))) :=
  p ← of_go (findClassDesc startPos (gs "java.util.HashMap"));
  if p <? 0 then Val None
  else if p <? 1 then Val None
  else
    b ← of_go (index body (p - 1));
    if negb (beq b _tcObject) then Val None
    else
      match skipClassDescWithData body (chain_fuel body) (readContent body) (start p) with
      | JErr _ => Val None
      | JPanic => Crashed
      | JOverflow => NoFuel
      | JOk _ d =>
          result ← entries_loop (S (length body)) ∅ d;
          if decide (result = ∅) then Val None else Val (Some result)
      end.
End body.
