(* ===== verification/JavaProps.v ===== *)
(** * Java serialization: properties

    Termination and panics of the deserializer, and reading back what was
    written. *)

From S2P Require Import Prelude GoBytes GoStrings Java.

(** ** Well-formed states

    Every class and every map that a value, a handle or a class refers to
    exists, and a class has taken at least a byte of the input. *)
Fixpoint val_ok (nc no : nat) (v : jval) : Prop :=
  match v with
  | JArr l => foldr (λ v P, val_ok nc no v ∧ P) True l
  | JMap id => (id < no)%nat
  | JClass id => (id < nc)%nat
  | _ => True
  end.
(** The maps inside a value come after the number [from]. *)
Fixpoint val_behind (from : nat) (v : jval) : Prop :=
  match v with
  | JArr l => foldr (λ v P, val_behind from v ∧ P) True l
  | JMap id => (from ≤ id)%nat
  | _ => True
  end.
Definition desc_ok (nc : nat) (desc : option nat) : Prop :=
  match desc with Some id => (id < nc)%nat | None => True end.

Definition reference (data : list byte) : Prop := ∃ b, b ∈ data ∧ bz b = _tcReference.
Lemma reference_dec data : reference data ∨ ¬ reference data.
Proof.
  destruct (decide (Exists (λ b, bz b = _tcReference) data)) as [H|H]; rewrite Exists_exists in H; [by left|by right].
Qed.
(** A class descriptor that was not found through a reference was read behind
    its sub-class. *)
Definition super_behind (data : list byte) (from : nat) (desc : option nat) : Prop :=
  match desc with Some id => ¬ reference data → (from ≤ id)%nat | None => True end.

(** So do the maps that were not found through a reference. *)
Definition maps_behind (data : list byte) (from : nat) (v : jval) : Prop := ¬ reference data → val_behind from v.

Record wf (data : list byte) (d : javaDeserializer) : Prop := {
  wf_pos : 0 ≤ pos d ≤ len data;
  wf_classes : Z.of_nat (length (classes d)) ≤ pos d;
  wf_handles : Forall (val_ok (length (classes d)) (length (objects d))) (handles d);
  wf_super : Forall (λ c, desc_ok (length (classes d)) (super c)) (classes d);
  wf_behind : ∀ id c, classes d !! id = Some c → super_behind data (S id) (super c);
  wf_maps : ∀ id m k v, objects d !! id = Some m → m !! k = Some v → maps_behind data (S id) v;
  wf_objects : Forall (λ m : jmap, map_Forall (λ _, val_ok (length (classes d)) (length (objects d))) m) (objects d) }.

Lemma val_ok_arr nc no l : val_ok nc no (JArr l) ↔ Forall (val_ok nc no) l.
Proof. cbn. induction l as [|v l IH]; cbn; [done|]. by rewrite IH, Forall_cons. Qed.

Fixpoint val_ok_mono nc no nc' no' (v : jval) {struct v} : (nc ≤ nc')%nat → (no ≤ no')%nat →
  val_ok nc no v → val_ok nc' no' v.
Proof.
  intros Hc Ho. destruct v as [| | | | | |l|id|id]; cbn; try done; try lia.
  induction l as [|v l IH]; cbn; [done|]. intros [Hv Hl]. split; [by eapply val_ok_mono|by apply IH].
Qed.

Lemma val_behind_arr from l : val_behind from (JArr l) ↔ Forall (val_behind from) l.
Proof. cbn. induction l as [|v l IH]; cbn; [done|]. by rewrite IH, Forall_cons. Qed.
Fixpoint val_behind_mono from from' (v : jval) {struct v} : (from' ≤ from)%nat → val_behind from v → val_behind from' v.
Proof.
  intros Hf. destruct v as [| | | | | |l|id|id]; cbn; try done; try lia.
  induction l as [|v l IH]; cbn; [done|]. intros [Hv Hl]. split; [by eapply val_behind_mono|by apply IH].
Qed.
Lemma maps_behind_mono data from from' v : (from' ≤ from)%nat → maps_behind data from v → maps_behind data from' v.
Proof. intros Hf Hv Hr. eapply val_behind_mono; [exact Hf|by apply Hv]. Qed.

(** Induction over values and the elements of their arrays. *)
Section induction.
Context (P : jval → Prop) (Harr : ∀ l, Forall P l → P (JArr l)) (Hrest : ∀ v, match v with JArr _ => True | _ => P v end).
Fixpoint jval_induction (v : jval) : P v :=
  match v with
  | JArr l => Harr l ((fix go (l : list jval) : Forall P l :=
                 match l with [] => Forall_nil_2 P | v :: l => Forall_cons_2 P v l (jval_induction v) (go l) end) l)
  | v => Hrest v
  end.
End induction.

Lemma val_behind_0 v : val_behind 0 v.
Proof.
  revert v. refine (jval_induction _ _ _); [by intros l; rewrite val_behind_arr|]. intros v. destruct v; try done. cbn. lia.
Qed.
Lemma elem_of_insert_entry {A} (kv x : list byte * A) l : x ∈ insert_entry kv l ↔ x = kv ∨ x ∈ l.
Proof.
  induction l as [|y l IH]; cbn [insert_entry]; [rewrite list_elem_of_singleton; set_solver|].
  destruct (str_ltb _ _); rewrite !elem_of_cons, ?IH; tauto.
Qed.
Lemma elem_of_sorted_entries {A} (m : gmap (list byte) A) k v : (k, v) ∈ sorted_entries m ↔ m !! k = Some v.
Proof.
  rewrite <-elem_of_map_to_list. unfold sorted_entries. induction (map_to_list m) as [|y l IH]; cbn [fold_right]; [done|].
  by rewrite elem_of_insert_entry, IH, elem_of_cons.
Qed.

Section spec.
Context (data : list byte) (Hdata : len data ≤ max_alloc).

(** The bytes that are left. *)
Definition left (d : javaDeserializer) : nat := Z.to_nat (len data - pos d).
(** Only a long string can make the reader panic. *)
Definition long_string : Prop := ∃ b, b ∈ data ∧ bz b = _tcLongString.
Definition has (nc no : nat) (d : javaDeserializer) : Prop :=
  (nc ≤ length (classes d))%nat ∧ (no ≤ length (objects d))%nat.

(** What may come out of a state [d]: no class and no map is lost; a result is
    in [Q], with at least [k] bytes less left; only a long string makes the reader
    panic, and only a reference makes it recurse without end. *)
Definition post {A} (k : nat) (Q : A → nat → nat → Prop) (d : javaDeserializer) (r : jres A) : Prop :=
  match r with
  | JOk a d' => wf data d' ∧ has (length (classes d)) (length (objects d)) d' ∧ (left d' + k ≤ left d)%nat
      ∧ Q a (length (classes d')) (length (objects d'))
  | JErr d' => wf data d' ∧ has (length (classes d)) (length (objects d)) d'
  | JPanic => long_string
  | JOverflow => reference data
  end.
(** [spec n k nc no Q m m']: in a well-formed state with at most [n] bytes
    left and at least [nc] classes and [no] maps, [m] and [m'] do the same,
    as [post] says. *)
Definition spec {A} (n k nc no : nat) (Q : A → nat → nat → Prop) (m m' : jm A) : Prop :=
  ∀ d, wf data d → has nc no d → (left d ≤ n)%nat → m d = m' d ∧ post k Q d (m d).
(** The same where there is a byte left. *)
Definition spec_lt {A} (n k nc no : nat) (Q : A → nat → nat → Prop) (m m' : jm A) : Prop :=
  ∀ d, wf data d → has nc no d → (left d ≤ n)%nat → pos d < len data → m d = m' d ∧ post k Q d (m d).
Definition any {A} : A → nat → nat → Prop := λ _ _ _, True.
Definition good_val (v : jval) (nc no : nat) : Prop := val_ok nc no v.
Definition read_val (from : nat) (v : jval) (nc no : nat) : Prop := val_ok nc no v ∧ maps_behind data from v.

Lemma has_trans nc no d d' : has nc no d → has (length (classes d)) (length (objects d)) d' → has nc no d'.
Proof. unfold has. lia. Qed.

Lemma spec_bind {A B} n j k nc no Q R (m m' : jm A) (f f' : A → jm B) :
  spec n j nc no Q m m' →
  (∀ a nc' no', (j ≤ n)%nat → (nc ≤ nc')%nat → (no ≤ no')%nat → Q a nc' no' →
     spec (n - j) k nc' no' R (f a) (f' a)) →
  spec n (j + k) nc no R (m ≫= f) (m' ≫= f').
Proof.
  intros Hm Hf d Hd Hh Hn. destruct (Hm d Hd Hh Hn) as [Heq Hp]. unfold mbind, jm_bind. rewrite <-Heq. unfold post in *.
  destruct (m d) as [a d'|d'| |]; [|done..]. destruct Hp as (Hd' & Hg & Hk & HQ).
  pose proof (has_trans _ _ _ _ Hh Hg) as Hh'.
  destruct (Hf a (length (classes d')) (length (objects d')) ltac:(lia) ltac:(apply Hh') ltac:(apply Hh') HQ d' Hd') as [Heq' Hp'];
    [done|lia|]. rewrite <-Heq'. split; [done|].
  destruct (f a d') as [b d''|d''| |]; [| |done..].
  - destruct Hp' as (Hd'' & Hg' & Hk' & HR). split_and!; [done|by eapply has_trans|lia|done].
  - destruct Hp' as [? ?]. split; [done|by eapply has_trans].
Qed.
(** One of the two readers takes the bytes. *)
Lemma spec_then {A B} n k nc no Q R (m m' : jm A) (f f' : A → jm B) :
  spec n k nc no Q m m' →
  (∀ a nc' no', (k ≤ n)%nat → (nc ≤ nc')%nat → (no ≤ no')%nat → Q a nc' no' →
     spec (n - k) 0 nc' no' R (f a) (f' a)) →
  spec n k nc no R (m ≫= f) (m' ≫= f').
Proof. rewrite <-(Nat.add_0_r k) at 2. apply spec_bind. Qed.
Lemma spec_seq {A B} n k nc no Q R (m m' : jm A) (f f' : A → jm B) :
  spec n 0 nc no Q m m' →
  (∀ a nc' no', (nc ≤ nc')%nat → (no ≤ no')%nat → Q a nc' no' → spec n k nc' no' R (f a) (f' a)) →
  spec n k nc no R (m ≫= f) (m' ≫= f').
Proof. intros Hm Hf. eapply (spec_bind n 0 k); [done|]. rewrite Nat.sub_0_r. auto. Qed.

Lemma spec_weaken {A} n n' k k' nc nc' no no' (Q Q' : A → nat → nat → Prop) m m' :
  spec n k nc no Q m m' → (n' ≤ n)%nat → (k' ≤ k)%nat → (nc ≤ nc')%nat → (no ≤ no')%nat →
  (∀ a x y, Q a x y → Q' a x y) → spec n' k' nc' no' Q' m m'.
Proof.
  intros Hm Hn Hk Hc Ho HQ d Hd Hh Hl. destruct (Hm d Hd) as [Heq Hp]; [unfold has in *; lia|lia|]. split; [done|]. unfold post in *.
  destruct (m d) as [a d'|d'| |]; try done. destruct Hp as (? & ? & ? & ?). split_and!; [done|done|lia|auto].
Qed.
Lemma spec_ret {A} n nc no (Q : A → nat → nat → Prop) a :
  (∀ nc' no', (nc ≤ nc')%nat → (no ≤ no')%nat → Q a nc' no') → spec n 0 nc no Q (mret a) (mret a).
Proof. intros HQ d Hd Hh Hn. split; [done|]. split_and!; [done|done|lia|apply HQ; apply Hh]. Qed.
Lemma spec_fail {A} n k nc no (Q : A → nat → nat → Prop) : spec n k nc no Q fail fail.
Proof. intros d Hd _ _. split; [done|]. by split; [|split]. Qed.
(** A part of the program that only moves the position forward. *)
Lemma spec_moves {A} n k nc no (Q : A → nat → nat → Prop) (m : jm A) :
  (∀ d, wf data d → match m d with
    | JOk a d' => ∃ p, d' = mkJ p (handles d) (classes d) (objects d) ∧ pos d + Z.of_nat k ≤ p ≤ len data
        ∧ ∀ nc' no', Q a nc' no'
    | JErr d' => d' = d
    | JPanic => long_string
    | JOverflow => reference data
    end) → spec n k nc no Q m m.
Proof.
  intros Hm d Hd Hh Hn. split; [done|]. specialize (Hm d Hd). unfold post. destruct (m d) as [a d'|d'| |]; try done.
  - destruct Hm as (p & -> & Hp & HQ). destruct Hd as []. unfold left, has. cbn.
    split_and!; [|done|done|lia|auto]. split; cbn; try done; lia.
  - subst d'. by split; [|split].
Qed.

Lemma at_end_spec n nc no : spec n 0 nc no any (at_end data) (at_end data).
Proof.
  apply spec_moves. intros d []. cbn. exists (pos d). destruct d. split_and!; [done|cbn in *; lia..|done].
Qed.
Lemma cur_val d : wf data d → pos d < len data → ∃ b, b ∈ data ∧ cur data d = JOk (bz b) d.
Proof.
  intros Hd Hp. destruct (index_Ret data (pos d)) as (b & Hb & Hz); [destruct Hd; lia|].
  exists b. unfold cur. rewrite Hb. split; [|done]. by eapply znth_elem_of.
Qed.
Lemma be_read_spec n k nc no : 0 ≤ k → spec n (Z.to_nat k) nc no (λ v _ _, 0 ≤ v < 2 ^ (8 * k)) (be_read data k) (be_read data k).
Proof.
  intros Hk. apply spec_moves. intros d Hd. unfold be_read. destruct (Z.ltb_spec (len data) (pos d + k)); [done|].
  destruct (returns_be_at k data (pos d)) as (v & -> & _ & Hv); [destruct Hd; lia..|].
  exists (pos d + k). split_and!; [done|lia..|done].
Qed.
Lemma skip_le d k : wf data d → 0 ≤ k → pos d + k ≤ len data →
  skip k d = JOk tt (mkJ (pos d + k) (handles d) (classes d) (objects d)).
Proof. done. Qed.
Lemma byte_read_spec n nc no : spec n 1 nc no (λ v _ _, 0 ≤ v < 256) (byte_read data) (byte_read data).
Proof.
  apply spec_moves. intros d Hd. unfold byte_read, at_end, mbind, jm_bind, get_pos, mret, jm_ret.
  destruct (Z.leb_spec (len data) (pos d)); [done|]. destruct (cur_val d Hd) as (b & _ & ->); [done|].
  exists (pos d + 1). pose proof (bz_range b). split_and!; [done|lia..|done].
Qed.
Lemma expect_tag_spec n nc no tc : spec n 1 nc no any (expect_tag data tc) (expect_tag data tc).
Proof.
  apply spec_moves. intros d Hd. unfold expect_tag, at_end, mbind, jm_bind, get_pos, mret, jm_ret.
  destruct (Z.leb_spec (len data) (pos d)); [done|]. destruct (cur_val d Hd) as (b & _ & ->); [done|].
  destruct (bz b =? tc); [|done]. exists (pos d + 1). split_and!; [done|lia..|done].
Qed.
Lemma text_read_spec n nc no l : l < 2 ^ 16 → spec n 0 nc no any (text_read data l) (text_read data l).
Proof.
  intros Hl. apply spec_moves. intros d Hd. unfold text_read. destruct (Z.ltb_spec l 0); [done|]. cbn [orb].
  assert (int64 (pos d + l) = pos d + l) as ->.
  { apply (sint_small 64); [lia|]. destruct Hd. unfold max_alloc in *. lia. }
  destruct (Z.ltb_spec (len data) (pos d + l)); [done|].
  rewrite sub_Ret by (destruct Hd; lia). exists (pos d + l). split_and!; [done|lia..|done].
Qed.

Lemma spec_to_lt {A} n k nc no Q (m m' : jm A) : spec n k nc no Q m m' → spec_lt n k nc no Q m m'.
Proof. intros Hm d ? ? ? _. by apply Hm. Qed.
Lemma spec_lt_skip {A} n k nc no Q (f f' : unit → jm A) :
  spec (n - 1) k nc no Q (f tt) (f' tt) → spec_lt n (1 + k) nc no Q (skip 1 ≫= f) (skip 1 ≫= f').
Proof.
  intros Hf d Hd Hh Hn Hp. pose proof Hd as []. set (d1 := mkJ (pos d + 1) (handles d) (classes d) (objects d)).
  assert (wf data d1) as Hd1 by (split; cbn; try done; lia).
  change ((skip 1 ≫= f) d) with (f tt d1). change ((skip 1 ≫= f') d) with (f' tt d1).
  destruct (Hf d1 Hd1 Hh) as [Heq Hpost]; [unfold left in *; cbn; lia|]. split; [done|]. unfold post in *.
  destruct (f tt d1); try done. destruct Hpost as (? & ? & ? & ?). split_and!; try done. unfold left in *. cbn in *. lia.
Qed.
(** A switch on the next byte. *)
Lemma spec_tag {A} n k nc no Q (f f' : Z → jm A) :
  (∀ b, b ∈ data → spec_lt n k nc no Q (f (bz b)) (f' (bz b))) →
  spec n k nc no Q (e ← at_end data; if e : bool then fail else tc ← cur data; f tc)
                   (e ← at_end data; if e : bool then fail else tc ← cur data; f' tc).
Proof.
  intros Hf d Hd Hh Hn. unfold at_end, get_pos, mbind, jm_bind, mret, jm_ret.
  destruct (Z.leb_spec (len data) (pos d)) as [|Hp].
  - split; [done|]. by split; [|split].
  - destruct (cur_val d Hd Hp) as (b & Hb & ->). by apply Hf.
Qed.

Lemma spec_lt_ret {A} n nc no (Q : A → nat → nat → Prop) a :
  (∀ nc' no', (nc ≤ nc')%nat → (no ≤ no')%nat → Q a nc' no') → spec_lt n 0 nc no Q (mret a) (mret a).
Proof. intros. by apply spec_to_lt, spec_ret. Qed.

Lemma expect_tag_cases tc d : wf data d → expect_tag data tc d = JErr d ∨
  (pos d < len data ∧ (∃ b, b ∈ data ∧ bz b = tc) ∧ expect_tag data tc d = skip 1 d).
Proof.
  intros Hd. unfold expect_tag, at_end, mbind, jm_bind, get_pos, mret, jm_ret.
  destruct (Z.leb_spec (len data) (pos d)) as [|Hp]; [by left|].
  destruct (cur_val d Hd Hp) as (b & Hb & ->). destruct (Z.eqb_spec (bz b) tc); [|by left].
  right. split_and!; [done|by exists b|done].
Qed.
(** Behind a tag that was found. *)
Lemma spec_expect {A} n k nc no Q tc (f f' : unit → jm A) :
  (∀ b, b ∈ data → bz b = tc → spec (n - 1) k nc no Q (f tt) (f' tt)) →
  spec n (1 + k) nc no Q (expect_tag data tc ≫= f) (expect_tag data tc ≫= f').
Proof.
  intros Hf d Hd Hh Hn. destruct (expect_tag_cases tc d Hd) as [He|(Hp & (b & Hb & Htc) & He)].
  - unfold mbind, jm_bind. rewrite He. split; [done|]. by split; [|split].
  - pose proof (spec_lt_skip n k nc no Q f f' (Hf b Hb Htc) d Hd Hh Hn Hp) as H.
    unfold mbind, jm_bind in *. by rewrite He.
Qed.

Lemma wf_add_handle d v : wf data d → val_ok (length (classes d)) (length (objects d)) v →
  wf data (mkJ (pos d) (handles d ++ [v]) (classes d) (objects d)).
Proof. intros [] Hv. split; cbn; try done. apply Forall_app_2; [done|by constructor]. Qed.
Lemma newHandle_spec n nc no v : val_ok nc no v → spec n 0 nc no any (newHandle v) (newHandle v).
Proof.
  intros Hv d Hd Hh Hn. split; [done|]. split_and!; [|done|unfold left; cbn; lia|done].
  apply wf_add_handle; [done|]. by eapply val_ok_mono; [apply Hh..|].
Qed.
Lemma get_handle_spec n nc no h : spec n 0 nc no good_val (get_handle h) (get_handle h).
Proof.
  intros d Hd Hh Hn. split; [done|]. unfold get_handle. destruct (znth (handles d) h) as [v|] eqn:E; [|by split; [|split]].
  split_and!; [done|done|lia|]. apply znth_elem_of in E. pose proof (wf_handles _ _ Hd) as H.
  rewrite Forall_forall in H. by apply H.
Qed.

Lemma be_read_any n nc no k : 0 ≤ k → spec n 0 nc no (λ v _ _, 0 ≤ v < 2 ^ (8 * k)) (be_read data k) (be_read data k).
Proof.
  intros Hk. apply (spec_weaken n n (Z.to_nat k) 0 nc nc no no (λ v _ _, 0 ≤ v < 2 ^ (8 * k))); [by apply be_read_spec|lia..|done].
Qed.
Lemma readUTF_spec n nc no : spec n 0 nc no any (readUTF data) (readUTF data).
Proof.
  unfold readUTF. eapply spec_seq; [by apply be_read_any|].
  intros l nc' no' _ _ Hl. cbv beta in Hl. destruct (l =? 0); [by apply spec_ret|]. apply text_read_spec. lia.
Qed.
Lemma readString_spec n nc no : spec n 1 nc no any (readString data) (readString data).
Proof.
  unfold readString. apply spec_expect. intros _ _ _. eapply spec_seq; [by apply be_read_any|].
  intros l nc' no' _ _ Hl. cbv beta in Hl. eapply spec_seq; [apply text_read_spec; lia|].
  intros t nc2 no2 _ _ _. eapply spec_seq; [by apply newHandle_spec|]. intros. by apply spec_ret.
Qed.
Lemma long_read_spec n nc no l : is_int64 l → long_string → spec n 0 nc no any (text_read data l) (text_read data l).
Proof.
  intros Hl Hlong. apply spec_moves. intros d Hd. unfold text_read. destruct (Z.ltb_spec l 0); [done|]. cbn [orb].
  destruct (Z.ltb_spec (len data) (int64 (pos d + l))); [done|].
  destruct (sub data (pos d) (int64 (pos d + l))) as [t|] eqn:E; [|done].
  apply sub_inv in E as (Hp & Hle & _). exists (pos d + l).
  destruct (decide (pos d + l < 2 ^ 63)).
  - replace (int64 (pos d + l)) with (pos d + l) in *.
    2:{ symmetry. apply (sint_small 64); [lia|]. destruct Hd. unfold is_int64 in *. lia. }
    split_and!; [done|lia..|done].
  - exfalso. unfold int64, sint in Hp. destruct Hd. unfold is_int64, max_alloc in *.
    replace (pos d + l + 2 ^ (64 - 1)) with ((pos d + l + 2 ^ (64 - 1) - 2 ^ 64) + 1 * 2 ^ 64) in Hp by lia.
    rewrite Z.mod_add, Z.mod_small in Hp by lia. lia.
Qed.
Lemma readLongString_spec n nc no : spec n 1 nc no any (readLongString data) (readLongString data).
Proof.
  unfold readLongString. apply spec_expect. intros b Hb Htc. eapply spec_seq; [by apply be_read_any|].
  intros l nc' no' _ _ Hl. eapply spec_seq; [apply long_read_spec; [apply int64_range|by exists b]|].
  intros t nc2 no2 _ _ _. eapply spec_seq; [by apply newHandle_spec|]. intros. by apply spec_ret.
Qed.
Lemma readReference_spec n nc no : spec n 1 nc no (read_val no) (readReference data) (readReference data).
Proof.
  unfold readReference. apply spec_expect. intros b Hb Htc. eapply spec_seq; [by apply be_read_any|].
  intros h nc1 no1 _ Hno1 _. eapply spec_weaken; [apply (get_handle_spec (n - 1) nc1 no1)|lia..|].
  intros v x y Hv. split; [exact Hv|]. intros []. by exists b.
Qed.
Lemma readObjectString_spec n nc no : spec n 1 nc no any (readObjectString data) (readObjectString data).
Proof.
  unfold readObjectString. apply spec_tag. intros b Hb.
  destruct (_ =? _tcString); [apply spec_to_lt, readString_spec|].
  destruct (_ =? _tcLongString); [apply spec_to_lt, readLongString_spec|].
  destruct (_ =? _tcReference); [|apply spec_to_lt, spec_fail].
  apply (spec_lt_skip n 0). eapply spec_seq; [by apply be_read_any|].
  intros. eapply spec_seq; [apply get_handle_spec|]. intros v **. destruct v; try apply spec_fail. by apply spec_ret.
Qed.

(** ** Block data *)

Lemma skip_checked n nc no size : 0 ≤ size →
  spec n 0 nc no any (p ← get_pos; if len data <? p + size then fail else skip size)
                     (p ← get_pos; if len data <? p + size then fail else skip size).
Proof.
  intros Hs. apply spec_moves. intros d Hd. unfold get_pos, mbind, jm_bind.
  destruct (Z.ltb_spec (len data) (pos d + size)); [done|].
  exists (pos d + size). split_and!; [done|lia..|done].
Qed.
Lemma skipBlockDataLong_spec n nc no : spec n 1 nc no any (skipBlockDataLong data) (skipBlockDataLong data).
Proof.
  unfold skipBlockDataLong. apply spec_expect. intros _ _ _. eapply spec_seq; [by apply be_read_any|].
  intros size nc' no' _ _ Hsize. apply skip_checked. apply Hsize.
Qed.
Lemma byte_read_any n nc no : spec n 0 nc no (λ v _ _, 0 ≤ v < 256) (byte_read data) (byte_read data).
Proof.
  apply (spec_weaken n n 1 0 nc nc no no (λ v _ _, 0 ≤ v < 256)); [apply byte_read_spec|lia..|done].
Qed.
Lemma skipBlockData_spec n nc no : spec n 1 nc no any (skipBlockData data) (skipBlockData data).
Proof.
  unfold skipBlockData. apply spec_tag. intros b Hb. destruct (_ =? _tcBlockData).
  { apply (spec_lt_skip n 0). eapply spec_seq; [apply byte_read_any|].
    intros size nc' no' _ _ Hsize. apply skip_checked. apply Hsize. }
  destruct (_ =? _tcBlockDataLong); [apply spec_to_lt, skipBlockDataLong_spec|].
  destruct (_ =? _tcEndBlockData); [|apply spec_to_lt, spec_fail].
  intros d Hd Hh Hn Hp. apply (spec_lt_skip n 0 nc no any mret mret); try done. by apply spec_ret.
Qed.

(** The bytes left are at most those of the input. *)
Lemma spec_all {A} n k nc no Q (m m' : jm A) : spec (length data) k nc no Q m m' → spec n k nc no Q m m'.
Proof. intros Hm d Hd Hh _. apply Hm; [done..|]. unfold left. destruct Hd. rewrite len_length. lia. Qed.

Lemma annotation_loop_spec fuel : ∀ n nc no, (n < fuel)%nat →
  spec n 1 nc no any (annotation_loop data fuel) (annotation_loop data fuel).
Proof.
  induction fuel as [|fuel IH]; intros n nc no Hn; [lia|]. cbn [annotation_loop]. apply spec_tag. intros b Hb.
  destruct (_ =? _tcEndBlockData).
  { intros d Hd Hh Hl Hp. apply (spec_lt_skip n 0 nc no any mret mret); try done. by apply spec_ret. }
  destruct (_ =? _tcBlockData); [|destruct (_ =? _tcBlockDataLong); [|apply spec_to_lt, spec_fail]].
  all: apply spec_to_lt; eapply spec_then; [first [apply skipBlockData_spec|apply skipBlockDataLong_spec]|].
  all: intros _ nc' no' Hn' _ _ _; eapply spec_weaken; [apply (IH (n - 1)%nat nc' no'); lia|lia..|done].
Qed.
Lemma skipObjectAnnotation_spec n nc no :
  spec n 1 nc no any (skipObjectAnnotation data) (skipObjectAnnotation data).
Proof. apply spec_all, annotation_loop_spec. lia. Qed.

(** ** Class descriptors *)

Lemma read_fields_spec k : ∀ n nc no, spec n 0 nc no any (read_fields data k) (read_fields data k).
Proof.
  induction k as [|k IH]; intros n nc no; cbn [read_fields]; [by apply spec_ret|].
  eapply spec_seq; [apply byte_read_any|]. intros t nc1 no1 _ _ _.
  eapply spec_seq; [apply readUTF_spec|]. intros name nc2 no2 _ _ _.
  eapply (spec_seq _ 0 _ _ any).
  { destruct (_ || _); [|by apply spec_ret].
    eapply spec_weaken; [apply (readObjectString_spec n nc2 no2)|lia..|done]. }
  intros cn nc3 no3 _ _ _. eapply spec_seq; [apply IH|]. intros. by apply spec_ret.
Qed.

(** A new descriptor takes the eight bytes of the serial number. *)
Lemma new_class_spec {A} n k nc no Q name (f f' : nat → jm A) :
  (∀ id, (nc ≤ id)%nat → spec n k (S id) no Q (f id) (f' id)) →
  let new g := p ← get_pos; if len data <? p + 8 then fail else _ ← skip 8; id ← new_class (mkClass name 0 [] None); g id in
  spec n k nc no Q (new f) (new f').
Proof.
  intros Hf new d Hd Hh Hn. subst new. unfold get_pos, mbind, jm_bind.
  destruct (Z.ltb_spec (len data) (pos d + 8)); [by split; [done|split]|].
  set (d1 := mkJ (pos d + 8) (handles d) (classes d ++ [mkClass name 0 [] None]) (objects d)).
  assert (length (classes d ++ [mkClass name 0 [] None]) = S (length (classes d))) as Hlen
    by (rewrite length_app; cbn; lia).
  assert (wf data d1) as Hd1.
  { pose proof Hd as [Hp Hc Hhs Hs Hb Hmb Ho]. split; subst d1; cbn [pos handles classes objects].
    - lia.
    - rewrite Hlen. lia.
    - eapply Forall_impl; [exact Hhs|]. intros v. apply val_ok_mono; [lia|done].
    - apply Forall_app_2; [|by constructor]. eapply Forall_impl; [exact Hs|].
      intros c. cbv beta. unfold desc_ok. destruct (super c); [|done]. rewrite Hlen. lia.
    - intros id c. intros [Hl|[_ Hl]]%lookup_app_Some; [by eapply Hb|].
      by destruct (id - length (classes d))%nat as [|[]]; [injection Hl as <-|..].
    - done.
    - eapply Forall_impl; [exact Ho|]. intros m Hm i v Hv. eapply val_ok_mono; [| |by eapply Hm]; [lia|done]. }
  destruct (Hf (length (classes d)) ltac:(apply Hh) d1 Hd1) as [Heq Hpost]; [split; [subst d1; cbn [classes]; lia|apply Hh]|unfold left in *; cbn; lia|].
  split; [exact Heq|].
  change (post k Q d (f (length (classes d)) d1)). unfold post, has in *. subst d1. cbn [classes objects] in *. destruct (f (length (classes d)) _) as [a d'|d'| |]; try done.
  - destruct Hpost as (? & [? ?] & ? & ?). split_and!; [done|lia|done|unfold left in *; cbn in *; lia|done].
  - destruct Hpost as (? & [? ?]). split_and!; [done|lia|done].
Qed.
Lemma set_class_spec n nc no id c : (id < nc)%nat → desc_ok nc (super c) → super_behind data (S id) (super c) →
  spec n 0 nc no any (set_class id c) (set_class id c).
Proof.
  intros Hid Hs Hb d Hd Hh Hn. split; [done|]. pose proof Hd as [? ? ? Hss Hbb ? ?]. destruct Hh as [Hc Ho].
  split_and!; [|by split; cbn; rewrite ?length_insert|unfold left; cbn; lia|done].
  split; cbn [pos handles classes objects]; rewrite ?length_insert; try done.
  - apply Forall_insert; [done|]. unfold desc_ok in *. destruct (super c); [lia|done].
  - intros i c'. destruct (decide (i = id)) as [->|].
    + rewrite list_lookup_insert_eq by lia. by intros [= <-].
    + rewrite list_lookup_insert_ne by done. apply Hbb.
Qed.

Definition read_desc (from : nat) (desc : option nat) (nc no : nat) : Prop :=
  desc_ok nc desc ∧ super_behind data from desc.

Lemma class_body_spec n k nc no (rc rc' : jm (option nat)) :
  (∀ nc' no', spec n k nc' no' (read_desc nc') rc rc') →
  spec n 0 nc no (read_desc nc) (class_body data rc) (class_body data rc').
Proof.
  intros Hrc. unfold class_body. eapply spec_seq; [apply readUTF_spec|]. intros name nc1 no1 Hnc1 _ _.
  apply (new_class_spec n 0 nc1 no1 (read_desc nc)). intros id Hid.
  eapply spec_seq; [apply newHandle_spec; cbn; lia|]. intros _ nc2 no2 Hnc2 _ _.
  eapply spec_seq; [apply byte_read_any|]. intros fl nc3 no3 Hnc3 _ _.
  eapply spec_seq; [by apply be_read_any|]. intros fc nc4 no4 Hnc4 _ _.
  eapply spec_seq; [apply read_fields_spec|]. intros fs nc5 no5 Hnc5 _ _.
  eapply spec_seq; [apply set_class_spec; [lia|done..]|]. intros _ nc6 no6 Hnc6 _ _.
  eapply (spec_seq _ 0 _ _ any).
  { destruct (_ && _); [|by apply spec_ret]. eapply spec_weaken; [apply (skipObjectAnnotation_spec n nc6 no6)|lia..|done]. }
  intros _ nc7 no7 Hnc7 _ _. eapply (spec_seq _ 0 _ _ (read_desc nc7)).
  { eapply spec_weaken; [apply (Hrc nc7 no7)|lia..|done]. }
  intros sup nc8 no8 Hnc8 _ [Hs1 Hs2]. eapply spec_seq.
  { apply set_class_spec; [lia|done|]. cbn [super]. unfold super_behind in *. destruct sup; [|done].
    intros Hr. specialize (Hs2 Hr). lia. }
  intros _ nc9 no9 Hnc9 _ _. apply spec_ret. intros nc' no' Hnc' _. split; [cbn; lia|]. cbn. intros _. lia.
Qed.

Lemma classdesc_loop_spec fuel : ∀ n nc no, (n < fuel)%nat →
  spec n 1 nc no (read_desc nc) (classdesc_loop data fuel) (classdesc_loop data fuel).
Proof.
  induction fuel as [|fuel IH]; intros n nc no Hn; [lia|]. cbn [classdesc_loop]. apply spec_tag. intros b Hb.
  destruct (_ =? _tcNull).
  { apply (spec_lt_skip n 0). by apply spec_ret. }
  destruct (Z.eqb_spec (bz b) _tcReference) as [Hr|].
  { apply (spec_lt_skip n 0). eapply spec_seq; [by apply be_read_any|]. intros h nc1 no1 _ _ _.
    eapply spec_seq; [apply get_handle_spec|]. intros v nc2 no2 _ _ Hv. destruct v; try apply spec_fail.
    apply spec_ret. intros nc' no' Hnc' _. cbn in Hv. split; [cbn; lia|]. cbn. intros []. by exists b. }
  destruct (_ =? _tcClassDesc); [|apply spec_to_lt, spec_fail].
  destruct n as [|n].
  { intros d Hd Hh Hl Hp. unfold left in Hl. lia. }
  apply (spec_lt_skip (S n) 0). rewrite Nat.sub_succ, Nat.sub_0_r.
  apply (class_body_spec n 1). intros. apply IH. lia.
Qed.
Lemma readClassDesc_spec n nc no : spec n 1 nc no (read_desc nc) (readClassDesc data) (readClassDesc data).
Proof. apply spec_all, classdesc_loop_spec. lia. Qed.

(** ** The walk up the super classes

    A silent class has nothing to read.  A walk over silent classes leaves the
    state alone; when it is longer than there are classes, it goes round in a
    circle and does not end. *)
Definition silent (c : classDescInfo) : bool :=
  match fields c with [] => negb (write_method c) | _ => false end.

Fixpoint silent_walk (cs : list classDescInfo) (k : nat) (desc : option nat) : option (option nat) :=
  match k with
  | O => Some desc
  | S k =>
      id ← desc; c ← cs !! id;
      if silent c then silent_walk cs k (super c) else None
  end.

Lemma silent_walk_add cs j k desc :
  silent_walk cs (j + k) desc = x ← silent_walk cs j desc; silent_walk cs k x.
Proof.
  revert desc. induction j as [|j IH]; intros desc; [done|]. cbn [Nat.add silent_walk].
  destruct desc as [id|]; [|done]. cbn [mbind option_bind]. destruct (cs !! id) as [c|]; [|done]. cbn [mbind option_bind].
  destruct (silent c); [apply IH|done].
Qed.
Lemma silent_walk_le cs j k desc x : silent_walk cs k desc = Some x → (j ≤ k)%nat → is_Some (silent_walk cs j desc).
Proof.
  intros Hk Hj. replace k with (j + (k - j))%nat in Hk by lia. rewrite silent_walk_add in Hk.
  destruct (silent_walk cs j desc); [done|discriminate].
Qed.
(** Where a walk that goes on has come to. *)
Lemma silent_walk_id cs k desc x : silent_walk cs (S k) desc = Some x →
  ∃ id c, silent_walk cs k desc = Some (Some id) ∧ cs !! id = Some c ∧ (id < length cs)%nat ∧ x = super c.
Proof.
  rewrite <-Nat.add_1_r, silent_walk_add. destruct (silent_walk cs k desc) as [[id|]|]; [|done..].
  cbn. destruct (cs !! id) as [c|] eqn:Hc; [|done]. cbn. destruct (silent c); [|done]. intros [= <-].
  exists id, c. split_and!; try done. by eapply lookup_lt_Some.
Qed.

Lemma not_NoDup_pair (l : list nat) : ¬ NoDup l → ∃ i j x, (i < j)%nat ∧ l !! i = Some x ∧ l !! j = Some x.
Proof.
  induction l as [|x l IH]; intros Hl; [destruct Hl; constructor|].
  destruct (decide (x ∈ l)) as [Hx|Hx].
  - apply list_elem_of_lookup in Hx as [j Hj]. exists 0%nat, (S j), x. split_and!; [lia|done|done].
  - destruct IH as (i & j & y & Hij & Hi & Hj); [intros Hnd; apply Hl; by constructor|].
    exists (S i), (S j), y. split_and!; [lia|done|done].
Qed.

(** A walk longer than there are classes comes back, and goes on for ever. *)
Lemma silent_walk_circle cs desc x k : silent_walk cs (S (length cs)) desc = Some x → is_Some (silent_walk cs k desc).
Proof.
  intros Hx. set (n := length cs) in *.
  set (ids := map (λ k, default 0%nat (y ← silent_walk cs k desc; y)) (seq 0 (S n))).
  assert (∀ i, (i ≤ n)%nat → ∃ id, silent_walk cs i desc = Some (Some id) ∧ ids !! i = Some id ∧ (id < n)%nat) as Hids.
  { intros i Hi. destruct (silent_walk_le cs (S i) (S n) desc x Hx) as [y Hy]; [lia|].
    apply silent_walk_id in Hy as (id & c & Hid & _ & Hlt & _). exists id. split_and!; [done| |done].
    subst ids. rewrite list_lookup_fmap, lookup_seq_lt by lia. cbn. by rewrite Hid. }
  assert (¬ NoDup ids) as Hdup.
  { intros Hnd%NoDup_ListNoDup. assert (length ids ≤ length (seq 0 n))%nat as H; [apply List.NoDup_incl_length; [done|]|].
    2:{ revert H. subst ids. rewrite length_map, !length_seq. lia. }
    intros id Hin. apply list_elem_of_In, list_elem_of_lookup in Hin as [i Hi].
    assert (i ≤ n)%nat as Hle. { apply lookup_lt_Some in Hi. subst ids. rewrite length_map, length_seq in Hi. lia. }
    destruct (Hids i Hle) as (id' & _ & Hi' & Hlt). rewrite Hi in Hi'. injection Hi' as <-. apply in_seq. lia. }
  apply not_NoDup_pair in Hdup as (i & j & id & Hij & Hi & Hj).
  assert (j ≤ n)%nat as Hjn. { apply lookup_lt_Some in Hj. subst ids. rewrite length_map, length_seq in Hj. lia. }
  destruct (Hids i) as (id1 & Hw1 & Hl1 & _); [lia|]. destruct (Hids j Hjn) as (id2 & Hw2 & Hl2 & _).
  rewrite Hi in Hl1. rewrite Hj in Hl2. injection Hl1 as <-. injection Hl2 as <-.
  induction k as [k IH] using lt_wf_ind. destruct (decide (k ≤ j)%nat) as [|Hk].
  - eapply silent_walk_le; [exact Hx|lia].
  - replace k with (j + (k - j))%nat by lia. rewrite silent_walk_add, Hw2. cbn [mbind option_bind].
    destruct (IH (i + (k - j))%nat) as [y Hy]; [lia|]. rewrite silent_walk_add, Hw1 in Hy. cbn in Hy. by exists y.
Qed.

(** Without references every super class is behind its sub-class. *)
Lemma silent_walk_behind d desc k x : wf data d → ¬ reference data → silent_walk (classes d) (S k) desc = Some x →
  ∃ id, silent_walk (classes d) k desc = Some (Some id) ∧ (k ≤ id < length (classes d))%nat.
Proof.
  intros Hd Hr. revert x. induction k as [|k IH]; intros x Hx.
  - apply silent_walk_id in Hx as (id & c & Hid & _ & Hlt & _). exists id. split; [done|lia].
  - pose proof (silent_walk_id _ _ _ _ Hx) as (id & c & Hid & Hc & Hlt & _).
    exists id. split; [done|]. destruct (IH _ Hid) as (id0 & Hid0 & Hle).
    apply silent_walk_id in Hid as (id1 & c1 & Hid1 & Hc1 & _ & Hsup). rewrite Hid0 in Hid1. injection Hid1 as <-.
    pose proof (wf_behind _ _ Hd _ _ Hc1) as Hb. rewrite <-Hsup in Hb. cbn in Hb. specialize (Hb Hr). lia.
Qed.

Section chain.
Context (visit visit' : classDescInfo → jm unit).
Context (Hsilent : ∀ c d, silent c = true → visit c d = JOk tt d ∧ visit' c d = JOk tt d).

Lemma chain_silent (v : classDescInfo → jm unit) (Hv : ∀ c d, silent c = true → v c d = JOk tt d) d k : ∀ desc x g,
  silent_walk (classes d) k desc = Some x → class_chain v (k + g) desc d = class_chain v g x d.
Proof.
  induction k as [|k IH]; intros desc x g; [by intros [= <-]|]. cbn [silent_walk].
  destruct desc as [id|]; [|done]. cbn [mbind option_bind]. destruct (classes d !! id) as [c|] eqn:Hc; [|done].
  cbn [mbind option_bind]. destruct (silent c) eqn:Hs; [|done]. intros Hw. rewrite <-(IH _ _ _ Hw).
  cbn [Nat.add class_chain]. unfold get_class, mbind, jm_bind. rewrite Hc. by rewrite Hv.
Qed.
Lemma chain_circle (v : classDescInfo → jm unit) (Hv : ∀ c d, silent c = true → v c d = JOk tt d) d desc x g :
  silent_walk (classes d) (S (length (classes d))) desc = Some x → class_chain v g desc d = JOverflow.
Proof.
  intros Hx. destruct (silent_walk_circle _ _ _ (S g) Hx) as [y Hy].
  apply silent_walk_id in Hy as (id & c & Hid & _). rewrite <-(Nat.add_0_r g).
  by rewrite (chain_silent v Hv d g _ _ _ Hid).
Qed.

(** A walk that does not go in a circle comes to a class with something to
    read, or to the end, in at most as many steps as there are classes. *)
Lemma loud_or_circle d n : wf data d → ∀ desc, desc_ok (length (classes d)) desc →
  is_Some (silent_walk (classes d) (S n) desc) ∨
  ∃ k x, (k ≤ n)%nat ∧ silent_walk (classes d) k desc = Some x ∧
    match x with None => True | Some id => ∃ c, classes d !! id = Some c ∧ silent c = false ∧ desc_ok (length (classes d)) (super c) end.
Proof.
  intros Hd. induction n as [|n IH]; intros desc Hdesc.
  - destruct desc as [id|]; [|right; by exists 0%nat, None]. destruct (lookup_lt_is_Some_2 _ _ Hdesc) as [c Hc].
    destruct (silent c) eqn:Hs.
    + left. cbn. rewrite Hc. cbn. rewrite Hs. by eexists.
    + right. exists 0%nat, (Some id). split_and!; [lia|done|]. exists c. split_and!; try done.
      pose proof (wf_super _ _ Hd) as H. rewrite Forall_lookup in H. by eapply H.
  - destruct desc as [id|]; [|right; exists 0%nat, None; by split_and!; [lia|..]].
    destruct (lookup_lt_is_Some_2 _ _ Hdesc) as [c Hc]. pose proof (wf_super _ _ Hd) as H. rewrite Forall_lookup in H.
    specialize (H _ _ Hc). destruct (silent c) eqn:Hs.
    + destruct (IH (super c) H) as [Hl|(k & x & Hk & Hw & Hx)].
      * left. change (S (S n)) with (1 + S n)%nat. rewrite silent_walk_add. cbn [silent_walk mbind option_bind].
        rewrite Hc. cbn. by rewrite Hs.
      * right. exists (S k), x. split_and!; [lia| |done]. cbn [silent_walk mbind option_bind]. rewrite Hc. cbn. by rewrite Hs.
    + right. exists 0%nat, (Some id). split_and!; [lia|done|]. by exists c.
Qed.

Lemma class_chain_spec no n : 
  (∀ m c nc no', (m ≤ n)%nat → (no ≤ no')%nat → silent c = false → spec m 1 nc no' any (visit c) (visit' c)) →
  ∀ nc no' desc g g', (no ≤ no')%nat → (S n * S (length data) ≤ g)%nat → (S n * S (length data) ≤ g')%nat → desc_ok nc desc →
  spec n 0 nc no' any (class_chain visit g desc) (class_chain visit' g' desc).
Proof.
  assert (∀ c d, silent c = true → visit c d = JOk tt d) as Hs1 by (intros; by apply Hsilent).
  assert (∀ c d, silent c = true → visit' c d = JOk tt d) as Hs2 by (intros; by apply Hsilent).
  induction n as [n IH] using lt_wf_ind. intros Hloud nc no' desc g g' Hno Hg Hg' Hdesc d Hd Hh Hn.
  assert (length (classes d) ≤ length data)%nat as Hcs. { destruct Hd. rewrite len_length in *. lia. }
  assert (desc_ok (length (classes d)) desc) as Hdesc'.
  { destruct Hh. destruct desc; [cbn in *; lia|done]. }
  destruct (loud_or_circle d (length (classes d)) Hd desc Hdesc') as [[x Hx]|(k & x & Hk & Hw & Hx)].
  - rewrite (chain_circle visit Hs1 _ _ _ _ Hx), (chain_circle visit' Hs2 _ _ _ _ Hx). split; [done|]. cbn.
    destruct (reference_dec data) as [|Hr]; [done|]. exfalso.
    apply (silent_walk_behind _ _ _ _ Hd Hr) in Hx as (id & _ & ?). lia.
  - destruct (Nat.le_exists_sub k g) as (g1 & -> & _); [lia|]. destruct (Nat.le_exists_sub k g') as (g1' & -> & _); [lia|].
    rewrite !(Nat.add_comm _ k). rewrite (chain_silent visit Hs1 d k _ _ _ Hw), (chain_silent visit' Hs2 d k _ _ _ Hw).
    destruct x as [id|].
    2:{ destruct g1, g1'; (split; [done|]); (split; [done|split; [done|split; [lia|done]]]). }
    destruct Hx as (c & Hc & Hs & Hsup). destruct g1 as [|g1]; [lia|]. destruct g1' as [|g1']; [lia|].
    assert (∀ v g, class_chain v (S g) (Some id) d = (v c ≫= λ _ : unit, class_chain v g (super c)) d) as Hstep.
    { intros v g. cbn [class_chain]. unfold get_class. unfold mbind at 1, jm_bind at 1. by rewrite Hc. }
    rewrite !Hstep. assert (k ≤ length data)%nat as Hkl by lia. clear Hstep Hw Hdesc' Hcs Hk Hc.
    assert (spec n 1 (length (classes d)) no' any (visit c ≫= λ _ : unit, class_chain visit g1 (super c))
      (visit' c ≫= λ _ : unit, class_chain visit' g1' (super c))) as Hspec.
    { eapply spec_then; [by apply Hloud|]. intros _ nc1 no1 Hn1 Hnc1 Hno1 _.
      destruct n as [|n]; [lia|]. rewrite Nat.sub_succ, Nat.sub_0_r.
      apply (IH n); [lia|intros m c0 nc2 no2 Hm Hno2 Hs'; apply Hloud; [lia|lia|done]|lia|nia|nia|].
      destruct (super c); [cbn in *; lia|done]. }
    destruct (Hspec d Hd ltac:(split; [done|apply Hh]) Hn) as [Heq Hpost]. split; [exact Heq|].
    unfold post in *. destruct ((_ : jm unit) d); try done. destruct Hpost as (? & ? & ? & ?). split_and!; [done|done|lia|done].
Qed.
End chain.

(** ** Content *)

Lemma new_object_spec n nc no m : map_Forall (λ _ v, ∀ x y z, val_ok x y v ∧ val_behind z v) m →
  spec n 0 nc no (λ id _ no', (no ≤ id < no')%nat) (new_object m) (new_object m).
Proof.
  intros Hm d Hd Hh Hn. split; [done|]. pose proof Hd as [? ? Hhs ? ? Hb Ho].
  assert (length (objects d ++ [m]) = S (length (objects d))) as Hlen by (rewrite length_app; cbn; lia).
  destruct Hh. split_and!; [|split; cbn [classes objects]; lia|unfold left; cbn; lia|cbn [objects]; lia..].
  split; cbn [pos handles classes objects]; rewrite ?Hlen; try done.
  - eapply Forall_impl; [exact Hhs|]. intros v. apply val_ok_mono; lia.
  - intros id m' k v [Hl|[_ Hl]]%lookup_app_Some; [by eapply Hb|].
    destruct (id - length (objects d))%nat as [|[]]; [injection Hl as <-|done..]. intros Hv _. by eapply Hm.
  - apply Forall_app_2.
    + eapply Forall_impl; [exact Ho|]. intros m' Hm' i v Hv. eapply val_ok_mono; [| |by eapply Hm']; lia.
    + constructor; [|done]. intros i v Hv. by apply (Hm i v Hv).
Qed.
Lemma set_missing_spec n nc no id k v : (id < no)%nat → val_ok nc no v → maps_behind data (S id) v →
  spec n 0 nc no any (set_missing id k v) (set_missing id k v).
Proof.
  intros Hid Hv Hvb d Hd Hh Hn. split; [done|]. pose proof Hd as [? ? Hhs ? ? Hb Ho]. pose proof Hh as [Hnc Hno].
  unfold set_missing. destruct (lookup_lt_is_Some_2 (objects d) id ltac:(lia)) as [m Hm]. rewrite Hm.
  assert (map_Forall (λ _, val_ok (length (classes d)) (length (objects d))) m) as Hmok.
  { rewrite Forall_lookup in Ho. by eapply Ho. }
  split_and!; [|split; cbn [classes objects]; rewrite ?length_insert; lia|unfold left; cbn; lia|done].
  split; cbn [pos handles classes objects]; rewrite ?length_insert; try done.
  - intros i m' k' v'. destruct (decide (i = id)) as [->|].
    + rewrite list_lookup_insert_eq by lia. intros [= <-]. destruct (m !! k); [by apply Hb|].
      intros [[_ <-]|[_ Hv']]%lookup_insert_Some; [done|by eapply Hb].
    + rewrite list_lookup_insert_ne by done. apply Hb.
  - apply Forall_insert; [done|]. destruct (m !! k); [done|]. apply map_Forall_insert_2; [|done].
    by eapply val_ok_mono; [| |exact Hv].
Qed.
Lemma set_handle_spec n nc no h v : val_ok nc no v → spec n 0 nc no any (set_handle h v) (set_handle h v).
Proof.
  intros Hv d Hd Hh Hn. split; [done|]. pose proof Hd as [? ? Hhs ? ? ? Ho].
  split_and!; [|done|unfold left; cbn; lia|done].
  split; cbn [pos handles classes objects]; try done. apply Forall_insert; [done|]. by eapply val_ok_mono; [apply Hh..|].
Qed.
Lemma get_class_spec n nc no id : (id < nc)%nat → spec n 0 nc no any (get_class id) (get_class id).
Proof.
  intros Hid d Hd Hh Hn. split; [done|]. unfold get_class. destruct Hh.
  destruct (lookup_lt_is_Some_2 (classes d) id ltac:(lia)) as [c ->]. split_and!; [done|done|lia|done].
Qed.
Lemma handle_count_spec n nc no : spec n 0 nc no any handle_count handle_count.
Proof. intros d Hd Hh Hn. split; [done|]. split_and!; [done|done|lia|done]. Qed.

Lemma readRawPrimitive_spec n nc no t : spec n 1 nc no (read_val no) (readRawPrimitive data t) (readRawPrimitive data t).
Proof.
  unfold readRawPrimitive.
  assert (∀ k f, 1 ≤ k → (∀ v, ∀ nc' no', read_val no (f v) nc' no') →
    spec n 1 nc no (read_val no) (v ← be_read data k; mret (f v)) (v ← be_read data k; mret (f v))) as Hbe.
  { intros k f Hk Hf. eapply spec_then.
    - apply (spec_weaken n n (Z.to_nat k) 1 nc nc no no (λ v _ _, 0 ≤ v < 2 ^ (8 * k))); [apply be_read_spec; lia|lia..|]. intros a x y H. exact H.
    - intros. apply spec_ret. intros. apply Hf. }
  assert (∀ f, (∀ v, ∀ nc' no', read_val no (f v) nc' no') →
    spec n 1 nc no (read_val no) (v ← byte_read data; mret (f v)) (v ← byte_read data; mret (f v))) as Hb.
  { intros f Hf. eapply spec_then; [apply byte_read_spec|]. intros. apply spec_ret. intros. apply Hf. }
  repeat match goal with |- spec _ _ _ _ _ (if ?c then _ else _) _ => destruct c end;
    try apply spec_fail; first [by apply Hb|by apply Hbe].
Qed.

Lemma spec_drop {A} m k nc no Q (a b : jm A) : spec m k nc no Q a b → spec m 0 nc no Q a b.
Proof. intros H. eapply spec_weaken; [exact H|lia..|done]. Qed.

Lemma spec_lt_drop {A} m k nc no Q (a b : jm A) : spec_lt m k nc no Q a b → spec_lt m 0 nc no Q a b.
Proof.
  intros H d Hd Hh Hn Hp. destruct (H d Hd Hh Hn Hp) as [Heq Hpost]. split; [done|]. unfold post in *.
  destruct (a d); try done. destruct Hpost as (? & ? & ? & ?). split_and!; try done. lia.
Qed.

Section content.
Context (p : nat) (rc rc' : jm jval) (Hrc : ∀ m nc no, (m ≤ p)%nat → spec m 1 nc no (read_val no) rc rc').
Context (chain chain' : nat) (Hchain : (S p * S (length data) ≤ chain)%nat) (Hchain' : (S p * S (length data) ≤ chain')%nat).

Lemma readFieldValue_spec m nc no t : (m ≤ p)%nat →
  spec m 1 nc no (read_val no) (readFieldValue data rc t) (readFieldValue data rc' t).
Proof. intros Hm. unfold readFieldValue. destruct (_ || _); [by apply Hrc|apply readRawPrimitive_spec]. Qed.

Lemma read_values_spec fs : ∀ m nc no result, (m ≤ p)%nat → (result < no)%nat →
  spec m 0 nc no any (read_values data rc fs result) (read_values data rc' fs result).
Proof.
  induction fs as [|f fs IH]; intros m nc no result Hm Hr; cbn [read_values]; [by apply spec_ret|].
  eapply spec_seq; [by eapply spec_drop, readFieldValue_spec|]. intros v nc1 no1 _ Hno1 Hv.
  eapply spec_seq; [apply set_missing_spec; [lia|apply Hv|eapply maps_behind_mono; [|apply Hv]; lia]|].
  intros _ nc2 no2 _ Hno2 _. apply IH; lia.
Qed.
Lemma read_values_loud f fs m nc no result : (m ≤ p)%nat → (result < no)%nat →
  spec m 1 nc no any (read_values data rc (f :: fs) result) (read_values data rc' (f :: fs) result).
Proof.
  intros Hm Hr. cbn [read_values]. eapply spec_then; [by apply readFieldValue_spec|]. intros v nc1 no1 Hm1 _ Hno1 Hv.
  eapply spec_seq; [apply set_missing_spec; [lia|apply Hv|eapply maps_behind_mono; [|apply Hv]; lia]|].
  intros _ nc2 no2 _ Hno2 _. apply read_values_spec; lia.
Qed.
Lemma skip_values_spec fs : ∀ m nc no, (m ≤ p)%nat →
  spec m 0 nc no any (skip_values data rc fs) (skip_values data rc' fs).
Proof.
  induction fs as [|f fs IH]; intros m nc no Hm; cbn [skip_values]; [by apply spec_ret|].
  eapply (spec_seq _ 0 _ _ (read_val no)).
  { destruct (isPrimitiveTypeCode _); eapply spec_drop; [by apply readFieldValue_spec|by apply Hrc]. }
  intros v nc1 no1 _ Hno1 Hv. by apply IH.
Qed.
Lemma skip_values_loud f fs m nc no : (m ≤ p)%nat →
  spec m 1 nc no any (skip_values data rc (f :: fs)) (skip_values data rc' (f :: fs)).
Proof.
  intros Hm. cbn [skip_values]. eapply (spec_then _ 1 _ _ (read_val no)).
  { destruct (isPrimitiveTypeCode _); [by apply readFieldValue_spec|by apply Hrc]. }
  intros v nc1 no1 Hm1 _ Hno1 Hv. apply skip_values_spec. lia.
Qed.

Lemma at_block_spec n nc no : spec n 0 nc no any (at_block data) (at_block data).
Proof.
  apply spec_moves. intros d Hd. unfold at_block, at_end, mbind, jm_bind, get_pos, mret, jm_ret.
  assert (∃ q, d = mkJ q (handles d) (classes d) (objects d) ∧ pos d + Z.of_nat 0 ≤ q ≤ len data ∧ (∀ nc' no' : nat, True)) as Hq.
  { exists (pos d). destruct Hd. split_and!; [by destruct d|lia..|done]. }
  destruct (Z.leb_spec (len data) (pos d)); [done|]. by destruct (cur_val d Hd) as (b & _ & ->).
Qed.

Lemma class_part_spec m nc no c values values' : silent c = false →
  (∀ nc' no', (no ≤ no')%nat → spec m (if fields c then 0 else 1) nc' no' any values values') →
  spec m 1 nc no any (class_part data c values) (class_part data c values').
Proof.
  intros Hs Hv. unfold class_part. eapply (spec_seq _ 1 _ _ any).
  { destruct (write_method c); [apply at_block_spec|by apply spec_ret]. }
  intros block nc1 no1 _ Hno1 _. destruct block; [apply skipObjectAnnotation_spec|].
  unfold silent in Hs. specialize (Hv nc1 no1 Hno1). destruct (fields c).
  - apply negb_false_iff in Hs as ->. eapply spec_seq; [done|]. intros. apply skipObjectAnnotation_spec.
  - eapply spec_then; [done|]. intros. destruct (write_method c); [|by apply spec_ret].
    eapply spec_drop, skipObjectAnnotation_spec.
Qed.
Lemma class_part_silent c d values : silent c = true → values d = JOk tt d → class_part data c values d = JOk tt d.
Proof.
  unfold silent, class_part. destruct (fields c); [|done]. intros ->%negb_true_iff Hv.
  unfold mbind, jm_bind, mret, jm_ret. by rewrite Hv.
Qed.
Lemma silent_fields c : silent c = true → fields c = [].
Proof. unfold silent. by destruct (fields c). Qed.

Lemma readClassData_spec m nc no desc result : (m ≤ p)%nat → (result < no)%nat → desc_ok nc desc →
  spec m 0 nc no any (readClassData data chain rc desc result) (readClassData data chain' rc' desc result).
Proof.
  intros Hm Hr Hdesc. unfold readClassData. apply (class_chain_spec _ _) with no; try done; [| |nia|nia].
  - intros c d Hs. unfold read_part. pose proof (silent_fields c Hs) as ->.
    split; by apply class_part_silent.
  - intros m' c nc' no' Hm' Hno' Hs. unfold read_part. apply class_part_spec; [done|].
    intros nc2 no2 Hno2. destruct (fields c); [by apply spec_ret|]. apply read_values_loud; lia.
Qed.
Lemma skipClassData_spec m nc no desc : (m ≤ p)%nat → desc_ok nc desc →
  spec m 0 nc no any (skipClassData data chain rc desc) (skipClassData data chain' rc' desc).
Proof.
  intros Hm Hdesc. unfold skipClassData. apply (class_chain_spec _ _) with no; try done; [| |nia|nia].
  - intros c d Hs. unfold skip_part. pose proof (silent_fields c Hs) as ->.
    split; by apply class_part_silent.
  - intros m' c nc' no' Hm' Hno' Hs. unfold skip_part. apply class_part_spec; [done|].
    intros nc2 no2 Hno2. destruct (fields c); [by apply spec_ret|]. apply skip_values_loud; lia.
Qed.
Lemma skipClassDescWithData_spec m nc no : (m ≤ p)%nat →
  spec m 0 nc no any (skipClassDescWithData data chain rc) (skipClassDescWithData data chain' rc').
Proof.
  intros Hm. unfold skipClassDescWithData. eapply spec_seq; [eapply spec_drop, readClassDesc_spec|].
  intros desc nc1 no1 _ _ [Hdesc _]. by apply skipClassData_spec.
Qed.

Lemma readObject_spec nc no : spec (S p) 1 nc no (read_val no) (readObject data chain rc) (readObject data chain' rc').
Proof.
  unfold readObject. apply (spec_expect (S p) 0). intros _ _ _. rewrite Nat.sub_succ, Nat.sub_0_r.
  eapply spec_seq; [eapply spec_drop, readClassDesc_spec|]. intros desc nc1 no1 _ Hno1 [Hdesc _].
  eapply spec_seq; [by apply new_object_spec, map_Forall_empty|]. intros result nc2 no2 Hnc2 _ Hres. cbv beta in Hres.
  eapply spec_seq; [apply newHandle_spec; cbn; lia|]. intros _ nc3 no3 Hnc3 Hno3 _.
  eapply spec_seq; [apply readClassData_spec; [done|lia|]|].
  { destruct desc; [cbn in *; lia|done]. }
  intros _ nc4 no4 _ Hno4 _. apply spec_ret. intros nc' no' _ Hno'. split; [cbn; lia|]. intros _. cbn. lia.
Qed.

Lemma array_loop_spec fuel : ∀ m nc no t size, (m ≤ p)%nat → (m < fuel)%nat →
  spec m 0 nc no (λ l nc' no', Forall (λ v, read_val no v nc' no') l) (array_loop data rc fuel t size) (array_loop data rc' fuel t size).
Proof.
  induction fuel as [|fuel IH]; intros m nc no t size Hm Hf; [lia|]. cbn [array_loop].
  destruct (size <=? 0); [by apply spec_ret|].
  eapply spec_drop, (spec_then _ 1 _ _ (read_val no)).
  { destruct (isPrimitiveTypeCode t); [apply readRawPrimitive_spec|by apply Hrc]. }
  intros v nc1 no1 Hm1 _ Hno1 Hv. eapply spec_seq; [apply IH; lia|]. intros l nc2 no2 Hnc2 Hno2 Hl. cbv beta in Hl.
  apply spec_ret. intros nc' no' Hnc' Hno'. constructor.
  - split; [|apply Hv]. eapply val_ok_mono; [| |apply Hv]; lia.
  - eapply Forall_impl; [exact Hl|]. intros x [Hx1 Hx2]. split; [by eapply val_ok_mono; [| |exact Hx1]; lia|].
    by eapply maps_behind_mono.
Qed.

Lemma readArray_spec nc no : spec (S p) 1 nc no (read_val no) (readArray data rc) (readArray data rc').
Proof.
  unfold readArray. apply (spec_expect (S p) 0). intros _ _ _. rewrite Nat.sub_succ, Nat.sub_0_r.
  eapply spec_seq; [eapply spec_drop, readClassDesc_spec|]. intros desc nc1 no1 _ Hno1 [Hdesc _].
  destruct desc as [id|]; [|apply spec_fail]. cbn in Hdesc.
  eapply spec_seq; [by apply be_read_any|]. intros size nc2 no2 Hnc2 Hno2 _.
  eapply spec_seq; [apply handle_count_spec|]. intros h nc3 no3 Hnc3 Hno3 _.
  eapply spec_seq; [by apply newHandle_spec|]. intros _ nc4 no4 Hnc4 Hno4 _.
  eapply spec_seq; [apply get_class_spec; lia|]. intros c nc5 no5 _ Hno5 _.
  eapply (spec_seq _ 0 _ _ (λ l nc' no', Forall (λ v, read_val no v nc' no') l)).
  { assert (spec (Nat.min p (length data)) 0 nc5 no5 (λ l nc' no', Forall (λ v, read_val no v nc' no') l)
      (array_loop data rc (S (length data)) (elem_type (className c)) size)
      (array_loop data rc' (S (length data)) (elem_type (className c)) size)) as Hloop.
    { eapply spec_weaken; [apply (array_loop_spec _ (Nat.min p (length data)) nc5 no5); lia|lia..|].
      intros l x y Hl. eapply Forall_impl; [exact Hl|]. intros v [Hv1 Hv2]. split; [done|].
      eapply maps_behind_mono; [|exact Hv2]. lia. }
    intros d Hd Hh Hn. apply Hloop; [done..|]. unfold left in *. destruct Hd. rewrite len_length in *. lia. }
  intros l nc6 no6 _ _ Hl. cbv beta in Hl.
  eapply spec_seq; [apply set_handle_spec, val_ok_arr; eapply Forall_impl; [exact Hl|]; by intros x []|].
  intros _ nc7 no7 Hnc7 Hno7 _. apply spec_ret. intros nc' no' Hnc' Hno'. split.
  - apply val_ok_arr. eapply Forall_impl; [exact Hl|]. intros x [Hx _]. eapply val_ok_mono; [| |exact Hx]; lia.
  - intros Hr. apply val_behind_arr. eapply Forall_impl; [exact Hl|]. intros x [_ Hx]. by apply Hx.
Qed.
Lemma readEnum_spec nc no : spec (S p) 1 nc no (read_val no) (readEnum data) (readEnum data).
Proof.
  unfold readEnum. apply (spec_expect (S p) 0). intros _ _ _.
  eapply spec_seq; [eapply spec_drop, readClassDesc_spec|]. intros desc nc1 no1 _ _ _.
  eapply spec_seq; [eapply spec_drop, readObjectString_spec|]. intros s nc2 no2 _ _ _.
  eapply spec_seq; [by apply newHandle_spec|]. intros. by apply spec_ret.
Qed.
Lemma readClass_spec nc no : spec (S p) 1 nc no (read_val no) (readClass data) (readClass data).
Proof.
  unfold readClass. apply (spec_expect (S p) 0). intros _ _ _.
  eapply spec_seq; [eapply spec_drop, readClassDesc_spec|]. intros desc nc1 no1 _ Hno1 [Hdesc _].
  eapply (spec_seq _ 0 _ _ any).
  { destruct desc; [|by apply spec_ret]. eapply spec_seq; [by apply get_class_spec|]. intros. by apply spec_ret. }
  intros name nc2 no2 _ Hno2 _. eapply spec_seq; [by apply newHandle_spec|]. intros _ nc3 no3 _ Hno3 _.
  eapply spec_seq; [by apply new_object_spec, map_Forall_singleton|]. intros id nc4 no4 _ _ Hid. cbv beta in Hid.
  apply spec_ret. intros nc' no' _ Hno'. split; [cbn; lia|]. intros _. cbn. lia.
Qed.

Lemma read_content_spec nc no : spec (S p) 1 nc no (read_val no) (read_content data chain rc) (read_content data chain' rc').
Proof.
  unfold read_content. apply spec_tag. intros b Hb.
  repeat match goal with |- spec_lt _ _ _ _ _ (if ?c then _ else _) _ => destruct c end;
    try (apply spec_to_lt; first [apply readReference_spec|apply readObject_spec|apply readArray_spec
      |apply readEnum_spec|apply readClass_spec|apply spec_fail]).
  - apply (spec_lt_skip (S p) 0). by apply spec_ret.
  - apply spec_to_lt. eapply spec_then; [apply readString_spec|]. intros. by apply spec_ret.
  - apply spec_to_lt. eapply spec_then; [apply readLongString_spec|]. intros. by apply spec_ret.
  - apply spec_to_lt. eapply spec_then; [apply skipBlockData_spec|]. intros. by apply spec_ret.
Qed.
End content.

Lemma content_spec n : ∀ chain chain' f f' nc no, (S n * S (length data) ≤ chain)%nat → (S n * S (length data) ≤ chain')%nat →
  (n < f)%nat → (n < f')%nat → spec n 1 nc no (read_val no) (content data chain f) (content data chain' f').
Proof.
  induction n as [|p IH]; intros chain chain' f f' nc no Hc Hc' Hf Hf'.
  all: destruct f as [|f]; [lia|]; destruct f' as [|f']; [lia|]; cbn [content].
  - unfold read_content. apply spec_tag. intros b Hb d Hd Hh Hl Hp. unfold left in Hl. lia.
  - apply read_content_spec; [|lia|lia]. intros m nc' no' Hm.
    eapply spec_weaken; [apply (IH chain chain' f f' nc' no'); lia|lia..|done].
Qed.
Lemma readContent_spec n nc no : spec n 1 nc no (read_val no) (readContent data) (readContent data).
Proof. apply spec_all. apply content_spec; unfold chain_fuel; lia. Qed.

(** ** The texts of values *)

(** Only a long string makes a computation panic, and only a reference makes
    it recurse without end. *)
Definition comp_ok {A} (m : comp A) : Prop :=
  match m with Val _ => True | Crashed => long_string | NoFuel => reference data end.
Lemma comp_ok_bind {A B} (m : comp A) (f : A → comp B) : comp_ok m → (∀ a, comp_ok (f a)) → comp_ok (m ≫= f).
Proof. unfold comp_ok. destruct m; cbn; [intros _ Hf; apply Hf|done|done]. Qed.
Lemma comp_ok_mapM {A B} (f : A → comp B) l : Forall (λ x, comp_ok (f x)) l → comp_ok (mapM f l).
Proof.
  induction 1 as [|x l Hx Hl IH]; [done|]. cbn [mapM]. apply comp_ok_bind; [done|]. intros y.
  apply comp_ok_bind; [done|]. by intros ys.
Qed.

Section texts.
Context `{JavaRuntime} (nc : nat) (objs : list jmap).
Context (Hobjs : ∀ id m k v, objs !! id = Some m → m !! k = Some v →
  val_ok nc (length objs) v ∧ maps_behind data (S id) v).

(** With [fuel] maps to go, [v] has a text. *)
Definition has_text (fuel from : nat) (v : jval) : Prop :=
  val_ok nc (length objs) v → (¬ reference data → val_behind from v ∧ (length objs ≤ fuel + from)%nat) →
  comp_ok (fmt_inner objs fuel v).

Lemma array_has_text fuel from l : Forall (has_text fuel from) l → has_text fuel from (JArr l).
Proof.
  intros Hl Hok Hb.
  assert (comp_ok (mapM (fmt_inner objs fuel) l)) as Hm.
  { apply comp_ok_mapM. apply val_ok_arr in Hok. rewrite Forall_forall in Hl, Hok |- *.
    intros v Hv. apply Hl; [done|by apply Hok|].
    intros Hr. destruct (Hb Hr) as [Hb1 Hb2]. split; [|done]. apply val_behind_arr in Hb1.
    rewrite Forall_forall in Hb1. by apply Hb1. }
  destruct fuel; (apply comp_ok_bind; [exact Hm|done]).
Qed.
Lemma fmt_inner_ok fuel : ∀ from v, has_text fuel from v.
Proof.
  induction fuel as [|fuel IH]; intros from; refine (jval_induction _ (array_has_text _ from) _).
  - intros v. destruct v; try done. intros Hok Hb. cbn in *. destruct (reference_dec data) as [|Hr]; [done|].
    destruct (Hb Hr). lia.
  - intros v. destruct v as [| | | | | | |id|]; try done. intros Hok Hb. cbn in Hok.
    destruct (lookup_lt_is_Some_2 objs id Hok) as [m Hm]. cbn [fmt_inner]. match goal with |- comp_ok (match ?x with _ => _ end) => replace x with (Some m) end. apply comp_ok_bind; [|done].
    apply comp_ok_mapM, Forall_forall. intros [k w] Hw. apply elem_of_sorted_entries in Hw. cbn [fst snd].
    apply comp_ok_bind; [|done]. destruct (Hobjs _ _ _ _ Hm Hw) as [Hw1 Hw2]. apply (IH (S id)); [done|].
    intros Hr. split; [by apply Hw2|]. destruct (Hb Hr) as [Hb1 Hb2]. cbn in Hb1. lia.
Qed.
End texts.

Lemma sprintf_v_spec `{JavaRuntime} n nc no v : val_ok nc no v → spec n 0 nc no any (sprintf_v v) (sprintf_v v).
Proof.
  intros Hv d Hd Hh Hn. split; [done|]. unfold sprintf_v.
  assert (comp_ok (Sprintf_v d v)) as Hok.
  { assert (val_ok (length (classes d)) (length (objects d)) v) as Hv' by (by eapply val_ok_mono; [apply Hh..|]).
    pose proof (wf_objects _ _ Hd) as Ho. rewrite Forall_lookup in Ho.
    assert (comp_ok (fmt_inner (objects d) (S (length (objects d))) v)) as Hf.
    { apply (fmt_inner_ok (length (classes d)) (objects d)) with (from := 0%nat); [|done|].
      - intros id m k w Hm Hw. split; [by eapply Ho|by eapply wf_maps].
      - intros _. split; [|lia]. apply val_behind_0. }
    unfold Sprintf_v. destruct v as [| | | | | | | |id]; try exact Hf. cbn in Hv'.
    by destruct (lookup_lt_is_Some_2 (classes d) id Hv') as [c ->]. }
  unfold comp_ok in Hok. destruct (Sprintf_v d v); [|done..]. split_and!; [done|done|lia|done].
Qed.

(** ** Arguments and attachments *)

Lemma wf_start p : 0 ≤ p ≤ len data → wf data (start p).
Proof. intros Hp. split; cbn; try done; lia. Qed.

Lemma args_loop_ok fuel : ∀ result d, wf data d → (left d < fuel)%nat → comp_ok (args_loop data fuel result d).
Proof.
  induction fuel as [|fuel IH]; intros result d Hd Hf; [lia|]. cbn [args_loop].
  destruct (Z.leb_spec (len data) (pos d)) as [|Hp]; [done|].
  destruct (index_Ret data (pos d)) as (b & -> & _); [destruct Hd; lia|]. cbn [of_go mbind comp_bind].
  pose proof Hd as []. destruct (beq b _tcEndBlockData).
  { apply IH; [split; cbn; try done; lia|unfold left in *; cbn; lia]. }
  destruct (beq b _tcReset).
  { apply IH; [split; cbn; try done; lia|unfold left in *; cbn; lia]. }
  destruct (readContent_spec (left d) 0 0 d Hd) as [_ Hpost]; [split; lia|done|]. unfold post in Hpost.
  destruct (readContent data d) as [v d'|d'| |]; try done. destruct Hpost as (Hd' & _ & Hl & [Hv _]).
  assert (left d' < fuel)%nat by lia. destruct v as [| | | | | | |id|]; try by apply IH.
  cbn in Hv. destruct (lookup_lt_is_Some_2 (objects d') id Hv) as [m ->]. by apply IH.
Qed.

Lemma stream_header_Ret p : 0 ≤ p → ∃ h, stream_header data p = Ret h ∧ (h = true → p + 4 ≤ len data).
Proof.
  intros Hp. unfold stream_header. destruct (Z.leb_spec (p + 4) (len data)); [|by exists false].
  rewrite !be_at_Ret by lia. cbn [mbind go_bind]. by eexists.
Qed.

Lemma deserializeJavaArgs_ok : comp_ok (deserializeJavaArgs data).
Proof.
  unfold deserializeJavaArgs. destruct (Z.ltb_spec (len data) 1); [done|].
  destruct (stream_header_Ret 0) as (h & -> & Hh); [lia|]. cbn [of_go mbind comp_bind].
  set (p := if h then 4 else 0). assert (0 ≤ p ≤ len data) as Hp by (subst p; destruct h; [specialize (Hh eq_refl)|]; lia).
  apply comp_ok_bind.
  - apply args_loop_ok; [by apply wf_start|]. unfold left. cbn. rewrite len_length in *. lia.
  - intros [result d]. by destruct (decide _).
Qed.

Section entries.
Context `{JavaRuntime}.

Lemma readEntryValue_spec n nc no : spec n 0 nc no any (readEntryValue data) (readEntryValue data).
Proof.
  unfold readEntryValue. apply spec_tag. intros b Hb.
  destruct (_ =? _tcString); [by eapply spec_to_lt, spec_drop, readString_spec|].
  destruct (_ =? _tcLongString); [by eapply spec_to_lt, spec_drop, readLongString_spec|].
  destruct (_ =? _tcReference).
  { apply spec_to_lt. eapply spec_seq; [eapply spec_drop, readReference_spec|]. intros v nc1 no1 _ _ [Hv _].
    destruct v; try (by apply sprintf_v_spec). by apply spec_ret. }
  destruct (_ =? _tcNull).
  { apply (spec_lt_drop n 1), (spec_lt_skip n 0). by apply spec_ret. }
  destruct (_ =? _tcObject).
  { intros d Hd Hh Hn Hp. destruct n as [|p]; [unfold left in Hn; lia|].
    enough (spec (S p) 0 nc no any (obj ← readObject data (chain_fuel data) (readContent data);
      match obj with
      | JMap id => λ d, match objects d !! id with Some m => sprintf_v (default obj (m !! gs "value")) d | None => JPanic end
      | _ => sprintf_v obj end) (obj ← readObject data (chain_fuel data) (readContent data);
      match obj with
      | JMap id => λ d, match objects d !! id with Some m => sprintf_v (default obj (m !! gs "value")) d | None => JPanic end
      | _ => sprintf_v obj end)) as Hs by by apply Hs.
    eapply spec_seq.
    { apply spec_all. eapply spec_weaken; [apply (readObject_spec (length data) (readContent data) (readContent data)
        ltac:(intros; apply readContent_spec) (chain_fuel data) (chain_fuel data) ltac:(unfold chain_fuel; lia)
        ltac:(unfold chain_fuel; lia) nc no)|lia..|]. intros v x y Hv. exact Hv. }
    intros v nc1 no1 _ _ [Hv _]. destruct v as [| | | | | | |id|]; try (by apply sprintf_v_spec).
    intros d' Hd' Hh' Hn'. cbn in Hv. pose proof Hh' as [_ Hno'].
    destruct (lookup_lt_is_Some_2 (objects d') id ltac:(lia)) as [m Hm].
    split; [done|]. rewrite Hm.
    refine (proj2 (sprintf_v_spec _ (length (classes d')) (length (objects d')) _ _ d' Hd' _ Hn')); [|done].
    destruct (m !! gs "value") as [w|] eqn:Hw; [|cbn; lia]. cbn [default].
    pose proof (wf_objects _ _ Hd') as Ho. rewrite Forall_lookup in Ho. by eapply Ho. }
  apply spec_to_lt. eapply spec_seq; [eapply spec_drop, readContent_spec|]. intros. by apply spec_ret.
Qed.

Lemma entries_loop_ok fuel : ∀ result d, wf data d → (left d < fuel)%nat → comp_ok (entries_loop data fuel result d).
Proof.
  induction fuel as [|fuel IH]; intros result d Hd Hf; [lia|]. cbn [entries_loop].
  destruct (Z.leb_spec (len data) (pos d)) as [|Hp]; [done|].
  destruct (readObjectString_spec (left d) 0 0 d Hd) as [_ Hpost]; [split; lia|done|]. unfold post in Hpost.
  destruct (readObjectString data d) as [key d1|d1| |]; try done. destruct Hpost as (Hd1 & _ & Hl & _).
  destruct (len data <=? pos d1); [done|].
  destruct (readEntryValue_spec (left d1) 0 0 d1 Hd1) as [_ Hpost]; [split; lia|done|]. unfold post in Hpost.
  destruct (readEntryValue data d1) as [v d2|d2| |]; try done. destruct Hpost as (Hd2 & _ & Hl2 & _). apply IH; [done|lia].
Qed.

Lemma class_scan_Ret fuel : ∀ p name, 0 ≤ p → ∃ q, class_scan data fuel p name = Ret q ∧ (q = -1 ∨ p ≤ q ∧ q + 3 ≤ len data).
Proof.
  induction fuel as [|fuel IH]; intros p name Hp; cbn [class_scan]; [exists (-1); by split; [|left]|].
  cbv zeta. pose proof (len_nonneg name). destruct (Z.leb_spec (p + 3 + len name) (len data)); [|exists (-1); by split; [|left]].
  destruct (IH (p + 1) name) as (q & Hq & Hr); [lia|].
  assert (∃ q, class_scan data fuel (p + 1) name = Ret q ∧ (q = -1 ∨ p ≤ q ∧ q + 3 ≤ len data)) as Hnext
    by (exists q; split; [done|lia]).
  destruct (index_Ret data p) as (b & -> & _); [lia|]. cbn [mbind go_bind]. destruct (negb _); [exact Hnext|].
  rewrite be_at_Ret by lia. cbn [mbind go_bind]. destruct (negb _); [exact Hnext|].
  rewrite sub_Ret by lia. cbn [mbind go_bind]. destruct (str_eqb _ _); [|exact Hnext]. exists p. split; [done|lia].
Qed.

Lemma attachments_ok startPos : 0 ≤ startPos → comp_ok (ParseJavaSerializedAttachments data startPos).
Proof.
  intros Hs. unfold ParseJavaSerializedAttachments, findClassDesc.
  destruct (class_scan_Ret (S (length data)) startPos (gs "java.util.HashMap") Hs) as (p & -> & Hp). cbn [of_go mbind comp_bind].
  destruct (Z.ltb_spec p 0); [done|]. destruct (Z.ltb_spec p 1); [done|].
  destruct (index_Ret data (p - 1)) as (b & -> & _); [lia|]. cbn [of_go mbind comp_bind]. destruct (negb _); [done|].
  assert (wf data (start p)) as Hd by (apply wf_start; lia).
  assert (left (start p) ≤ length data)%nat as Hl. { unfold left. cbn. rewrite len_length. lia. }
  destruct (skipClassDescWithData_spec (length data) (readContent data) (readContent data)
    ltac:(intros; apply readContent_spec) (chain_fuel data) (chain_fuel data) ltac:(unfold chain_fuel; lia)
    ltac:(unfold chain_fuel; lia) (length data) 0 0 ltac:(lia) (start p) Hd) as [_ Hpost]; [split; cbn; lia|done|].
  unfold post in Hpost. destruct (skipClassDescWithData _ _ _ _) as [[] d| d| |]; try done.
  destruct Hpost as (Hd' & _ & Hl' & _). apply comp_ok_bind; [apply entries_loop_ok; [done|lia]|].
  intros m. by destruct (decide _).
Qed.
End entries.
End spec.

(** ** Properties *)

Lemma entries_ok `{JavaRuntime} body startPos : len body ≤ max_alloc → 0 ≤ startPos →
  comp_ok body (ParseJavaSerializedArgs body startPos) ∧ comp_ok body (ParseJavaSerializedAttachments body startPos).
Proof.
  intros Hlen Hstart. split; [|by apply attachments_ok].
  assert (∀ p, 0 ≤ p ≤ len body → comp_ok body (t ← of_go (sub body p (len body)); deserializeJavaArgs t)) as Hfrom.
  { intros p Hp. rewrite sub_Ret by lia. cbn [of_go mbind comp_bind]. rewrite ztake_ge by (len_simpl; lia).
    assert (∀ b, b ∈ zdrop p body → b ∈ body) as Hin.
    { intros b Hb. rewrite <-(ztake_zdrop p body). set_solver. }
    pose proof (deserializeJavaArgs_ok (zdrop p body) ltac:(len_simpl; lia)) as Hok. unfold comp_ok in *.
    destruct (deserializeJavaArgs _); [done|..]; destruct Hok as (b & Hb & ?); exists b; auto. }
  unfold ParseJavaSerializedArgs. destruct (_ || _) eqn:E; [done|]. zbool.
  destruct (stream_header_Ret body startPos Hstart) as (h & -> & _). cbn [of_go mbind comp_bind].
  destruct h; [apply Hfrom; lia|].
  destruct (index_Ret body startPos) as (b & -> & _); [lia|]. cbn [of_go mbind comp_bind].
  destruct (beq b _tcObject); [apply Hfrom; lia|].
  assert (∀ fuel p, 0 ≤ p → ∃ o, scan_header body fuel p = Ret o ∧ match o with Some q => 0 ≤ q ≤ len body | None => True end) as Hh.
  { induction fuel as [|fuel IH]; intros p Hp; cbn [scan_header]; [by eexists|].
    destruct (Z.leb_spec (p + 4) (len body)); [|by eexists].
    destruct (stream_header_Ret body p Hp) as ([|] & -> & _); cbn [mbind go_bind]; [|apply IH; lia].
    exists (Some p). split; [done|lia]. }
  assert (∀ fuel p, 0 ≤ p → ∃ o, scan_object body fuel p = Ret o ∧ match o with Some q => 0 ≤ q ≤ len body | None => True end) as Ho.
  { induction fuel as [|fuel IH]; intros p Hp; cbn [scan_object]; [by eexists|].
    destruct (Z.ltb_spec p (len body)); [|by eexists].
    destruct (index_Ret body p) as (c & -> & _); [lia|]. cbn [mbind go_bind].
    destruct (beq c _tcObject); [|apply IH; lia]. exists (Some p). split; [done|lia]. }
  destruct (Hh (length body) startPos Hstart) as (o & -> & Hq). cbn [of_go mbind comp_bind].
  destruct o as [q|]; [by apply Hfrom|].
  destruct (Ho (length body) startPos Hstart) as (o & -> & Hq'). cbn [of_go mbind comp_bind].
  destruct o as [q|]; [by apply Hfrom|done].
Qed.

(** C34. The arguments and the attachments of any body are read to an end:
    the deserializer can recurse without end only if the body holds the tag of
    a reference, and it can panic only if it holds that of a long string. *)
Theorem java_total `{JavaRuntime} body startPos (Hlen : len body ≤ max_alloc) (Hstart : 0 ≤ startPos) :
  comp_ok body (ParseJavaSerializedArgs body startPos) ∧ comp_ok body (ParseJavaSerializedAttachments body startPos).
Proof. by apply entries_ok. Qed.

(** The fuel of the model decides nothing: in every state the reader can
    be in, any larger bounds on the nesting and on the walks up the super
    classes give the same outcome, so where the model runs out of fuel the
    code recurses without end. *)
Theorem java_fuel_exact data chain fuel d (Hlen : len data ≤ max_alloc) (Hd : wf data d)
  (Hchain : (chain_fuel data ≤ chain)%nat) (Hfuel : (length data < fuel)%nat) :
  content data chain fuel d = readContent data d.
Proof.
  unfold readContent, chain_fuel in *.
  apply (content_spec data Hlen (length data) chain (S (length data) * S (length data)) fuel (S (length data)) 0 0);
    [lia..|done|split; lia|]. unfold left. destruct Hd. rewrite len_length in *. lia.
Qed.
