(* ===== verification/JavaRead.v ===== *)
(** * Java serialization: reading what Java writes

    The values Java writes with [ObjectOutputStream], as far as the
    deserializer can read them, in the layout of the protocol; the proof that
    they are read back; and the places where the deserializer differs from the
    protocol, the first of them being every object of a class without a
    [writeObject] method. *)

From S2P Require Import Prelude GoBytes GoStrings Java JavaProps.

(** ** Trees *)

Inductive prim : Type :=
| PByte (v : Z) | PChar (v : Z) | PDouble (bits : Z) | PFloat (bits : Z)
| PInt (v : Z) | PLong (v : Z) | PShort (v : Z) | PBool (b : bool).

Record class_head := mkHead { h_name : list byte; h_uid : Z; h_flags : Z }.

(** An object has a class with its fields, their values, and the block data
    its [writeObject] has added behind them. *)
Inductive tree : Type :=
| TPrim (p : prim)
| TNull
| TStr (s : list byte)
| TObj (c : class_head) (fs : list javaFieldInfo) (l : list tree) (blocks : list (list byte)).

Definition prim_code (p : prim) : byte :=
  match p with
  | PByte _ => Byte.x42 | PChar _ => Byte.x43 | PDouble _ => Byte.x44 | PFloat _ => Byte.x46
  | PInt _ => Byte.x49 | PLong _ => Byte.x4a | PShort _ => Byte.x53 | PBool _ => Byte.x5a
  end.
Definition enc_prim (p : prim) : list byte :=
  match p with
  | PByte v => be_bytes 1 v
  | PChar v | PShort v => be_bytes 2 v
  | PDouble v | PLong v => be_bytes 8 v
  | PFloat v | PInt v => be_bytes 4 v
  | PBool b => be_bytes 1 (if b then 1 else 0)
  end.
Definition prim_ok (p : prim) : Prop :=
  match p with
  | PByte v => -2 ^ 7 ≤ v < 2 ^ 7
  | PShort v => -2 ^ 15 ≤ v < 2 ^ 15
  | PInt v => is_int32 v
  | PLong v => is_int64 v
  | PChar v => 0 ≤ v < 2 ^ 16
  | PDouble v => 0 ≤ v < 2 ^ 64
  | PFloat v => 0 ≤ v < 2 ^ 32
  | PBool _ => True
  end.
Definition prim_val (p : prim) : jval :=
  match p with
  | PByte v | PShort v | PInt v | PLong v => JInt v
  | PChar v => JChar v
  | PDouble v => JFloat v
  | PFloat v => JFloat (float64_of_float32 v)
  | PBool b => JBool b
  end.

Definition tag (tc : Z) : list byte := [to_byte tc].
Definition enc_utf (s : list byte) : list byte := be_bytes 2 (len s) ++ s.
Definition enc_field (f : javaFieldInfo) : list byte :=
  [typeCode f] ++ enc_utf (f_name f)
  ++ (if beq (typeCode f) 91 || beq (typeCode f) 76 then tag _tcString ++ enc_utf (className1 f) else []).
Definition class_tail (c : class_head) (fs : list javaFieldInfo) : list byte :=
  enc_utf (h_name c) ++ be_bytes 8 (h_uid c) ++ be_bytes 1 (h_flags c)
  ++ be_bytes 2 (len fs) ++ concat (map enc_field fs).
Definition enc_class (c : class_head) (fs : list javaFieldInfo) : list byte := tag _tcClassDesc ++ class_tail c fs.
Definition enc_block (b : list byte) : list byte := tag _tcBlockData ++ be_bytes 1 (len b) ++ b.
(** A class descriptor ends in the annotation of the class, which is empty, and
    its super class, which there is none of; the values of a class with a
    [writeObject] method end in the annotation of the object. *)
Fixpoint enc_tree (t : tree) : list byte :=
  match t with
  | TPrim p => enc_prim p
  | TNull => tag _tcNull
  | TStr s => tag _tcString ++ enc_utf s
  | TObj c fs l blocks => tag _tcObject ++ (enc_class c fs ++ tag _tcEndBlockData ++ tag _tcNull)
      ++ concat (map enc_tree l) ++ concat (map enc_block blocks) ++ tag _tcEndBlockData
  end.

Definition utf_ok (s : list byte) : Prop := len s < 2 ^ 16.
Definition head_ok (c : class_head) : Prop := utf_ok (h_name c) ∧ 0 ≤ h_flags c < 256.
(** The class is serializable and has a [writeObject] method; it has none. *)
Definition own_write (c : class_head) : Prop :=
  Z.land (h_flags c) _scSerializable ≠ 0 ∧ Z.land (h_flags c) _scWriteMethod ≠ 0.
Definition plain (c : class_head) : Prop := Z.land (h_flags c) _scWriteMethod = 0.
(** A field is of a primitive type, or an array or an object. *)
Definition field_ok (f : javaFieldInfo) : Prop :=
  utf_ok (f_name f) ∧ utf_ok (className1 f)
  ∧ (beq (typeCode f) 91 || beq (typeCode f) 76 = false → className1 f = []).
Definition layer_ok (c : class_head) (fs : list javaFieldInfo) : Prop :=
  head_ok c ∧ len fs < 2 ^ 16 ∧ Forall field_ok fs.
(** The value has the type of the field. *)
Definition has_code (c : byte) (t : tree) : Prop :=
  match t with
  | TPrim p => prim_code p = c
  | _ => c = Byte.x5b ∨ c = Byte.x4c
  end.
(** What stands there does not look like block data. *)
Definition no_block (s : list byte) : Prop :=
  match s with b :: _ => bz b ≠ _tcBlockData ∧ bz b ≠ _tcBlockDataLong | [] => True end.
Fixpoint tree_ok (t : tree) : Prop :=
  match t with
  | TPrim p => prim_ok p
  | TNull => True
  | TStr s => utf_ok s
  | TObj c fs l blocks => layer_ok c fs ∧ own_write c ∧ Forall2 (λ f t, has_code (typeCode f) t) fs l
      ∧ no_block (concat (map enc_tree l)) ∧ Forall (λ b, len b < 256) blocks
      ∧ foldr (λ t P, tree_ok t ∧ P) True l
  end.

(** [v], with its maps in [objs] from the number [base] on, is the value of
    [t]: of the fields of an object with the same name the first counts. *)
Fixpoint denotes (objs : list jmap) (base : nat) (v : jval) (t : tree) {struct t} : Prop :=
  match t with
  | TPrim p => v = prim_val p
  | TNull => v = JNil
  | TStr s => v = JStr s
  | TObj _ fs l _ => ∃ id vs, v = JMap id ∧ (base ≤ id)%nat ∧ objs !! id = Some (list_to_map (zip (map f_name fs) vs))
      ∧ foldr (λ t P vs, match vs with v :: vs => denotes objs base v t ∧ P vs | [] => False end) (λ vs, vs = []) l vs
  end.

Section tree_induction.
Context (P : tree → Prop) (Hobj : ∀ c fs l blocks, Forall P l → P (TObj c fs l blocks))
  (Hrest : ∀ t, match t with TObj _ _ _ _ => True | _ => P t end).
Fixpoint tree_induction (t : tree) : P t :=
  let all := fix go (l : list tree) : Forall P l :=
    match l with [] => Forall_nil_2 P | t :: l => Forall_cons_2 P t l (tree_induction t) (go l) end in
  match t with
  | TObj c fs l blocks => Hobj c fs l blocks (all l)
  | t => Hrest t
  end.
End tree_induction.

Lemma trees_ok l : foldr (λ t P, tree_ok t ∧ P) True l ↔ Forall tree_ok l.
Proof. induction l as [|t l IH]; cbn; [done|]. by rewrite IH, Forall_cons. Qed.
Lemma all_denote objs base vs l :
  foldr (λ t P vs, match vs with v :: vs => denotes objs base v t ∧ P vs | [] => False end) (λ vs, vs = []) l vs
  ↔ Forall2 (denotes objs base) vs l.
Proof.
  revert vs. induction l as [|t l IH]; intros [|v vs]; cbn [foldr]; split; intros H; try done; try by inversion H.
  - destruct H. constructor; [done|]. by apply IH.
  - inv_eq H. split; [done|]. by apply IH.
Qed.

(** The maps below [base] do not matter. *)
Lemma denotes_frame objs objs' base base' t v : (base' ≤ base)%nat →
  (∀ id m, (base ≤ id)%nat → objs !! id = Some m → objs' !! id = Some m) →
  denotes objs base v t → denotes objs' base' v t.
Proof.
  intros Hb Ho. revert t v. refine (tree_induction _ _ _); [intros c fs l blocks IH v|intros t].
  - cbn. intros (id & vs & -> & Hid & Hm & H). exists id, vs. split_and!; [done|lia|auto|].
    rewrite all_denote in H |- *. clear Hm.
    revert vs H. induction IH as [|t l Ht _ IHl]; intros vs H; inv_eq H; constructor; auto.
  - destruct t; done.
Qed.

(** ** Reading an encoding *)

Lemma tag_length tc : length (tag tc) = 1%nat.
Proof. done. Qed.
Lemma enc_tree_nonempty t : (0 < length (enc_tree t))%nat.
Proof. destruct t as [p| | |]; [|cbn; lia..]. destruct p; cbn; lia. Qed.

Section reading.
Context (data : list byte) (Hdata : len data ≤ max_alloc).

(** The reader stands before [s]. *)
Definition here (d : javaDeserializer) (s : list byte) : Prop := ∃ pre, data = pre ++ s ∧ pos d = len pre.
(** [run m s d Q]: before [s], [m] reads exactly [s], and its result and state
    are in [Q]. *)
Definition run {A} (m : jm A) (s : list byte) (d : javaDeserializer) (Q : A → javaDeserializer → Prop) : Prop :=
  ∀ rest, here d (s ++ rest) → ∃ a d', m d = JOk a d' ∧ here d' rest ∧ Q a d'.
(** The classes and the maps are the same, and no handle is lost. *)
Definition same (d d' : javaDeserializer) : Prop :=
  classes d' = classes d ∧ objects d' = objects d ∧ handles d `prefix_of` handles d'.
Definition returning {A} (d : javaDeserializer) (x a : A) (d' : javaDeserializer) : Prop := a = x ∧ same d d'.

Lemma same_refl d : same d d.
Proof. done. Qed.
Lemma same_trans d d' d'' : same d d' → same d' d'' → same d d''.
Proof. intros (H1 & H2 & H5) (H3 & H4 & H6). split_and!; [congruence..|]. by etransitivity. Qed.
Lemma same_handle d d' v : same d d' → same d (mkJ (pos d') (handles d' ++ [v]) (classes d') (objects d')).
Proof. intros (H1 & H2 & H3). split_and!; [done..|]. by apply prefix_app_r. Qed.
#[local] Hint Resolve same_refl same_trans : core.

Lemma run_weaken {A} (m : jm A) s d (P Q : A → javaDeserializer → Prop) :
  run m s d P → (∀ a d', P a d' → Q a d') → run m s d Q.
Proof. intros Hm HPQ rest Hh. destruct (Hm rest Hh) as (a & d' & ? & ? & ?). exists a, d'. auto. Qed.
Lemma run_bind {A B} (m : jm A) (f : A → jm B) s s' d (P : A → javaDeserializer → Prop) (Q : B → javaDeserializer → Prop) :
  run m s d P → (∀ a d', P a d' → run (f a) s' d' Q) → run (m ≫= f) (s ++ s') d Q.
Proof.
  intros Hm Hf rest Hh. rewrite <-app_assoc in Hh. destruct (Hm _ Hh) as (a & d' & Ha & Hh' & HP).
  destruct (Hf a d' HP rest Hh') as (b & d'' & ? & ? & ?). exists b, d''. unfold mbind, jm_bind. by rewrite Ha.
Qed.
Lemma run_ret {A} (a : A) d (Q : A → javaDeserializer → Prop) : Q a d → run (mret a) [] d Q.
Proof. intros HQ rest Hh. by exists a, d. Qed.
Lemma run_map {A B} (m : jm A) (f : A → B) s d (P : A → javaDeserializer → Prop) (Q : B → javaDeserializer → Prop) :
  run m s d P → (∀ a d', P a d' → Q (f a) d') → run (a ← m; mret (f a)) s d Q.
Proof. intros Hm Hf. rewrite <-(app_nil_r s). eapply run_bind; [exact Hm|]. intros a d' HP. apply run_ret. auto. Qed.
(** An action on the state alone. *)
Lemma run_step {A B} (m : jm A) (f : A → jm B) a d d' s (Q : B → javaDeserializer → Prop) :
  m d = JOk a d' → pos d' = pos d → run (f a) s d' Q → run (m ≫= f) s d Q.
Proof.
  intros Hm Hp Hf rest (pre & Hd & Hpre). unfold mbind, jm_bind. rewrite Hm. apply Hf. exists pre. by rewrite Hp.
Qed.

Lemma here_len d s : here d s → pos d + len s = len data ∧ 0 ≤ pos d.
Proof. intros (pre & -> & ->). len_simpl. pose proof (len_nonneg pre). lia. Qed.
Lemma here_skip d b s : here d (b ++ s) → here (mkJ (pos d + len b) (handles d) (classes d) (objects d)) s.
Proof. intros (pre & Hd & Hp). exists (pre ++ b). split; [by rewrite <-app_assoc|]. cbn. len_simpl. lia. Qed.

Lemma run_be_read (n : nat) k v d : k = Z.of_nat n → run (be_read data k) (be_bytes n v) d (returning d (v mod 256 ^ Z.of_nat n)).
Proof.
  intros -> rest Hh. pose proof (here_len _ _ Hh) as [Hl _]. pose proof Hh as (pre & Hd & Hp).
  unfold be_read. len_simpl. destruct (Z.ltb_spec (len data) (pos d + Z.of_nat n)); [pose proof (len_nonneg rest); lia|].
  rewrite Hd, (be_at_mid n) by (exact Hp || done). eexists _, _. split; [reflexivity|].
  apply here_skip in Hh. rewrite len_be_bytes in Hh. split; [done|]. split; done.
Qed.
Lemma run_text_read s n d : n = len s → run (text_read data n) s d (returning d s).
Proof.
  intros -> rest Hh. pose proof (here_len _ _ Hh) as [Hl H0]. pose proof Hh as (pre & Hd & Hp).
  unfold text_read. len_simpl. pose proof (len_nonneg rest). pose proof (len_nonneg s).
  assert (int64 (pos d + len s) = pos d + len s) as -> by (apply (sint_small 64); unfold max_alloc in *; lia).
  destruct (Z.ltb_spec (len s) 0), (Z.ltb_spec (len data) (pos d + len s)); try lia. cbn [orb].
  rewrite Hd, sub_mid by lia. eexists _, _. split; [reflexivity|]. apply here_skip in Hh. split; [done|]. split; done.
Qed.

(** Looking at the next byte. *)
Lemma here_byte d b s : here d (b :: s) → at_end data d = JOk false d ∧ cur data d = JOk (bz b) d.
Proof.
  intros Hh. pose proof (here_len _ _ Hh) as [Hl _]. destruct Hh as (pre & Hd & Hp). len_simpl. pose proof (len_nonneg s).
  split.
  - unfold at_end, get_pos, mbind, jm_bind. destruct (Z.leb_spec (len data) (pos d)); [lia|reflexivity].
  - unfold cur. rewrite Hd, Hp. rewrite <-(Z.add_0_r (len pre)), index_app_r by lia. done.
Qed.
Lemma at_block_here d b s : here d (b :: s) →
  at_block data d = JOk ((bz b =? _tcBlockData) || (bz b =? _tcBlockDataLong)) d.
Proof. intros [He Hc]%here_byte. unfold at_block, mbind, jm_bind. by rewrite He, Hc. Qed.
Lemma run_tag {A} (k : Z → jm A) b s d (Q : A → javaDeserializer → Prop) :
  run (k (bz b)) (b :: s) d Q → run (e ← at_end data; if e : bool then fail else c ← cur data; k c) (b :: s) d Q.
Proof.
  intros Hk rest Hh. cbn [app] in Hh. destruct (here_byte d b (s ++ rest) Hh) as [He Hc]. unfold mbind, jm_bind. rewrite He, Hc.
  by apply Hk.
Qed.
Lemma run_skip_exact {A} (m : jm A) b s d (Q : A → javaDeserializer → Prop) :
  (∀ d', same d d' → handles d' = handles d → run m s d' Q) → run (_ ← skip 1; m) (b :: s) d Q.
Proof.
  intros Hm rest Hh. apply (here_skip d [b]) in Hh. change (len [b]) with 1 in Hh.
  destruct (Hm (mkJ (pos d + 1) (handles d) (classes d) (objects d)) (same_refl d) eq_refl rest Hh) as (a & d' & Ha & ?).
  exists a, d'. split; [exact Ha|done].
Qed.
Lemma run_skip {A} (m : jm A) b s d (Q : A → javaDeserializer → Prop) :
  (∀ d', same d d' → run m s d' Q) → run (_ ← skip 1; m) (b :: s) d Q.
Proof. intros Hm. apply run_skip_exact. auto. Qed.
(** Passing over [n] bytes. *)
Lemma run_skip_n {A} (k : jm A) b s n d (Q : A → javaDeserializer → Prop) : n = len b →
  (∀ d', same d d' → run k s d' Q) → run (p ← get_pos; if len data <? p + n then fail else _ ← skip n; k) (b ++ s) d Q.
Proof.
  intros -> Hk rest Hh. rewrite <-app_assoc in Hh. pose proof (here_len _ _ Hh) as [Hl _]. rewrite !len_app in Hl.
  unfold mbind at 1, jm_bind at 1, get_pos at 1. cbv beta iota.
  destruct (Z.ltb_spec (len data) (pos d + len b)); [len_lia|]. apply here_skip in Hh.
  destruct (Hk (mkJ (pos d + len b) (handles d) (classes d) (objects d)) (same_refl d) rest Hh) as (a & d' & Ha & ?).
  exists a, d'. split; [exact Ha|done].
Qed.
Lemma run_expect tc d : 0 ≤ tc < 256 → run (expect_tag data tc) (tag tc) d (returning d tt).
Proof.
  intros Htc. apply run_tag. rewrite bz_to_byte_small, Z.eqb_refl by done.
  intros rest Hh. apply here_skip in Hh. eexists _, _. split; [reflexivity|done].
Qed.
Lemma run_byte_read v d : run (byte_read data) (be_bytes 1 v) d (returning d (v mod 256)).
Proof.
  change (be_bytes 1 v) with [to_byte v]. apply run_tag. rewrite bz_to_byte.
  apply run_skip. intros d' Hd. by apply run_ret.
Qed.

Lemma run_readUTF s d : utf_ok s → run (readUTF data) (enc_utf s) d (returning d s).
Proof.
  intros Hs. unfold readUTF, enc_utf. eapply run_bind; [by apply (run_be_read 2)|]. intros n d' [-> Hd].
  pose proof (len_nonneg s). unfold utf_ok in Hs. rewrite Z.mod_small by lia.
  destruct (Z.eqb_spec (len s) 0) as [E|E].
  - apply len_0_nil in E as ->. by apply run_ret.
  - eapply run_weaken; [by apply run_text_read|]. intros a d'' [-> ?]. split; eauto.
Qed.
(** A text takes no handle. *)
Lemma readUTF_handles d a d' : readUTF data d = JOk a d' → handles d' = handles d.
Proof.
  unfold readUTF, mret, jm_ret, mbind, jm_bind, be_read, text_read. repeat (case_match; try discriminate); intros; simplify_eq/=; congruence.
Qed.
Lemma run_readString s d : utf_ok s → run (readString data) (tag _tcString ++ enc_utf s) d (returning d s).
Proof.
  intros Hs. unfold readString. eapply run_bind; [by apply run_expect|]. intros _ d1 [_ H1].
  eapply run_bind; [by apply (run_be_read 2)|]. intros n d2 [-> H2].
  pose proof (len_nonneg s). unfold utf_ok in Hs. rewrite Z.mod_small by lia.
  rewrite <-(app_nil_r s). eapply run_bind; [apply run_text_read; by rewrite app_nil_r|]. intros a d3 [-> H3].
  eapply run_step; [reflexivity|done|]. apply run_ret. split; [by rewrite app_nil_r|].
  apply same_handle. eapply same_trans; [|eapply same_trans; [|exact H3]]; eauto.
Qed.
Lemma run_readObjectString s d : utf_ok s → run (readObjectString data) (tag _tcString ++ enc_utf s) d (returning d s).
Proof. intros Hs. apply run_tag. rewrite bz_to_byte_small by done. by apply run_readString. Qed.

(** *** Block data *)

Lemma run_block s d : len s < 256 → run (skipBlockData data) (enc_block s) d (returning d tt).
Proof.
  intros Hs. apply run_tag. rewrite bz_to_byte_small by done. apply run_skip. intros d1 H1. pose proof (len_nonneg s).
  eapply run_bind; [apply run_byte_read|]. intros _ d2 [-> H2]. rewrite Z.mod_small by lia.
  intros rest Hh. pose proof (here_len _ _ Hh) as [Hl _]. rewrite len_app in Hl. pose proof (len_nonneg rest).
  unfold mbind, jm_bind, get_pos. destruct (Z.ltb_spec (len data) (pos d2 + len s)); [lia|].
  apply here_skip in Hh. eexists _, _. split; [reflexivity|]. split; [done|]. split; [done|]. eauto.
Qed.
Lemma enc_blocks_length bs : (length bs ≤ length (concat (map enc_block bs)))%nat.
Proof. induction bs as [|b bs IH]; [done|]. cbn [map concat length]. rewrite length_app. cbn. lia. Qed.
Lemma here_length d s rest : here d (s ++ rest) → (length s ≤ length data)%nat.
Proof. intros (pre & -> & _). rewrite !length_app. lia. Qed.
(** The annotation of an object: its blocks up to the end mark. *)
Lemma run_annotation bs d : Forall (λ b, len b < 256) bs →
  run (skipObjectAnnotation data) (concat (map enc_block bs) ++ tag _tcEndBlockData) d (returning d tt).
Proof.
  intros Hbs rest Hh. pose proof (here_length _ _ _ Hh) as Hl. rewrite length_app in Hl. pose proof (enc_blocks_length bs).
  assert (length bs < S (length data))%nat as Hf by lia. revert rest Hh. unfold skipObjectAnnotation.
  generalize (S (length data)) Hf. clear Hl H Hf. intros fuel. revert fuel d.
  induction Hbs as [|b bs Hb _ IH]; intros [|fuel] d Hf; cbn in Hf; try lia; cbn [annotation_loop].
  - apply run_tag. rewrite bz_to_byte_small by done. cbn [Z.eqb _tcEndBlockData Pos.eqb].
    intros rest Hh. apply here_skip in Hh. eexists _, _. split; [reflexivity|done].
  - cbn [map concat]. rewrite <-app_assoc.
    change (enc_block b ++ ?x) with (to_byte _tcBlockData :: (be_bytes 1 (len b) ++ b) ++ x).
    apply run_tag. rewrite bz_to_byte_small by done. cbn [Z.eqb _tcBlockData _tcEndBlockData Pos.eqb].
    change (to_byte _tcBlockData :: (be_bytes 1 (len b) ++ b) ++ ?x) with (enc_block b ++ x).
    eapply run_bind; [by apply run_block|]. intros _ d1 [_ H1]. eapply run_weaken; [exact (IH fuel d1 ltac:(lia))|].
    intros _ d2 [-> H2]. split; eauto.
Qed.

(** *** Class descriptors *)

Definition keeps_classes (d d' : javaDeserializer) : Prop := ∀ id c, classes d !! id = Some c → classes d' !! id = Some c.
Lemma keeps_trans d d' d'' : keeps_classes d d' → keeps_classes d' d'' → keeps_classes d d''.
Proof. unfold keeps_classes. auto. Qed.
Lemma same_keeps d d' : same d d' → keeps_classes d d'.
Proof. intros (H & _) id c. by rewrite H. Qed.

Lemma run_read_fields fs d : Forall field_ok fs →
  run (read_fields data (length fs)) (concat (map enc_field fs)) d (returning d fs).
Proof.
  intros Hfs. revert d. induction Hfs as [|f fs (Hn & Hc & Hnc) _ IH]; intros d; [by apply run_ret|].
  cbn [map concat length read_fields]. unfold enc_field. rewrite <-!app_assoc.
  assert ([typeCode f] = be_bytes 1 (bz (typeCode f))) as -> by (cbn; by rewrite to_byte_bz).
  eapply run_bind; [apply run_byte_read|]. intros _ d1 [-> H1].
  rewrite Z.mod_small by apply bz_range.
  eapply run_bind; [by apply run_readUTF|]. intros _ d2 [-> H2].
  eapply run_bind with (P := returning d2 (className1 f)).
  - unfold beq in *. destruct (_ || _) eqn:E; [by apply run_readObjectString|]. apply run_ret. by rewrite Hnc.
  - intros _ d3 [-> H3]. eapply run_map; [apply IH|]. intros _ d4 [-> H4]. rewrite to_byte_bz.
    split; [by destruct f|]. eapply same_trans; [|eapply same_trans; [|exact H4]]; eauto.
Qed.

(** [reach m s d m' P]: before [s], [m] reads [s] and goes on as [m'] in a
    state in [P]. *)
Definition reach {A} (m : jm A) (s : list byte) (d : javaDeserializer) (m' : jm A) (P : javaDeserializer → Prop) : Prop :=
  ∀ rest, here d (s ++ rest) → ∃ d', m d = m' d' ∧ here d' rest ∧ P d'.
Lemma reach_refl {A} (m : jm A) d (P : javaDeserializer → Prop) : P d → reach m [] d m P.
Proof. intros HP rest Hh. by exists d. Qed.
Lemma reach_bind {A B} (m : jm A) (f : A → jm B) s s' d m' (P : A → javaDeserializer → Prop) Q :
  run m s d P → (∀ a d', P a d' → reach (f a) s' d' m' Q) → reach (m ≫= f) (s ++ s') d m' Q.
Proof.
  intros Hm Hf rest Hh. rewrite <-app_assoc in Hh. destruct (Hm _ Hh) as (a & d' & Ha & Hh' & HP).
  destruct (Hf a d' HP rest Hh') as (d'' & Hd'' & ?). exists d''. unfold mbind, jm_bind. by rewrite Ha.
Qed.
Lemma reach_step {A B} (m : jm A) (f : A → jm B) a d d' s m' Q :
  m d = JOk a d' → pos d' = pos d → reach (f a) s d' m' Q → reach (m ≫= f) s d m' Q.
Proof.
  intros Hm Hp Hf rest (pre & Hd & Hpre). unfold mbind, jm_bind. rewrite Hm. apply Hf. exists pre. by rewrite Hp.
Qed.
Lemma reach_run {A} (m m' : jm A) s s' d P (Q : A → javaDeserializer → Prop) :
  reach m s d m' P → (∀ d', P d' → run m' s' d' Q) → run m (s ++ s') d Q.
Proof.
  intros Hm Hm' rest Hh. rewrite <-app_assoc in Hh. destruct (Hm _ Hh) as (d' & -> & Hh' & HP). by apply Hm'.
Qed.

(** The state in which the super class is read. *)
Definition class_read (c : class_head) (fs : list javaFieldInfo) (d d' : javaDeserializer) : Prop :=
  classes d' = classes d ++ [mkClass (h_name c) (h_flags c) fs None] ∧ objects d' = objects d
  ∧ handles d ++ [JClass (length (classes d))] `prefix_of` handles d'.
Definition class_end (c : class_head) (fs : list javaFieldInfo) (id : nat) (sup_m : jm (option nat)) : jm (option nat) :=
  sup ← sup_m; _ ← set_class id (mkClass (h_name c) (h_flags c) fs sup); mret (Some id).
Lemma insert_end {A} (l : list A) x y : <[length l := y]> (l ++ [x]) = l ++ [y].
Proof. induction l; cbn; [done|]. by f_equal. Qed.

(** The descriptor behind the tag, up to its super class; [annotation] is what
    is read between the fields and the super class. *)
Lemma class_front c fs annotation sup_m d : utf_ok (h_name c) → 0 ≤ h_flags c < 256 → len fs < 2 ^ 16 → Forall field_ok fs →
  (∀ d, run (if negb (Z.land (h_flags c) _scSerializable =? 0) && negb (Z.land (h_flags c) _scWriteMethod =? 0)
             then skipObjectAnnotation data else mret tt) annotation d (returning d tt)) →
  reach (class_body data sup_m) (class_tail c fs ++ annotation) d (class_end c fs (length (classes d)) sup_m) (class_read c fs d).
Proof.
  intros Hn Hfl Hlen Hfs Hann. unfold class_body, class_tail. rewrite <-!app_assoc.
  eapply reach_bind with (P := λ a d1, returning d (h_name c) a d1 ∧ handles d1 = handles d).
  { intros rest Hh. destruct (run_readUTF _ d Hn rest Hh) as (a & d' & Ha & ? & ?). exists a, d'. split_and!; try done.
    by eapply readUTF_handles. }
  intros _ d1 [[-> (Hc1 & Ho1 & _)] Hh1].
  eapply (reach_step _ _ (pos d1)); [reflexivity|done|].
  intros rest Hh. rewrite <-app_assoc in Hh. pose proof (here_len _ _ Hh) as [Hl _]. rewrite len_app, len_be_bytes in Hl.
  match type of Hl with _ + (_ + len ?x) = _ => pose proof (len_nonneg x) end.
  destruct (Z.ltb_spec (len data) (pos d1 + 8)); [lia|]. clear Hl. apply here_skip in Hh. rewrite len_be_bytes in Hh.
  set (d2 := mkJ (pos d1 + Z.of_nat 8) (handles d1) (classes d1) (objects d1)) in *.
  change ((skip 8 ≫= ?f) d1) with (f tt d2). cbv beta. revert rest Hh H.
  set (d3 := mkJ (pos d2) (handles d2 ++ [JClass (length (classes d2))]) (classes d2 ++ [mkClass (h_name c) 0 [] None]) (objects d2)).
  intros rest Hh _. revert rest Hh.
  eapply reach_step; [reflexivity|done|]. eapply (reach_step _ _ tt _ d3); [reflexivity|done|].
  eapply reach_bind; [apply run_byte_read|]. intros _ d4 [-> H4]. rewrite Z.mod_small by lia.
  eapply reach_bind; [by apply (run_be_read 2)|]. intros _ d5 [-> H5].
  pose proof (len_nonneg fs). rewrite Z.mod_small by lia.
  eapply reach_bind; [rewrite len_length, Nat2Z.id; by apply run_read_fields|]. intros _ d6 [-> H6].
  eapply reach_step; [reflexivity|done|]. rewrite <-(app_nil_r annotation).
  eapply reach_bind; [apply Hann|]. intros _ d7 [_ H7].
  destruct (same_trans _ _ _ H4 (same_trans _ _ _ H5 H6)) as (Hc6 & Ho6 & Hh6). destruct H7 as (Hc7 & Ho7 & Hh7).
  cbn [d3 d2 classes objects handles] in *. rewrite Hc1. apply reach_refl. split_and!.
  - rewrite Hc7, Hc6, Hc1. apply insert_end.
  - congruence.
  - rewrite <-Hc1, <-Hh1. etransitivity; [|exact Hh7]. done.
Qed.
(** The descriptor of a class with a [writeObject] method and no super class. *)
Lemma run_class c fs d : layer_ok c fs → own_write c →
  run (readClassDesc data) (enc_class c fs ++ tag _tcEndBlockData ++ tag _tcNull) d
    (λ a d', a = Some (length (classes d)) ∧ objects d' = objects d
      ∧ classes d' = classes d ++ [mkClass (h_name c) (h_flags c) fs None]).
Proof.
  intros ((Hn & Hfl) & Hlen & Hfs) [Hser Hwm]. unfold enc_class. rewrite <-!app_assoc.
  intros rest Hh. pose proof (here_length _ _ _ Hh) as Hl. rewrite !length_app, !tag_length in Hl.
  assert (∃ fuel, length data = S fuel) as [fuel Hfuel] by (exists (pred (length data)); lia).
  revert rest Hh. unfold readClassDesc. rewrite Hfuel. clear Hl Hfuel.
  apply run_tag. rewrite bz_to_byte_small by done. apply run_skip. intros d1 (Hc1 & Ho1 & _).
  rewrite app_assoc. eapply reach_run; [apply class_front; try done|].
  { intros d0. rewrite (proj2 (Z.eqb_neq _ _) Hser), (proj2 (Z.eqb_neq _ _) Hwm). by apply (run_annotation []). }
  intros d2 (Hc2 & Ho2 & _). rewrite Hc1 in Hc2 |- *. unfold class_end. rewrite <-(app_nil_r (tag _tcNull)).
  eapply run_bind with (P := λ a d', a = None ∧ classes d' = classes d2 ∧ objects d' = objects d2).
  - apply run_tag. rewrite bz_to_byte_small by done. apply run_skip. intros d3 (Hc3 & Ho3 & _). by apply run_ret.
  - intros _ d3 (-> & Hc3 & Ho3). eapply run_step; [reflexivity|done|]. apply run_ret. cbn. split_and!; [done|congruence|].
    rewrite Hc3, Hc2. apply insert_end.
Qed.

(** *** Values *)

Lemma run_prim p d : prim_ok p → run (readRawPrimitive data (prim_code p)) (enc_prim p) d (returning d (prim_val p)).
Proof.
  intros Hp. unfold readRawPrimitive. destruct p as [v|v|v|v|v|v|v|b]; cbn [prim_code enc_prim prim_val prim_ok] in *; byte_cases.
  - eapply run_map; [apply run_byte_read|]. intros _ d' [-> ?]. split; [|done]. f_equal.
    etransitivity; [by apply (sint_uint 8 v)|by apply sint_small].
  - eapply run_map; [by apply (run_be_read 2)|]. intros _ d' [-> ?]. split; [|done]. by rewrite Z.mod_small.
  - eapply run_map; [by apply (run_be_read 8)|]. intros _ d' [-> ?]. split; [|done]. by rewrite Z.mod_small.
  - eapply run_map; [by apply (run_be_read 4)|]. intros _ d' [-> ?]. split; [|done]. by rewrite Z.mod_small.
  - eapply run_map; [by apply (run_be_read 4)|]. intros _ d' [-> ?]. split; [|done]. by rewrite int32_mod.
  - eapply run_map; [by apply (run_be_read 8)|]. intros _ d' [-> ?]. split; [|done]. by rewrite int64_mod.
  - eapply run_map; [by apply (run_be_read 2)|]. intros _ d' [-> ?]. split; [|done]. f_equal.
    etransitivity; [by apply (sint_uint 16 v)|by apply sint_small].
  - eapply run_map; [apply run_byte_read|]. intros _ d' [-> ?]. split; [|done]. by destruct b.
Qed.

Definition keeps_objects (d d' : javaDeserializer) : Prop := ∀ id m, objects d !! id = Some m → objects d' !! id = Some m.
Definition value_read (d : javaDeserializer) (t : tree) (v : jval) (d' : javaDeserializer) : Prop :=
  keeps_classes d d' ∧ keeps_objects d d' ∧ denotes (objects d') (length (objects d)) v t.
Lemma keeps_objects_length d d' : keeps_objects d d' → (length (objects d) ≤ length (objects d'))%nat.
Proof.
  intros H. destruct (decide (length (objects d) = 0%nat)) as [->|]; [lia|].
  destruct (lookup_lt_is_Some_2 (objects d) (length (objects d) - 1)) as [m Hm]; [lia|].
  apply H, lookup_lt_Some in Hm. lia.
Qed.
Lemma same_value d d' t v : same d d' → (∀ objs b, denotes objs b v t) → value_read d t v d'.
Proof. intros (Hc & Ho & _) Hv. split_and!; [intros id c; by rewrite Hc|intros id m; by rewrite Ho|apply Hv]. Qed.

Section values.
Context (chain : nat) (rc : jm jval).
(** [rc] reads the encoding of [t], unless [t] is primitive. *)
Definition rc_reads (t : tree) : Prop :=
  match t with TPrim p => prim_ok p | _ => ∀ d, run rc (enc_tree t) d (value_read d t) end.

Lemma run_readFieldValue t c d : rc_reads t → has_code c t → run (readFieldValue data rc c) (enc_tree t) d (value_read d t).
Proof.
  intros Ht Hc. unfold readFieldValue. destruct t as [p| | |]; cbn [has_code] in Hc; try (destruct Hc as [-> | ->]; apply Ht).
  subst c. assert (beq (prim_code p) 91 || beq (prim_code p) 76 = false) as -> by by destruct p.
  eapply run_weaken; [by apply run_prim|]. intros v d' [-> ?]. by apply same_value.
Qed.
(** The map [result] has been filled with the values of [ts]. *)
Definition filled (d : javaDeserializer) (result : nat) (names : list (list byte)) (ts : list tree) (d' : javaDeserializer) : Prop :=
  keeps_classes d d' ∧ (∀ id m, id ≠ result → objects d !! id = Some m → objects d' !! id = Some m)
  ∧ ∀ m, objects d !! result = Some m → ∃ vs, length vs = length names
      ∧ objects d' !! result = Some (m ∪ list_to_map (zip names vs)) ∧ Forall2 (denotes (objects d') (S result)) vs ts.

Lemma filled_nil d result : filled d result [] [] d.
Proof.
  split_and!; [by intros ?|done|]. intros m Hm. exists []. split_and!; [done| |done]. cbn. unfold jmap in *. by rewrite map_union_empty.
Qed.
Lemma filled_same d result names ts d1 d2 : filled d result names ts d1 → same d1 d2 → filled d result names ts d2.
Proof. intros (Hk & Ho & Hr) (H1 & H2 & _). unfold filled, keeps_classes. by rewrite H1, H2. Qed.
Lemma filled_app d result n1 ts1 d1 n2 ts2 d2 : filled d result n1 ts1 d1 → filled d1 result n2 ts2 d2 →
  filled d result (n1 ++ n2) (ts1 ++ ts2) d2.
Proof.
  intros (Hk1 & Ho1 & H1) (Hk2 & Ho2 & H2). split_and!; [by eapply keeps_trans|auto|].
  intros m Hm. destruct (H1 m Hm) as (vs1 & Hl1 & Hm1 & Hd1). destruct (H2 _ Hm1) as (vs2 & Hl2 & Hm2 & Hd2).
  exists (vs1 ++ vs2). split_and!.
  - rewrite !length_app. lia.
  - rewrite zip_with_app by done. unfold jmap in *. rewrite list_to_map_app, map_union_assoc. done.
  - apply Forall2_app; [|done]. eapply Forall2_impl; [exact Hd1|]. intros v t.
    apply denotes_frame; [done|]. intros id mm Hid. apply Ho2. lia.
Qed.

Lemma run_read_values fs ts result : Forall2 (λ f t, has_code (typeCode f) t) fs ts → Forall rc_reads ts →
  ∀ d, (result < length (objects d))%nat →
  run (read_values data rc fs result) (concat (map enc_tree ts)) d (λ _ d', filled d result (map f_name fs) ts d').
Proof.
  intros Hfs Hts. induction Hfs as [|f t fs ts Hf _ IH]; intros d Hr; [apply run_ret, filled_nil|]. inv_eq Hts.
  cbn [map concat read_values]. eapply run_bind; [by apply run_readFieldValue|]. intros v d1 (Hk & Ho & Hv).
  destruct (lookup_lt_is_Some_2 (objects d) result Hr) as [m Hm].
  set (d2 := mkJ (pos d1) (handles d1) (classes d1)
    (<[result := match m !! f_name f with Some _ => m | None => <[f_name f:=v]> m end]> (objects d1))).
  eapply (run_step _ _ tt _ d2); [unfold set_missing; by rewrite (Ho _ _ Hm)|done|].
  assert (filled d result [f_name f] [t] d2) as Hfill.
  { split_and!; [by intros ? ? ?; apply Hk|intros id mm Hid ?; cbn; rewrite list_lookup_insert_ne by done; by apply Ho|].
    intros m' [= ->]%(eq_trans (eq_sym Hm)). exists [v]. cbn. split_and!; [done| |].
    - unfold jmap in *. rewrite list_lookup_insert_eq by (eapply lookup_lt_Some; by apply Ho). do 2 f_equal.
      rewrite insert_empty. destruct (m' !! f_name f) as [x|] eqn:E.
      + apply map_eq. intros k. rewrite lookup_union. destruct (decide (k = f_name f)) as [->|Hne].
        * by rewrite E, lookup_singleton_eq.
        * rewrite lookup_singleton_ne by done. by destruct (m' !! k).
      + by rewrite insert_union_singleton_r.
    - constructor; [|done]. eapply denotes_frame; [| |exact Hv]; [lia|].
      intros id mm Hid ?. rewrite list_lookup_insert_ne by lia. done. }
  eapply run_weaken; [apply IH; [done|]|].
  - cbn. rewrite length_insert. apply keeps_objects_length in Ho. lia.
  - cbv beta. intros _ d3 H3. exact (filled_app _ _ [_] [_] _ _ _ _ Hfill H3).
Qed.

(** The part of a class with a [writeObject] method: its values, its blocks. *)
Lemma run_class_part c fs l blocks result d : write_method c = true → fields c = fs →
  Forall2 (λ f t, has_code (typeCode f) t) fs l → Forall rc_reads l → no_block (concat (map enc_tree l)) →
  Forall (λ b, len b < 256) blocks → (result < length (objects d))%nat →
  run (read_part data rc result c) (concat (map enc_tree l) ++ concat (map enc_block blocks) ++ tag _tcEndBlockData) d
    (λ _ d', filled d result (map f_name fs) l d').
Proof.
  intros Hw Hf Hl Hrc Hnb Hbs Hr. unfold read_part, class_part. rewrite Hw, Hf.
  assert (∀ d1, filled d result (map f_name fs) l d1 →
    run (skipObjectAnnotation data) (concat (map enc_block blocks) ++ tag _tcEndBlockData) d1
      (λ _ d', filled d result (map f_name fs) l d')) as Hann.
  { intros d1 Hd1. eapply run_weaken; [by apply run_annotation|]. intros _ d2 [_ H2]. by eapply filled_same. }
  assert (run (_ ← read_values data rc fs result; skipObjectAnnotation data)
    (concat (map enc_tree l) ++ concat (map enc_block blocks) ++ tag _tcEndBlockData) d
    (λ _ d', filled d result (map f_name fs) l d')) as Hall.
  { eapply run_bind; [by apply run_read_values|]. cbv beta. auto. }
  assert (∃ b s, concat (map enc_tree l) ++ concat (map enc_block blocks) ++ tag _tcEndBlockData = b :: s
    ∧ (fs = [] ∨ bz b ≠ _tcBlockData ∧ bz b ≠ _tcBlockDataLong)) as (b & s & Hb & Hcase).
  { destruct Hl as [|f t fs' l' _ _]; [destruct blocks; do 2 eexists; (split; [reflexivity|by left])|].
    cbn [map concat] in Hnb |- *. pose proof (enc_tree_nonempty t) as Hne. destruct (enc_tree t) as [|b e]; [cbn in Hne; lia|].
    do 2 eexists. split; [reflexivity|by right]. }
  intros rest Hh. pose proof Hh as Hh'. rewrite Hb in Hh'. apply at_block_here in Hh'.
  unfold mbind at 1, jm_bind at 1. rewrite Hh'. cbv beta iota. revert rest Hh.
  destruct ((bz b =? _tcBlockData) || (bz b =? _tcBlockDataLong)) eqn:E; [|by apply Hall].
  destruct Hcase as [->|[]]; [|zbool; lia]. inv_eq Hl. apply Hann, filled_nil.
Qed.
End values.

(** *** Objects *)

Lemma run_readObject chain rc c fs l blocks d : (0 < chain)%nat → tree_ok (TObj c fs l blocks) → Forall (rc_reads rc) l →
  run (readObject data chain rc) (enc_tree (TObj c fs l blocks)) d (value_read d (TObj c fs l blocks)).
Proof.
  intros Hch (Hly & Hown & Hl & Hnb & Hbs & _) Hrc. unfold readObject. cbn [enc_tree].
  eapply run_bind; [by apply run_expect|]. intros _ d1 [_ (Hc1 & Ho1 & _)].
  eapply run_bind; [by apply run_class|]. cbv beta. intros desc d2 (-> & Ho2 & Hc2).
  eapply run_step; [reflexivity|done|]. eapply run_step; [reflexivity|done|]. cbn [pos handles classes objects].
  set (d3 := mkJ _ _ _ _). eapply run_map with (P := λ _ d', filled d3 (length (objects d2)) (map f_name fs) l d').
  - unfold readClassData. destruct chain as [|chain]; [lia|]. cbn [class_chain].
    apply (run_step _ _ (mkClass (h_name c) (h_flags c) fs None) d3 d3);
      [unfold get_class; cbn [d3 classes]; by rewrite Hc2, list_lookup_middle|done|].
    match goal with |- run _ ?s _ _ => rewrite <-(app_nil_r s) end. eapply run_bind.
    + apply (run_class_part rc _ fs l blocks); try done;
        [|cbn [d3 objects]; rewrite length_app; cbn [length]; lia].
      destruct Hown as [_ Hwm%Z.eqb_neq]. unfold write_method. cbn [flags]. by rewrite Hwm.
    + cbv beta. intros _ d4 H4. destruct chain; by apply run_ret.
  - cbv beta. intros _ d4 (Hk3 & Ho3 & H3). cbn [d3 classes objects] in *. rewrite Ho2, Ho1 in *.
    split_and!.
    + intros id ci Hc. apply Hk3. cbn [d3 classes]. rewrite Hc2, Hc1. by apply lookup_app_l_Some.
    + intros id m Hm. apply Ho3; [|by apply lookup_app_l_Some]. apply lookup_lt_Some in Hm. lia.
    + destruct (H3 ∅) as (vs & Hvs & Hm & Hd); [by rewrite lookup_app_r, Nat.sub_diag|].
      exists (length (objects d)), vs. rewrite all_denote. split_and!; [done|lia| |].
      * rewrite Hm. f_equal. unfold jmap. by rewrite map_empty_union.
      * eapply Forall2_impl; [exact Hd|]. intros v t. apply denotes_frame; [lia|done].
Qed.

Lemma run_content : ∀ t chain fuel, tree_ok t → (0 < chain)%nat → (length (enc_tree t) ≤ fuel)%nat →
  rc_reads (content data chain fuel) t.
Proof.
  refine (tree_induction _ _ _).
  - intros c fs l blocks IH chain fuel Hok Hch Hf d. cbn [enc_tree] in Hf. rewrite !length_app, tag_length in Hf.
    destruct fuel as [|fuel]; [lia|]. apply run_tag. rewrite bz_to_byte_small by done.
    apply run_readObject; [done|done|]. destruct Hok as (_ & _ & _ & _ & _ & Hok). rewrite trees_ok in Hok.
    assert (length (concat (map enc_tree l)) ≤ fuel)%nat as Hfl by lia. clear Hf.
    induction IH as [|t l Ht _ IHl]; [done|]. inv_eq Hok. cbn [map concat] in Hfl. rewrite length_app in Hfl.
    constructor; [apply Ht|apply IHl]; (done || lia).
  - intros [p| |s|c fs l blocks]; try done; intros chain fuel Hok _ Hf; cbn [rc_reads]; try (exact Hok); intros d;
      (destruct fuel as [|fuel]; [cbn in Hf; lia|]).
    + apply run_tag. rewrite bz_to_byte_small by done. apply run_skip. intros d' Hd. apply run_ret. by apply same_value.
    + apply run_tag. rewrite bz_to_byte_small by done.
      eapply run_map; [by apply run_readString|]. intros _ d' [-> Hd]. by apply same_value.
Qed.
Lemma run_readContent t d : tree_ok t → match t with TPrim _ => False | _ => True end →
  run (readContent data) (enc_tree t) d (value_read d t).
Proof.
  intros Ht Hp rest Hh. pose proof (here_length _ _ _ Hh).
  assert (rc_reads (readContent data) t) as Hr by (apply run_content; [done|unfold chain_fuel; lia..]).
  destruct t; [done|by apply Hr..].
Qed.

(** *** A class that is its own super class *)

Lemma run_cyclic_class c d : head_ok c → plain c → classes d = [] → handles d = [] →
  run (readClassDesc data) (enc_class c [] ++ tag _tcReference ++ be_bytes 4 0) d
    (λ a d', a = Some 0%nat ∧ classes d' = [mkClass (h_name c) (h_flags c) [] (Some 0%nat)]).
Proof.
  unfold plain. intros [Hn Hfl] Hwm Hcs Hhs. unfold enc_class. rewrite <-app_assoc.
  intros rest Hh. pose proof (here_length _ _ _ Hh) as Hl. rewrite !length_app, !tag_length in Hl.
  assert (∃ fuel, length data = S fuel) as [fuel Hfuel] by (exists (pred (length data)); lia).
  revert rest Hh. unfold readClassDesc. rewrite Hfuel. clear Hl Hfuel.
  apply run_tag. rewrite bz_to_byte_small by done. apply run_skip_exact. intros d1 (Hc1 & _) Hh1.
  rewrite Hcs in Hc1. rewrite Hhs in Hh1.
  rewrite <-(app_nil_r (class_tail c [])). eapply reach_run; [apply class_front; try done|].
  { intros d0. rewrite Hwm, andb_false_r. by apply run_ret. }
  intros d2 (Hc2 & _ & Hh2). rewrite Hc1 in Hc2, Hh2 |- *. rewrite Hh1 in Hh2.
  unfold class_end. rewrite <-(app_nil_r (tag _tcReference ++ _)).
  eapply run_bind with (P := λ a d', a = Some 0%nat ∧ classes d' = classes d2).
  - apply run_tag. rewrite bz_to_byte_small by done. apply run_skip. intros d3 (Hc3 & _ & Hh3).
    rewrite <-(app_nil_r (be_bytes 4 0)). eapply run_bind; [by apply (run_be_read 4)|]. intros _ d4 [-> (Hc4 & _ & Hh4)].
    destruct (transitivity Hh2 (transitivity Hh3 Hh4)) as [k Hk].
    eapply run_step; [unfold get_handle; by rewrite Hk|done|]. apply run_ret. split; [done|congruence].
  - intros _ d3 [-> Hc3]. eapply run_step; [reflexivity|done|]. apply run_ret. split; [done|]. cbn. by rewrite Hc3, Hc2.
Qed.
Lemma cyclic_chain c rc result d : Z.land (flags c) _scWriteMethod = 0 → fields c = [] → super c = Some 0%nat →
  classes d = [c] → ∀ chain, class_chain (read_part data rc result) chain (Some 0%nat) d = JOverflow.
Proof.
  intros Hw Hf Hs Hc chain. induction chain as [|chain IH]; [done|].
  cbn [class_chain]. unfold read_part, class_part, write_method in *. unfold mbind, jm_bind, get_class in *. rewrite Hc. cbn [lookup list_lookup].
  rewrite Hw, Hf, Hs. exact IH.
Qed.
Lemma cyclic_content c rest : head_ok c → plain c →
  data = tag _tcObject ++ enc_class c [] ++ tag _tcReference ++ be_bytes 4 0 ++ rest →
  ∀ chain fuel, content data chain fuel (start 0) = JOverflow.
Proof.
  intros Hc Hpl Hd chain fuel. destruct fuel as [|fuel]; [done|]. cbn [content].
  assert (here (start 0) (tag _tcObject ++ (enc_class c [] ++ tag _tcReference ++ be_bytes 4 0) ++ rest)) as Hh.
  { exists []. split; [|done]. by rewrite Hd, <-!app_assoc. }
  pose proof (here_byte _ _ _ Hh) as [He Hcur].
  destruct (run_expect _tcObject (start 0) ltac:(done) _ Hh) as (a & d1 & Hx & Hh1 & -> & Hc1 & Ho1 & _).
  assert (handles d1 = []) as Hh0.
  { unfold expect_tag, mbind, jm_bind in Hx. rewrite He, Hcur, bz_to_byte_small in Hx by done. by injection Hx as <-. }
  destruct (run_cyclic_class c d1 Hc Hpl Hc1 Hh0 rest Hh1) as (a & d2 & Hx2 & _ & -> & Hc2).
  unfold read_content, mbind, jm_bind at 1. rewrite He. unfold jm_bind at 1. rewrite Hcur, bz_to_byte_small by done.
  cbn [Z.eqb _tcObject _tcNull _tcReference Pos.eqb]. unfold readObject, mbind, jm_bind. rewrite Hx, Hx2.
  unfold new_object, newHandle, readClassData. by rewrite (cyclic_chain (mkClass (h_name c) (h_flags c) [] (Some 0%nat))) by (exact Hc2 || exact Hpl || done).
Qed.

(** *** A HashMap as Java writes it *)

Definition fails {A} (m : jm A) (s : list byte) (d : javaDeserializer) : Prop :=
  ∀ rest, here d (s ++ rest) → ∃ d', m d = JErr d'.
Lemma fails_bind {A B} (m : jm A) (f : A → jm B) s s' d (P : A → javaDeserializer → Prop) :
  run m s d P → (∀ a d', P a d' → fails (f a) s' d') → fails (m ≫= f) (s ++ s') d.
Proof.
  intros Hm Hf rest Hh. rewrite <-app_assoc in Hh. destruct (Hm _ Hh) as (a & d' & Ha & Hh' & HP).
  destruct (Hf a d' HP rest Hh') as (d'' & ?). exists d''. unfold mbind, jm_bind. by rewrite Ha.
Qed.
Lemma fails_first {A B} (m : jm A) (f : A → jm B) s d : fails m s d → fails (m ≫= f) s d.
Proof. intros Hm rest Hh. destruct (Hm rest Hh) as (d' & Hd). exists d'. unfold mbind, jm_bind. by rewrite Hd. Qed.
Lemma fails_tag {A} (k : Z → jm A) b s d :
  fails (k (bz b)) (b :: s) d → fails (e ← at_end data; if e : bool then fail else c ← cur data; k c) (b :: s) d.
Proof.
  intros Hk rest Hh. cbn [app] in Hh. destruct (here_byte d b (s ++ rest) Hh) as [He Hc]. unfold mbind, jm_bind. rewrite He, Hc.
  exact (Hk rest Hh).
Qed.

(** Objects behind the block data of an annotation end the reading. *)
Lemma annotation_fails b s d : len b < 256 →
  fails (skipObjectAnnotation data) (tag _tcBlockData ++ be_bytes 1 (len b) ++ b ++ tag _tcString ++ s) d.
Proof.
  intros Hb rest Hh. pose proof (here_length _ _ _ Hh) as Hl. rewrite !length_app, !tag_length in Hl.
  assert (∃ fuel, length data = S fuel) as [fuel Hfuel] by (exists (pred (length data)); lia).
  revert rest Hh. unfold skipObjectAnnotation. rewrite Hfuel. cbn [annotation_loop].
  apply fails_tag. rewrite bz_to_byte_small by done. cbn [Z.eqb _tcBlockData _tcEndBlockData Pos.eqb].
  replace (to_byte _tcBlockData :: be_bytes 1 (len b) ++ b ++ tag _tcString ++ s)
    with ((tag _tcBlockData ++ be_bytes 1 (len b) ++ b) ++ tag _tcString ++ s) by (by rewrite <-!app_assoc).
  eapply fails_bind; [by apply run_block|]. intros _ d' _. apply fails_tag. rewrite bz_to_byte_small by done.
  intros rest _. by exists d'.
Qed.
Lemma fails_no_block {A} (f : bool → jm A) b s d : bz b ≠ _tcBlockData → bz b ≠ _tcBlockDataLong →
  fails (f false) (b :: s) d → fails (at_block data ≫= f) (b :: s) d.
Proof.
  intros H1 H2 Hf rest Hh. cbn [app] in Hh. destruct (here_byte d b (s ++ rest) Hh) as [He Hc].
  unfold at_block, mbind, jm_bind. rewrite He, Hc. destruct (Z.eqb_spec (bz b) _tcBlockData), (Z.eqb_spec (bz b) _tcBlockDataLong); try done.
  exact (Hf rest Hh).
Qed.

Definition hashmap_fields : list javaFieldInfo := [mkField Byte.x46 (gs "loadFactor") []; mkField Byte.x49 (gs "threshold") []].
Definition hashmap_head (uid : Z) : class_head := mkHead (gs "java.util.HashMap") uid 3.
Definition hashmap_class (uid : Z) : list byte :=
  enc_class (hashmap_head uid) hashmap_fields ++ tag _tcEndBlockData ++ tag _tcNull.
(** A load factor of 0.75, the number of buckets and of entries in block data,
    then the entries. *)
Definition hashmap_data (threshold buckets size : Z) : list byte :=
  be_bytes 4 1061158912 ++ be_bytes 4 threshold
  ++ tag _tcBlockData ++ be_bytes 1 8 ++ (be_bytes 4 buckets ++ be_bytes 4 size) ++ tag _tcString.

Lemma hashmap_class_ok uid : layer_ok (hashmap_head uid) hashmap_fields ∧ own_write (hashmap_head uid).
Proof. split; [|by split]. split; [by split|]. split; [done|]. by repeat constructor. Qed.
Lemma hashmap_fails chain rc uid threshold buckets size d : (0 < chain)%nat → is_int32 threshold →
  fails (skipClassDescWithData data chain rc) (hashmap_class uid ++ hashmap_data threshold buckets size) d.
Proof.
  intros Hchain Hth. unfold skipClassDescWithData. eapply fails_bind; [exact (run_class _ _ d (proj1 (hashmap_class_ok uid)) (proj2 (hashmap_class_ok uid)))|].
  intros _ d1 (-> & _ & Hc1). unfold skipClassData. destruct chain as [|chain]; [lia|]. cbn [class_chain].
  intros rest Hh. unfold mbind, jm_bind at 1, get_class. rewrite Hc1, list_lookup_middle by done. revert rest Hh.
  apply fails_first. unfold skip_part, class_part. cbn [write_method flags].
  apply fails_no_block; [done..|]. change (to_byte _ :: _) with (hashmap_data threshold buckets size).
  unfold hashmap_data. rewrite app_assoc. eapply fails_bind with (P := returning d1 tt).
  - cbn [fields hashmap_fields skip_values]. rewrite <-(app_nil_r (be_bytes 4 threshold)).
    eapply run_bind; [apply (run_prim (PFloat 1061158912)); done|]. intros _ d2 [-> H2].
    eapply run_bind; [by apply (run_prim (PInt threshold))|]. intros _ d3 [-> H3].
    apply run_ret. split; [done|]. by eapply same_trans.
  - intros _ d2 _. pose proof (annotation_fails (be_bytes 4 buckets ++ be_bytes 4 size) [] d2) as Hf.
    rewrite len_app, !len_be_bytes, app_nil_r in Hf. by apply Hf.
Qed.

(** *** Objects of the other classes *)

(** [m] reads [s] or fails. *)
Definition tries {A} (m : jm A) (s : list byte) (d : javaDeserializer) : Prop :=
  ∀ rest, here d (s ++ rest) → (∃ d', m d = JErr d') ∨ ∃ a d', m d = JOk a d' ∧ here d' rest.
Lemma run_tries {A} (m : jm A) s d Q : run m s d Q → tries m s d.
Proof. intros Hm rest Hh. right. destruct (Hm rest Hh) as (a & d' & ? & ? & _). eauto. Qed.
Lemma tries_ret {A} (a : A) d : tries (mret a) [] d.
Proof. intros rest Hh. right. by exists a, d. Qed.
Lemma tries_bind {A B} (m : jm A) (f : A → jm B) s s' d :
  tries m s d → (∀ a d', tries (f a) s' d') → tries (m ≫= f) (s ++ s') d.
Proof.
  intros Hm Hf rest Hh. rewrite <-app_assoc in Hh. unfold mbind, jm_bind.
  destruct (Hm _ Hh) as [(d' & ->)|(a & d' & -> & Hh')]; [by left; eexists|]. by apply Hf.
Qed.
Lemma tries_after {A B} (m : jm A) (f : A → jm B) s s' d (P : A → javaDeserializer → Prop) :
  run m s d P → (∀ a d', P a d' → tries (f a) s' d') → tries (m ≫= f) (s ++ s') d.
Proof.
  intros Hm Hf rest Hh. rewrite <-app_assoc in Hh. unfold mbind, jm_bind.
  destruct (Hm _ Hh) as (a & d' & -> & Hh' & HP). by apply Hf.
Qed.
Lemma tries_tag {A} (k : Z → jm A) b s d :
  tries (k (bz b)) (b :: s) d → tries (e ← at_end data; if e : bool then fail else c ← cur data; k c) (b :: s) d.
Proof.
  intros Hk rest Hh. cbn [app] in Hh. destruct (here_byte d b (s ++ rest) Hh) as [He Hc]. unfold mbind, jm_bind. rewrite He, Hc.
  exact (Hk rest Hh).
Qed.
Lemma tries_skip {A} (m : jm A) b s d : (∀ d', tries m s d') → tries (_ ← skip 1; m) (b :: s) d.
Proof.
  intros Hm rest Hh. apply (here_skip d [b]) in Hh. change (len [b]) with 1 in Hh.
  exact (Hm (mkJ (pos d + 1) (handles d) (classes d) (objects d)) rest Hh).
Qed.
Lemma tries_fails {A B} (m : jm A) (f : A → jm B) s s' d :
  tries m s d → (∀ a d', fails (f a) s' d') → fails (m ≫= f) (s ++ s') d.
Proof.
  intros Hm Hf rest Hh. rewrite <-app_assoc in Hh. unfold mbind, jm_bind.
  destruct (Hm _ Hh) as [(d' & ->)|(a & d' & -> & Hh')]; [by eexists|]. by eapply Hf.
Qed.
Lemma fails_step {A B} (m : jm A) (f : A → jm B) a d d' s :
  m d = JOk a d' → pos d' = pos d → fails (f a) s d' → fails (m ≫= f) s d.
Proof.
  intros Hm Hp Hf rest (pre & Hd & Hpre). unfold mbind, jm_bind. rewrite Hm. apply (Hf rest). exists pre. by rewrite Hp.
Qed.
Lemma fails_skip {A} (m : jm A) b s d : (∀ d', fails m s d') → fails (_ ← skip 1; m) (b :: s) d.
Proof.
  intros Hm rest Hh. apply (here_skip d [b]) in Hh. change (len [b]) with 1 in Hh.
  by destruct (Hm (mkJ (pos d + 1) (handles d) (classes d) (objects d)) rest Hh) as (d' & Ha); exists d'.
Qed.
Lemma fails_skip_n {A} (k : jm A) b s n d : n = len b → (∀ d', fails k s d') →
  fails (p ← get_pos; if len data <? p + n then fail else _ ← skip n; k) (b ++ s) d.
Proof.
  intros -> Hk rest Hh. rewrite <-app_assoc in Hh. pose proof (here_len _ _ Hh) as [Hl _]. rewrite !len_app in Hl.
  unfold mbind at 1, jm_bind at 1, get_pos at 1. cbv beta iota.
  destruct (Z.ltb_spec (len data) (pos d + len b)); [len_lia|]. apply here_skip in Hh.
  by destruct (Hk (mkJ (pos d + len b) (handles d) (classes d) (objects d)) rest Hh) as (d' & Ha); exists d'.
Qed.

(** A field whose type is written in place or, where it has been written
    before, as a reference. *)
Definition enc_signed (f : javaFieldInfo * option Z) : list byte :=
  [typeCode f.1] ++ enc_utf (f_name f.1)
  ++ (if beq (typeCode f.1) 91 || beq (typeCode f.1) 76
      then match f.2 with Some h => tag _tcReference ++ be_bytes 4 h | None => tag _tcString ++ enc_utf (className1 f.1) end
      else []).
Lemma tries_signature s h d : utf_ok s →
  tries (readObjectString data) (match h with Some h => tag _tcReference ++ be_bytes 4 h | None => tag _tcString ++ enc_utf s end) d.
Proof.
  intros Hs. destruct h as [h|]; [|eapply run_tries; by apply run_readObjectString].
  apply tries_tag. rewrite bz_to_byte_small by done. cbn [Z.eqb _tcReference _tcString _tcLongString Pos.eqb].
  apply tries_skip. intros d1. rewrite <-(app_nil_r (be_bytes 4 h)).
  eapply tries_bind; [by eapply run_tries, (run_be_read 4)|]. intros v d2 rest Hh.
  unfold mbind, jm_bind, get_handle. destruct (znth (handles d2) v) as [[]|];
    first [by left; eexists|right; eexists _, _; by split].
Qed.
Lemma tries_read_fields fs : Forall (λ f, field_ok f.1) fs → ∀ d,
  tries (read_fields data (length fs)) (concat (map enc_signed fs)) d.
Proof.
  induction 1 as [|f fs (Hn & Hc & _) _ IH]; intros d; [apply tries_ret|].
  cbn [map concat length read_fields]. unfold enc_signed. rewrite <-!app_assoc.
  assert ([typeCode f.1] = be_bytes 1 (bz (typeCode f.1))) as -> by (cbn; by rewrite to_byte_bz).
  eapply tries_after; [apply run_byte_read|]. intros _ d1 [-> _]. rewrite Z.mod_small by apply bz_range.
  eapply tries_after; [by apply run_readUTF|]. intros name d2 _.
  apply tries_bind.
  - unfold beq. destruct (_ || _); [by apply tries_signature|apply tries_ret].
  - intros cn d3. rewrite <-(app_nil_r (concat _)). apply tries_bind; [apply IH|]. intros l d4. apply tries_ret.
Qed.
(** The descriptor of a class without a [writeObject] method. *)
Definition enc_plain (c : class_head) (fs : list (javaFieldInfo * option Z)) : list byte :=
  tag _tcClassDesc ++ enc_utf (h_name c) ++ be_bytes 8 (h_uid c) ++ be_bytes 1 (h_flags c)
  ++ be_bytes 2 (len fs) ++ concat (map enc_signed fs) ++ tag _tcEndBlockData.
Lemma fails_plain_body c fs sup_m d : head_ok c → plain c → len fs < 2 ^ 16 → Forall (λ f, field_ok f.1) fs →
  (∀ d, fails sup_m (tag _tcEndBlockData) d) →
  fails (class_body data sup_m) (enc_utf (h_name c) ++ be_bytes 8 (h_uid c) ++ be_bytes 1 (h_flags c)
    ++ be_bytes 2 (len fs) ++ concat (map enc_signed fs) ++ tag _tcEndBlockData) d.
Proof.
  unfold plain. intros [Hn Hfl] Hp Hlen Hfs Hsup. unfold class_body.
  eapply fails_bind; [by apply run_readUTF|]. intros _ d1 [-> _].
  apply fails_skip_n; [done|]. intros d2.
  eapply fails_step; [reflexivity|done|]. eapply fails_step; [reflexivity|done|].
  eapply fails_bind; [apply run_byte_read|]. intros _ d3 [-> _]. rewrite Z.mod_small by lia.
  eapply fails_bind; [by apply (run_be_read 2)|]. intros _ d4 [-> _].
  pose proof (len_nonneg fs). rewrite Z.mod_small, len_length, Nat2Z.id by lia.
  eapply tries_fails; [by apply tries_read_fields|]. intros fs' d5.
  eapply fails_step; [reflexivity|done|]. rewrite Hp, andb_false_r.
  eapply fails_step; [reflexivity|done|]. by apply fails_first.
Qed.
Lemma fails_plain c fs d : head_ok c → plain c → len fs < 2 ^ 16 → Forall (λ f, field_ok f.1) fs →
  fails (readClassDesc data) (enc_plain c fs) d.
Proof.
  intros Hc Hp Hlen Hfs rest Hh. pose proof (here_length _ _ _ Hh) as Hl.
  unfold enc_plain in Hl. rewrite !length_app, !tag_length in Hl.
  assert (∃ fuel, length data = S fuel) as [fuel Hfuel] by (exists (pred (length data)); lia).
  revert rest Hh. unfold readClassDesc. rewrite Hfuel. cbn [classdesc_loop].
  apply fails_tag. rewrite bz_to_byte_small by done. cbn [Z.eqb _tcNull _tcReference _tcClassDesc Pos.eqb].
  apply fails_skip. intros d1. apply fails_plain_body; try done.
  intros d2. cbn [classdesc_loop]. apply fails_tag. rewrite bz_to_byte_small by done. intros rest _. by exists d2.
Qed.

(** An object, an array or an enum of such a class, [more] being the super
    class and the contents. *)
Record plain_value := mkPlain { p_tag : Z; p_class : class_head; p_fields : list (javaFieldInfo * option Z); p_more : list byte }.
Definition enc_plain_value (v : plain_value) : list byte := tag (p_tag v) ++ enc_plain (p_class v) (p_fields v) ++ p_more v.
Definition plain_value_ok (v : plain_value) : Prop :=
  p_tag v ∈ [_tcObject; _tcArray; _tcEnum] ∧ head_ok (p_class v) ∧ plain (p_class v)
  ∧ len (p_fields v) < 2 ^ 16 ∧ Forall (λ f, field_ok f.1) (p_fields v).
Lemma fails_more {A} (m : jm A) s s' d : fails m s d → fails m (s ++ s') d.
Proof. intros Hm rest Hh. rewrite <-app_assoc in Hh. by eapply Hm. Qed.
(** Reading a descriptor makes no map. *)
Definition quiet {A} (m : jm A) : Prop :=
  ∀ d, match m d with JOk _ d' | JErr d' => objects d' = objects d | _ => True end.
Lemma quiet_bind {A B} (m : jm A) (f : A → jm B) : quiet m → (∀ a, quiet (f a)) → quiet (m ≫= f).
Proof.
  intros Hm Hf d. unfold mbind, jm_bind. specialize (Hm d). destruct (m d) as [a d'|d'| |]; try done.
  specialize (Hf a d'). destruct (f a d'); congruence.
Qed.
Lemma quiet_if {A} (b : bool) (m m' : jm A) : quiet m → quiet m' → quiet (if b then m else m').
Proof. by destruct b. Qed.
Lemma quiet_be_read n : quiet (be_read data n).
Proof. intros d. unfold be_read. destruct (_ <? _); [done|]. by destruct (be_at n data (pos d)). Qed.
Lemma quiet_text_read n : quiet (text_read data n).
Proof. intros d. unfold text_read. destruct (_ || _); [done|]. by destruct (sub data _ _). Qed.
Lemma quiet_cur : quiet (cur data).
Proof. intros d. unfold cur. by destruct (index data (pos d)). Qed.
Lemma quiet_get_handle h : quiet (get_handle h).
Proof. intros d. unfold get_handle. by destruct (znth (handles d) h). Qed.
Ltac quiet := repeat first
  [apply quiet_bind; intros|apply quiet_if|apply quiet_be_read|apply quiet_text_read|apply quiet_cur|apply quiet_get_handle
  |match goal with |- quiet (match ?x with _ => _ end) => destruct x end|by intros ?|progress unfold at_end, byte_read, expect_tag].
Lemma quiet_readString : quiet (readString data).
Proof. unfold readString. quiet. Qed.
Lemma quiet_readObjectString : quiet (readObjectString data).
Proof. unfold readObjectString, readLongString. quiet; apply quiet_readString. Qed.
Lemma quiet_annotation fuel : quiet (annotation_loop data fuel).
Proof.
  induction fuel as [|fuel IH]; [by intros ?|]. cbn [annotation_loop]. unfold skipBlockData, skipBlockDataLong. quiet; exact IH.
Qed.
Lemma quiet_read_fields n : quiet (read_fields data n).
Proof.
  induction n as [|n IH]; [by intros ?|]. cbn [read_fields]. unfold readUTF. quiet; first [exact IH|apply quiet_readObjectString].
Qed.
Lemma quiet_readClassDesc : quiet (readClassDesc data).
Proof.
  unfold readClassDesc. generalize (S (length data)). intros fuel. induction fuel as [|fuel IH]; [by intros ?|].
  cbn [classdesc_loop]. unfold class_body, readUTF, skipObjectAnnotation.
  quiet; first [exact IH|apply quiet_read_fields|apply quiet_annotation].
Qed.

Lemma fails_quiet {A B} (m : jm A) (f : A → jm B) s d : quiet m → fails m s d → ∀ rest, here d (s ++ rest) →
  ∃ d', (m ≫= f) d = JErr d' ∧ objects d' = objects d.
Proof.
  intros Hq Hm rest Hh. destruct (Hm rest Hh) as (d' & Hd). exists d'. specialize (Hq d). rewrite Hd in Hq.
  split; [|done]. unfold mbind, jm_bind. by rewrite Hd.
Qed.
Lemma fails_plain_value v d rest : plain_value_ok v → here d (enc_plain_value v ++ rest) →
  ∃ d', readContent data d = JErr d' ∧ objects d' = objects d.
Proof.
  intros (Ht & Hc & Hp & Hlen & Hfs) Hh. rewrite !elem_of_cons, elem_of_nil in Ht.
  assert (∀ {A} (k : option nat → jm A), ∃ d', (_ ← expect_tag data (p_tag v); desc ← readClassDesc data; k desc) d = JErr d'
    ∧ objects d' = objects d) as Hall.
  { intros A k. unfold enc_plain_value in Hh. rewrite <-app_assoc in Hh.
    destruct (run_expect (p_tag v) d ltac:(unfold _tcObject, _tcArray, _tcEnum in Ht; lia) _ Hh) as (a & d1 & Hx & Hh1 & _ & _ & Ho & _).
    rewrite <-app_assoc in Hh1.
    destruct (fails_quiet _ k _ _ quiet_readClassDesc (fails_plain _ _ d1 Hc Hp Hlen Hfs) _ Hh1) as (d' & Hd & Ho').
    exists d'. split; [|congruence]. unfold mbind at 1, jm_bind at 1. by rewrite Hx. }
  unfold enc_plain_value in Hh. rewrite <-app_assoc in Hh. apply here_byte in Hh as [He Hcur].
  unfold readContent. cbn [content]. unfold read_content, mbind at 1, jm_bind at 1. rewrite He. cbv beta iota.
  unfold mbind at 1, jm_bind at 1. rewrite Hcur.
  destruct Ht as [Ht|[Ht|[Ht|[]]]]; rewrite Ht in *; rewrite bz_to_byte_small by done; apply Hall.
Qed.

(** *** The arguments of a call *)

(** What [ObjectOutputStream] writes in front: strings, nulls and objects. *)
Definition argument_ok (t : tree) : Prop := tree_ok t ∧ match t with TPrim _ => False | _ => True end.
Definition names_of (ts : list tree) : list (list byte) :=
  concat (map (λ t, match t with TObj _ fs _ _ => map f_name fs | _ => [] end) ts).
Definition values_of (ts : list tree) : list tree :=
  concat (map (λ t, match t with TObj _ _ l _ => l | _ => [] end) ts).
(** The values of the fields, the first of a name counting. *)
Definition merged (ts : list tree) (base : nat) (result result' : jmap) (store : list jmap) : Prop :=
  ∃ vs, length vs = length (names_of ts) ∧ result' = result ∪ list_to_map (zip (names_of ts) vs)
    ∧ Forall2 (denotes store base) vs (values_of ts).
(** Behind them stands nothing, or a value of another class and anything. *)
Definition ending (last : list byte) : Prop := last = [] ∨ ∃ v, plain_value_ok v ∧ last = enc_plain_value v.

Lemma argument_tag t : argument_ok t → ∃ b s, enc_tree t = b :: s ∧ bz b ≠ _tcEndBlockData ∧ bz b ≠ _tcReset.
Proof. intros [_ Ht]. destruct t; [done|by eexists _, _..]. Qed.
Lemma plain_value_tag v : plain_value_ok v → ∃ b s, enc_plain_value v = b :: s ∧ bz b ≠ _tcEndBlockData ∧ bz b ≠ _tcReset.
Proof.
  intros (Ht & _). rewrite !elem_of_cons, elem_of_nil in Ht. unfold enc_plain_value.
  destruct Ht as [->|[->|[->|[]]]]; by eexists _, _.
Qed.
(** One round of the loop, on a value. *)
Lemma args_loop_value fuel result d b s : here d (b :: s) → bz b ≠ _tcEndBlockData → bz b ≠ _tcReset →
  args_loop data (S fuel) result d =
    match readContent data d with
    | JOk v d =>
        match v with
        | JMap id =>
            match objects d !! id with
            | Some m => args_loop data fuel (result ∪ m) d
            | None => Crashed
            end
        | _ => args_loop data fuel result d
        end
    | JErr d => Val (result, d)
    | JPanic => Crashed
    | JOverflow => NoFuel
    end.
Proof.
  intros Hh H1 H2. pose proof (here_len _ _ Hh) as [Hl _]. rewrite len_cons in Hl. pose proof (len_nonneg s).
  apply here_byte in Hh as [_ Hb]. cbn [args_loop]. destruct (Z.leb_spec (len data) (pos d)); [lia|].
  unfold cur in Hb. destruct (index data (pos d)) as [c|]; [|done]. injection Hb as Hb. cbn [of_go mbind comp_bind].
  unfold beq. rewrite Hb, (proj2 (Z.eqb_neq _ _) H1), (proj2 (Z.eqb_neq _ _) H2). done.
Qed.

Lemma args_loop_ends last fuel result d : ending last → (0 < fuel)%nat → here d last →
  ∃ d', args_loop data fuel result d = Val (result, d') ∧ objects d' = objects d.
Proof.
  intros [->|(v & Hv & ->)] Hf Hh; (destruct fuel as [|fuel]; [lia|]).
  - apply here_len in Hh as [Hl _]. rewrite len_nil in Hl. cbn [args_loop].
    destruct (Z.leb_spec (len data) (pos d)); [|lia]. by exists d.
  - destruct (plain_value_tag v Hv) as (b & s & Hb & H1 & H2).
    rewrite (args_loop_value fuel result d b s) by (rewrite <-?Hb; done).
    rewrite <-(app_nil_r (enc_plain_value v)) in Hh.
    destruct (fails_plain_value v d [] Hv Hh) as (d' & -> & Ho). by exists d'.
Qed.

Lemma args_loop_reads last ts : ending last → ∀ fuel result d, Forall argument_ok ts → (length ts < fuel)%nat →
  here d (concat (map enc_tree ts) ++ last) →
  ∃ result' d', args_loop data fuel result d = Val (result', d') ∧ keeps_objects d d'
    ∧ merged ts (length (objects d)) result result' (objects d').
Proof.
  intros Hlast. induction ts as [|t ts IH]; intros fuel result d Hts Hf Hh.
  - destruct (args_loop_ends last fuel result d) as (d' & -> & Ho); [done|cbn in Hf; lia|done|].
    exists result, d'. split_and!; [done|unfold keeps_objects; by rewrite Ho|].
    exists []. unfold jmap in *. split_and!; [done| |done]. cbn. by rewrite map_union_empty.
  - apply Forall_cons in Hts as [Ht Hts]. destruct fuel as [|fuel]; [cbn in Hf; lia|].
    cbn [map concat] in Hh. rewrite <-app_assoc in Hh. destruct (argument_tag t Ht) as (b & s & Hb & H1 & H2).
    rewrite (args_loop_value fuel result d b (s ++ concat (map enc_tree ts) ++ last)) by (rewrite ?Hb in Hh; done).
    destruct Ht as [Ht Hprim]. destruct (run_readContent t d Ht Hprim _ Hh) as (v & d1 & -> & Hh1 & _ & Ho1 & Hv).
    assert (length ts < fuel)%nat as Hf' by (cbn in Hf; lia).
    destruct t as [p| |s'|c fs l blocks]; [done|..].
    1,2: cbn in Hv; subst v; destruct (IH fuel result d1 Hts Hf' Hh1) as (result' & d' & -> & Ho & vs & Hl & -> & Hvs);
      eexists _, d'; (split_and!; [done|unfold keeps_objects in *; auto|]);
      exists vs; (split_and!; [done..|]); (eapply Forall2_impl; [exact Hvs|]); intros w t;
      apply denotes_frame; [by apply keeps_objects_length|done].
    destruct Hv as (id & vs & -> & Hid & Hm & Hvs). rewrite all_denote in Hvs. rewrite Hm.
    destruct (IH fuel (result ∪ list_to_map (zip (map f_name fs) vs)) d1) as (result' & d' & -> & Ho & vs' & Hl' & -> & Hvs');
      [done..|].
    assert (length vs = length (map f_name fs)) as Hlv.
    { rewrite length_map. apply Forall2_length in Hvs. destruct Ht as (_ & _ & Hfs & _). apply Forall2_length in Hfs. lia. }
    eexists _, d'. split_and!; [done|unfold keeps_objects in *; auto|].
    exists (vs ++ vs'). unfold names_of, values_of in *. cbn [map concat]. split_and!.
    + rewrite !length_app. lia.
    + rewrite zip_with_app by done. unfold jmap in *. by rewrite list_to_map_app, map_union_assoc.
    + apply Forall2_app; (eapply Forall2_impl; [eassumption|]); intros w t; apply denotes_frame; auto.
      by apply keeps_objects_length.
Qed.
End reading.

(** The stream of the arguments [ts] and what stands behind. *)
Definition java_stream (ts : list tree) (last : list byte) : list byte :=
  be_bytes 2 _streamMagic ++ be_bytes 2 _streamVersion ++ concat (map enc_tree ts) ++ last.

Lemma java_stream_header ts last pre : stream_header (pre ++ java_stream ts last) (len pre) = Ret true.
Proof.
  unfold java_stream. set (rest := concat _ ++ last).
  unfold stream_header. rewrite !len_app, !len_be_bytes. pose proof (len_nonneg rest).
  destruct (Z.leb_spec (len pre + 4) (len pre + (Z.of_nat 2 + (Z.of_nat 2 + len rest)))); [|lia].
  rewrite (be_at_mid 2 pre _streamMagic _ (len pre)) by done. cbn [mbind go_bind].
  rewrite app_assoc, (be_at_mid 2) by (rewrite ?len_app, ?len_be_bytes; done). done.
Qed.

Definition arguments_read (ts : list tree) (r : option jargs) : Prop :=
  match r with
  | Some a => names_of ts ≠ [] ∧ args_map a ≠ ∅ ∧ merged ts 0 ∅ (args_map a) (args_objects a)
  | None => names_of ts = []
  end.
Lemma java_args_read pre ts last : len (pre ++ java_stream ts last) ≤ max_alloc → Forall argument_ok ts → ending last →
  ∃ r, ParseJavaSerializedArgs (pre ++ java_stream ts last) (len pre) = Val r ∧ arguments_read ts r.
Proof.
  intros Hlen Hts Hlast. set (content := concat (map enc_tree ts) ++ last).
  unfold ParseJavaSerializedArgs. pose proof (len_nonneg pre).
  assert (len (java_stream ts last) = 4 + len content) as Hs by (unfold java_stream; rewrite !len_app, !len_be_bytes; unfold content; rewrite len_app; lia).
  pose proof (len_nonneg content). rewrite len_app in Hlen |- *.
  destruct (Z.ltb_spec (len pre) 0), (Z.leb_spec (len pre + len (java_stream ts last)) (len pre)); try lia. cbn [orb].
  rewrite java_stream_header. cbn [of_go mbind comp_bind].
  pose proof (sub_mid pre (java_stream ts last) [] (len pre) (len pre + len (java_stream ts last))) as Hsub.
  rewrite app_nil_r in Hsub. rewrite ?len_app, Hsub by lia. cbn [of_go mbind comp_bind].
  unfold deserializeJavaArgs. destruct (Z.ltb_spec (len (java_stream ts last)) 1); [lia|].
  pose proof (java_stream_header ts last []) as Hh. cbn [app] in Hh. rewrite len_nil in Hh. rewrite Hh. cbn [of_go mbind comp_bind].
  destruct (args_loop_reads (java_stream ts last) ltac:(lia) last ts Hlast (S (length (java_stream ts last))) ∅ (start 4))
    as (result & d & -> & _ & vs & Hl & Hm & Hd); [done| | |].
  - unfold java_stream. rewrite !length_app, !be_bytes_length.
    assert (length ts ≤ length (concat (map enc_tree ts)))%nat; [|lia].
    clear. induction ts as [|t ts IH]; [done|]. cbn [map concat length]. rewrite length_app.
    pose proof (enc_tree_nonempty t). lia.
  - by exists (be_bytes 2 _streamMagic ++ be_bytes 2 _streamVersion).
  - cbn [mbind comp_bind]. unfold jmap in *. rewrite map_empty_union in Hm.
    destruct (decide (result = ∅)) as [->|Hne]; (eexists; split; [done|]).
    + unfold arguments_read. destruct (names_of ts), vs; try done. cbn in Hm. symmetry in Hm. by apply insert_non_empty in Hm.
    + split_and!; [|done|exists vs; split_and!; [done| |done]].
      * intros E. rewrite E in Hm, Hl. by destruct vs.
      * unfold jmap. by rewrite map_empty_union.
Qed.

(** An account with a nested key, and the objects of a plain class: an integer
    and a point. *)
Definition demo_key : tree :=
  TObj (mkHead (gs "com.demo.Key") 3 3) [mkField Byte.x4a (gs "id") []] [TPrim (PLong (-7))] [].
Definition demo_account : tree :=
  TObj (mkHead (gs "com.demo.Account") 4 3)
    [mkField Byte.x49 (gs "balance") []; mkField Byte.x4c (gs "key") (gs "Lcom/demo/Key;"); mkField Byte.x4c (gs "owner") (gs "Ljava/lang/String;")]
    [TPrim (PInt (-5)); demo_key; TStr (gs "ann")] [be_bytes 4 12].
Definition demo_plain : plain_value :=
  mkPlain _tcObject (mkHead (gs "com.demo.Point") 1 2)
    [(mkField Byte.x4c (gs "x") (gs "Ljava/lang/Integer;"), None); (mkField Byte.x4c (gs "y") (gs "Ljava/lang/Integer;"), Some 8257538)]
    (tag _tcNull ++ tag _tcNull ++ tag _tcNull).
Lemma demo_account_ok : argument_ok demo_account.
Proof.
  assert (∀ c fs, utf_ok (h_name c) → 0 ≤ h_flags c < 256 → len fs < 2 ^ 16 → Forall field_ok fs → layer_ok c fs) as Hly by done.
  split; [|done]. cbn [demo_account demo_key tree_ok foldr]. split_and!.
  all: lazymatch goal with
    | |- layer_ok _ _ => apply Hly; [by vm_compute..|by repeat constructor]
    | |- Forall2 _ _ _ => by rewrite ?Forall2_cons; cbn; auto 6
    | |- Forall _ _ => by repeat constructor
    | |- _ => by vm_compute
    end.
Qed.
Lemma demo_plain_ok : plain_value_ok demo_plain.
Proof. split; [set_solver|]. split_and!; [by vm_compute..|]. by repeat constructor. Qed.

(** ** Differences from the protocol *)

(** References count from 0x7E0000 in Java and from 0 in the deserializer, so
    none is resolved: a class with two fields of one type, the type of the
    second written as a reference to that of the first, cannot be read. *)
Definition two_texts (second : Z) : list byte :=
  be_bytes 2 _streamMagic ++ be_bytes 2 _streamVersion ++ tag _tcObject
  ++ tag _tcClassDesc ++ enc_utf (gs "com.demo.Pair") ++ be_bytes 8 1 ++ be_bytes 1 3 ++ be_bytes 2 2
  ++ concat (map enc_signed [(mkField Byte.x4c (gs "a") (gs "Ljava/lang/String;"), None);
                             (mkField Byte.x4c (gs "b") (gs "Ljava/lang/String;"), Some second)])
  ++ tag _tcEndBlockData ++ tag _tcNull ++ enc_tree (TStr (gs "x")) ++ enc_tree (TStr (gs "y")) ++ tag _tcEndBlockData.
Example references_unresolved :
  ParseJavaSerializedArgs (two_texts (8257536 + 1)) 0 = Val None
  ∧ ∃ a, ParseJavaSerializedArgs (two_texts 1) 0 = Val (Some a)
      ∧ args_map a = list_to_map [(gs "a", JStr (gs "x")); (gs "b", JStr (gs "y"))].
Proof. split; [by vm_compute|]. eexists. split; by vm_compute. Qed.

(** A number whose first byte is 0x77, at the start of the values of a class
    with a [writeObject] method, is taken for block data. *)
Example value_like_block :
  let stream v := java_stream [TObj (mkHead (gs "com.demo.Key") 3 3) [mkField Byte.x49 (gs "id") []] [TPrim (PInt v)] []] [] in
  ParseJavaSerializedArgs (stream (119 * 2 ^ 24)) 0 = Val None
  ∧ ∃ a, ParseJavaSerializedArgs (stream (118 * 2 ^ 24)) 0 = Val (Some a) ∧ args_map a = {[gs "id" := JInt (118 * 2 ^ 24)]}.
Proof. split; [by vm_compute|]. eexists. split; by vm_compute. Qed.

(** A class whose super class is a reference to itself makes the
    deserializer recurse without end: no depth is enough. *)
Theorem cyclic_class_never_ends c rest (Hc : head_ok c) (Hp : plain c)
  (Hlen : len (tag _tcObject ++ enc_class c [] ++ tag _tcReference ++ be_bytes 4 0 ++ rest) ≤ max_alloc) :
  let data := tag _tcObject ++ enc_class c [] ++ tag _tcReference ++ be_bytes 4 0 ++ rest in
  (∀ chain fuel, content data chain fuel (start 0) = JOverflow) ∧ ParseJavaSerializedArgs data 0 = NoFuel.
Proof.
  set (data := tag _tcObject ++ _) in *. cbv zeta.
  assert (∀ chain fuel, content data chain fuel (start 0) = JOverflow) as Hall by (by apply (cyclic_content data Hlen c rest)).
  split; [done|].
  assert (∃ rest', data = be_bytes 2 29554 ++ rest') as (rest' & Hd) by by eexists.
  assert (stream_header data 0 = Ret false) as Hsh.
  { unfold stream_header. destruct (Z.leb_spec (0 + 4) (len data)); [|done]. rewrite Hd at 1. rewrite be_at_head by done.
    cbn [mbind go_bind]. destruct (returns_be_at 2 data (0 + 2)) as (v & -> & _); [lia..|]. done. }
  assert (0 < len data) as Hpos by (rewrite Hd; len_lia).
  unfold ParseJavaSerializedArgs. destruct (Z.ltb_spec 0 0), (Z.leb_spec (len data) 0); try lia. cbn [orb].
  rewrite Hsh. cbn [of_go mbind comp_bind].
  assert (index data 0 = Ret (to_byte _tcObject)) as Hi by reflexivity.
  rewrite Hi. cbn [of_go mbind comp_bind]. unfold beq. rewrite bz_to_byte_small, Z.eqb_refl by done.
  rewrite sub_Ret by lia. rewrite Z.sub_0_r, zdrop_nonpos, ztake_ge by lia. cbn [of_go mbind comp_bind].
  unfold deserializeJavaArgs. destruct (Z.ltb_spec (len data) 1); [lia|]. rewrite Hsh. cbn [of_go mbind comp_bind args_loop start pos].
  destruct (Z.leb_spec (len data) 0); [lia|]. rewrite Hi. cbn [of_go mbind comp_bind].
  unfold beq. rewrite bz_to_byte_small by done. cbn [Z.eqb _tcObject _tcEndBlockData _tcReset Pos.eqb].
  unfold readContent. by rewrite Hall.
Qed.
Lemma cyclic_class_never_ends_witness :
  let data := tag _tcObject ++ enc_class (mkHead (gs "A") 1 2) [] ++ tag _tcReference ++ be_bytes 4 0 ++ [] in
  (∀ chain fuel, content data chain fuel (start 0) = JOverflow) ∧ ParseJavaSerializedArgs data 0 = NoFuel.
Proof. apply (cyclic_class_never_ends (mkHead (gs "A") 1 2) []); by vm_compute. Defined.

(** The entries of a [java.util.HashMap] as Java writes it stand inside the
    annotation of the object, behind the block data with its size; the
    deserializer takes the annotation for block data only, so the attachments
    of a call that has any cannot be read. *)
Theorem real_hashmap_unreadable `{JavaRuntime} pre uid threshold buckets size rest (Hth : is_int32 threshold)
  (Hlen : len (pre ++ tag _tcObject ++ hashmap_class uid ++ hashmap_data threshold buckets size ++ rest) ≤ max_alloc) :
  ParseJavaSerializedAttachments
    (pre ++ tag _tcObject ++ hashmap_class uid ++ hashmap_data threshold buckets size ++ rest) (len pre + 1) = Val None.
Proof.
  set (body := pre ++ _) in *. pose proof (len_nonneg pre).
  assert (∃ s, body = (pre ++ tag _tcObject) ++ tag _tcClassDesc ++ be_bytes 2 17 ++ gs "java.util.HashMap" ++ s) as (s & Hb).
  { eexists. unfold body, hashmap_class, enc_class, class_tail, enc_utf. rewrite <-!app_assoc. reflexivity. }
  assert (findClassDesc body (len pre + 1) (gs "java.util.HashMap") = Ret (len pre + 1)) as Hfind.
  { unfold findClassDesc. cbn [class_scan]. change (len (gs "java.util.HashMap")) with 17.
    assert (len body = len pre + 21 + len s) as Hl.
    { rewrite Hb, !len_app, len_be_bytes. change (len (tag _)) with 1. change (len (gs _)) with 17. lia. }
    pose proof (len_nonneg s). destruct (Z.leb_spec (len pre + 1 + 3 + 17) (len body)); [|lia].
    assert (len (pre ++ tag _tcObject) = len pre + 1) as Hp by by rewrite len_app.
    rewrite Hb, <-Hp, <-(Z.add_0_r (len (pre ++ _))) at 1. rewrite index_app_r by lia.
    cbn [tag app index mbind go_bind]. change (index (to_byte _ :: _) 0) with (Ret (to_byte _tcClassDesc)). cbn [mbind go_bind].
    unfold beq. rewrite bz_to_byte_small by done. cbn [Z.eqb _tcClassDesc Pos.eqb negb].
    rewrite Hb, app_assoc, (be_at_mid 2) by (rewrite ?len_app; done). cbn [mbind go_bind]. cbn [Z.eqb Z.modulo].
    change (17 mod 256 ^ Z.of_nat 2 =? 17) with true. cbn [negb].
    rewrite (app_assoc _ (be_bytes 2 17)), sub_mid; [done|rewrite !len_app, len_be_bytes; change (len (tag _)) with 1; lia|].
    rewrite !len_app, len_be_bytes. change (len (tag _)) with 1. change (len (gs _)) with 17. lia. }
  unfold ParseJavaSerializedAttachments. rewrite Hfind. cbn [of_go mbind comp_bind].
  destruct (Z.ltb_spec (len pre + 1) 0), (Z.ltb_spec (len pre + 1) 1); try lia.
  assert (index body (len pre + 1 - 1) = Ret (to_byte _tcObject)) as Hi.
  { replace (len pre + 1 - 1) with (len pre + 0) by lia. unfold body. by rewrite index_app_r by lia. }
  rewrite Hi. cbn [of_go mbind comp_bind].
  unfold beq. rewrite bz_to_byte_small by done. cbn [Z.eqb _tcObject Pos.eqb negb].
  destruct (hashmap_fails body Hlen (chain_fuel body) (readContent body) uid threshold buckets size (start (len pre + 1))
    ltac:(unfold chain_fuel; lia) Hth rest) as (d & ->); [|done].
  exists (pre ++ tag _tcObject). split; [by rewrite <-!app_assoc|]. by rewrite len_app.
Qed.
(** A run-time library to try examples with. *)
Definition some_runtime : JavaRuntime := {| FormatG := Itoa; pointer_text := λ id, Itoa (Z.of_nat id) |}.
Lemma real_hashmap_unreadable_witness :
  @ParseJavaSerializedAttachments some_runtime
    (gs "x" ++ tag _tcObject ++ hashmap_class 1 ++ hashmap_data 12 16 1 ++ gs "...") (len (gs "x") + 1) = Val None.
Proof. apply (real_hashmap_unreadable (gs "x") 1 12 16 1 (gs "...")); by vm_compute. Defined.

(** The bounds check of a long string adds in 64 bits: a length close to
    2^63 passes it and the slice panics. *)
Theorem long_string_panics n rest (Hn : 2 ^ 63 - 9 ≤ n < 2 ^ 63) (Hlen : len rest < 2 ^ 40) :
  readContent (tag _tcLongString ++ be_bytes 8 n ++ rest) (start 0) = JPanic.
Proof.
  set (data := tag _tcLongString ++ _). assert (len data = 9 + len rest) as Hl by (unfold data; rewrite !len_app, len_be_bytes; change (len (tag _)) with 1; lia).
  pose proof (len_nonneg rest). assert (len data ≤ max_alloc) as Hmax by (unfold max_alloc; lia).
  assert (here data (start 0) (tag _tcLongString ++ be_bytes 8 n ++ rest)) as Hh by by exists [].
  pose proof (here_byte data Hmax (start 0) _ _ Hh) as [He Hc].
  destruct (run_expect data Hmax _tcLongString (start 0) ltac:(done) _ Hh) as (a & d1 & Hx & Hh1 & _).
  destruct (run_be_read data Hmax 8 8 n d1 eq_refl _ Hh1) as (m & d2 & Hx2 & Hh2 & -> & _).
  unfold readContent. cbn [content]. unfold read_content, mbind, jm_bind at 1. rewrite He. unfold jm_bind at 1.
  rewrite Hc, bz_to_byte_small by done. cbn [Z.eqb _tcLongString _tcObject _tcNull _tcReference _tcString Pos.eqb].
  unfold readLongString, mbind, jm_bind. rewrite Hx, Hx2. apply (here_len data Hmax) in Hh2 as [Hp _].
  change (256 ^ Z.of_nat 8) with (2 ^ 64). rewrite (Z.mod_small n) by lia.
  assert (int64 n = n) as -> by (apply (sint_small 64); lia). unfold text_read.
  assert (int64 (pos d2 + n) = pos d2 + n - 2 ^ 64) as ->.
  { unfold int64, sint. replace (pos d2 + n + 2 ^ (64 - 1)) with (pos d2 + n - 2 ^ (64 - 1) + 1 * 2 ^ 64) by lia.
    rewrite Z.mod_add, Z.mod_small by lia. lia. }
  destruct (Z.ltb_spec n 0), (Z.ltb_spec (len data) (pos d2 + n - 2 ^ 64)); try lia. cbn [orb].
  by rewrite sub_Panic by lia.
Qed.
Lemma long_string_panics_witness : readContent (tag _tcLongString ++ be_bytes 8 (2 ^ 63 - 1) ++ []) (start 0) = JPanic.
Proof. apply (long_string_panics (2 ^ 63 - 1) []); by vm_compute. Defined.

Lemma java_total_witness :
  let body := gs "head" ++ java_stream [demo_account] [] in
  comp_ok body (ParseJavaSerializedArgs body 4) ∧ comp_ok body (@ParseJavaSerializedAttachments some_runtime body 4).
Proof. apply (@java_total some_runtime); by vm_compute. Defined.
Lemma java_fuel_exact_witness : content (gs "pqr") 100 20 (start 0) = readContent (gs "pqr") (start 0).
Proof.
  apply (java_fuel_exact (gs "pqr")); [by vm_compute|apply wf_start; by vm_compute|..].
  - apply Nat.leb_le. by vm_compute.
  - apply Nat.ltb_lt. by vm_compute.
Defined.
