(* ===== verification/Triple.v ===== *)
(** * Triple (src/dubboport/triple_protocol.go and printer.go)

    HTTP/2 frame headers, gRPC messages, and the search for HEADERS frames in
    what the reader returns. *)

From S2P Require Import Prelude GoBytes Window GoStrings Unicode Reader.

Definition HTTP2FrameHeaderSize : Z := 9.
Definition HTTP2FrameData : Z := 0.
Definition HTTP2FrameHeaders : Z := 1.
Definition HTTP2FramePriority : Z := 2.
Definition HTTP2FrameRSTStream : Z := 3.
Definition HTTP2FrameSettings : Z := 4.
Definition HTTP2FramePushPromise : Z := 5.
Definition HTTP2FramePing : Z := 6.
Definition HTTP2FrameGoaway : Z := 7.
Definition HTTP2FrameWindow : Z := 8.
Definition HTTP2FrameContinuation : Z := 9.

Definition HTTP2Preface : list byte := gs "PRI * HTTP/2.0" ++ crlf ++ crlf ++ gs "SM" ++ crlf ++ crlf.

Record HTTP2FrameHeader := mkFrameHeader { fh_Length : Z; fh_Type : byte; fh_Flags : byte; StreamID : Z }.

(** [uint32(a)<<16 | uint32(b)<<8 | uint32(c)] *)
Definition be24 (a b c : byte) : Z := Z.lor (Z.lor (Z.shiftl (bz a) 16) (Z.shiftl (bz b) 8)) (bz c).

(** [None] is an error. *)
Definition ParseHTTP2FrameHeader (data : list byte) : go (option HTTP2FrameHeader) :=
  if len data <? HTTP2FrameHeaderSize then Ret None
  else
    a ← index data 0; b ← index data 1; c ← index data 2;
    t ← index data 3; f ← index data 4; id ← be_at 4 data 5;
    Ret (Some (mkFrameHeader (be24 a b c) t f (Z.land id 2147483647))).

Record GRPCMessageFrame := mkGRPC { Compressed : bool; g_Length : Z; Data : list byte }.
Record TripleMessage := mkTriple {
  ServiceName : list byte; MethodName : list byte; ContentType : list byte; t_IsRequest : bool;
  Headers : gmap (list byte) (list byte); Messages : list GRPCMessageFrame }.

Definition IsTriplePreface (data : list byte) : go bool :=
  if len HTTP2Preface <=? len data then p ← sub data 0 (len HTTP2Preface); Ret (str_eqb p HTTP2Preface) else Ret false.
Definition DetectTriple (data : list byte) : go bool :=
  if len data <? 24 then Ret false else IsTriplePreface data.

Definition FrameTypeString (ft : byte) : list byte :=
  if beq ft HTTP2FrameData then gs "DATA"
  else if beq ft HTTP2FrameHeaders then gs "HEADERS"
  else if beq ft HTTP2FramePriority then gs "PRIORITY"
  else if beq ft HTTP2FrameRSTStream then gs "RST_STREAM"
  else if beq ft HTTP2FrameSettings then gs "SETTINGS"
  else if beq ft HTTP2FramePushPromise then gs "PUSH_PROMISE"
  else if beq ft HTTP2FramePing then gs "PING"
  else if beq ft HTTP2FrameGoaway then gs "GOAWAY"
  else if beq ft HTTP2FrameWindow then gs "WINDOW_UPDATE"
  else if beq ft HTTP2FrameContinuation then gs "CONTINUATION"
  else gs "UNKNOWN(0x" ++ fmt_x (bz ft) ++ gs ")".

(** The end of the slice, [5+length], is a [uint32]. *)
Definition ParseGRPCMessage (data : list byte) : go (option GRPCMessageFrame) :=
  if len data <? 5 then Ret None
  else
    c ← index data 0; length ← be_at 4 data 1;
    if len data <? 5 + length then Ret None
    else d ← sub data 5 (uint32 (5 + length)); Ret (Some (mkGRPC (beq c 1) length d)).

Definition ParseTriplePath (path : list byte) : go (list byte * list byte) :=
  let path := TrimPrefix path (gs "/") in
  let idx := LastIndex path (gs "/") in
  if idx <? 0 then Ret (path, [])
  else service ← sub path 0 idx; method ← sub path (idx + 1) (len path); Ret (service, method).

Section headers.
Context `{UnicodeTables}.

(** The slice behind the name is taken and not used. *)
Definition findHeaderValue (data name : list byte) (headers : gmap (list byte) (list byte)) : go (gmap (list byte) (list byte)) :=
  let idx := Index (ToLower data) (ToLower name) in
  if idx <? 0 then Ret headers
  else _ ← sub data (idx + len name) (len data); Ret (<[name := gs "(parsed)"]> headers).

Fixpoint find_headers (data : list byte) (names : list (list byte)) (headers : gmap (list byte) (list byte)) : go (gmap (list byte) (list byte)) :=
  match names with
  | [] => Ret headers
  | name :: names => h ← findHeaderValue data name headers; find_headers data names h
  end.

Definition parseTripleHeaders (data : list byte) : go TripleMessage :=
  '(headers, service, method) ←
    (if Contains data (gs ":path") then
       headers ← find_headers data [gs ":path"; gs ":method"; gs ":scheme"; gs ":authority"; gs "content-type"; gs "grpc-encoding"] ∅;
       match headers !! gs ":path" with
       | Some path => '(s, m) ← ParseTriplePath path; Ret (headers, s, m)
       | None => Ret (headers, [], [])
       end
     else Ret (∅, [], []));
  Ret (mkTriple service method (default [] (headers !! gs "content-type")) false headers []).

Definition set_request (m : TripleMessage) : TripleMessage :=
  mkTriple (ServiceName m) (MethodName m) (ContentType m) true (Headers m) (Messages m).

(** The scan of one buffer; [i] grows in every round. *)
Fixpoint scan_frames (fuel : nat) (data : list byte) (i : Z) (messages : list TripleMessage) : comp (list TripleMessage) :=
  match fuel with
  | O => NoFuel
  | S fuel =>
      if i <=? len data - HTTP2FrameHeaderSize then
        a ← of_go (index data i); b ← of_go (index data (i + 1)); t ← of_go (index data (i + 3));
        if beq a 0 && beq b 0 && beq t HTTP2FrameHeaders then
          c ← of_go (index data (i + 2));
          let frameLen := be24 a b c in
          if i + HTTP2FrameHeaderSize + frameLen <=? len data then
            hdr ← of_go (sub data (i + HTTP2FrameHeaderSize) (i + HTTP2FrameHeaderSize + frameLen));
            msg ← of_go (parseTripleHeaders hdr);
            let messages := if negb (str_eqb (ServiceName msg) []) || negb (str_eqb (MethodName msg) [])
                            then messages ++ [set_request msg] else messages in
            scan_frames fuel data (i + HTTP2FrameHeaderSize + frameLen - 1 + 1) messages
          else scan_frames fuel data (i + 1) messages
        else scan_frames fuel data (i + 1) messages
      else Val messages
  end.
Definition scan_buffer (data : list byte) (messages : list TripleMessage) : comp (list TripleMessage) :=
  scan_frames (S (length data)) data 0 messages.

(** [ReadTripleMessages] over a reader; [fuel] bounds the number of its
    reads, and [Blocked] is also a loop that has used it up. *)
Fixpoint ReadTripleMessages {R} `{io_Reader R} (fuel : nat) (r : R) (messages : list TripleMessage) (totalBytes : Z)
  : sched (list TripleMessage * Z * option error * R) :=
  match fuel with
  | O => Blocked
  | S fuel =>
      '(b, err, r) ← rd_Read r 65536;
      messages ← (match b with
                  | [] => Done messages
                  | _ => match scan_buffer b messages with Val m => Done m | Crashed => Crash | NoFuel => Blocked end
                  end);
      let totalBytes := totalBytes + len b in
      match err with
      | None => ReadTripleMessages fuel r messages totalBytes
      | Some EOF => Done (messages, totalBytes, None, r)
      | Some e => Done (messages, totalBytes, Some e, r)
      end
  end.
End headers.

(** ** printer.go *)

Fixpoint fmt_messages (i : Z) (l : list GRPCMessageFrame) : list byte :=
  match l with
  | [] => []
  | m :: l =>
      gs "  Message[" ++ Itoa i ++ gs "]: " ++ Itoa (g_Length m) ++ gs " bytes"
      ++ (if Compressed m then gs " (compressed)" else []) ++ [newline] ++ fmt_messages (i + 1) l
  end.
Definition FormatTriple (msg : TripleMessage) : list byte :=
  gs "Triple Request" ++ [newline]
  ++ gs "  Service: " ++ ServiceName msg ++ [newline]
  ++ gs "  Method: " ++ MethodName msg ++ [newline]
  ++ (if negb (str_eqb (ContentType msg) []) then gs "  Content-Type: " ++ ContentType msg ++ [newline] else [])
  ++ fmt_messages 0 (Messages msg).
Definition FormatTripleURL (msg : TripleMessage) : list byte := ServiceName msg ++ gs "/" ++ MethodName msg ++ [newline].

(** ** Frames, messages and paths *)

Definition enc_frame_header (h : HTTP2FrameHeader) (reserved : bool) : list byte :=
  be_bytes 3 (fh_Length h) ++ [fh_Type h; fh_Flags h] ++ be_bytes 4 (StreamID h + if reserved then 2 ^ 31 else 0).
Definition frame_header_ok (h : HTTP2FrameHeader) : Prop := 0 ≤ fh_Length h < 2 ^ 24 ∧ 0 ≤ StreamID h < 2 ^ 31.
Definition enc_grpc (flag : byte) (payload : list byte) : list byte := [flag] ++ be_bytes 4 (len payload) ++ payload.
Definition enc_path (service method : list byte) : list byte := gs "/" ++ service ++ gs "/" ++ method.

Lemma be24_val a b c : be24 a b c = be_val [a; b; c].
Proof.
  unfold be24. rewrite Z.lor_comm, (Z.lor_comm (Z.shiftl (bz a) 16)), Z.lor_assoc. exact (le24_val c b a).
Qed.
Lemma be_bytes3 v : ∃ a b c, be_bytes 3 v = [a; b; c].
Proof. by eexists _, _, _. Qed.

Lemma parse_frame_header h r rest : frame_header_ok h → ParseHTTP2FrameHeader (enc_frame_header h r ++ rest) = Ret (Some h).
Proof.
  intros [Hl Hid]. unfold ParseHTTP2FrameHeader, enc_frame_header.
  destruct (be_bytes3 (fh_Length h)) as (a & b & c & Habc). pose proof (len_nonneg rest).
  rewrite Habc. cbn [app]. len_simpl. change (HTTP2FrameHeaderSize) with 9.
  destruct (Z.ltb_spec (1 + (1 + (1 + (1 + (1 + (Z.of_nat 4 + len rest)))))) 9); [lia|].
  match goal with |- context [index ?l 0] => change (index l 0) with (Ret a); change (index l 1) with (Ret b);
    change (index l 2) with (Ret c); change (index l 3) with (Ret (fh_Type h)); change (index l 4) with (Ret (fh_Flags h)) end.
  cbn [mbind go_bind].
  change (be_at 4 (a :: b :: c :: fh_Type h :: fh_Flags h :: ?s) 5) with (be_at 4 ([a; b; c; fh_Type h; fh_Flags h] ++ s) 5).
  rewrite (be_at_mid 4) by done. cbn [mbind go_bind]. rewrite be24_val, <-Habc, be_val_bytes_small by lia.
  destruct h as [l t f id]. cbn in *. do 4 f_equal. change 2147483647 with (Z.ones 31). rewrite Z.land_ones by lia.
  change (256 ^ Z.of_nat 4) with (2 ^ 31 * 2). rewrite Z.rem_mul_r by lia.
  rewrite (Z.mul_comm (2 ^ 31)), Z.mod_add, Z.mod_mod by lia.
  destruct r; [rewrite <-(Z.mul_1_l (2 ^ 31)) at 1; rewrite Z.mod_add by lia|rewrite Z.add_0_r]; by apply Z.mod_small.
Qed.
Lemma parse_grpc flag payload rest : 5 + len payload < 2 ^ 32 →
  ParseGRPCMessage (enc_grpc flag payload ++ rest) = Ret (Some (mkGRPC (beq flag 1) (len payload) payload)).
Proof.
  intros Hp. unfold ParseGRPCMessage, enc_grpc. rewrite <-!app_assoc. pose proof (len_nonneg payload). pose proof (len_nonneg rest).
  rewrite !len_app, len_be_bytes. change (len [flag]) with 1.
  destruct (Z.ltb_spec (1 + (Z.of_nat 4 + (len payload + len rest))) 5); [lia|].
  change (index ([flag] ++ ?s) 0) with (Ret flag). cbn [mbind go_bind].
  rewrite (be_at_mid 4) by done. cbn [mbind go_bind]. rewrite Z.mod_small by (change (256 ^ Z.of_nat 4) with (2 ^ 32); lia).
  destruct (Z.ltb_spec (1 + (Z.of_nat 4 + (len payload + len rest))) (5 + len payload)); [lia|].
  unfold uint32. rewrite uint_small by lia. rewrite app_assoc, sub_mid by (rewrite ?len_app, ?len_be_bytes; change (len [flag]) with 1; lia). done.
Qed.
Lemma parse_path service method : Byte.x2f ∉ method → ParseTriplePath (enc_path service method) = Ret (service, method).
Proof.
  intros Hm. unfold ParseTriplePath, enc_path. unfold TrimPrefix. rewrite HasPrefix_app. rewrite zdrop_app_eq by done.
  change (gs "/") with [Byte.x2f]. cbn [app]. rewrite LastIndex_last by done. pose proof (len_nonneg service). pose proof (len_nonneg method).
  destruct (Z.ltb_spec (len service) 0); [lia|].
  pose proof (sub_mid [] service (Byte.x2f :: method) 0 (len service)) as Hs. cbn [app] in Hs. rewrite Hs by (len_simpl; lia). cbn [mbind go_bind].
  pose proof (sub_mid (service ++ [Byte.x2f]) method [] (len service + 1) (len (service ++ Byte.x2f :: method))) as Hm'.
  rewrite app_nil_r, <-app_assoc in Hm'. cbn [app] in Hm'. rewrite Hm' by (len_simpl; lia). done.
Qed.

(** Frame headers, whatever their reserved bit, gRPC messages and the paths
    of calls are read back from their encodings; only a message so long that
    its end does not fit in 32 bits is excepted. *)
Theorem triple_framing_roundtrip h reserved flag payload service method rest (Hh : frame_header_ok h)
  (Hp : 5 + len payload < 2 ^ 32) (Hm : Byte.x2f ∉ method) :
  ParseHTTP2FrameHeader (enc_frame_header h reserved ++ rest) = Ret (Some h)
  ∧ ParseGRPCMessage (enc_grpc flag payload ++ rest) = Ret (Some (mkGRPC (beq flag 1) (len payload) payload))
  ∧ ParseTriplePath (enc_path service method) = Ret (service, method).
Proof. split_and!; [by apply parse_frame_header|by apply parse_grpc|by apply parse_path]. Qed.
Lemma triple_framing_roundtrip_witness :
  ParseHTTP2FrameHeader (enc_frame_header (mkFrameHeader 300 Byte.x01 Byte.x04 7) true ++ gs "..")
    = Ret (Some (mkFrameHeader 300 Byte.x01 Byte.x04 7))
  ∧ ParseGRPCMessage (enc_grpc Byte.x01 (gs "proto") ++ gs "..") = Ret (Some (mkGRPC true 5 (gs "proto")))
  ∧ ParseTriplePath (enc_path (gs "com.example.Demo") (gs "SayHello")) = Ret (gs "com.example.Demo", gs "SayHello").
Proof.
  apply (triple_framing_roundtrip (mkFrameHeader 300 Byte.x01 Byte.x04 7) true Byte.x01 (gs "proto")); [done|done|].
  rewrite <-(bool_decide_eq_false (Byte.x2f ∈ gs "SayHello")). by vm_compute.
Defined.

(** ** What is found in a stream *)

Section found.
Context `{UnicodeTables}.

Definition parsed : list byte := gs "(parsed)".
Definition all_parsed (headers : gmap (list byte) (list byte)) : Prop := map_Forall (λ _ v, v = parsed) headers.
(** The path of a call is never found, only the placeholder. *)
Definition placeholder (m : TripleMessage) : Prop := ServiceName m = parsed ∧ MethodName m = [].

Lemma len_ToLower s : ascii s = true → len (ToLower s) = len s.
Proof. intros Hs. unfold ToLower. rewrite Hs. by rewrite len_fmap. Qed.
Lemma findHeaderValue_spec data name headers : all_parsed headers → ascii name = true →
  match findHeaderValue data name headers with Ret h => all_parsed h | Panic => ascii data = false end.
Proof.
  intros Hh Hn. unfold findHeaderValue. destruct (Z.ltb_spec (Index (ToLower data) (ToLower name)) 0); [done|].
  destruct (sub data _ _) eqn:E; cbn [mbind go_bind].
  - by apply map_Forall_insert_2.
  - destruct (ascii data) eqn:Ea; [|done].
    destruct (Index_bounds (ToLower data) (ToLower name)) as [|[H1 H2]]; [lia|].
    rewrite !len_ToLower in H2 by done. pose proof (len_nonneg name). rewrite sub_Ret in E by lia. done.
Qed.
Lemma find_headers_spec data names : ∀ headers, all_parsed headers → Forall (λ n, ascii n = true) names →
  match find_headers data names headers with Ret h => all_parsed h | Panic => ascii data = false end.
Proof.
  induction names as [|name names IH]; intros headers Hh Hn; [done|]. inv_eq Hn. cbn [find_headers].
  pose proof (findHeaderValue_spec data name headers Hh ltac:(done)) as Hf.
  destruct (findHeaderValue data name headers); cbn [mbind go_bind]; [by apply IH|done].
Qed.
Lemma parseTripleHeaders_spec data :
  match parseTripleHeaders data with
  | Ret m => placeholder m ∨ ServiceName m = [] ∧ MethodName m = []
  | Panic => ascii data = false
  end.
Proof.
  unfold parseTripleHeaders. destruct (Contains data (gs ":path")); [|by right].
  set (names := [_; _; _; _; _; _]).
  pose proof (find_headers_spec data names ∅ ltac:(apply map_Forall_empty) ltac:(by repeat constructor)) as Hh.
  destruct (find_headers data names ∅) as [headers|]; [|done]. cbn [mbind go_bind].
  destruct (headers !! gs ":path") as [path|] eqn:E; [|by right].
  apply (Hh _ _) in E as ->. left. split; reflexivity.
Qed.

Lemma ascii_sub data a b d : sub data a b = Ret d → ascii d = false → ascii data = false.
Proof.
  intros Hd Ha. apply sub_inv in Hd as (? & ? & ->). unfold ascii in *.
  rewrite <-(ztake_zdrop a data), <-(ztake_zdrop (b - a) (zdrop a data)), !forallb_app, Ha. by rewrite andb_false_l, andb_false_r.
Qed.
Lemma scan_frames_spec data fuel : ∀ i messages, 0 ≤ i → len data - i < Z.of_nat fuel → 0 < Z.of_nat fuel → Forall placeholder messages →
  terminates (ascii data = false) (scan_frames fuel data i messages) (Forall placeholder).
Proof.
  induction fuel as [|fuel IH]; intros i messages Hi Hf H0 Hm; [lia|]. cbn [scan_frames]. unfold HTTP2FrameHeaderSize.
  destruct (Z.leb_spec i (len data - 9)); [|done].
  assert (∀ j messages, i < j → Forall placeholder messages → terminates (ascii data = false) (scan_frames fuel data j messages) (Forall placeholder)) as Hnext.
  { intros j ms Hj Hms. apply IH; (done || lia). }
  eapply terminates_bind; [eapply terminates_go, returns_index; lia|]. intros a _.
  eapply terminates_bind; [eapply terminates_go, returns_index; lia|]. intros b _.
  eapply terminates_bind; [eapply terminates_go, returns_index; lia|]. intros t _.
  destruct (_ && _); [|apply Hnext; (done || lia)].
  eapply terminates_bind; [eapply terminates_go, returns_index; lia|]. intros c _. cbv zeta.
  destruct (Z.leb_spec (i + 9 + be24 a b c) (len data)); [|apply Hnext; (done || lia)].
  assert (0 ≤ be24 a b c) as Hl. { rewrite be24_val. apply be_val_range. }
  destruct (returns_sub data (i + 9) (i + 9 + be24 a b c)) as (hdr & Hhdr & _); [lia..|]. rewrite Hhdr. cbn [of_go mbind comp_bind].
  pose proof (parseTripleHeaders_spec hdr) as Hp. destruct (parseTripleHeaders hdr) as [m|]; cbn [of_go mbind comp_bind].
  - apply Hnext; [lia|]. destruct Hp as [[Hs Hmeth]|[Hs Hmeth]]; rewrite Hs, Hmeth; [|done].
    change (negb (str_eqb parsed [])) with true. cbn [orb]. apply Forall_app. split; [done|]. by constructor.
  - cbn. by eapply ascii_sub.
Qed.
Lemma scan_buffer_spec data messages : Forall placeholder messages →
  terminates (ascii data = false) (scan_buffer data messages) (Forall placeholder).
Proof. intros Hm. apply scan_frames_spec; [lia| |lia|done]. rewrite len_length. lia. Qed.

(** Whatever the sizes of its reads, the reader of Triple comes to the end
    of a finished stream and has counted its bytes; it can panic only where
    the stream is not ASCII, and no service or method is ever found: every
    message has the placeholder in place of its path. *)
Theorem triple_reader_ends {R} `{io_Reader_ok R} (r : R) fuel (Hready : ready r) (Hfuel : (length (pending r) < fuel)%nat) :
  match ReadTripleMessages fuel r [] 0 with
  | Done (messages, total, err, _) => err = None ∧ total = len (pending r) ∧ Forall placeholder messages
  | Blocked => False
  | Crash => ascii (pending r) = false
  end.
Proof.
  assert (∀ fuel r messages n, ready r → (length (pending r) < fuel)%nat → Forall placeholder messages →
    match ReadTripleMessages fuel r messages n with
    | Done (messages, total, err, _) => err = None ∧ total = n + len (pending r) ∧ Forall placeholder messages
    | Blocked => False
    | Crash => ascii (pending r) = false
    end) as Hall; [|by apply (Hall fuel r [] 0)].
  clear. induction fuel as [|fuel IH]; intros r messages n Hr Hf Hm; [lia|]. cbn [ReadTripleMessages].
  destruct (decide (pending r = [])) as [Hp|Hp].
  - destruct (rd_eof r 65536 Hr Hp) as (r' & -> & _). cbn [mbind sched_bind]. rewrite Hp. split_and!; [done| |done]. by rewrite len_nil.
  - destruct (rd_some r 65536 Hr ltac:(lia) Hp) as (b & r' & -> & Hr' & Hpend & _ & Hb). cbn [mbind sched_bind].
    specialize (Hb ltac:(lia)). destruct b as [|x b]; [done|]. rewrite Hpend.
    assert (∀ s t, ascii (s ++ t) = ascii s && ascii t) as Happ by (intros; apply forallb_app).
    pose proof (scan_buffer_spec (x :: b) messages Hm) as Hs. destruct (scan_buffer (x :: b) messages) as [ms| |]; unfold terminates in Hs; cbn [mbind sched_bind]; [|by rewrite Happ, Hs|done].
    specialize (IH r' ms (n + len (x :: b)) Hr'). rewrite Hpend in Hf. rewrite length_app in Hf. cbn [length] in Hf.
    specialize (IH ltac:(lia) Hs). destruct (ReadTripleMessages _ _ _ _) as [[[[? ?] ?] ?]| |]; [|done|].
    + destruct IH as (? & ? & ?). split_and!; [done| |done]. rewrite len_app. lia.
    + by rewrite Happ, IH, andb_false_r.
Qed.
End found.

(** A reader of a text, as [strings.NewReader]. *)
#[export] Instance text_Reader : io_Reader (list byte) :=
  {| rd_Read s n := if decide (s = []) then Done ([], Some EOF, s) else Done (ztake n s, None, zdrop n s) |}.
#[export] Program Instance text_Reader_ok : io_Reader_ok (list byte) := {| ready _ := True; pending s := s |}.
Next Obligation. intros s n _ ->. exists []. done. Qed.
Next Obligation.
  intros s n _ Hn Hs. cbn. rewrite decide_False by done. eexists _, _. split_and!; [done|done|by rewrite ztake_zdrop|len_lia|].
  intros Hpos Hz. apply (f_equal len) in Hz. rewrite len_ztake in Hz. change (len (@nil byte)) with 0 in Hz.
  apply Hs, len_0_nil. pose proof (len_nonneg s). lia.
Qed.

Definition demo_frame : list byte := [Byte.x00; Byte.x00; Byte.x13; Byte.x01; Byte.x04; Byte.x00; Byte.x00; Byte.x00; Byte.x01] ++ gs ":path /com.Demo/get".
Lemma triple_reader_ends_witness :
  match @ReadTripleMessages no_tables (list byte) _ 40 demo_frame [] 0 with
  | Done (messages, total, err, _) => err = None ∧ total = len demo_frame ∧ Forall placeholder messages
  | Blocked => False
  | Crash => ascii demo_frame = false
  end ∧ ∃ m, @ReadTripleMessages no_tables (list byte) _ 40 demo_frame [] 0 = Done ([m], 28, None, []).
Proof.
  split; [|eexists; by vm_compute].
  assert (length (pending demo_frame) < 40)%nat as Hlen by (apply Nat.ltb_lt; by vm_compute).
  exact (@triple_reader_ends no_tables (list byte) _ _ demo_frame 40 I Hlen).
Defined.

(** ** Bytes of HPACK *)

Lemma decode_ff s : decode_rune (Byte.xff :: s) = (RuneError, 1).
Proof. done. Qed.
Lemma runes_of_ff k s : ∀ fuel, (k ≤ fuel)%nat → runes_of fuel (replicate k Byte.xff ++ s) = replicate k RuneError ++ runes_of (fuel - k) s.
Proof.
  induction k as [|k IH]; intros fuel Hk; [by rewrite Nat.sub_0_r|]. destruct fuel as [|fuel]; [lia|].
  cbn [replicate app runes_of]. rewrite decode_ff. change (zdrop 1 (Byte.xff :: ?s)) with s. rewrite IH by lia. done.
Qed.
Lemma runes_of_ascii s : ∀ fuel, ascii s = true → (length s ≤ fuel)%nat → runes_of fuel s = map bz s.
Proof.
  induction s as [|b s IH]; intros fuel Hs Hf; [by destruct fuel|]. destruct fuel as [|fuel]; [cbn in Hf; lia|].
  unfold ascii in Hs. cbn [forallb] in Hs. apply andb_true_iff in Hs as [Hb Hs]. zbool.
  cbn [runes_of map]. rewrite decode_ascii by done. change (zdrop 1 (b :: s)) with s. f_equal. apply IH; [done|]. cbn in Hf. lia.
Qed.
Lemma lower_rune_byte `{UnicodeTables} b : bz b < 128 → encode_rune (rune_lower (bz b)) = [lower_byte b].
Proof. intros Hb. destruct b; first [reflexivity|exfalso; vm_compute in Hb; discriminate]. Qed.
(** An invalid byte becomes the three bytes of U+FFFD. *)
Lemma ToLower_ff `{UnicodeTables} k s : rune_lower RuneError = RuneError → ascii s = true → (0 < k)%nat →
  ToLower (replicate k Byte.xff ++ s) = concat (replicate k (encode_rune RuneError)) ++ (lower_byte <$> s).
Proof.
  intros Ht Hs Hk. unfold ToLower. assert (ascii (replicate k Byte.xff ++ s) = false) as ->.
  { destruct k; [lia|]. done. }
  unfold runes. rewrite runes_of_ff by (rewrite length_app, length_replicate; lia).
  rewrite runes_of_ascii by (done || (rewrite length_app, length_replicate; lia)). rewrite map_app, concat_app. f_equal.
  - clear Hk. induction k as [|k IH]; [done|]. cbn [replicate map concat]. by rewrite Ht, IH.
  - unfold ascii in Hs. induction s as [|b s IH]; [done|]. cbn [forallb] in Hs. apply andb_true_iff in Hs as [Hb Hs]. zbool.
    cbn [map concat fmap list_fmap]. rewrite lower_rune_byte by done. cbn [app]. f_equal. by apply IH.
Qed.

(** A text is searched in lower case, where every byte that is not UTF-8
    takes three bytes, but the place found is used in the text itself: with
    enough such bytes before [:path], as the binary headers of HTTP/2 have
    them, the slice panics. *)
Theorem binary_headers_panic `{UnicodeTables} k tail (Hfffd : rune_lower RuneError = RuneError) (Ht : ascii tail = true)
  (Hk : len tail < 2 * Z.of_nat k) :
  parseTripleHeaders (replicate k Byte.xff ++ gs ":path" ++ tail) = Panic.
Proof.
  pose proof (len_nonneg tail).
  assert (∀ l t, Byte.x3a ∉ l → Index (l ++ gs ":path" ++ t) (gs ":path") = len l) as Hidx.
  { induction l as [|b l IH]; intros t Hl.
    - cbn [app]. destruct t; done.
    - apply not_elem_of_cons in Hl as [Hb Hl]. cbn [app Index]. specialize (IH t Hl). cbn [app] in IH.
      change (HasPrefix (b :: l ++ gs ":path" ++ t) (gs ":path")) with (Byte.eqb b Byte.x3a && HasPrefix (l ++ gs ":path" ++ t) (gs "path")).
      rewrite byte_eqb_neq by done. cbn [andb]. cbv zeta. rewrite IH. pose proof (len_nonneg l).
      destruct (Z.ltb_spec (len l) 0); [lia|]. rewrite len_cons. lia. }
  unfold parseTripleHeaders, Contains. rewrite Hidx; [|intros Hin%elem_of_replicate; naive_solver].
  pose proof (len_nonneg (replicate k Byte.xff)). destruct (Z.leb_spec 0 (len (replicate k Byte.xff))); [|lia].
  cbn [find_headers].
  assert (findHeaderValue (replicate k Byte.xff ++ gs ":path" ++ tail) (gs ":path") ∅ = Panic) as ->; [|done].
  unfold findHeaderValue.
  rewrite ToLower_ff by (done || lia || (unfold ascii in *; rewrite forallb_app, Ht; done)).
  rewrite fmap_app. change (lower_byte <$> gs ":path") with (gs ":path"). change (ToLower (gs ":path")) with (gs ":path").
  rewrite Hidx.
  2: { intros Hin. rewrite list_elem_of_In, in_concat in Hin. destruct Hin as (x & Hx & Hin).
       rewrite <-list_elem_of_In in Hx. apply elem_of_replicate in Hx as [-> _]. rewrite <-list_elem_of_In in Hin.
       change (encode_rune RuneError) with [Byte.xef; Byte.xbf; Byte.xbd] in Hin. set_solver. }
  assert (len (concat (replicate k (encode_rune RuneError))) = 3 * Z.of_nat k) as ->.
  { clear. induction k as [|k IH]; [done|]. cbn [replicate concat]. rewrite len_app, IH. change (len (encode_rune RuneError)) with 3. lia. }
  destruct (Z.ltb_spec (3 * Z.of_nat k) 0); [lia|].
  rewrite sub_Panic; [done|]. rewrite !len_app, len_replicate. change (len (gs ":path")) with 5. lia.
Qed.
Lemma binary_headers_panic_witness : @parseTripleHeaders no_tables (replicate 2 Byte.xff ++ gs ":path" ++ gs "/x") = Panic.
Proof. by apply (@binary_headers_panic no_tables 2 (gs "/x")). Defined.
