(* ===== verification/Nacos.v ===== *)
(** * Nacos (src/nacosport)

    The detector, the reader of its HTTP messages and of the preface of its
    gRPC connections, and the printer. *)

From S2P Require Import Prelude GoBytes GoStrings Unicode Window Reader Http Json.

Record NacosMessage := mkNacos {
  n_Method : list byte; n_Path : list byte; APIType : list byte; Params : gmap (list byte) (list byte);
  Body : list byte; n_StatusCode : Z; IsJSON : bool; n_Summary : list byte; n_Direction : list byte }.

Definition classifyNacosPath (p : list byte) : list byte :=
  if Contains p (gs "/instance/beat") then gs "heartbeat"
  else if Contains p (gs "/instance/list") then gs "discovery"
  else if Contains p (gs "/instance") then gs "service"
  else if Contains p (gs "/cs/configs") then gs "config"
  else if Contains p (gs "/service/list") then gs "service_list"
  else if Contains p (gs "/auth/login") then gs "auth"
  else if Contains p (gs "/nacos/v2/") then gs "nacos2"
  else gs "nacos".

(** [strings.IndexAny(s, chars)] for ASCII characters. *)
Fixpoint IndexAny (s chars : list byte) : Z :=
  match s with
  | [] => -1
  | b :: s => if bool_decide (b ∈ chars) then 0
              else let i := IndexAny s chars in if i <? 0 then -1 else i + 1
  end.

(** The methods are no prefixes of each other with the space behind them, so
    the order of the map does not matter. *)
Definition detect_path (s method : list byte) : bool :=
  let rest := zdrop (len (method ++ gs " ")) s in
  let pathEnd := IndexAny rest (gs " " ++ crlf) in
  let path := if 0 <? pathEnd then ztake pathEnd rest else rest in
  Contains path (gs "/nacos/").
Definition DetectNacos (data : list byte) : bool :=
  if len data <? 8 then false
  else if HasPrefix data (gs "PRI * HTTP/2.0") then true
  else match List.find (λ m, HasPrefix data (m ++ gs " ")) httpMethods with
       | Some method => detect_path data method
       | None => false
       end.

(** ** Parameters *)

(** [url.QueryUnescape]; an error gives the empty string. *)
Fixpoint unescape_loop (fuel : nat) (s : list byte) : option (list byte) :=
  match fuel, s with
  | S fuel, b :: s' =>
      if beq b 37 then
        match s' with
        | h :: l :: s' =>
            h ← hex_value h; l ← hex_value l; t ← unescape_loop fuel s'; Some (to_byte (16 * h + l) :: t)
        | _ => None
        end
      else t ← unescape_loop fuel s'; Some ((if beq b 43 then Byte.x20 else b) :: t)
  | _, [] => Some []
  | O, _ => None
  end.
Definition QueryUnescape (s : list byte) : list byte := default [] (unescape_loop (length s) s).

Fixpoint parse_pairs (params : gmap (list byte) (list byte)) (pairs : list (list byte)) : gmap (list byte) (list byte) :=
  match pairs with
  | [] => params
  | p :: pairs =>
      parse_pairs
        (if str_eqb p [] then params
         else match SplitN2 p (gs "=") with
              | [k; v] => <[k := QueryUnescape v]> params
              | k :: _ => <[k := []]> params
              | [] => params
              end) pairs
  end.
Definition parseQueryParams (params : gmap (list byte) (list byte)) (query : list byte) : gmap (list byte) (list byte) :=
  parse_pairs params (Split query Byte.x26).

Definition buildSummary (m : NacosMessage) : list byte :=
  if str_eqb (n_Method m) (gs "GRPC") then gs "[Nacos 2.x gRPC]"
  else if negb (str_eqb (n_Method m) []) then gs "[Nacos " ++ APIType m ++ gs "] " ++ n_Method m ++ gs " " ++ n_Path m
  else if 0 <? n_StatusCode m then
    gs "[Nacos] HTTP " ++ Itoa (n_StatusCode m) ++ gs " (" ++ (if 400 <=? n_StatusCode m then gs "error" else gs "ok") ++ gs ")"
  else gs "[Nacos]".

Definition readNacosGRPC (direction : list byte) : parser NacosMessage :=
  _ ← read_n 24;
  mret (mkNacos (gs "GRPC") (gs "/nacos/v2/grpc") (gs "nacos2") ∅ [] 0 false
          (gs "[Nacos 2.x gRPC] connection established") direction).

Section reader.
Context `{UnicodeTables}.

(** The request or status line; [None] is an error. *)
Definition nacos_line (direction : list byte) (parts : list (list byte)) : option NacosMessage :=
  match parts with
  | p0 :: p1 :: _ =>
      if bool_decide (p0 ∈ httpMethods) then
        let idx := Index p1 (gs "?") in
        let '(path, params) := if 0 <=? idx then (ztake idx p1, parseQueryParams ∅ (zdrop (idx + 1) p1)) else (p1, ∅) in
        Some (mkNacos p0 path (classifyNacosPath path) params [] 0 false [] direction)
      else if HasPrefix p0 (gs "HTTP/") then Some (mkNacos [] [] [] ∅ [] (default 0 (Sscanf_d p1)) false [] direction)
      else None
  | _ => None
  end.

(** Content-Length and Content-Type. *)
Fixpoint nacos_headers (fuel : nat) (contentLength : Z) (contentType : list byte) : parser (Z * list byte) :=
  match fuel with
  | O => spin
  | S fuel =>
      r ← try read_string;
      match r with
      | inr _ => mret (contentLength, contentType)
      | inl hdrLine =>
          let hdrLine := TrimRight hdrLine crlf in
          if str_eqb hdrLine [] then mret (contentLength, contentType)
          else
            let idx := Index hdrLine (gs ":") in
            if 0 <? idx then
              let key := ToLower (TrimSpace (ztake idx hdrLine)) in
              let val := TrimSpace (zdrop (idx + 1) hdrLine) in
              nacos_headers fuel
                (if str_eqb key (gs "content-length") then Atoi_value val else contentLength)
                (if str_eqb key (gs "content-type") then ToLower val else contentType)
            else nacos_headers fuel contentLength contentType
      end
  end.

Definition set_body (m : NacosMessage) (contentType body : list byte) : NacosMessage :=
  mkNacos (n_Method m) (n_Path m) (APIType m)
    (if Contains contentType (gs "application/x-www-form-urlencoded") then parseQueryParams (Params m) body else Params m)
    body (n_StatusCode m) (Contains contentType (gs "application/json")) (n_Summary m) (n_Direction m).
Definition set_summary (m : NacosMessage) : NacosMessage :=
  mkNacos (n_Method m) (n_Path m) (APIType m) (Params m) (Body m) (n_StatusCode m) (IsJSON m) (buildSummary m) (n_Direction m).

Definition ReadNacosMessage (direction : list byte) : parser NacosMessage := λ s,
  let peek := ztake 24 s in
  (if (14 <=? len peek) && HasPrefix peek (gs "PRI * HTTP/2.0") then readNacosGRPC direction
   else
     line ← read_string;
     let line := TrimRight line crlf in
     if str_eqb line [] then throw EOF
     else
       let parts := SplitN3 line (gs " ") in
       if len parts <? 2 then throw (ErrText (gs "malformed HTTP line: " ++ line))
       else
         match nacos_line direction parts with
         | None => throw (ErrText (gs "not HTTP: " ++ line))
         | Some msg =>
             '(contentLength, contentType) ← (λ s, nacos_headers (S (length s)) 0 [] s);
             if 0 <? contentLength then
               b ← try (read_n contentLength);
               mret (set_summary (match b with inl body => set_body msg contentType body | inr _ => msg end))
             else mret (set_summary msg)
         end) s.
End reader.

(** ** The printer *)

(** The text of [%v] of the number that [strconv.ParseFloat] makes of a JSON
    literal; [None] is a literal out of range. *)
Class JsonNumbers := { ParseFloat_text : list byte → option (list byte) }.

Section format.
Context `{JsonNumbers, MapOrder}.

Definition obj_map {A B} (f : A → B) (m : list (list byte * A)) : gmap (list byte) B :=
  fold_left (λ g kv, <[kv.1 := f kv.2]> g) m ∅.

(** [fmt.Sprintf("%v", v)] of a decoded value; [None] when a number in it is
    out of range. *)
Fixpoint json_text (v : json) : option (list byte) :=
  match v with
  | VNull => Some (gs "<nil>")
  | VBool b => Some (fmt_bool b)
  | VNum x => ParseFloat_text x
  | VStr s => Some s
  | VArr l => ts ← mapM json_text l; Some (gs "[" ++ Join ts (gs " ") ++ gs "]")
  | VObj m =>
      ts ← mapM (λ kv, t ← json_text kv.2; Some (kv.1, t)) m;
      let entries := sorted_entries (obj_map id ts) in
      Some (gs "map[" ++ Join (map (λ kt, kt.1 ++ gs ":" ++ kt.2) entries) (gs " ") ++ gs "]")
  end.

(** The texts of the values; [None] is an error. *)
Definition ParseJSONBody (body : list byte) : option (gmap (list byte) (list byte)) :=
  match parse_json body with
  | Some VNull => Some ∅
  | Some (VObj m) => ts ← mapM (λ kv, t ← json_text kv.2; Some (kv.1, t)) m; Some (obj_map id ts)
  | _ => None
  end.
Definition formatJSONBody (body : list byte) : list byte :=
  match ParseJSONBody body with
  | None => body
  | Some m => Join (map (λ kv, kv.1 ++ gs "=" ++ kv.2) (range_map m)) (gs ", ")
  end.

Definition keyFields : list (list byte) :=
  map gs ["serviceName"; "groupName"; "dataId"; "ip"; "port"; "weight"; "healthy"; "enabled"; "ephemeral";
          "namespaceId"; "clusterName"; "tenant"; "username"]%string.
Definition param_line (k v : list byte) : list byte := gs "  " ++ pad_right 14 (k ++ gs ":") ++ gs " " ++ v ++ [newline].
Definition shorten (n : Z) (body : list byte) : list byte := if n <? len body then ztake n body ++ gs "..." else body.

Definition FormatNacosMessage (m : NacosMessage) : list byte :=
  gs "  " ++ n_Summary m ++ [newline]
  ++ (if str_eqb (n_Method m) (gs "GRPC") then []
      else if negb (str_eqb (n_Method m) []) then
        concat (map (λ k, match Params m !! k with Some v => param_line k v | None => [] end) keyFields)
        ++ concat (map (λ kv, if bool_decide (kv.1 ∈ keyFields) then [] else param_line kv.1 kv.2) (range_map (Params m)))
        ++ (if negb (str_eqb (Body m) []) && bool_decide (Params m = ∅) then
              gs "  Body: " ++ shorten 500 (if IsJSON m then formatJSONBody (Body m) else Body m) ++ [newline]
            else [])
      else
        gs "  Status: " ++ Itoa (n_StatusCode m) ++ gs " " ++ (if 400 <=? n_StatusCode m then gs "ERROR" else gs "OK") ++ [newline]
        ++ (if negb (str_eqb (Body m) []) && negb (str_eqb (Body m) (gs "ok")) then
              gs "  Body: " ++ shorten 300 (if IsJSON m then formatJSONBody (Body m) else Body m) ++ [newline]
            else [])).

Definition FormatNacosURL (m : NacosMessage) : list byte :=
  if str_eqb (n_Method m) (gs "GRPC") then gs "[Nacos 2.x gRPC]" ++ [newline]
  else if negb (str_eqb (n_Method m) []) then
    let keyVals := omap (λ k, v ← Params m !! k; Some (k ++ gs "=" ++ v))
                     (map gs ["serviceName"; "group"; "dataId"; "username"]%string) in
    let extra := match keyVals with [] => [] | _ => gs " (" ++ Join keyVals (gs ", ") ++ gs ")" end in
    gs "[" ++ APIType m ++ gs "] " ++ n_Method m ++ gs " " ++ n_Path m ++ extra ++ [newline]
  else gs "[Nacos] HTTP " ++ Itoa (n_StatusCode m) ++ [newline].
End format.

(** ** Reading messages back *)

(** The ways of writing a value in a query: a byte as it is, except for the
    three that mean something else, a space as a plus sign, any byte by its
    hexadecimal digits. *)
Inductive escaped : list byte → list byte → Prop :=
| escaped_nil : escaped [] []
| escaped_byte b v t : b ∉ [Byte.x25; Byte.x2b; Byte.x26] → escaped v t → escaped (b :: v) (b :: t)
| escaped_space v t : escaped v t → escaped (Byte.x20 :: v) (Byte.x2b :: t)
| escaped_hex b h l v t : hex_value h = Some (bz b / 16) → hex_value l = Some (bz b mod 16) → escaped v t →
    escaped (b :: v) (Byte.x25 :: h :: l :: t).
(** Parameters as they are written. *)
Definition enc_pair (kt : list byte * list byte) : list byte := kt.1 ++ gs "=" ++ kt.2.
Definition enc_query (l : list (list byte * list byte)) : list byte := Join (map enc_pair l) (gs "&").
Definition key_ok (k : list byte) : Prop := Byte.x26 ∉ k ∧ Byte.x3d ∉ k.
(** A parameter that is written and the one that is meant. *)
Definition written (kt kv : list byte * list byte) : Prop := kt.1 = kv.1 ∧ key_ok kt.1 ∧ escaped kv.2 kt.2.
Definition set_all (l : list (list byte * list byte)) (params : gmap (list byte) (list byte)) : gmap (list byte) (list byte) :=
  fold_left (λ g kv, <[kv.1 := kv.2]> g) l params.

Lemma unescape_escaped v t : escaped v t → ∀ fuel, (length t ≤ fuel)%nat → unescape_loop fuel t = Some v.
Proof.
  induction 1 as [|b v t Hb _ IH|v t _ IH|b h l v t Hh Hl _ IH]; intros fuel Hf; [by destruct fuel|..];
    (destruct fuel as [|fuel]; [simpl in Hf; lia|]); cbn [unescape_loop]; simpl in Hf.
  - assert (∀ c, c ∈ [Byte.x25; Byte.x2b; Byte.x26] → bz b ≠ bz c) as Hne by (intros c Hc E; apply Hb; by rewrite (bz_inj b c E)).
    unfold beq. rewrite (proj2 (Z.eqb_neq _ _) (Hne Byte.x25 ltac:(set_solver) : bz b ≠ 37)), IH by lia.
    by rewrite (proj2 (Z.eqb_neq _ _) (Hne Byte.x2b ltac:(set_solver) : bz b ≠ 43)).
  - by rewrite IH by lia.
  - rewrite Hh, Hl. cbn [mbind option_bind]. rewrite IH by lia. cbn [mbind option_bind].
    rewrite <-(Z.div_mod (bz b) 16) by lia. by rewrite to_byte_bz.
Qed.
Lemma QueryUnescape_escaped v t : escaped v t → QueryUnescape t = v.
Proof. intros Ht. unfold QueryUnescape. by rewrite (unescape_escaped v t Ht). Qed.
Lemma hex_no_amp h n : hex_value h = Some n → h ≠ Byte.x26.
Proof. by intros Hh ->. Qed.
Lemma escaped_no_amp v t : escaped v t → Byte.x26 ∉ t.
Proof.
  induction 1 as [|b v t Hb _ IH|v t _ IH|b h l v t Hh%hex_no_amp Hl%hex_no_amp _ IH]; [by apply not_elem_of_nil|..];
    rewrite ?not_elem_of_cons; set_solver.
Qed.
Lemma enc_pair_no_amp kt kv : written kt kv → Byte.x26 ∉ enc_pair kt.
Proof.
  intros (_ & [Hk _] & Ht). unfold enc_pair. rewrite !not_elem_of_app. split_and!; [done| |by eapply escaped_no_amp].
  change (gs "=") with [Byte.x3d]. set_solver.
Qed.
Lemma parse_pair params kt kv pairs : written kt kv →
  parse_pairs params (enc_pair kt :: pairs) = parse_pairs (<[kv.1 := kv.2]> params) pairs.
Proof.
  intros (Hkv & [_ Hk] & Ht). cbn [parse_pairs]. unfold enc_pair. change (gs "=") with [Byte.x3d].
  destruct (str_eqb_spec (kt.1 ++ [Byte.x3d] ++ kt.2) []) as [E|_]; [by destruct kt.1|].
  cbn [app]. rewrite SplitN2_first by done. by rewrite (QueryUnescape_escaped kv.2), Hkv.
Qed.
Lemma parse_query ts kvs : Forall2 written ts kvs → ∀ params, ts ≠ [] → parseQueryParams params (enc_query ts) = set_all kvs params.
Proof.
  unfold parseQueryParams. induction 1 as [|kt kv ts kvs Hkv Hl IH]; intros params Hne; [done|].
  pose proof (enc_pair_no_amp _ _ Hkv) as Ha. destruct ts as [|kt' ts].
  - inversion Hl; subst. unfold enc_query. cbn [map Join]. rewrite Split_absent by done. by rewrite (parse_pair _ _ kv).
  - change (enc_query (kt :: kt' :: ts)) with (enc_pair kt ++ Byte.x26 :: enc_query (kt' :: ts)).
    rewrite Split_first by done. rewrite (parse_pair _ _ kv) by done. by rewrite IH.
Qed.

Section reading.
Context `{UnicodeTables}.

(** What a header does to the length and the type. *)
Definition header_step (acc : Z * list byte) (kv : list byte * list byte) : Z * list byte :=
  (if str_eqb (ToLower kv.1) (gs "content-length") then Atoi_value kv.2 else acc.1,
   if str_eqb (ToLower kv.1) (gs "content-type") then ToLower kv.2 else acc.2).

Lemma nacos_headers_enc hdrs : ∀ fuel cl ct rest, (length hdrs < fuel)%nat → Forall header_ok hdrs →
  nacos_headers fuel cl ct (concat (map (λ kv, header_line kv ++ crlf) hdrs) ++ crlf ++ rest)
  = Got (fold_left header_step hdrs (cl, ct)) rest.
Proof.
  induction hdrs as [|[k v] hdrs IH]; intros [|fuel] cl ct rest Hf Hok; simpl in Hf; try lia.
  - cbn [map concat app nacos_headers fold_left]. erewrite bind_Got.
    2:{ unfold try. change (crlf ++ rest) with ([] ++ crlf ++ rest). rewrite read_string_line by constructor. reflexivity. }
    cbv beta iota. by rewrite (TrimRight_line []) by constructor.
  - inversion Hok as [|? ? (Hk & Hc & Hv & Hl) Hrest]; subst. cbn [fst snd] in *.
    assert (line_text (header_line (k, v))) as Hline.
    { unfold header_line, line_text. cbn [fst snd]. rewrite !Forall_app. split_and!; [by apply word_line| |done].
      change (gs ": ") with [Byte.x3a; Byte.x20]. unfold crlf. repeat constructor; set_solver. }
    cbn [map concat nacos_headers fold_left]. rewrite <-!app_assoc. erewrite bind_Got.
    2:{ unfold try. rewrite read_string_line by done. reflexivity. }
    cbv beta iota. rewrite TrimRight_line by done.
    destruct (str_eqb_spec (header_line (k, v)) []) as [E|_].
    { destruct Hk as [Hk _]. unfold header_line in E. cbn [fst snd] in E. by apply app_eq_nil in E as [-> _]. }
    assert (header_line (k, v) = k ++ Byte.x3a :: space :: v) as Hh by done. rewrite Hh.
    change (gs ":") with [Byte.x3a]. rewrite Index_first by done.
    assert (0 < len k). { destruct Hk as [Hk _]. destruct k; [done|]. len_simpl. pose proof (len_nonneg k). lia. }
    destruct (Z.ltb_spec 0 (len k)); [|lia]. cbv zeta.
    rewrite ztake_app_eq by done. rewrite (app_assoc k [Byte.x3a] (space :: v) : k ++ Byte.x3a :: space :: v = _), zdrop_app_eq by (len_simpl; lia).
    assert (TrimSpace k = k) as ->. { rewrite <-(app_nil_r k) at 1. by apply (TrimSpace_word [] k []). }
    assert (TrimSpace (space :: v) = v) as ->.
    { rewrite <-(app_nil_r v) at 1. by apply (TrimSpace_text [space] v []); [repeat constructor|done|]. }
    by rewrite IH by (lia || done).
Qed.

(** A request: its parameters in the query, and in the body or with a body of
    another type. *)
Inductive content := NoContent | Form (fields : list (list byte * list byte)) | Content (ctype body : list byte).
Definition form_type : list byte := gs "application/x-www-form-urlencoded".
(** The headers that say so, their names in lower case. *)
Definition content_headers (c : content) : list (list byte * list byte) :=
  let hdrs ctype (body : list byte) := [(gs "content-type", ctype); (gs "content-length", Itoa (len body))] in
  match c with
  | NoContent => []
  | Form fields => hdrs form_type (enc_query fields)
  | Content ctype body => hdrs ctype body
  end.
Definition is_content (kv : list byte * list byte) : bool := bool_decide (kv.1 ∈ [gs "content-type"; gs "content-length"]).
(** These headers, in any case and order, among whatever others. *)
Definition headers_for (c : content) (hdrs : list (list byte * list byte)) : Prop :=
  Forall header_ok hdrs ∧ List.filter is_content (map (prod_map ToLower id) hdrs) ≡ₚ content_headers c.
Definition content_body (c : content) : list byte :=
  match c with NoContent => [] | Form fields => enc_query fields | Content _ body => body end.
Definition target (path : list byte) (query : list (list byte * list byte)) : list byte :=
  path ++ match query with [] => [] | _ => Byte.x3f :: enc_query query end.
Definition enc_nacos (method path : list byte) (query hdrs : list (list byte * list byte)) (c : content) : list byte :=
  enc_http (HRequest method (target path query) (gs "HTTP/1.1")) hdrs ++ content_body c.
(** The parameters [fields] are those of the form. *)
Definition content_ok (c : content) (fields : list (list byte * list byte)) : Prop :=
  match c with
  | NoContent => fields = []
  | Form ts => ts ≠ [] ∧ Forall2 written ts fields ∧ len (enc_query ts) ≤ max_alloc
  | Content ctype body => fields = [] ∧ Contains (ToLower ctype) form_type = false ∧ body ≠ [] ∧ len body ≤ max_alloc
  end.
Definition nacos_request (direction method path : list byte) (params : list (list byte * list byte)) (c : content) : NacosMessage :=
  set_summary (mkNacos method path (classifyNacosPath path) (set_all params ∅) (content_body c) 0
    (match c with Content ctype _ => Contains (ToLower ctype) (gs "application/json") | _ => false end) [] direction).

Lemma enc_query_nonnil l : l ≠ [] → enc_query l ≠ [].
Proof.
  assert (∀ kv, enc_pair kv ≠ []) as Hp by (intros kv [_ E]%app_eq_nil; discriminate).
  unfold enc_query. destruct l as [|kv [|kv' l]]; cbn [map Join]; [done|intros _; apply Hp|].
  intros _ [E _]%app_eq_nil. by apply (Hp kv).
Qed.
Lemma target_word path query : word path → Forall (λ b, word_byte b = true) (enc_query query) → word (target path query).
Proof.
  intros [Hne Hp] Hq. unfold target. split; [by destruct path|]. apply Forall_app_2; [done|].
  destruct query; [by constructor|]. by constructor.
Qed.
Lemma params_target path query params : Byte.x3f ∉ path → Forall2 written query params →
  (let idx := Index (target path query) (gs "?") in
   if 0 <=? idx then (ztake idx (target path query), parseQueryParams ∅ (zdrop (idx + 1) (target path query)))
   else (target path query, ∅)) = (path, set_all params ∅).
Proof.
  intros Hp Hq. unfold target. change (gs "?") with [Byte.x3f]. destruct query as [|kv query].
  - inversion Hq; subst. rewrite app_nil_r, Index_absent by done. done.
  - rewrite Index_first by done. pose proof (len_nonneg path). cbv zeta. destruct (Z.leb_spec 0 (len path)); [|lia].
    rewrite ztake_app_eq by done.
    rewrite (app_assoc path [Byte.x3f] (enc_query (kv :: query)) : path ++ Byte.x3f :: _ = _), zdrop_app_eq by (len_simpl; lia).
    by rewrite (parse_query _ params).
Qed.
Lemma set_all_app l l' m : set_all (l ++ l') m = set_all l' (set_all l m).
Proof. apply fold_left_app. Qed.
Lemma no_preface method s : method ∈ httpMethods → HasPrefix (ztake 24 (method ++ space :: s)) (gs "PRI * HTTP/2.0") = false.
Proof.
  unfold httpMethods. cbn [map]. intros Hin.
  repeat (apply elem_of_cons in Hin as [->|Hin]; [reflexivity|]). by apply elem_of_nil in Hin.
Qed.
Lemma Itoa_text n : 0 ≤ n → trimmed_text (Itoa n) ∧ line_text (Itoa n).
Proof.
  intros Hn. destruct (Itoa_digits n Hn) as [Hd Hne]. assert (word (Itoa n)) as Hw.
  { split; [done|]. eapply Forall_impl; [exact Hd|]. intros b Hb. destruct (is_space_digit b Hb) as (Hs & ? & _).
    unfold word_byte. rewrite Hs. by destruct (Z.ltb_spec (bz b) 128); [|lia]. }
  split; [by apply word_trimmed|by apply word_line].
Qed.
Lemma content_header_ok k v : word k → Byte.x3a ∉ k → trimmed_text v → line_text v → header_ok (k, v).
Proof. intros. unfold header_ok. by split_and!. Qed.
(** Only the two headers count, by their names in lower case. *)
Lemma fold_headers hdrs : ∀ acc, fold_left header_step hdrs acc =
  fold_left (λ acc kv, (if str_eqb kv.1 (gs "content-length") then Atoi_value kv.2 else acc.1,
                        if str_eqb kv.1 (gs "content-type") then ToLower kv.2 else acc.2))
    (List.filter is_content (map (prod_map ToLower id) hdrs)) acc.
Proof.
  induction hdrs as [|[k v] hdrs IH]; intros [n t]; [done|]. cbn [fold_left map List.filter]. rewrite IH. unfold is_content at 2.
  cbn [prod_map fst snd id header_step]. case_bool_decide as Hk; [done|]. unfold header_step. cbn [fst snd].
  rewrite !str_eqb_neq by (intros E; apply Hk; rewrite E; set_solver). done.
Qed.
Lemma headers_fold c hdrs fields : headers_for c hdrs → content_ok c fields → fold_left header_step hdrs (0, []) =
  (len (content_body c), match c with NoContent => [] | Form _ => form_type | Content ctype _ => ToLower ctype end).
Proof.
  intros [_ Hp] Hc. rewrite fold_headers.
  assert (∀ ctype (body : list byte), List.filter is_content (map (prod_map ToLower id) hdrs)
      ≡ₚ [(gs "content-type", ctype); (gs "content-length", Itoa (len body))] → len body ≤ max_alloc →
    fold_left (λ acc kv, (if str_eqb kv.1 (gs "content-length") then Atoi_value kv.2 else acc.1,
                          if str_eqb kv.1 (gs "content-type") then ToLower kv.2 else acc.2))
      (List.filter is_content (map (prod_map ToLower id) hdrs)) (0, []) = (len body, ToLower ctype)) as H1.
  { intros ctype body Hpm Hb. pose proof (len_nonneg body).
    assert (Atoi_value (Itoa (len body)) = len body) as Ha by (apply Atoi_value_Some, Atoi_Itoa; unfold max_alloc in Hb; lia).
    symmetry in Hpm. apply Permutation_length_2_inv in Hpm as [-> | ->]; cbn [fold_left fst snd];
      change (str_eqb (gs "content-type") (gs "content-length")) with false; change (str_eqb (gs "content-length") (gs "content-type")) with false;
      rewrite !str_eqb_refl, Ha; done. }
  destruct c as [|ts|ctype body]; cbn [content_headers content_ok content_body] in *.
  - apply Permutation_nil_r in Hp. by rewrite Hp.
  - destruct Hc as (_ & _ & Hlen). by rewrite (H1 form_type (enc_query ts)).
  - destruct Hc as (_ & _ & _ & Hlen). by rewrite (H1 ctype body).
Qed.

(** C40. A request is read back with its method, its path and kind, all its
    parameters, those of the query and of a form in the body together, their
    values unescaped however they were written, or with the body and whether
    it is JSON; whatever other headers it has, before, between and behind those
    of the content; and the next request is read from behind the body. *)
Theorem nacos_request_roundtrip direction method path query params hdrs c fields rest
  (Hm : method ∈ httpMethods) (Hpath : word path) (Hq : Byte.x3f ∉ path)
  (Hquery : Forall2 written query params) (Hword : Forall (λ b, word_byte b = true) (enc_query query))
  (Hhdrs : headers_for c hdrs) (Hc : content_ok c fields) :
  ReadNacosMessage direction (enc_nacos method path query hdrs c ++ rest)
  = Got (nacos_request direction method path (params ++ fields) c) rest.
Proof.
  assert (head_ok (HRequest method (target path query) (gs "HTTP/1.1"))) as Hh.
  { split_and!; [done|by apply target_word|by apply line_text_bool]. }
  destruct (first_line_head _ Hh) as (Hl & Hne & Hlen & _). cbn [head_line] in *.
  pose proof (headers_fold c hdrs fields Hhdrs Hc) as Hfold. destruct Hhdrs as [Hhdr _].
  set (input := enc_nacos method path query hdrs c ++ rest).
  assert (HasPrefix (ztake 24 input) (gs "PRI * HTTP/2.0") = false) as Hpre.
  { unfold input, enc_nacos, enc_http. cbn [head_line]. rewrite <-!app_assoc. cbn [app]. by apply no_preface. }
  unfold ReadNacosMessage. cbv zeta. rewrite Hpre, andb_false_r. unfold input, enc_nacos, enc_http. rewrite <-!app_assoc. cbn [head_line].
  erewrite bind_Got by (by apply read_string_line). rewrite TrimRight_line by done. rewrite (str_eqb_neq _ _ Hne), Hlen. cbv zeta.
  change (3 <? 2) with false. cbv iota.
  assert (nacos_line direction (SplitN3 (method ++ space :: target path query ++ space :: gs "HTTP/1.1") (gs " "))
    = Some (mkNacos method path (classifyNacosPath path) (set_all params ∅) [] 0 false [] direction)) as ->.
  { rewrite SplitN3_words by (first [by apply method_word|by apply target_word]). unfold nacos_line.
    rewrite bool_decide_eq_true_2 by done. pose proof (params_target path query params Hq Hquery) as Hp. cbv zeta in Hp |- *. by rewrite Hp. }
  erewrite bind_Got.
  2: { apply nacos_headers_enc; [|done]. rewrite !length_app. clear. induction hdrs as [|kv hdrs IH]; [simpl; lia|].
       cbn [length map concat]. rewrite length_app. unfold crlf in *. rewrite length_app. simpl in *. lia. }
  rewrite Hfold. destruct (Z.ltb_spec 0 (len (content_body c))) as [Hpos|Hpos].
  - erewrite bind_Got.
    2: { unfold try. rewrite read_n_app; [reflexivity|done|]. destruct c as [|ts|ctype body]; [done|by destruct Hc as (_ & _ & ?)|by destruct Hc as (_ & _ & _ & ?)]. }
    cbn [mret parser_ret]. unfold nacos_request, set_body, mret, parser_ret. f_equal. f_equal. cbn [n_Method n_Path APIType Params n_StatusCode n_Summary n_Direction].
    destruct c as [|ts|ctype body]; [done|..]; cbn [content_body content_ok] in *.
    + destruct Hc as (Hne' & Hf & _). change (Contains form_type (gs "application/x-www-form-urlencoded")) with true.
      change (Contains form_type (gs "application/json")) with false. cbv iota. by rewrite (parse_query ts fields), set_all_app.
    + destruct Hc as (-> & Hct & _). fold form_type. rewrite Hct. by rewrite app_nil_r.
  - assert (content_body c = []) as Hnil by (apply len_0_nil; pose proof (len_nonneg (content_body c)); lia). rewrite Hnil. cbn [app].
    unfold nacos_request. rewrite Hnil. unfold mret, parser_ret. destruct c as [|ts|ctype body]; cbn [content_body content_ok] in *.
    + by rewrite Hc, app_nil_r.
    + destruct Hc as (Hne' & _). by apply enc_query_nonnil in Hne'.
    + by destruct Hc as (_ & _ & ? & _).
Qed.

(** The announced length of a body is not bounded: more than the run-time
    can allocate, or a number that no int64 holds, makes the reader panic. *)
Theorem nacos_content_length_panics direction method path n rest
  (Hm : method ∈ httpMethods) (Hpath : word path) (Hn : max_alloc < n) :
  ReadNacosMessage direction (enc_http (HRequest method path (gs "HTTP/1.1")) [(gs "Content-Length", Itoa n)] ++ rest) = Panicked.
Proof.
  assert (head_ok (HRequest method path (gs "HTTP/1.1"))) as Hh by (split_and!; [done|done|by apply line_text_bool]).
  destruct (first_line_head _ Hh) as (Hl & Hne & Hlen & _). cbn [head_line] in *.
  set (input := enc_http _ _ ++ rest).
  assert (HasPrefix (ztake 24 input) (gs "PRI * HTTP/2.0") = false) as Hpre.
  { unfold input, enc_http. cbn [head_line]. rewrite <-!app_assoc. cbn [app]. by apply no_preface. }
  unfold ReadNacosMessage. cbv zeta. rewrite Hpre, andb_false_r. unfold input, enc_http. rewrite <-!app_assoc. cbn [head_line].
  erewrite bind_Got by (by apply read_string_line). rewrite TrimRight_line by done. rewrite (str_eqb_neq _ _ Hne), Hlen. cbv zeta.
  change (3 <? 2) with false. cbv iota.
  rewrite SplitN3_words by (done || by apply method_word). unfold nacos_line. rewrite bool_decide_eq_true_2 by done.
  destruct (if 0 <=? Index path (gs "?") then _ else _) as [p q].
  unfold max_alloc in Hn. destruct (Itoa_text n) as [Hi1 Hi2]; [lia|].
  erewrite bind_Got.
  2: { apply nacos_headers_enc; [|apply Forall_cons_2, Forall_nil_2; apply content_header_ok; try done].
       - rewrite !length_app. unfold crlf. simpl. lia.
       - split; [done|by repeat constructor].
       - by apply (bool_decide_eq_true_1 (Byte.x3a ∉ gs "Content-Length")). }
  cbn [fold_left]. unfold header_step. cbn [fst snd]. change (ToLower (gs "Content-Length")) with (gs "content-length").
  change (str_eqb (gs "content-length") (gs "content-type")) with false. change (str_eqb (gs "content-length") (gs "content-length")) with true. cbv iota.
  assert (2 ^ 48 < Atoi_value (Itoa n)) as Hv.
  { unfold Atoi_value, Itoa, fmt_int. destruct (Z.ltb_spec n 0); [lia|]. destruct (fmt_uint_parse n) as [Hp Hd]; [lia|].
    pose proof (fmt_uint_nonnil 10 n). destruct (fmt_uint 10 n) as [|b s]; [done|]. apply Forall_cons in Hd as [Hb _].
    destruct (is_space_digit b Hb) as (_ & _ & _ & _ & H45 & H43). unfold beq.
    destruct (Z.eqb_spec (bz b) 45); [lia|]. destruct (Z.eqb_spec (bz b) 43); [lia|]. rewrite Hp. lia. }
  destruct (Z.ltb_spec 0 (Atoi_value (Itoa n))); [|lia]. unfold mbind, parser_bind, try. rewrite read_n_bad; [done|]. right. unfold max_alloc. lia.
Qed.
Lemma progress_nacos_headers fuel : ∀ cl ct s, (length s < fuel)%nat → progress 0 (nacos_headers fuel cl ct) s.
Proof.
  induction fuel as [|fuel IH]; intros cl ct s Hf; [lia|]. cbn [nacos_headers].
  apply progress_then; [apply (progress_try 1), progress_read_string|].
  intros [l|e] r Hr; [|apply progress_ret]. cbv zeta. destruct (str_eqb _ _); [apply progress_ret|].
  assert (length r < length s)%nat as Hs.
  { unfold try in Hr. destruct (read_string s) eqn:E; try discriminate Hr. injection Hr as -> ->.
    by apply read_string_Got in E as [_ ?]. }
  destruct (0 <? _); apply IH; lia.
Qed.
Lemma progress_ReadNacosMessage direction s : progress 1 (ReadNacosMessage direction) s.
Proof.
  unfold ReadNacosMessage, progress. cbv beta zeta. lazymatch goal with |- context [(if ?c then ?a else ?b) s] =>
    change (progress 1 (if c then a else b) s); destruct c end.
  - unfold readNacosGRPC. apply (progress_weaken 1 24); [lia|]. apply progress_then; [apply (progress_read_n 24)|intros; apply progress_ret].
  - apply progress_then; [apply progress_read_string|]. intros line r _. progress_steps.
    destruct (nacos_line _ _) as [msg|]; [|apply progress_throw].
    apply progress_then; [unfold progress; apply progress_nacos_headers; lia|]. intros [cl ct] r' _. progress_steps.
    eapply progress_try, progress_read_n.
Qed.
End reading.

(** The request of the package's own test, with one parameter more. *)
Definition demo_headers : list (list byte * list byte) :=
  [(gs "Host", gs "127.0.0.1:8848"); (gs "Content-Type", gs "application/json"); (gs "Content-Length", gs "50")].
Definition demo_instance : list byte :=
  map (λ b, if beq b 39 then Byte.x22 else b) (gs "{'serviceName':'demo','ip':'10.0.0.1','port':8080}").
Definition demo_query : list (list byte * list byte) :=
  [(gs "namespaceId", gs "public"); (gs "groupName", gs "DEFAULT_GROUP"); (gs "tenant", gs "a+b%26%2b")].
Definition demo_params : list (list byte * list byte) :=
  [(gs "namespaceId", gs "public"); (gs "groupName", gs "DEFAULT_GROUP"); (gs "tenant", gs "a b&+")].
Ltac escape :=
  repeat first [by apply escaped_nil
               |apply escaped_space
               |apply escaped_byte; [by apply (bool_decide_unpack _)|]
               |apply escaped_hex; [reflexivity|reflexivity|]].
Lemma nacos_request_roundtrip_witness :
  @ReadNacosMessage no_tables (gs "C->S")
    (enc_nacos (gs "POST") (gs "/nacos/v1/ns/instance") demo_query demo_headers (Content (gs "application/json") demo_instance) ++ gs "GET ")
  = Got (@nacos_request no_tables (gs "C->S") (gs "POST") (gs "/nacos/v1/ns/instance") (demo_params ++ [])
           (Content (gs "application/json") demo_instance)) (gs "GET ").
Proof.
  apply (@nacos_request_roundtrip no_tables).
  - apply (bool_decide_eq_true_1 (gs "POST" ∈ httpMethods)). vm_compute. reflexivity.
  - split; [discriminate|repeat constructor].
  - apply (bool_decide_eq_true_1 (Byte.x3f ∉ gs "/nacos/v1/ns/instance")). vm_compute. reflexivity.
  - repeat constructor; try (by apply (bool_decide_unpack _)); cbn [snd]; escape.
  - repeat constructor.
  - split; [|vm_compute; reflexivity].
    repeat apply Forall_cons_2; [..|apply Forall_nil_2]; (split_and!; [split; [discriminate|repeat constructor]|by apply (bool_decide_unpack _)|
      split; reflexivity|by apply line_text_bool]).
  - split_and!; [reflexivity|vm_compute; reflexivity|discriminate|vm_compute; discriminate].
Defined.

Lemma nacos_content_length_panics_witness :
  @ReadNacosMessage no_tables (gs "in")
    (enc_http (HRequest (gs "GET") (gs "/nacos/") (gs "HTTP/1.1")) [(gs "Content-Length", Itoa (2 ^ 62))] ++ []) = Panicked.
Proof.
  apply (@nacos_content_length_panics no_tables).
  - apply (bool_decide_eq_true_1 (gs "GET" ∈ httpMethods)). vm_compute. reflexivity.
  - split; [discriminate|repeat constructor].
  - reflexivity.
Defined.

(** The plus sign and escapes of a value are undone, those of a key stay. *)
Example keys_stay_escaped :
  map_to_list (parseQueryParams ∅ (gs "a%62=x%20y")) = [(gs "a%62", gs "x y")].
Proof. vm_compute. reflexivity. Qed.
