(* ===== verification/RocketMQ.v ===== *)
(** * RocketMQ remoting (src/rocketmqport)

    The reader of remoting commands with what [json.Unmarshal] does to the
    fields of a command, the detector, the code names and the printers. *)

From S2P Require Import Prelude GoBytes GoStrings Unicode Window Reader Json.

Definition RocketMQMinFrameSize : Z := 10.
Definition RocketMQMaxFrameSize : Z := 100 * 1024 * 1024.

Record RemotingCommand := mkCommand {
  FrameLength : Z; HeaderLength : Z; HeaderJSON : list byte; Body : list byte;
  Code : Z; Language : list byte; Version : Z; Opaque : Z; Flag : Z; Remark : list byte;
  ExtFields : gmap (list byte) (list byte); BodyPreview : list byte }.

Definition requestCodeNames : list (Z * list byte) :=
  [(10, gs "SEND_MESSAGE"); (11, gs "PULL_MESSAGE"); (12, gs "QUERY_MESSAGE"); (13, gs "QUERY_BROKER_OFFSET");
   (14, gs "QUERY_CONSUMER_OFFSET"); (15, gs "UPDATE_CONSUMER_OFFSET"); (16, gs "UPDATE_AND_CREATE_TOPIC");
   (17, gs "GET_ALL_TOPIC_CONFIG"); (18, gs "GET_TOPIC_CONFIG_LIST"); (19, gs "GET_TOPIC_NAME_LIST");
   (20, gs "UPDATE_BROKER_CONFIG"); (21, gs "GET_BROKER_CONFIG"); (22, gs "TRIGGER_DELETE_FILES");
   (23, gs "GET_BROKER_RUNTIME_INFO"); (24, gs "SEARCH_OFFSET_BY_TIMESTAMP"); (25, gs "GET_MAX_OFFSET");
   (26, gs "GET_MIN_OFFSET"); (27, gs "GET_EARLIEST_MSG_STORETIME"); (28, gs "QUERY_MESSAGE_BY_KEY");
   (29, gs "QUERY_MESSAGE_BY_UNIQUE_KEY"); (30, gs "PULL_KV_CONFIG"); (31, gs "QUERY_DATA_VERSION");
   (32, gs "UPDATE_AND_CREATE_SUBSCRIPTIONGROUP"); (33, gs "GET_ALL_SUBSCRIPTIONGROUP_CONFIG");
   (34, gs "GET_TOPIC_STATS_INFO"); (35, gs "GET_CONSUMER_LIST_BY_GROUP"); (36, gs "GET_SUBSCRIPTIONGROUP_CONFIG");
   (37, gs "QUERY_CONSUME_TIME_SPAN"); (38, gs "GET_BROKER_CONSUME_STATS"); (39, gs "INVOKE_BROKER_TO_RESET_OFFSET");
   (40, gs "GET_CONSUMER_RUNNING_INFO"); (41, gs "QUERY_CORRECTION_OFFSET"); (42, gs "CONSUME_MESSAGE_DIRECTLY");
   (43, gs "PULL_MESSAGE"); (44, gs "QUERY_CONSUMER_OFFSET"); (45, gs "VIEW_MESSAGE_BY_ID"); (46, gs "QUERY_MESSAGES");
   (47, gs "GET_HOME_TOPIC_ROUTE_INFO"); (48, gs "GET_MESSAGE_STORE_TIME"); (49, gs "QUERY_BROKER_OFFSET");
   (50, gs "HEART_BEAT"); (51, gs "UNREGISTER_CLIENT"); (52, gs "REGISTER_CLIENT"); (53, gs "CONSUMER_SEND_MSG_BACK");
   (54, gs "END_TRANSACTION"); (55, gs "GET_CONSUMER_LIST_BY_GROUP"); (56, gs "CHECK_TRANSACTION_STATE");
   (57, gs "NOTIFY_CONSUMER_IDS_CHANGED"); (58, gs "LOCK_BATCH_MQ"); (59, gs "UNLOCK_BATCH_MQ");
   (60, gs "GET_ALL_CONSUMER_OFFSET"); (61, gs "GET_ALL_DELAY_OFFSET"); (62, gs "PUT_KV_CONFIG"); (63, gs "DELETE_KV_CONFIG");
   (64, gs "REGISTER_FILTER_SERVER"); (65, gs "REGISTER_MESSAGE_FILTER_CLASS"); (66, gs "QUERY_TOPIC_CONSUME_BY_WHO");
   (67, gs "DELETE_TOPIC_IN_BROKER"); (68, gs "DELETE_SUBSCRIPTIONGROUP"); (69, gs "GET_CONSUME_STATS");
   (70, gs "GET_PRODUCER_CONNECTION_LIST"); (71, gs "GET_CONSUMER_CONNECTION_LIST"); (72, gs "VC_CHANNEL");
   (73, gs "GET_PRODUCER_CONNECTION_LIST"); (74, gs "GET_CONSUMER_CONNECTION_LIST"); (100, gs "REGISTER_BROKER");
   (101, gs "UNREGISTER_BROKER"); (102, gs "GET_ROUTEINTO_BY_TOPIC"); (103, gs "GET_BROKER_CLUSTER_INFO");
   (104, gs "WIPE_WRITE_PERM_OF_BROKER"); (105, gs "GET_ALL_TOPIC_LIST_FROM_NAMESERVER"); (106, gs "DELETE_TOPIC_IN_NAMESRV");
   (107, gs "REGISTER_TOPIC_IN_NAMESRV"); (108, gs "GET_KVLIST_BY_NAMESPACE"); (109, gs "GET_TOPICS_BY_CLUSTER");
   (110, gs "GET_SYSTEM_TOPIC_LIST_FROM_NS"); (111, gs "GET_UNIT_TOPIC_LIST"); (112, gs "GET_HAS_UNIT_SUB_TOPIC_LIST");
   (113, gs "GET_HAS_UNIT_SUB_UNUNIT_TOPIC_LIST"); (114, gs "UPDATE_NAMESRV_CONFIG"); (115, gs "GET_NAMESRV_CONFIG");
   (201, gs "ACTIVATE_NAMESERVER"); (202, gs "DEACTIVATE_NAMESERVER"); (203, gs "BROKER_HEARTBEAT");
   (900, gs "REGISTER_MESSAGE_FILTER_CLASS")].
Definition RequestCodeName (code : Z) : list byte :=
  match assoc code requestCodeNames with Some name => name | None => gs "UNKNOWN(" ++ Itoa code ++ gs ")" end.

(** ** json.Unmarshal into a command

    An object sets the fields its keys name, in order; a value of another type
    than the field leaves it as it is.  The slice [Body] lies in the buffer of
    the frame, [Shared n] its first [n] bytes, until an array longer than that
    or a text gives it a memory of its own, [Own n store]: an array is written
    over what is there. *)

Inductive slice := Shared (n : Z) | Own (n : Z) (store : list byte).
Record decoding := mkDecoding { d_cmd : RemotingCommand; d_body : list byte; d_slice : slice }.

Inductive field :=
| FFrameLength | FHeaderLength | FHeaderJSON | FBody | FCode | FLanguage | FVersion | FOpaque | FFlag | FRemark
| FExtFields | FBodyPreview.
Definition fields : list (list byte * field) :=
  [(gs "FRAMELENGTH", FFrameLength); (gs "HEADERLENGTH", FHeaderLength); (gs "HEADERJSON", FHeaderJSON); (gs "BODY", FBody);
   (gs "CODE", FCode); (gs "LANGUAGE", FLanguage); (gs "VERSION", FVersion); (gs "OPAQUE", FOpaque); (gs "FLAG", FFlag);
   (gs "REMARK", FRemark); (gs "EXTFIELDS", FExtFields); (gs "BODYPREVIEW", FBodyPreview)].
(** The letters that fold to an upper-case ASCII letter: its lower case, the
    long s and the Kelvin sign. *)
Definition fold_ascii (r : Z) : option byte :=
  if r <? 128 then Some (upper_byte (to_byte r)) else if r =? 383 then Some Byte.x53 else if r =? 8490 then Some Byte.x4b else None.
(** The field of a key: its name up to case; no two names are the same up to
    case. *)
Definition field_of (key : list byte) : option field :=
  k ← mapM fold_ascii (runes key); snd <$> List.find (λ nf, str_eqb k nf.1) fields.

(** [strconv.ParseUint] of a literal, with a width. *)
Definition json_uint_of (w : Z) (x : list byte) : option Z :=
  if HasPrefix x (gs "-") then None else n ← Atoi x; if n <? 2 ^ w then Some n else None.

(** [base64.StdEncoding.DecodeString] *)
Definition base64_value (b : byte) : option Z :=
  let z := bz b in
  if (65 <=? z) && (z <=? 90) then Some (z - 65) else if (97 <=? z) && (z <=? 122) then Some (z - 71)
  else if (48 <=? z) && (z <=? 57) then Some (z + 4) else if z =? 43 then Some 62 else if z =? 47 then Some 63 else None.
Fixpoint base64_quads (s : list byte) : option (list byte) :=
  match s with
  | [] => Some []
  | a :: b :: c :: d :: s =>
      a ← base64_value a; b ← base64_value b;
      let b0 := to_byte (4 * a + b / 16) in
      if beq c 61 then if beq d 61 && str_eqb s [] then Some [b0] else None
      else
        c ← base64_value c;
        let b1 := to_byte (16 * (b mod 16) + c / 4) in
        if beq d 61 then if str_eqb s [] then Some [b0; b1] else None
        else d ← base64_value d; t ← base64_quads s; Some (b0 :: b1 :: to_byte (64 * (c mod 4) + d) :: t)
  | _ => None
  end.
Definition base64_decode (s : list byte) : option (list byte) :=
  base64_quads (List.filter (λ b, negb (beq b 10 || beq b 13)) s).

(** Element [i] of the array for [Body]. *)
Definition set_element (i : Z) (v : json) (d : decoding) : decoding :=
  let write (s : list byte) := match v with
    | VNum x => match json_uint_of 8 x with Some n => <[Z.to_nat i := to_byte n]> s | None => s end
    | _ => s
    end in
  match d_slice d with
  | Shared n =>
      if i <? len (d_body d) then mkDecoding (d_cmd d) (write (d_body d)) (Shared (Z.max n (i + 1)))
      else mkDecoding (d_cmd d) (d_body d) (Own (i + 1) (write (d_body d ++ [Byte.x00])))
  | Own n store =>
      mkDecoding (d_cmd d) (d_body d)
        (Own (Z.max n (i + 1)) (write (if i <? len store then store else store ++ [Byte.x00])))
  end.
Fixpoint set_elements (i : Z) (l : list json) (d : decoding) : decoding :=
  match l with [] => d | v :: l => set_elements (i + 1) l (set_element i v d) end.
Definition truncate (i : Z) (s : slice) : slice :=
  if i =? 0 then Own 0 [] else match s with Shared _ => Shared i | Own _ store => Own i store end.

Definition set_ext (kv : list byte * json) (m : gmap (list byte) (list byte)) : gmap (list byte) (list byte) :=
  <[kv.1 := match kv.2 with VStr s => s | _ => [] end]> m.

Definition set_cmd (f : RemotingCommand → RemotingCommand) (d : decoding) : decoding :=
  mkDecoding (f (d_cmd d)) (d_body d) (d_slice d).
Definition with_uint (v : json) (old : Z) : Z := match v with VNum x => default old (json_uint_of 32 x) | _ => old end.
Definition with_int (v : json) (old : Z) : Z := match v with VNum x => default old (Atoi x) | _ => old end.
Definition with_string (v : json) (old : list byte) : list byte := match v with VStr s => s | _ => old end.
Definition with_map (v : json) (old : gmap (list byte) (list byte)) : gmap (list byte) (list byte) :=
  match v with VObj m => fold_left (λ g kv, set_ext kv g) m old | VNull => ∅ | _ => old end.
Definition set_field (f : field) (v : json) (d : decoding) : decoding :=
  match f with
  | FBody =>
      match v with
      | VNull => mkDecoding (d_cmd d) (d_body d) (Own 0 [])
      | VStr s => match base64_decode s with Some b => mkDecoding (d_cmd d) (d_body d) (Own (len b) b) | None => d end
      | VArr l => let d := set_elements 0 l d in mkDecoding (d_cmd d) (d_body d) (truncate (len l) (d_slice d))
      | _ => d
      end
  | _ => set_cmd (λ c, match c with mkCommand fl hl hj b co la ve op fg re ext pre =>
      match f with
      | FFrameLength => mkCommand (with_uint v fl) hl hj b co la ve op fg re ext pre
      | FHeaderLength => mkCommand fl (with_uint v hl) hj b co la ve op fg re ext pre
      | FHeaderJSON => mkCommand fl hl (with_string v hj) b co la ve op fg re ext pre
      | FCode => mkCommand fl hl hj b (with_int v co) la ve op fg re ext pre
      | FLanguage => mkCommand fl hl hj b co (with_string v la) ve op fg re ext pre
      | FVersion => mkCommand fl hl hj b co la (with_int v ve) op fg re ext pre
      | FOpaque => mkCommand fl hl hj b co la ve (with_int v op) fg re ext pre
      | FFlag => mkCommand fl hl hj b co la ve op (with_int v fg) re ext pre
      | FRemark => mkCommand fl hl hj b co la ve op fg (with_string v re) ext pre
      | FExtFields => mkCommand fl hl hj b co la ve op fg re (with_map v ext) pre
      | FBodyPreview => mkCommand fl hl hj b co la ve op fg re ext (with_string v pre)
      | FBody => c
      end end) d
  end.
Definition set_member (d : decoding) (kv : list byte * json) : decoding :=
  match field_of kv.1 with Some f => set_field f kv.2 d | None => d end.

(** The header into the command; [None]: the value [null] makes the pointer to
    the command nil. *)
Definition unmarshal (header : list byte) (d : decoding) : option decoding :=
  match parse_json header with
  | Some VNull => None
  | Some (VObj m) => Some (fold_left set_member m d)
  | _ => Some d
  end.
Definition slice_bytes (body : list byte) (s : slice) : list byte :=
  match s with Shared n => ztake n body | Own n store => ztake n store end.

(** ** The reader *)

Definition preview (body : list byte) : list byte :=
  if 200 <? len body then fmt_x_bytes (ztake 200 body) ++ gs "..." else fmt_x_bytes body.
Definition finish_command (d : decoding) : RemotingCommand :=
  match d_cmd d with mkCommand fl hl hj _ co la ve op fg re ext pre =>
    mkCommand fl hl hj (slice_bytes (d_body d) (d_slice d)) co la ve op fg re ext
      (if 0 <? len (d_body d) then preview (d_body d) else pre)
  end.

(** [None] is a nil command without an error. *)
Definition ReadRemotingCommand : parser (option RemotingCommand) :=
  lenBuf ← read_n 4;
  let frameLen := be_val lenBuf in
  if (frameLen <? RocketMQMinFrameSize) || (RocketMQMaxFrameSize <? frameLen)
  then throw (ErrText (gs "invalid frame length: " ++ Itoa frameLen))
  else
    remaining ← read_n (frameLen - 4);
    if len remaining <? 4 then throw (ErrText (gs "frame too short for header length"))
    else
      h ← lift (sub remaining 0 4);
      let headerLen := be_val h in
      if (headerLen <? 4) || (len remaining + 4 <? headerLen)
      then throw (ErrText (gs "invalid header length: " ++ Itoa headerLen))
      else
        headerJSON ← lift (sub remaining 4 headerLen);
        body ← lift (if headerLen + 4 <? frameLen then sub remaining headerLen (len remaining) else Ret []);
        let cmd := mkCommand frameLen headerLen headerJSON body 0 [] 0 0 0 [] ∅ [] in
        match unmarshal headerJSON (mkDecoding cmd body (Shared (len body))) with
        | Some d => mret (Some (finish_command d))
        | None => if 0 <? len body then lift Panic else mret None
        end.

Definition DetectRocketMQ (data : list byte) : go bool :=
  if len data <? 4 then Ret false
  else
    l ← sub data 0 4;
    let frameLen := be_val l in
    if (frameLen <? RocketMQMinFrameSize) || (RocketMQMaxFrameSize <? frameLen) then Ret false
    else
      let plausible := (RocketMQMinFrameSize <=? frameLen) && (frameLen <=? RocketMQMaxFrameSize) in
      if 8 <=? len data then
        h ← sub data 4 8;
        let headerLen := be_val h in
        if (4 <=? headerLen) && (headerLen <=? frameLen) && (headerLen <=? len data - 8) && (8 + headerLen - 4 <=? len data)
        then header ← sub data 8 (8 + headerLen - 4); Ret (Valid header)
        else Ret plausible
      else Ret plausible.

(** ** The printers *)

Section format.
Context `{MapOrder}.

Definition shown_fields : list (list byte) := map gs ["topic"; "brokerName"; "consumerGroup"; "group"]%string.
Definition remark_line (cmd : RemotingCommand) : list byte :=
  if str_eqb (Remark cmd) [] then [] else gs "  Remark: " ++ Remark cmd ++ [newline].
Definition body_line (cmd : RemotingCommand) : list byte :=
  if str_eqb (BodyPreview cmd) [] then [] else gs "  Body: " ++ Itoa (len (Body cmd)) ++ gs " bytes" ++ [newline].
Definition FormatRemotingCommand (cmd : RemotingCommand) : list byte :=
  gs "  Code: " ++ Itoa (Code cmd) ++ gs " (" ++ RequestCodeName (Code cmd) ++ gs ")" ++ [newline]
  ++ (if str_eqb (Language cmd) [] then [] else gs "  Language: " ++ Language cmd ++ [newline])
  ++ gs "  Version: " ++ Itoa (Version cmd) ++ gs "  Opaque: " ++ Itoa (Opaque cmd) ++ gs "  Flag: " ++ Itoa (Flag cmd) ++ [newline]
  ++ remark_line cmd
  ++ concat (map (λ kv, if bool_decide (kv.1 ∈ shown_fields) then gs "  " ++ kv.1 ++ gs ": " ++ kv.2 ++ [newline] else [])
               (range_map (ExtFields cmd)))
  ++ body_line cmd.
Definition FormatRemotingURL (cmd : RemotingCommand) : list byte := RequestCodeName (Code cmd) ++ [newline].
Definition FormatRemotingResponse (cmd : RemotingCommand) : list byte :=
  gs "  Response: " ++ Itoa (Code cmd) ++ gs " (" ++ RequestCodeName (Code cmd) ++ gs ")" ++ [newline]
  ++ remark_line cmd ++ body_line cmd.
End format.

(** ** The properties *)

(** One frame: what is read behind its length. *)
Definition parse_frame (frameLen : Z) (remaining : list byte) : go (option RemotingCommand + list byte) :=
  let headerLen := be_val (ztake 4 remaining) in
  if (headerLen <? 4) || (len remaining + 4 <? headerLen) then Ret (inr (gs "invalid header length: " ++ Itoa headerLen))
  else
    headerJSON ← sub remaining 4 headerLen;
    body ← (if headerLen + 4 <? frameLen then sub remaining headerLen (len remaining) else Ret []);
    let cmd := mkCommand frameLen headerLen headerJSON body 0 [] 0 0 0 [] ∅ [] in
    match unmarshal headerJSON (mkDecoding cmd body (Shared (len body))) with
    | Some d => Ret (inl (Some (finish_command d)))
    | None => if 0 <? len body then Panic else Ret (inl None)
    end.
Definition frame_size (n : Z) : Prop := RocketMQMinFrameSize ≤ n ≤ RocketMQMaxFrameSize.

Lemma read_frame l remaining rest : len l = 4 → frame_size (be_val l) → len remaining = be_val l - 4 →
  ReadRemotingCommand (l ++ remaining ++ rest) =
    match parse_frame (be_val l) remaining with
    | Ret (inl cmd) => Got cmd rest
    | Ret (inr e) => Fail (ErrText e) rest
    | Panic => Panicked
    end.
Proof.
  unfold frame_size, RocketMQMinFrameSize, RocketMQMaxFrameSize. intros Hl Hs Hr. unfold ReadRemotingCommand.
  erewrite bind_Got by (apply read_n_app; [done|unfold max_alloc; lia]). cbv zeta.
  unfold RocketMQMinFrameSize, RocketMQMaxFrameSize.
  destruct (Z.ltb_spec (be_val l) 10); [lia|]. destruct (Z.ltb_spec (100 * 1024 * 1024) (be_val l)); [lia|]. cbn [orb].
  erewrite bind_Got by (apply read_n_app; [lia|unfold max_alloc; lia]). cbv zeta.
  destruct (Z.ltb_spec (len remaining) 4); [lia|]. rewrite sub_Ret by lia. change (zdrop 0 remaining) with remaining.
  unfold parse_frame, lift, mbind, parser_bind. cbn [mret go_ret]. cbv zeta. replace (4 - 0) with 4 by lia.
  destruct (_ || _); [done|]. destruct (sub remaining 4 _) as [hdr|]; [|done]. cbn [go_bind].
  lazymatch goal with |- context [if ?c then sub ?a ?b ?d else Ret []] => destruct (if c then sub a b d else Ret []) as [body|] end; [|done]. cbn [go_bind].
  destruct (unmarshal _ _); [done|]. by destruct (0 <? len body).
Qed.

(** A stream starts with a frame of an admissible size. *)
Definition frame_in (s l remaining rest : list byte) : Prop :=
  s = l ++ remaining ++ rest ∧ len l = 4 ∧ frame_size (be_val l) ∧ len remaining = be_val l - 4.
Lemma frame_or_fails s : (∃ l remaining rest, frame_in s l remaining rest) ∨ ∃ e r, ReadRemotingCommand s = Fail e r.
Proof.
  unfold ReadRemotingCommand, RocketMQMinFrameSize, RocketMQMaxFrameSize.
  destruct (read_n_cases 4 s) as [(l & rest & Hg & -> & Hl)|(e & Hg & _)]; [unfold max_alloc; lia| |].
  2: { right. exists e, []. unfold mbind, parser_bind. by rewrite Hg. }
  rewrite (bind_Got _ _ _ _ _ Hg). cbv zeta.
  destruct (Z.ltb_spec (be_val l) 10); [right; by eexists _, _|]. destruct (Z.ltb_spec (100 * 1024 * 1024) (be_val l)); [right; by eexists _, _|].
  cbn [orb]. destruct (read_n_cases (be_val l - 4) rest) as [(r & rest' & Hg' & -> & Hr)|(e & Hg' & _)]; [unfold max_alloc; lia| |].
  - left. exists l, r, rest'. unfold frame_in, frame_size, RocketMQMinFrameSize, RocketMQMaxFrameSize. split_and!; lia || done.
  - right. exists e, []. unfold mbind, parser_bind. by rewrite Hg'.
Qed.

(** A frame whose header is announced to reach up to four bytes behind the
    frame, or is the value [null] and has a body behind it. *)
Definition bad_frame (remaining : list byte) : Prop :=
  let h := be_val (ztake 4 remaining) in
  len remaining < h ≤ len remaining + 4
  ∨ 4 ≤ h < len remaining ∧ parse_json (ztake (h - 4) (zdrop 4 remaining)) = Some VNull.

Lemma unmarshal_None header d : unmarshal header d = None ↔ parse_json header = Some VNull.
Proof. unfold unmarshal. destruct (parse_json header) as [[]|]; split; congruence. Qed.
Lemma parse_frame_panics frameLen remaining : frame_size frameLen → len remaining = frameLen - 4 → parse_frame frameLen remaining = Panic ↔ bad_frame remaining.
Proof.
  unfold frame_size, RocketMQMinFrameSize. intros Hs Hf. unfold parse_frame, bad_frame. cbv zeta. set (h := be_val (ztake 4 remaining)).
  destruct (Z.ltb_spec h 4); cbn [orb]; [split; [done|lia]|].
  destruct (Z.ltb_spec (len remaining + 4) h); [split; [done|lia]|].
  destruct (Z.le_gt_cases h (len remaining)) as [Hh|Hh].
  - rewrite (sub_Ret remaining 4 h) by lia. cbn [mbind go_bind]. set (hdr := ztake (h - 4) (zdrop 4 remaining)).
    assert (∃ body, (if h + 4 <? frameLen then sub remaining h (len remaining) else Ret []) = Ret body
      ∧ (0 <? len body) = (h <? len remaining)) as (body & -> & Hb).
    { destruct (Z.ltb_spec (h + 4) frameLen).
      - rewrite sub_Ret by lia. eexists. split; [done|]. len_simpl. destruct (Z.ltb_spec h (len remaining)); [|lia]. apply Z.ltb_lt. lia.
      - exists []. split; [done|]. symmetry. apply Z.ltb_ge. lia. }
    cbn [mbind go_bind]. lazymatch goal with |- context [unmarshal ?a ?b] => pose proof (unmarshal_None a b) as Hu; destruct (unmarshal a b) end.
    + split; [done|]. intros [|[_ Hn]]; [lia|]. by apply Hu in Hn.
    + rewrite Hb. destruct (Z.ltb_spec h (len remaining)); (split; [|done || lia]); intros; [|done]. right. split; [lia|by apply Hu].
  - rewrite (sub_Panic remaining 4 h) by lia. split; [|done]. intros _. left. lia.
Qed.

Lemma progress_ReadRemotingCommand s : progress 4 ReadRemotingCommand s.
Proof.
  unfold ReadRemotingCommand. apply progress_then; [apply (progress_read_n 4)|]. intros. progress_steps.
  destruct (unmarshal _ _); progress_steps.
Qed.

(** Reading consumes at least the length of a command, and panics exactly
    on a frame whose header reaches beyond it by at most four bytes, or is the
    JSON value [null] in front of a body. *)
Theorem ReadRemotingCommand_panics_iff s :
  progress 4 ReadRemotingCommand s ∧
  (ReadRemotingCommand s = Panicked ↔
   ∃ l remaining rest, frame_in s l remaining rest ∧ bad_frame remaining).
Proof.
  split; [apply progress_ReadRemotingCommand|]. split.
  - destruct (frame_or_fails s) as [(l & remaining & rest & Hin)|(e & r & ->)]; [|done].
    intros Hp. exists l, remaining, rest. split; [done|]. destruct Hin as (-> & Hl & Hs & Hr). rewrite read_frame in Hp by done.
    apply (parse_frame_panics (be_val l)); [done..|]. destruct (parse_frame _ _) as [[]|]; done.
  - intros (l & remaining & rest & (-> & Hl & Hs & Hr) & Hbad). rewrite read_frame by done.
    by apply (parse_frame_panics (be_val l)) in Hbad as ->.
Qed.

(** ** Round trip *)

(** A command as a client sends it. *)
Record command := mkCmd {
  c_code : Z; c_language : list byte; c_version : Z; c_opaque : Z; c_flag : Z; c_remark : list byte;
  c_ext : list (list byte * list byte); c_body : list byte }.
Definition header_json (c : command) : json :=
  VObj [(gs "code", VNum (Itoa (c_code c))); (gs "language", VStr (c_language c)); (gs "version", VNum (Itoa (c_version c)));
        (gs "opaque", VNum (Itoa (c_opaque c))); (gs "flag", VNum (Itoa (c_flag c))); (gs "remark", VStr (c_remark c));
        (gs "extFields", VObj (map (λ kv, (kv.1, VStr kv.2)) (c_ext c)))].
Definition header_text (c : command) : list byte := marshal (header_json c).
Definition header_len (c : command) : Z := 4 + len (header_text c).
Definition frame_len (c : command) : Z := 4 + header_len c + len (c_body c).
(** The framing the package documents: the length of the frame counts itself,
    the length of the header too. *)
Definition enc_command (c : command) : list byte :=
  be_bytes 4 (frame_len c) ++ (be_bytes 4 (header_len c) ++ header_text c ++ c_body c).
Definition command_ok (c : command) : Prop :=
  is_int64 (c_code c) ∧ is_int64 (c_version c) ∧ is_int64 (c_opaque c) ∧ is_int64 (c_flag c)
  ∧ ascii_text (c_language c) ∧ ascii_text (c_remark c) ∧ Forall (λ kv, ascii_text kv.1 ∧ ascii_text kv.2) (c_ext c)
  ∧ frame_len c ≤ RocketMQMaxFrameSize.
Definition ext_map (l : list (list byte * list byte)) : gmap (list byte) (list byte) := fold_left (λ g kv, <[kv.1 := kv.2]> g) l ∅.
Definition shown_command (c : command) : RemotingCommand :=
  mkCommand (frame_len c) (header_len c) (header_text c) (c_body c) (c_code c) (c_language c) (c_version c) (c_opaque c) (c_flag c)
    (c_remark c) (ext_map (c_ext c)) (if 0 <? len (c_body c) then preview (c_body c) else []).

Lemma header_json_ok c : command_ok c → json_ok 2 (header_json c).
Proof.
  intros (_ & _ & _ & _ & Hl & Hr & He & _). cbn [header_json json_ok foldr fst snd].
  assert (∀ k, Forall (λ b, bz b <? 128 = true) (gs k) → ascii_text (gs k)) as Hk
    by (intros k Hk; eapply Forall_impl; [exact Hk|]; intros ?; apply Z.ltb_lt).
  split_and!; try done; try (by eexists); try (apply Hk; by repeat constructor).
  induction He as [|kv l [Hk1 Hk2] _ IH]; cbn [map foldr]; [done|]. by split_and!.
Qed.
Lemma ext_fields l : ∀ m, fold_left (λ g kv, set_ext kv g) (map (λ kv : list byte * list byte, (kv.1, VStr kv.2)) l) m
  = fold_left (λ g kv, <[kv.1 := kv.2]> g) l m.
Proof. induction l as [|kv l IH]; intros m; [done|]. cbn [map fold_left]. by rewrite IH. Qed.
Lemma set_member_field d k v f : field_of k = Some f → set_member d (k, v) = set_field f v d.
Proof. unfold set_member. cbn [fst snd]. by intros ->. Qed.
Lemma unmarshal_header c fl hl hj body : command_ok c →
  unmarshal (header_text c) (mkDecoding (mkCommand fl hl hj body 0 [] 0 0 0 [] ∅ []) body (Shared (len body)))
  = Some (mkDecoding (mkCommand fl hl hj body (c_code c) (c_language c) (c_version c) (c_opaque c) (c_flag c) (c_remark c)
      (ext_map (c_ext c)) []) body (Shared (len body))).
Proof.
  intros Hc. unfold unmarshal, header_text. rewrite (parse_marshal 2); [|by apply header_json_ok|by vm_compute].
  destruct Hc as (Hco & Hve & Hop & Hfl & _). unfold header_json. cbn [fold_left].
  rewrite (set_member_field _ (gs "extFields") _ FExtFields), (set_member_field _ (gs "remark") _ FRemark),
    (set_member_field _ (gs "flag") _ FFlag), (set_member_field _ (gs "opaque") _ FOpaque), (set_member_field _ (gs "version") _ FVersion),
    (set_member_field _ (gs "language") _ FLanguage), (set_member_field _ (gs "code") _ FCode) by reflexivity.
  cbn [set_field set_cmd d_cmd d_body d_slice with_int with_string with_map].
  rewrite !Atoi_Itoa by done. cbn [default]. unfold ext_map. by rewrite <-(ext_fields (c_ext c) ∅).
Qed.

Lemma header_text_nonnil c : 6 ≤ len (header_text c).
Proof.
  unfold header_text, header_json. cbn [marshal]. cbn [map Join]. rewrite !len_app. change (len (gs "{")) with 1. change (len (gs "}")) with 1.
  change (len (gs ",")) with 1. change (len (gs ":")) with 1.
  repeat match goal with |- context [len ?x] => lazymatch goal with H : 0 ≤ len x |- _ => fail | _ => pose proof (len_nonneg x) end end.
  lia.
Qed.

(** C38. In the framing the package documents a command is read back with
    every field of its header and with its body, whatever its bytes, and the
    next command is read from behind it. *)
Theorem rocketmq_roundtrip c rest (Hc : command_ok c) :
  ReadRemotingCommand (enc_command c ++ rest) = Got (Some (shown_command c)) rest.
Proof.
  pose proof Hc as (_ & _ & _ & _ & _ & _ & _ & Hmax). pose proof (header_text_nonnil c) as Hh. pose proof (len_nonneg (c_body c)).
  unfold frame_len, header_len, RocketMQMaxFrameSize in *.
  assert (be_val (be_bytes 4 (frame_len c)) = frame_len c) as Hv by (apply be_val_bytes_small; unfold frame_len, header_len; lia).
  unfold enc_command. rewrite <-app_assoc, read_frame.
  2: { by len_simpl. }
  2: { rewrite Hv. unfold frame_size, RocketMQMinFrameSize, RocketMQMaxFrameSize, frame_len, header_len. lia. }
  2: { rewrite Hv. unfold frame_len, header_len. len_simpl. lia. }
  rewrite Hv. unfold parse_frame. rewrite ztake_app_eq by by len_simpl.
  rewrite be_val_bytes_small by (unfold header_len; lia). cbv zeta.
  remember (header_text c) as text eqn:Et. remember (c_body c) as body eqn:Eb.
  assert (len (be_bytes 4 (header_len c) ++ text ++ body) = frame_len c - 4) as Hlen by (unfold frame_len, header_len; rewrite <-Et, <-Eb; len_simpl; lia).
  assert (header_len c = 4 + len text) as Hhl by (unfold header_len; by rewrite <-Et).
  assert (frame_len c = 4 + header_len c + len body) as Hfl by (unfold frame_len; by rewrite <-Eb).
  destruct (Z.ltb_spec (header_len c) 4); [lia|]. rewrite Hlen.
  destruct (Z.ltb_spec (frame_len c - 4 + 4) (header_len c)); [lia|]. cbn [orb].
  rewrite (sub_mid (be_bytes 4 (header_len c)) text body 4 (header_len c)) by (rewrite len_be_bytes; lia). cbn [mbind go_bind].
  assert ((if header_len c + 4 <? frame_len c then sub (be_bytes 4 (header_len c) ++ text ++ body) (header_len c) (frame_len c - 4) else Ret [])
    = Ret body) as ->.
  { destruct (Z.ltb_spec (header_len c + 4) (frame_len c)) as [Hb|Hb].
    - rewrite <-(app_nil_r body) at 1. rewrite app_assoc. apply sub_mid; len_simpl; lia.
    - rewrite (len_0_nil body); [done|]. lia. }
  cbn [mbind go_bind]. rewrite Et, unmarshal_header by done. unfold finish_command, shown_command. rewrite <-Eb. cbn [d_cmd d_body d_slice slice_bytes].
  by rewrite ztake_ge by lia.
Qed.

(** A command as RocketMQ frames it: neither length counts itself. *)
Definition real_frame (c : command) : list byte :=
  let message := header_text c ++ c_body c in
  be_bytes 4 (4 + len message) ++ be_bytes 4 (len (header_text c)) ++ message.

(** C39. Of a command as RocketMQ frames it the reader leaves the last four
    bytes in the stream, where it looks for the next frame; the header it cuts
    off is no JSON, so every field of the command stays zero, and what it
    takes for the body starts with the end of the header. *)
Theorem real_frames_unread c rest (Hc : command_ok c) :
  let message := header_text c ++ c_body c in
  let h := len (header_text c) in
  let body := ztake (len (c_body c)) (zdrop (h - 4) message) in
  ReadRemotingCommand (real_frame c ++ rest) =
    Got (Some (mkCommand (4 + len message) h (ztake (h - 4) (header_text c)) body 0 [] 0 0 0 [] ∅ (if 0 <? len body then preview body else [])))
        (zdrop (len message - 4) message ++ rest).
Proof.
  intros message h body. pose proof Hc as (_ & _ & _ & _ & _ & _ & _ & Hmax). pose proof (header_text_nonnil c) as Hh.
  pose proof (len_nonneg (c_body c)) as Hb. unfold frame_len, header_len, RocketMQMaxFrameSize in Hmax.
  assert (len message = h + len (c_body c)) as Hm by (unfold message, h; by len_simpl).
  assert (be_val (be_bytes 4 (4 + len message)) = 4 + len message) as Hv by (apply be_val_bytes_small; lia).
  assert (unmarshal (ztake (h - 4) (header_text c)) = Some) as Hun.
  { assert (parse_json (ztake (h - 4) (header_text c)) = None) as Hn.
    { apply (parse_prefix 2 (header_json c) _ (zdrop (h - 4) (header_text c))); [by apply header_json_ok|by vm_compute| |done| |].
      - apply (marshal_ascii _ 2). by apply header_json_ok.
      - by rewrite ztake_zdrop.
      - intros Hn. assert (len (zdrop (h - 4) (header_text c)) = 0) as H0 by (by rewrite Hn). len_simpl. fold h in H0. lia. }
    unfold unmarshal. by rewrite Hn. }
  unfold real_frame. cbv zeta. fold message h.
  replace ((be_bytes 4 (4 + len message) ++ be_bytes 4 h ++ message) ++ rest)
    with (be_bytes 4 (4 + len message) ++ (be_bytes 4 h ++ ztake (len message - 4) message) ++ zdrop (len message - 4) message ++ rest)
    by (by rewrite <-!app_assoc, (app_assoc (ztake _ _)), ztake_zdrop).
  rewrite read_frame.
  2: { by len_simpl. }
  2: { rewrite Hv. unfold frame_size, RocketMQMinFrameSize, RocketMQMaxFrameSize. lia. }
  2: { rewrite Hv. len_simpl. lia. }
  rewrite Hv. unfold parse_frame. rewrite ztake_app_eq by by len_simpl. rewrite be_val_bytes_small by lia. cbv zeta.
  set (remaining := be_bytes 4 h ++ ztake (len message - 4) message).
  assert (len remaining = len message) as Hlen by (unfold remaining; len_simpl; lia). rewrite Hlen.
  destruct (Z.ltb_spec h 4); [lia|]. destruct (Z.ltb_spec (len message + 4) h); [lia|]. cbn [orb].
  assert (∀ a, 4 ≤ a → zdrop a remaining = zdrop (a - 4) (ztake (len message - 4) message)) as Hd.
  { intros a Ha. replace a with (4 + (a - 4)) at 1 by lia. rewrite <-zdrop_zdrop by lia. unfold remaining. by rewrite zdrop_app_eq by by len_simpl. }
  assert (∀ n a, 0 ≤ a → 0 ≤ n → a + n ≤ len message - 4 → ztake n (zdrop a (ztake (len message - 4) message)) = ztake n (zdrop a message)) as Ht.
  { intros n a Ha Hn Han. unfold ztake, zdrop. rewrite !take_drop_commute, take_take. do 2 f_equal. lia. }
  rewrite (sub_Ret remaining 4 h) by lia. rewrite (Hd 4) by lia. rewrite Ht by lia. replace (4 - 4) with 0 by lia. rewrite (zdrop_nonpos 0) by lia.
  assert (ztake (h - 4) message = ztake (h - 4) (header_text c)) as -> by (unfold message; apply ztake_app_le; unfold h; lia). cbn [mbind go_bind].
  assert ((if h + 4 <? 4 + len message then sub remaining h (len message) else Ret []) = Ret body) as ->.
  { unfold body. destruct (Z.ltb_spec (h + 4) (4 + len message)).
    - rewrite sub_Ret, Hd, Ht by lia. by replace (len message - h) with (len (c_body c)) by lia.
    - by rewrite ztake_nonpos by lia. }
  cbn [mbind go_bind]. rewrite Hun. unfold finish_command. cbn [d_cmd d_body d_slice slice_bytes]. by rewrite (ztake_ge (len body)) by lia.
Qed.

Definition demo_command : command :=
  mkCmd 10 (gs "JAVA") 1 42 0 [] [(gs "topic", gs "TestTopic"); (gs "consumerGroup", gs "TestGroup")] (gs "hello world").
Lemma demo_command_ok : command_ok demo_command.
Proof. unfold command_ok, is_int64. split_and!; try (vm_compute; split; congruence); try (vm_compute; congruence); repeat constructor. Qed.
Lemma rocketmq_roundtrip_witness :
  ∃ cmd, ReadRemotingCommand (enc_command demo_command ++ gs "next") = Got (Some cmd) (gs "next")
    ∧ Opaque cmd = 42 ∧ ExtFields cmd !! gs "topic" = Some (gs "TestTopic").
Proof.
  exists (shown_command demo_command). split; [apply (rocketmq_roundtrip demo_command), demo_command_ok|].
  split; [reflexivity|vm_compute; reflexivity].
Defined.
Lemma real_frames_unread_witness :
  ∃ cmd, ReadRemotingCommand (real_frame demo_command ++ []) = Got (Some cmd) (gs "orld") ∧ Code cmd = 0 ∧ Body cmd = gs "p" ++ [Byte.x22] ++ gs "}}hello w".
Proof.
  eexists. split; [rewrite (real_frames_unread demo_command []) by apply demo_command_ok; vm_compute; reflexivity|].
  split; vm_compute; reflexivity.
Defined.
