(* ===== verification/Dubbo.v ===== *)
(** * Dubbo (src/dubboport)

    The header with its flags, the heuristics that look for the service, the
    method, the parameters and the attachments of a request in its body, the
    reader of messages, the detector and the printer. *)

From S2P Require Import Prelude GoBytes GoStrings Unicode Window Reader Json Java.

Definition DubboMagicNumber : Z := 55995.
Definition DubboHeaderSize : Z := 16.
Definition FlagSerializationMask : Z := 31.
Definition FlagTwoway : Z := 32.
Definition FlagEvent : Z := 64.
Definition FlagApacheTwoway : Z := 64.
Definition FlagApacheEvent : Z := 32.

(** ** Names of serializations and statuses *)

Definition SerializationHessian2 : Z := 0.
Definition SerializationJava : Z := 1.
Definition SerializationCompactedJava : Z := 2.
Definition SerializationNativeJava : Z := 3.
Definition SerializationFastJson : Z := 4.
Definition SerializationHessian1 : Z := 5.
Definition SerializationKryo : Z := 6.
Definition SerializationFst : Z := 7.
Definition SerializationJson : Z := 8.
Definition SerializationMsgPack : Z := 9.
Definition SerializationProtobuf : Z := 10.
Definition SerializationProtobufJson : Z := 11.
Definition serializationNames : list (Z * list byte) :=
  [(SerializationHessian2, gs "hessian2"); (SerializationJava, gs "java"); (SerializationCompactedJava, gs "compactedjava");
   (SerializationNativeJava, gs "nativejava"); (SerializationFastJson, gs "fastjson"); (SerializationHessian1, gs "hessian1");
   (SerializationKryo, gs "kryo"); (SerializationFst, gs "fst"); (SerializationJson, gs "json");
   (SerializationMsgPack, gs "msgpack"); (SerializationProtobuf, gs "protobuf"); (SerializationProtobufJson, gs "protobuf-json")].
Definition SerializationType_String (s : Z) : list byte :=
  match assoc s serializationNames with Some name => name | None => gs "unknown(" ++ Itoa s ++ gs ")" end.

Definition StatusOK : Z := 20.
Definition StatusClientTimeout : Z := 30.
Definition StatusServerTimeout : Z := 31.
Definition StatusBadRequest : Z := 40.
Definition StatusBadResponse : Z := 50.
Definition StatusServiceNotFound : Z := 60.
Definition StatusServiceError : Z := 70.
Definition StatusServerError : Z := 80.
Definition StatusClientError : Z := 90.
Definition StatusServerThreadpoolExhausted : Z := 100.
Definition statusNames : list (Z * list byte) :=
  [(StatusOK, gs "OK"); (StatusClientTimeout, gs "CLIENT_TIMEOUT"); (StatusServerTimeout, gs "SERVER_TIMEOUT");
   (StatusBadRequest, gs "BAD_REQUEST"); (StatusBadResponse, gs "BAD_RESPONSE"); (StatusServiceNotFound, gs "SERVICE_NOT_FOUND");
   (StatusServiceError, gs "SERVICE_ERROR"); (StatusServerError, gs "SERVER_ERROR"); (StatusClientError, gs "CLIENT_ERROR");
   (StatusServerThreadpoolExhausted, gs "SERVER_THREADPOOL_EXHAUSTED")].
Definition StatusString (status : Z) : list byte :=
  match assoc status statusNames with Some name => name | None => gs "UNKNOWN(" ++ Itoa status ++ gs ")" end.

(** ** The header *)

Record DubboHeader := mkHeader {
  Magic : Z; h_Flag : Z; Status : Z; RequestID : Z; DataLength : Z;
  SerializationID : Z; IsTwoway : bool; IsEvent : bool; IsRequest : bool }.
Definition has_flag (flag mask : Z) : bool := negb (Z.land flag mask =? 0).

(** The inner [None] is an error. *)
Definition ParseDubboHeader (data : list byte) : go (error + DubboHeader) :=
  if len data <? DubboHeaderSize then Ret (inl (ErrText (gs "dubbo header too short: " ++ Itoa (len data) ++ gs " bytes")))
  else
    magic ← be_at 2 data 0;
    if negb (magic =? DubboMagicNumber) then Ret (inl (ErrText (gs "not dubbo protocol: magic=0x" ++ fmt_02x (magic / 256) ++ fmt_02x (magic mod 256))))
    else
      flag ← index data 2; status ← index data 3; id ← be_at 8 data 4; dataLength ← be_at 4 data 12;
      let flag := bz flag in let status := bz status in
      Ret (inr (mkHeader magic flag status id dataLength (Z.land flag FlagSerializationMask)
                  (has_flag flag FlagTwoway) (has_flag flag FlagEvent) (status =? 0))).

Definition set_flags (h : DubboHeader) (twoway event : bool) : DubboHeader :=
  mkHeader (Magic h) (h_Flag h) (Status h) (RequestID h) (DataLength h) (SerializationID h) twoway event (IsRequest h).
Definition fixupFlags (h : DubboHeader) : DubboHeader :=
  if negb (IsRequest h) || (DataLength h <=? 50) then h
  else if IsTwoway h && negb (IsEvent h) then h
  else
    let apacheTwoway := has_flag (h_Flag h) FlagApacheTwoway in
    let apacheEvent := has_flag (h_Flag h) FlagApacheEvent in
    if apacheTwoway && negb apacheEvent && (50 <? DataLength h) then set_flags h apacheTwoway apacheEvent
    else if 200 <? DataLength h then
      if negb (eqb apacheTwoway (IsTwoway h)) || negb (eqb apacheEvent (IsEvent h)) then
        if apacheTwoway && negb (IsTwoway h) then set_flags h apacheTwoway apacheEvent else h
      else h
    else h.

(** ** The message *)

Definition KVPair : Type := list byte * list byte.
Record DubboMessage := mkDubbo {
  Header : DubboHeader; Body : list byte;
  ServiceName : list byte; ServiceVersion : list byte; MethodName : list byte; ParamTypes : list byte;
  ResponseStatus : list byte; HasException : bool;
  Params : list KVPair; Attachments : list KVPair;
  ParsedArgs : option jargs; ArgStartPos : Z;
  IsRealHeartbeat : bool; ShowBody : bool }.
Definition new_message (h : DubboHeader) (body : list byte) : DubboMessage :=
  mkDubbo h body [] [] [] [] [] false [] [] None 0 false false.

Definition set_Header (x : DubboHeader) (m : DubboMessage) : DubboMessage :=
  mkDubbo x (Body m) (ServiceName m) (ServiceVersion m) (MethodName m) (ParamTypes m) (ResponseStatus m) (HasException m)
    (Params m) (Attachments m) (ParsedArgs m) (ArgStartPos m) (IsRealHeartbeat m) (ShowBody m).
Definition set_ServiceName (x : list byte) (m : DubboMessage) : DubboMessage :=
  mkDubbo (Header m) (Body m) x (ServiceVersion m) (MethodName m) (ParamTypes m) (ResponseStatus m) (HasException m)
    (Params m) (Attachments m) (ParsedArgs m) (ArgStartPos m) (IsRealHeartbeat m) (ShowBody m).
Definition set_ServiceVersion (x : list byte) (m : DubboMessage) : DubboMessage :=
  mkDubbo (Header m) (Body m) (ServiceName m) x (MethodName m) (ParamTypes m) (ResponseStatus m) (HasException m)
    (Params m) (Attachments m) (ParsedArgs m) (ArgStartPos m) (IsRealHeartbeat m) (ShowBody m).
Definition set_MethodName (x : list byte) (m : DubboMessage) : DubboMessage :=
  mkDubbo (Header m) (Body m) (ServiceName m) (ServiceVersion m) x (ParamTypes m) (ResponseStatus m) (HasException m)
    (Params m) (Attachments m) (ParsedArgs m) (ArgStartPos m) (IsRealHeartbeat m) (ShowBody m).
Definition set_ParamTypes (x : list byte) (m : DubboMessage) : DubboMessage :=
  mkDubbo (Header m) (Body m) (ServiceName m) (ServiceVersion m) (MethodName m) x (ResponseStatus m) (HasException m)
    (Params m) (Attachments m) (ParsedArgs m) (ArgStartPos m) (IsRealHeartbeat m) (ShowBody m).
Definition set_Response (status : list byte) (exc : bool) (m : DubboMessage) : DubboMessage :=
  mkDubbo (Header m) (Body m) (ServiceName m) (ServiceVersion m) (MethodName m) (ParamTypes m) status exc
    (Params m) (Attachments m) (ParsedArgs m) (ArgStartPos m) (IsRealHeartbeat m) (ShowBody m).
Definition set_Params (x : list KVPair) (m : DubboMessage) : DubboMessage :=
  mkDubbo (Header m) (Body m) (ServiceName m) (ServiceVersion m) (MethodName m) (ParamTypes m) (ResponseStatus m) (HasException m)
    x (Attachments m) (ParsedArgs m) (ArgStartPos m) (IsRealHeartbeat m) (ShowBody m).
Definition set_Attachments (x : list KVPair) (m : DubboMessage) : DubboMessage :=
  mkDubbo (Header m) (Body m) (ServiceName m) (ServiceVersion m) (MethodName m) (ParamTypes m) (ResponseStatus m) (HasException m)
    (Params m) x (ParsedArgs m) (ArgStartPos m) (IsRealHeartbeat m) (ShowBody m).
Definition set_ParsedArgs (x : option jargs) (m : DubboMessage) : DubboMessage :=
  mkDubbo (Header m) (Body m) (ServiceName m) (ServiceVersion m) (MethodName m) (ParamTypes m) (ResponseStatus m) (HasException m)
    (Params m) (Attachments m) x (ArgStartPos m) (IsRealHeartbeat m) (ShowBody m).
Definition set_ArgStartPos (x : Z) (m : DubboMessage) : DubboMessage :=
  mkDubbo (Header m) (Body m) (ServiceName m) (ServiceVersion m) (MethodName m) (ParamTypes m) (ResponseStatus m) (HasException m)
    (Params m) (Attachments m) (ParsedArgs m) x (IsRealHeartbeat m) (ShowBody m).
Definition set_IsRealHeartbeat (x : bool) (m : DubboMessage) : DubboMessage :=
  mkDubbo (Header m) (Body m) (ServiceName m) (ServiceVersion m) (MethodName m) (ParamTypes m) (ResponseStatus m) (HasException m)
    (Params m) (Attachments m) (ParsedArgs m) (ArgStartPos m) x (ShowBody m).
Definition set_ShowBody (x : bool) (m : DubboMessage) : DubboMessage :=
  mkDubbo (Header m) (Body m) (ServiceName m) (ServiceVersion m) (MethodName m) (ParamTypes m) (ResponseStatus m) (HasException m)
    (Params m) (Attachments m) (ParsedArgs m) (ArgStartPos m) (IsRealHeartbeat m) x.

(** ** Texts in a body *)

Definition isReadableString (s : list byte) : bool :=
  if len s =? 0 then false else forallb (λ b, (32 <=? bz b) && (bz b <=? 126)) s.
Definition isNumericDotOnly (s : list byte) : bool :=
  if len s =? 0 then false else forallb (λ r, (r =? 46) || ((48 <=? r) && (r <=? 57))) (runes s).
Definition containsDot (s : list byte) : bool := existsb (Z.eqb 46) (runes s).
Definition isReadable (b : byte) : bool :=
  let z := bz b in
  ((97 <=? z) && (z <=? 122)) || ((65 <=? z) && (z <=? 90)) || ((48 <=? z) && (z <=? 57)) || (z =? 46) || (z =? 95) || (z =? 47) || (z =? 36).

(** The readable runs of at least [minLen] bytes; [run] is the one before the
    place of the scan. *)
Fixpoint extract_loop (minLen : Z) (run data : list byte) : list (list byte) :=
  let found := if negb (str_eqb run []) && (minLen <=? len run) then [run] else [] in
  match data with
  | [] => found
  | b :: data => if isReadable b then extract_loop minLen (run ++ [b]) data else found ++ extract_loop minLen [] data
  end.
Definition extractReadableStrings (data : list byte) (minLen : Z) : list (list byte) := extract_loop minLen [] data.

(** The place of the first element that satisfies [f], or the length. *)
Fixpoint first_index {A} (f : A → bool) (l : list A) : Z :=
  match l with [] => 0 | x :: l => if f x then 0 else 1 + first_index f l end.

(** Strip one digit after the other behind a lower-case letter, from the end. *)
Fixpoint clean_end (r : list byte) : list byte :=
  match r with
  | d :: (c :: _) as t => if is_digit d then if (97 <=? bz c) && (bz c <=? 122) then clean_end t else r else r
  | _ => r
  end.
Definition cleanMethodName (s : list byte) : list byte := rev (clean_end (rev s)).

Definition packages : list (list byte) := map gs ["com."; "org."; "cn."; "net."; "io."; "java."; "javax."]%string.

Section parse.
Context `{UnicodeTables}.

Definition name_rune (r : Z) : bool := IsLetter r || IsDigit r || (r =? 95) || (r =? 36).
Definition isJavaMethodName (s : list byte) : bool :=
  if (len s <? 2) || (64 <? len s) then false
  else match runes s with
       | [] => true
       | r :: rs => (IsLower r || (r =? 95) || (r =? 36)) && forallb name_rune rs
       end.
Definition isAlphanumericDot (s : list byte) : bool :=
  forallb (λ r, IsLetter r || IsDigit r || (r =? 46) || (r =? 95) || (r =? 36) || (r =? 47)) (runes s).
Definition looksLikeMethodOrParam (s : list byte) : go bool :=
  if len s <? 2 then Ret true
  else b ← index s 0; Ret (IsLower (bz b) || beq b 40 || beq b 91 || beq b 76).
Definition isJavaFieldName (s : list byte) : go bool :=
  if (len s <? 2) || Contains s (gs ".") then Ret false
  else b ← index s 0; Ret (IsLower (bz b) && forallb (λ r, IsLetter r || IsDigit r) (runes s)).

Definition cleanClassName (s : list byte) : list byte :=
  if str_eqb s [] then s
  else if isNumericDotOnly s then []
  else
    match List.find (λ p, 0 <=? Index s p) packages with
    | Some p => zdrop (Index s p) s
    | None =>
        let real ir := let rest := zdrop (ir.1 : Z) s in IsLetter ir.2 && (0 <? ir.1) && containsDot rest && (10 <=? len rest) in
        match List.find real (rune_offsets s) with Some ir => zdrop ir.1 s | None => s end
    end.

(** ** Body layouts *)

(** The strings behind two bytes of length: the place behind them, the
    readable ones, the end of the last readable one. *)
Fixpoint header_strings (n : nat) (body : list byte) (pos : Z) (strs : list (list byte)) (lastEnd : Z) : go (Z * list (list byte) * Z) :=
  match n with
  | O => Ret (pos, strs, lastEnd)
  | S n =>
      if pos + 2 <=? len body then
        length ← be_at 2 body pos;
        let pos := pos + 2 in
        if (length <=? 0) || (10000 <? length) || (len body <? pos + length) then Ret (pos, strs, lastEnd)
        else
          s ← sub body pos (pos + length);
          let pos := pos + length in
          if isReadableString s then header_strings n body pos (strs ++ [s]) pos else header_strings n body pos strs lastEnd
      else Ret (pos, strs, lastEnd)
  end.
(** The first start of a Java stream, or of an object, from [scan] on. *)
Fixpoint find_stream (fuel : nat) (body : list byte) (scan : Z) : go (option Z) :=
  match fuel with
  | O => Ret None
  | S fuel =>
      if scan + 2 <=? len body then
        magic ← (if scan + 4 <=? len body then
                   a ← be_at 2 body scan;
                   if a =? 44269 then b ← be_at 2 body (scan + 2); Ret (b =? 5) else Ret false
                 else Ret false);
        if magic : bool then Ret (Some scan)
        else
          b ← index body scan;
          if beq b 115 then Ret (Some scan) else find_stream fuel body (scan + 1)
      else Ret None
  end.

Definition set_names (service version method : list byte) (m : DubboMessage) : DubboMessage :=
  let m := set_ServiceVersion version (set_ServiceName service m) in
  if isJavaMethodName method then set_MethodName method m else m.
Definition param_like (s : list byte) : bool := Contains s (gs ";") || Contains s (gs "(").
(** The first method name in front of the parameter types. *)
Definition guess_method (strs : list (list byte)) (m : DubboMessage) : DubboMessage :=
  let paramTypeIdx := first_index param_like strs in
  let ok s := isJavaMethodName s && negb (str_eqb s (ServiceName m)) && negb (str_eqb s (ServiceVersion m)) in
  match List.find ok (ztake paramTypeIdx strs) with Some s => set_MethodName s m | None => m end.

Definition assign_header (strs : list (list byte)) (m : DubboMessage) : DubboMessage :=
  match strs with
  | s0 :: s1 :: s2 :: s3 :: more =>
      let m :=
        if isNumericDotOnly s1 then
          match more with
          | s4 :: _ => if containsDot s2 then set_names s2 s3 s4 m else m
          | [] => m
          end
        else if containsDot s1 then set_names s1 s2 s3 m
        else if str_eqb s1 s0 && (5 <=? len strs) && containsDot s2 then
          match more with s4 :: _ => set_names s2 s3 s4 m | [] => m end
        else if containsDot s2 then
          match more with
          | s4 :: _ => set_names s2 s3 s4 m
          | [] => set_ServiceVersion s3 (set_ServiceName s2 m)
          end
        else m in
      let m := if str_eqb (MethodName m) [] then guess_method strs m else m in
      if 5 <=? len strs then set_ParamTypes (List.last strs []) m else m
  | _ => m
  end.
Definition parseCompactedJavaDirect (m : DubboMessage) : go DubboMessage :=
  let body := Body m in
  if len body <? 2 then Ret m
  else
    '(pos, strs, lastEnd) ← header_strings 8 body 0 [] 0;
    let start := if (lastEnd =? 0) && (2 <=? pos) then pos - 2 else lastEnd in
    found ← find_stream (S (length body)) body start;
    Ret (assign_header strs (set_ArgStartPos (default 0 found) m)).

(** [attachBoundary] *)
Definition boundary_word (s : list byte) : bool :=
  HasPrefix s (gs "_") || str_eqb s (gs "interface") || str_eqb s (gs "path") || str_eqb s (gs "timeout")
  || str_eqb s (gs "version") || param_like s.
Fixpoint longest_service (strs : list (list byte)) (service : list byte) : go (list byte) :=
  match strs with
  | [] => Ret service
  | s :: strs =>
      if containsDot s && (len service <? len s) then
        l ← looksLikeMethodOrParam s;
        longest_service strs (if l : bool then service else s)
      else longest_service strs service
  end.
Definition parseCompactedJavaBody (m : DubboMessage) : go DubboMessage :=
  let foundStrs := extractReadableStrings (Body m) 5 in
  if len foundStrs =? 0 then Ret m
  else
    service ← longest_service foundStrs (ServiceName m);
    let m := set_ServiceName service m in
    let m := if str_eqb (ServiceName m) [] then
               match List.find (λ s, (8 <=? len s) && isAlphanumericDot s) foundStrs with
               | Some s => set_ServiceName s m
               | None => m
               end
             else m in
    let attachBoundary := first_index boundary_word foundStrs in
    let ok s := isJavaMethodName s && negb (str_eqb s (ServiceName m)) in
    if str_eqb (MethodName m) [] then
      match List.find ok (ztake attachBoundary foundStrs) with
      | Some s => Ret (set_MethodName s m)
      | None => match List.find ok foundStrs with Some s => Ret (set_MethodName s m) | None => Ret m end
      end
    else Ret m.

Definition generic_step (m : DubboMessage) (s : list byte) : DubboMessage :=
  let m := if containsDot s && str_eqb (ServiceName m) [] then set_ServiceName s m else m in
  if isJavaMethodName s && str_eqb (MethodName m) [] && negb (str_eqb s (ServiceName m)) then set_MethodName s m else m.
Definition parseGenericBody (m : DubboMessage) : DubboMessage :=
  fold_left generic_step (extractReadableStrings (Body m) 4) m.

(** A string behind a tag; [None] is a place of -1. *)
Definition hessian_text (data : list byte) (pos length : Z) : go (option (list byte * Z)) :=
  if len data <? pos + length then Ret None else s ← sub data pos (pos + length); Ret (Some (s, pos + length)).
Definition readHessian2String (data : list byte) (pos : Z) : go (option (list byte * Z)) :=
  if len data <=? pos then Ret None
  else
    tag ← index data pos;
    let pos := pos + 1 in
    if bz tag <=? 31 then hessian_text data pos (bz tag)
    else if beq tag 48 then
      if len data <=? pos then Ret None else l ← index data pos; hessian_text data (pos + 1) (bz l)
    else if beq tag 49 then
      if len data <? pos + 2 then Ret None else l ← be_at 2 data pos; hessian_text data (pos + 2) l
    else if beq tag 50 || beq tag 51 then
      if len data <? pos + 4 then Ret None else l ← be_at 4 data pos; hessian_text data (pos + 4) l
    else Ret None.
Fixpoint hessian_strings (n : nat) (data : list byte) (pos : Z) (strs : list (list byte)) : go (list (list byte)) :=
  match n with
  | O => Ret strs
  | S n =>
      if pos <? len data then
        r ← readHessian2String data pos;
        match r with Some (s, next) => hessian_strings n data next (strs ++ [s]) | None => Ret strs end
      else Ret strs
  end.
Definition parseRequestMetadata (m : DubboMessage) : go DubboMessage :=
  if len (Body m) <? 2 then Ret m
  else
    strs ← hessian_strings 6 (Body m) 1 [];
    Ret (match strs with
         | _ :: s1 :: s2 :: s3 :: more =>
             let m := set_MethodName s3 (set_ServiceVersion s2 (set_ServiceName s1 m)) in
             match more with s4 :: _ => set_ParamTypes s4 m | [] => m end
         | _ => m
         end).

(** ** Parameters and attachments *)

Definition attach_word (s : list byte) : bool :=
  (3 <=? len s) &&
  (HasPrefix s (gs "_") || str_eqb s (gs "interface") || str_eqb s (gs "path") || str_eqb s (gs "timeout") || str_eqb s (gs "version")
   || str_eqb s (gs "sw8") || HasPrefix s (gs "sw8-") || str_eqb s (gs "accesslog") || str_eqb s (gs "custom-request-response-id")).
Fixpoint collect_params (seen : gset (list byte)) (strs : list (list byte)) (params : list KVPair) : go (list KVPair) :=
  match strs with
  | [] => Ret params
  | s :: strs =>
      if bool_decide (s ∈ seen) || (len s <? 2) || (50 <? len s) then collect_params seen strs params
      else
        f ← isJavaFieldName s;
        if f : bool then collect_params ({[s]} ∪ seen) strs (params ++ [(s, [])]) else collect_params seen strs params
  end.
Fixpoint pair_attachments (strs : list (list byte)) : list KVPair :=
  match strs with
  | key :: val :: strs =>
      (if (Contains key (gs ".") && (30 <? len key)) || (len key <? 2) || (50 <? len key) then []
       else [(key, if 60 <? len val then ztake 60 val ++ gs "..." else val)])
      ++ pair_attachments strs
  | _ => []
  end.

Context `{JavaRuntime, MapOrder}.

Definition parseAttachmentsFromJava (m : DubboMessage) : comp DubboMessage :=
  if (ArgStartPos m <=? 0) || (len (Body m) <=? ArgStartPos m) then Val m
  else
    attachMap ← ParseJavaSerializedAttachments (Body m) (ArgStartPos m);
    match attachMap with
    | Some a => Val (set_Attachments (Attachments m ++ range_map a) m)
    | None => Val m
    end.
Definition java_args (m : DubboMessage) : bool :=
  match ParsedArgs m with Some _ => SerializationID (Header m) =? SerializationCompactedJava | None => false end.
Definition parseBodyParams (m : DubboMessage) : comp DubboMessage :=
  if len (Body m) <? 4 then Val m
  else
    m ← (if java_args m then parseAttachmentsFromJava m else Val m);
    let allStrings := extractReadableStrings (Body m) 2 in
    let attachStart := first_index attach_word allStrings in
    let seen : gset (list byte) := {[ServiceName m; MethodName m; ServiceVersion m]} in
    params ← of_go (collect_params seen (ztake attachStart allStrings) (Params m));
    let m := set_Params params m in
    if java_args m then Val m
    else Val (set_Attachments (Attachments m ++ pair_attachments (zdrop attachStart allStrings)) m).

(** ** The whole body *)

Definition parse_by_type (m : DubboMessage) : go DubboMessage :=
  let t := SerializationID (Header m) in
  if t =? SerializationCompactedJava then
    m ← parseCompactedJavaDirect m;
    if str_eqb (ServiceName m) [] && str_eqb (MethodName m) [] then parseCompactedJavaBody m else Ret m
  else if (t =? SerializationHessian2) || (t =? SerializationHessian1) then parseRequestMetadata m
  else Ret (parseGenericBody m).
Definition clean_names (m : DubboMessage) : DubboMessage :=
  let m := if negb (str_eqb (ServiceName m) []) then set_ServiceName (cleanClassName (ServiceName m)) m else m in
  if negb (str_eqb (MethodName m) []) then set_MethodName (cleanMethodName (MethodName m)) m else m.
Definition retry_service (m : DubboMessage) : go DubboMessage :=
  if (SerializationID (Header m) =? SerializationCompactedJava) && (str_eqb (ServiceName m) [] || isNumericDotOnly (ServiceName m)) then
    let savedName := ServiceName m in
    m ← parseCompactedJavaBody (set_ServiceName [] m);
    Ret (if str_eqb (ServiceName m) [] && negb (str_eqb savedName []) then set_ServiceName savedName m else m)
  else Ret m.
Definition parse_args (m : DubboMessage) : comp DubboMessage :=
  if (SerializationID (Header m) =? SerializationCompactedJava) && (0 <? ArgStartPos m) && (ArgStartPos m <? len (Body m)) then
    parsed ← ParseJavaSerializedArgs (Body m) (ArgStartPos m);
    match parsed with
    | Some a => Val (if decide (args_map a = ∅) then m else set_ParsedArgs (Some a) m)
    | None => Val m
    end
  else Val m.
Definition label_event (m : DubboMessage) : DubboMessage :=
  if IsEvent (Header m) && str_eqb (MethodName m) [] then
    set_MethodName (if IsRealHeartbeat m then gs "heartbeat" else gs "(event)") m
  else m.
Definition ParseDubboBody (m : DubboMessage) : comp DubboMessage :=
  let m := set_Header (fixupFlags (Header m)) m in
  let h := Header m in
  if negb (IsRequest h) then Val (set_Response (StatusString (Status h)) (negb (Status h =? StatusOK)) m)
  else
    let m := set_IsRealHeartbeat (IsEvent h && (len (Body m) <=? 50)) m in
    m ← of_go (parse_by_type m);
    let m := if str_eqb (ServiceName m) [] && str_eqb (MethodName m) [] && (2 <? len (Body m)) then parseGenericBody m else m in
    m ← of_go (retry_service (clean_names m));
    m ← parse_args m;
    m ← (if IsRequest (Header m) && (4 <? len (Body m)) then parseBodyParams m else Val m);
    Val (label_event m).

Definition DetectDubbo (data : list byte) : go bool :=
  if len data <? 2 then Ret false else magic ← be_at 2 data 0; Ret (magic =? DubboMagicNumber).

Definition ReadDubboMessage : parser DubboMessage :=
  headerBuf ← read_n DubboHeaderSize;
  header ← lift (ParseDubboHeader headerBuf);
  match header with
  | inl e => throw e
  | inr header =>
      body ← wrap (gs "dubbo body read error: ") (read_n (DataLength header));
      liftc (ParseDubboBody (new_message header body))
  end.
End parse.

(** ** The printer *)

(** [hex.Dump]: sixteen bytes a line, with their characters. *)
Definition to_char (b : byte) : byte := if (bz b <? 32) || (126 <? bz b) then Byte.x2e else b.
Fixpoint hex_cells (i : Z) (s : list byte) (n : nat) : list byte :=
  match n with
  | O => []
  | S n =>
      let gap := if i =? 7 then gs " " else if i =? 15 then gs " |" else [] in
      match s with
      | b :: s => fmt_02x (bz b) ++ gs " " ++ gap ++ hex_cells (i + 1) s n
      | [] => gs "   " ++ gap ++ hex_cells (i + 1) [] n
      end
  end.
Definition hex_line (offset : Z) (s : list byte) : list byte :=
  let o k := fmt_02x (Z.land (Z.shiftr offset k) 255) in
  o 24 ++ o 16 ++ o 8 ++ o 0 ++ gs "  " ++ hex_cells 0 s 16 ++ map to_char s ++ gs "|" ++ [newline].
Fixpoint dump_loop (fuel : nat) (offset : Z) (s : list byte) : list byte :=
  match fuel, s with
  | S fuel, _ :: _ => hex_line offset (ztake 16 s) ++ dump_loop fuel (offset + 16) (zdrop 16 s)
  | _, _ => []
  end.
Definition hex_Dump (s : list byte) : list byte := dump_loop (length s) 0 s.

(** The JSON text of a finite [float64], given by its bits. *)
Class JsonFloats := { json_float : Z → list byte }.

Section format.
Context `{JsonFloats}.

(** [json.MarshalIndent] of the arguments; [None] is its error on a number
    that is not finite and on a map that is inside itself: a way down through
    more maps than there are passes one of them twice.  A descriptor has no
    exported fields. *)
Definition json_bits (bits : Z) : option json :=
  if Z.land (Z.shiftr bits 52) 2047 =? 2047 then None else Some (VNum (json_float bits)).
Fixpoint args_json (objs : list jmap) (fuel : nat) (v : jval) {struct fuel} : option json :=
  (fix go (v : jval) : option json :=
    match v with
    | JNil => Some VNull
    | JInt n | JChar n => Some (VNum (Itoa n))
    | JFloat bits => json_bits bits
    | JBool b => Some (VBool b)
    | JStr s => Some (VStr s)
    | JArr l => VArr <$> mapM go l
    | JMap id =>
        match fuel with
        | O => None
        | S fuel =>
            m ← objs !! id;
            VObj <$> mapM (λ kv, w ← args_json objs fuel kv.2; Some (kv.1, w)) (sorted_entries m)
        end
    | JClass _ => Some (VObj [])
    end) v.
Definition MarshalIndent_args (a : jargs) : option (list byte) :=
  let value kv := w ← args_json (args_objects a) (S (length (args_objects a))) kv.2; Some (kv.1, w) in
  marshal_indent (gs "    ") (gs "  ") 0 <$> (VObj <$> mapM value (sorted_entries (args_map a))).

Definition line (label value : list byte) : list byte := gs "  " ++ label ++ gs ": " ++ value ++ [newline].
Definition body_dump (m : DubboMessage) : list byte := gs "  Body:" ++ [newline] ++ hex_Dump (Body m) ++ [newline].
Definition pair_line (kv : KVPair) : list byte := gs "    " ++ pad_right 22 (kv.1 ++ gs ":") ++ gs " " ++ kv.2 ++ [newline].
Definition format_fields (m : DubboMessage) : list byte :=
  match ParsedArgs m with
  | Some a => match MarshalIndent_args a with Some t => gs "  Args: " ++ t ++ [newline] | None => [] end
  | None =>
      (match Params m with
       | [] => []
       | ps => gs "  Params:" ++ [newline]
               ++ concat (map (λ p, if str_eqb p.2 [] then gs "    " ++ p.1 ++ [newline] else pair_line p) ps)
       end)
      ++ (match Attachments m with [] => [] | l => gs "  Attachments:" ++ [newline] ++ concat (map pair_line l) end)
      ++ (match Params m, Attachments m with
          | [], [] => if 0 <? len (Body m) then body_dump m else []
          | _, _ => []
          end)
  end.
Definition FormatDubbo (m : DubboMessage) : list byte :=
  let h := Header m in
  let size := line (gs "Data Length") (Itoa (DataLength h) ++ gs " bytes") in
  let ser := line (gs "Serialization") (SerializationType_String (SerializationID h)) in
  if negb (IsRequest h) then
    gs "Dubbo Response  id=" ++ Itoa (RequestID h) ++ gs "  status=" ++ ResponseStatus m ++ [newline] ++ ser ++ size
    ++ (if HasException m && (0 <? len (Body m)) then body_dump m else [])
  else
    gs "Dubbo Request  id=" ++ Itoa (RequestID h) ++ gs "  twoway=" ++ fmt_bool (IsTwoway h) ++ [newline]
    ++ line (gs "Service") (ServiceName m)
    ++ (if str_eqb (ServiceVersion m) [] then [] else line (gs "Version") (ServiceVersion m))
    ++ line (gs "Method") (MethodName m) ++ ser
    ++ (if str_eqb (ParamTypes m) [] then [] else line (gs "Param Types") (ParamTypes m))
    ++ size ++ (if ShowBody m then format_fields m else []).
Definition FormatDubboURL (m : DubboMessage) : list byte :=
  let h := Header m in
  if IsRealHeartbeat m then gs "[heartbeat] id=" ++ Itoa (RequestID h) ++ [newline]
  else if IsEvent h then ServiceName m ++ gs "/" ++ MethodName m ++ gs " [event] id=" ++ Itoa (RequestID h) ++ [newline]
  else if IsRequest h then ServiceName m ++ gs "/" ++ MethodName m ++ [newline]
  else gs "id=" ++ Itoa (RequestID h) ++ gs "  " ++ ResponseStatus m ++ [newline].
End format.
Example dump_line : hex_Dump (gs "Hello Gopher!!!!A") =
  gs "00000000  48 65 6c 6c 6f 20 47 6f  70 68 65 72 21 21 21 21  |Hello Gopher!!!!|" ++ [newline] ++
  gs "00000010  41                                                |A|" ++ [newline].
Proof. vm_compute. reflexivity. Qed.
