(* ===== verification/DubboProps.v ===== *)
(** * Properties of the Dubbo reader

    The reader takes exactly its frame and ends on every body; the header, the
    layout of its flags, and requests in the layouts the heuristics expect are
    read back; a request as Dubbo writes it in Hessian loses a short service. *)

From S2P Require Import Prelude GoBytes GoStrings Unicode Window Reader Java JavaProps JavaRead Dubbo.

(** ** Nothing in a body makes the heuristics panic *)

Section safety.
Context `{UnicodeTables}.

Definition same_frame (m m' : DubboMessage) : Prop := Header m' = Header m ∧ Body m' = Body m.
Lemma same_frame_trans m m1 m2 : same_frame m m1 → same_frame m1 m2 → same_frame m m2.
Proof. intros [??] [??]. split; congruence. Qed.
Lemma same_frame_if (b : bool) m m1 m2 : same_frame m m1 → same_frame m m2 → same_frame m (if b then m1 else m2).
Proof. by destruct b. Qed.

Lemma header_strings_ok n body : ∀ pos strs last, 0 ≤ pos → 0 ≤ last →
  returns (header_strings n body pos strs last) (λ r, 0 ≤ r.1.1 ∧ 0 ≤ r.2).
Proof.
  induction n as [|n IH]; intros pos strs last Hp Hl; cbn [header_strings]; [by apply returns_Ret|].
  destruct (Z.leb_spec (pos + 2) (len body)); [|by apply returns_Ret].
  apply (returns_bind _ _ _ _ (returns_be_at 2 body pos ltac:(lia) ltac:(lia) ltac:(lia))). intros v [_ Hv]. cbv zeta.
  destruct (_ || _) eqn:E; [apply returns_Ret; cbn; lia|]. zbool.
  rewrite sub_Ret by lia. cbn [mbind go_bind]. destruct (isReadableString _); apply IH; lia.
Qed.
Lemma find_stream_ok fuel body : ∀ scan, 0 ≤ scan → returns (find_stream fuel body scan) (λ _, True).
Proof.
  induction fuel as [|fuel IH]; intros scan Hs; cbn [find_stream]; [by apply returns_Ret|].
  destruct (Z.leb_spec (scan + 2) (len body)); [|by apply returns_Ret].
  apply (returns_bind _ _ (λ _, True)).
  - destruct (Z.leb_spec (scan + 4) (len body)); [|by apply returns_Ret].
    apply (returns_bind _ _ _ _ (returns_be_at 2 body scan ltac:(lia) ltac:(lia) ltac:(lia))). intros a _.
    destruct (a =? 44269); [|by apply returns_Ret].
    apply (returns_bind _ _ _ _ (returns_be_at 2 body (scan + 2) ltac:(lia) ltac:(lia) ltac:(lia))). intros b _. by apply returns_Ret.
  - intros [|] _; [by apply returns_Ret|].
    apply (returns_bind _ _ _ _ (returns_index body scan ltac:(lia))). intros b _. destruct (beq b 115); [by apply returns_Ret|]. apply IH. lia.
Qed.
Lemma set_names_frame s v t m : same_frame m (set_names s v t m).
Proof. unfold set_names. by destruct (isJavaMethodName t). Qed.
Lemma assign_header_frame strs m : same_frame m (assign_header strs m).
Proof.
  assert (∀ m', same_frame m m' → same_frame m (guess_method strs m')) as Hg.
  { intros m' Hm. unfold guess_method. destruct (List.find _ _); [|done]. destruct Hm. by split. }
  destruct strs as [|s0 [|s1 [|s2 [|s3 more]]]]; try done. cbn [assign_header].
  lazymatch goal with |- context [guess_method _ ?m1] => assert (same_frame m m1) as Hm end.
  { destruct (isNumericDotOnly s1); [destruct more; [done|]; by apply same_frame_if; [apply set_names_frame|]|].
    apply same_frame_if; [apply set_names_frame|]. apply same_frame_if; [destruct more; [done|apply set_names_frame]|].
    apply same_frame_if; [destruct more; [done|apply set_names_frame]|done]. }
  match goal with |- same_frame m (if ?c then set_ParamTypes _ ?m2 else _) => assert (same_frame m m2) as [H1 H2] end.
  { apply same_frame_if; [by apply Hg|done]. }
  apply same_frame_if; [|by split]. by split.
Qed.
Lemma parseCompactedJavaDirect_ok m : returns (parseCompactedJavaDirect m) (same_frame m).
Proof.
  unfold parseCompactedJavaDirect. destruct (len (Body m) <? 2); [by apply returns_Ret|].
  apply (returns_bind _ _ _ _ (header_strings_ok 8 (Body m) 0 [] 0 ltac:(lia) ltac:(lia))). intros [[pos strs] last] [Hp Hl]. cbn [fst snd] in *.
  cbv zeta. set (start := if _ : bool then pos - 2 else last).
  assert (0 ≤ start) as Hs by (unfold start; destruct (Z.leb_spec 2 pos); [|by rewrite andb_false_r]; destruct (_ && _); lia).
  apply (returns_bind _ _ _ _ (find_stream_ok _ (Body m) start Hs)). intros found _. apply returns_Ret.
  exact (assign_header_frame strs (set_ArgStartPos (default 0 found) m)).
Qed.
Lemma longest_service_ok strs : ∀ service, returns (longest_service strs service) (λ _, True).
Proof.
  induction strs as [|s strs IH]; intros service; cbn [longest_service]; [by apply returns_Ret|].
  destruct (_ && _); [|apply IH]. unfold looksLikeMethodOrParam. destruct (Z.ltb_spec (len s) 2); [apply IH|].
  cbn [mbind]. apply (returns_bind _ _ (λ _, True)); [|intros; apply IH].
  apply (returns_bind _ _ _ _ (returns_index s 0 ltac:(lia))). intros b _. by apply returns_Ret.
Qed.
Lemma parseCompactedJavaBody_ok m : returns (parseCompactedJavaBody m) (same_frame m).
Proof.
  unfold parseCompactedJavaBody. destruct (_ =? 0); [by apply returns_Ret|].
  apply (returns_bind _ _ _ _ (longest_service_ok _ _)). intros service _. cbv zeta.
  lazymatch goal with |- context [if str_eqb (ServiceName ?a) [] then ?b else ?a] => set (m1 := if str_eqb (ServiceName a) [] then b else a) end.
  assert (same_frame m m1) as [H1 H2] by (unfold m1; apply same_frame_if; [by destruct (List.find _ _)|by split]).
  clearbody m1. destruct (str_eqb (MethodName m1) []); [|by apply returns_Ret].
  set (ok := λ s, _ : bool). destruct (List.find ok (ztake _ _)); [by apply returns_Ret|].
  destruct (List.find ok _); by apply returns_Ret.
Qed.
Lemma parseGenericBody_frame m : same_frame m (parseGenericBody m).
Proof.
  unfold parseGenericBody. generalize (extractReadableStrings (Body m) 4) as strs.
  assert (∀ strs m', same_frame m m' → same_frame m (fold_left generic_step strs m')) as Hg; [|intros strs; by apply Hg].
  induction strs as [|s strs IH]; intros m' Hm; [done|]. cbn [fold_left]. apply IH. unfold generic_step.
  destruct Hm. apply same_frame_if; [|by apply same_frame_if].
  by destruct (containsDot s && _).
Qed.
Lemma hessian_text_ok data pos length : 0 ≤ pos → 0 ≤ length →
  returns (hessian_text data pos length) (λ r, ∀ s next, r = Some (s, next) → 0 ≤ next).
Proof.
  intros Hp Hl. unfold hessian_text. destruct (Z.ltb_spec (len data) (pos + length)); [by apply returns_Ret|].
  rewrite sub_Ret by lia. cbn [mbind go_bind]. apply returns_Ret. intros s next [= _ <-]. lia.
Qed.
Lemma readHessian2String_ok data pos : 0 ≤ pos → returns (readHessian2String data pos) (λ r, ∀ s next, r = Some (s, next) → 0 ≤ next).
Proof.
  intros Hp. unfold readHessian2String. destruct (Z.leb_spec (len data) pos); [by apply returns_Ret|].
  apply (returns_bind _ _ _ _ (returns_index data pos ltac:(lia))). intros tag _. cbv zeta. pose proof (bz_range tag).
  destruct (bz tag <=? 31); [apply hessian_text_ok; lia|]. destruct (beq tag 48).
  { destruct (Z.leb_spec (len data) (pos + 1)); [by apply returns_Ret|].
    apply (returns_bind _ _ _ _ (returns_index data (pos + 1) ltac:(lia))). intros l _. pose proof (bz_range l). apply hessian_text_ok; lia. }
  destruct (beq tag 49).
  { destruct (Z.ltb_spec (len data) (pos + 1 + 2)); [by apply returns_Ret|].
    apply (returns_bind _ _ _ _ (returns_be_at 2 data (pos + 1) ltac:(lia) ltac:(lia) ltac:(lia))). intros l [_ Hl]. apply hessian_text_ok; lia. }
  destruct (_ || _); [|by apply returns_Ret].
  destruct (Z.ltb_spec (len data) (pos + 1 + 4)); [by apply returns_Ret|].
  apply (returns_bind _ _ _ _ (returns_be_at 4 data (pos + 1) ltac:(lia) ltac:(lia) ltac:(lia))). intros l [_ Hl]. apply hessian_text_ok; lia.
Qed.
Lemma hessian_strings_ok n data : ∀ pos strs, 0 ≤ pos → returns (hessian_strings n data pos strs) (λ r, ∃ more, r = strs ++ more).
Proof.
  assert (∀ strs : list (list byte), ∃ more, strs = strs ++ more) as Hnil by (intros strs; exists []; by rewrite app_nil_r).
  induction n as [|n IH]; intros pos strs Hp; cbn [hessian_strings]; [by apply returns_Ret|].
  destruct (pos <? len data); [|by apply returns_Ret].
  apply (returns_bind _ _ _ _ (readHessian2String_ok data pos Hp)). intros [[s next]|] Hn; [|by apply returns_Ret].
  eapply returns_mono; [apply IH; by eapply Hn|]. intros r [more ->]. exists (s :: more). by rewrite <-app_assoc.
Qed.
Lemma parse_by_type_ok m : returns (parse_by_type m) (same_frame m).
Proof.
  unfold parse_by_type. cbv zeta. destruct (_ =? SerializationCompactedJava).
  - apply (returns_bind _ _ _ _ (parseCompactedJavaDirect_ok m)). intros m1 H1. destruct (_ && _); [|by apply returns_Ret].
    eapply returns_mono; [apply parseCompactedJavaBody_ok|]. intros m2 H2. by eapply same_frame_trans.
  - destruct (_ || _); [|apply returns_Ret, parseGenericBody_frame]. unfold parseRequestMetadata.
    destruct (_ <? 2); [by apply returns_Ret|]. apply (returns_bind _ _ _ _ (hessian_strings_ok 6 (Body m) 1 [] ltac:(lia))).
    intros strs _. apply returns_Ret. destruct strs as [|? [|? [|? [|? [|]]]]]; by split.
Qed.
Lemma retry_service_ok m : returns (retry_service m) (same_frame m).
Proof.
  unfold retry_service. destruct (_ && _); [|by apply returns_Ret]. cbv zeta.
  apply (returns_bind _ _ _ _ (parseCompactedJavaBody_ok (set_ServiceName [] m))). intros m1 H1. apply returns_Ret.
  destruct H1. by apply same_frame_if; split.
Qed.
Lemma collect_params_ok strs : ∀ seen params, returns (collect_params seen strs params) (λ _, True).
Proof.
  induction strs as [|s strs IH]; intros seen params; cbn [collect_params]; [by apply returns_Ret|].
  destruct (_ || _) eqn:E; [apply IH|]. zbool. apply (returns_bind _ _ (λ _, True)); [|intros [|] _; apply IH].
  unfold isJavaFieldName. destruct (_ || _); [by apply returns_Ret|].
  apply (returns_bind _ _ _ _ (returns_index s 0 ltac:(lia))). intros b _. by apply returns_Ret.
Qed.

Context `{JavaRuntime, MapOrder}.

(** A computation on the message of a body: only a long string in a body in
    compacted Java makes it panic, only a reference there makes it recurse
    without end, and it keeps the header and the body. *)
Definition java_ok (m : DubboMessage) (r : comp DubboMessage) : Prop :=
  match r with
  | Val _ => True
  | Crashed => SerializationID (Header m) = SerializationCompactedJava ∧ long_string (Body m)
  | NoFuel => SerializationID (Header m) = SerializationCompactedJava ∧ reference (Body m)
  end.
Definition safe_on (m : DubboMessage) (r : comp DubboMessage) : Prop :=
  java_ok m r ∧ ∀ m', r = Val m' → same_frame m m'.
Lemma safe_Val m m' : same_frame m m' → safe_on m (Val m').
Proof. intros Hm. split; [done|]. by intros ? [= <-]. Qed.
Lemma safe_on_bind m r f : safe_on m r → (∀ m', same_frame m m' → safe_on m' (f m')) → safe_on m (r ≫= f).
Proof.
  intros [Hr Hm] Hf. destruct r as [m1| |]; [|done|done]. pose proof (Hm m1 eq_refl) as Hm1. destruct (Hf m1 Hm1) as [Hf1 Hf2].
  cbn [mbind comp_bind]. destruct Hm1 as [Hh Hb]. unfold java_ok in *. rewrite Hb, Hh in *. split; [done|]. intros m' E. destruct (Hf2 m' E). split; congruence.
Qed.
Lemma safe_go m g : returns g (same_frame m) → safe_on m (of_go g).
Proof. intros (m' & -> & Hm). by apply safe_Val. Qed.
Lemma parse_args_safe m : len (Body m) ≤ max_alloc → safe_on m (parse_args m).
Proof.
  intros Hlen. unfold parse_args. destruct (_ && _) eqn:E; [|by apply safe_Val]. zbool.
  destruct (entries_ok (Body m) (ArgStartPos m) Hlen ltac:(lia)) as [Ha _]. unfold safe_on, java_ok.
  split; [|]; destruct (ParseJavaSerializedArgs _ _) as [[a|]| |]; try done; cbn [mbind comp_bind].
  - intros m' [= <-]. by destruct (decide _).
  - by intros m' [= <-].
Qed.
Lemma parseAttachmentsFromJava_safe m : len (Body m) ≤ max_alloc → java_args m = true → safe_on m (parseAttachmentsFromJava m).
Proof.
  intros Hlen Hj. assert (SerializationID (Header m) = SerializationCompactedJava) as Hser.
  { unfold java_args in Hj. destruct (ParsedArgs m); [by apply Z.eqb_eq in Hj|done]. }
  unfold parseAttachmentsFromJava. destruct (_ || _) eqn:E; [by apply safe_Val|]. zbool.
  destruct (entries_ok (Body m) (ArgStartPos m) Hlen ltac:(lia)) as [_ Ha]. unfold safe_on, java_ok.
  split; [|]; destruct (ParseJavaSerializedAttachments _ _) as [[a|]| |]; try done; cbn [mbind comp_bind]; by intros m' [= <-].
Qed.
Lemma parseBodyParams_safe m : len (Body m) ≤ max_alloc → safe_on m (parseBodyParams m).
Proof.
  intros Hlen. unfold parseBodyParams. destruct (_ <? 4); [by apply safe_Val|].
  apply safe_on_bind; [destruct (java_args m) eqn:Hj; [by apply parseAttachmentsFromJava_safe|by apply safe_Val]|]. intros m1 _. cbv zeta.
  lazymatch goal with |- context [collect_params ?a ?b ?c] => destruct (collect_params_ok b a c) as (params & -> & _) end.
  cbn [of_go mbind comp_bind]. destruct (java_args _); by apply safe_Val.
Qed.
Lemma fixupFlags_or h : fixupFlags h = h ∨ ∃ twoway event, fixupFlags h = set_flags h twoway event.
Proof. unfold fixupFlags. cbv zeta. repeat match goal with |- context [if ?c then _ else _] => destruct c end; eauto. Qed.
Lemma fixupFlags_type h : SerializationID (fixupFlags h) = SerializationID h.
Proof. by destruct (fixupFlags_or h) as [-> | (? & ? & ->)]. Qed.
Lemma fixupFlags_request h : IsRequest (fixupFlags h) = IsRequest h ∧ RequestID (fixupFlags h) = RequestID h ∧ DataLength (fixupFlags h) = DataLength h.
Proof. by destruct (fixupFlags_or h) as [-> | (? & ? & ->)]. Qed.
Lemma ParseDubboBody_safe m : len (Body m) ≤ max_alloc → java_ok m (ParseDubboBody m)
  ∧ ∀ m', ParseDubboBody m = Val m' → Body m' = Body m ∧ Header m' = fixupFlags (Header m).
Proof.
  intros Hlen. set (m0 := set_Header (fixupFlags (Header m)) m).
  assert (safe_on m0 (ParseDubboBody m)) as [Hs Hm].
  2: { split; [|intros m' E; by destruct (Hm m' E)]. unfold java_ok in *. unfold m0 in Hs. cbn [set_Header Header Body] in Hs. by rewrite fixupFlags_type in Hs. }
  unfold ParseDubboBody. fold m0. cbv zeta. destruct (negb _); [by apply safe_Val|].
  set (m1 := set_IsRealHeartbeat _ m0). change (safe_on m1 (m2 ← of_go (parse_by_type m1);
    m3 ← of_go (retry_service (clean_names (if str_eqb (ServiceName m2) [] && str_eqb (MethodName m2) [] && (2 <? len (Body m2)) then parseGenericBody m2 else m2)));
    m4 ← parse_args m3; m5 ← (if IsRequest (Header m4) && (4 <? len (Body m4)) then parseBodyParams m4 else Val m4); Val (label_event m5))).
  apply safe_on_bind; [apply safe_go, parse_by_type_ok|]. intros m2 [H2 B2].
  apply safe_on_bind.
  { apply safe_go. lazymatch goal with |- context [clean_names ?x] => set (m2' := x) end. assert (same_frame m2 (clean_names m2')) as Hc.
    { assert (same_frame m2 m2') as [??] by (unfold m2'; apply same_frame_if; [apply parseGenericBody_frame|done]).
      unfold clean_names. destruct (negb (str_eqb (ServiceName m2') [])); by apply same_frame_if; split. }
    eapply returns_mono; [apply retry_service_ok|]. intros m3 H3. by eapply same_frame_trans. }
  intros m3 [H3 B3]. apply safe_on_bind; [apply parse_args_safe; rewrite B3, B2; exact Hlen|].
  intros m4 [H4 B4]. apply safe_on_bind.
  { destruct (IsRequest (Header m4) && _); [apply parseBodyParams_safe; rewrite B4, B3, B2; exact Hlen|by apply safe_Val]. }
  intros m5 _. apply safe_Val. unfold label_event. by apply same_frame_if.
Qed.

(** ** Frames *)

Definition enc_header (flag status : byte) (id n : Z) : list byte :=
  be_bytes 2 DubboMagicNumber ++ [flag; status] ++ be_bytes 8 id ++ be_bytes 4 n.
Definition header_of (flag status : byte) (id n : Z) : DubboHeader :=
  mkHeader DubboMagicNumber (bz flag) (bz status) id n (Z.land (bz flag) FlagSerializationMask)
    (has_flag (bz flag) FlagTwoway) (has_flag (bz flag) FlagEvent) (bz status =? 0).
Lemma len_enc_header flag status id n : len (enc_header flag status id n) = 16.
Proof. unfold enc_header. by len_simpl. Qed.
Lemma parse_enc_header flag status id n : 0 ≤ id < 2 ^ 64 → 0 ≤ n < 2 ^ 32 →
  ParseDubboHeader (enc_header flag status id n) = Ret (inr (header_of flag status id n)).
Proof.
  intros Hid Hn. unfold ParseDubboHeader. rewrite len_enc_header. change (16 <? DubboHeaderSize) with false. cbv iota.
  unfold enc_header. rewrite (be_at_head 2) by done. cbn [mbind go_bind].
  change (DubboMagicNumber mod 256 ^ Z.of_nat 2 =? DubboMagicNumber) with true. cbn [negb].
  set (magic := be_bytes 2 DubboMagicNumber).
  assert (∀ k x, 0 ≤ k → index (magic ++ x) (2 + k) = index x k) as Hi by (intros k x Hk; by apply (index_app_r magic x k)).
  rewrite (Hi 0 _ ltac:(lia) : index _ 2 = _), (Hi 1 _ ltac:(lia) : index _ 3 = _). cbn [app].
  rewrite (index_cons_0 flag). change (index (flag :: status :: ?s) 1) with (Ret status). cbn [mbind go_bind].
  rewrite (app_assoc magic [flag; status] (be_bytes 8 id ++ be_bytes 4 n) : magic ++ flag :: status :: _ = _).
  rewrite (be_at_mid 8 (magic ++ [flag; status]) id (be_bytes 4 n) 4 8) by reflexivity. rewrite (Z.mod_small id) by lia. cbn [mbind go_bind].
  rewrite app_assoc, <-(app_nil_r (be_bytes 4 n)), (be_at_mid 4 ((magic ++ [flag; status]) ++ be_bytes 8 id) n [] 12 4) by reflexivity.
  rewrite (Z.mod_small n) by lia. done.
Qed.

Lemma read_dubbo_frame flag status id body rest : 0 ≤ id < 2 ^ 64 → len body < 2 ^ 32 →
  ReadDubboMessage (enc_header flag status id (len body) ++ body ++ rest) =
    liftc (ParseDubboBody (new_message (header_of flag status id (len body)) body)) rest.
Proof.
  intros Hid Hb. pose proof (len_nonneg body). unfold ReadDubboMessage.
  erewrite bind_Got by (apply read_n_app; [by rewrite len_enc_header|by vm_compute]).
  unfold lift. unfold mbind at 1, parser_bind at 1. rewrite parse_enc_header by lia.
  erewrite bind_Got by (apply wrap_Got, read_n_app; [done|unfold max_alloc; cbn; lia]). done.
Qed.

(** The inverse: a header that is accepted is an encoded one. *)
Lemma header_inv hdr h : len hdr = 16 → ParseDubboHeader hdr = Ret (inr h) → 0 ≤ DataLength h < 2 ^ 32.
Proof.
  intros Hl. unfold ParseDubboHeader. rewrite Hl. change (16 <? DubboHeaderSize) with false. cbv iota.
  rewrite !be_at_Ret by lia. cbn [mbind go_bind]. destruct (negb _); [done|].
  destruct (index_Ret hdr 2 ltac:(lia)) as (a & -> & _), (index_Ret hdr 3 ltac:(lia)) as (b & -> & _). cbn [mbind go_bind].
  intros [= <-]. cbn [DataLength]. unfold be_val. pose proof (le_val_range_n (rev (ztake 4 (zdrop 12 hdr))) 4 ltac:(lia)) as Hr.
  apply Hr. rewrite len_rev. len_simpl. lia.
Qed.
Lemma header_total hdr : len hdr = 16 → ∃ r, ParseDubboHeader hdr = Ret r.
Proof.
  intros Hl. unfold ParseDubboHeader. rewrite Hl. change (16 <? DubboHeaderSize) with false. cbv iota.
  rewrite !be_at_Ret by lia. cbn [mbind go_bind]. destruct (negb _); [by eexists|].
  destruct (index_Ret hdr 2 ltac:(lia)) as (a & -> & _), (index_Ret hdr 3 ltac:(lia)) as (b & -> & _). by eexists.
Qed.

(** What can be read is detected. *)
Lemma read_dubbo_detected s m rest : ReadDubboMessage s = Got m rest → DetectDubbo (ztake 24 s) = Ret true.
Proof.
  intros Hr. unfold ReadDubboMessage in Hr.
  destruct (read_n_cases DubboHeaderSize s) as [(hdr & s1 & Hg & -> & Hl)|(e & Hg & _)]; [by vm_compute| |].
  2: { unfold mbind, parser_bind in Hr. by rewrite Hg in Hr. }
  rewrite (bind_Got _ _ _ _ _ Hg) in Hr. unfold lift in Hr. unfold mbind at 1, parser_bind at 1 in Hr.
  destruct (header_total hdr Hl) as [r Hp]. rewrite Hp in Hr. destruct r as [e|h]; [done|]. clear Hr Hg.
  change DubboHeaderSize with 16 in Hl. unfold ParseDubboHeader in Hp. rewrite Hl in Hp. change (16 <? DubboHeaderSize) with false in Hp. cbv iota in Hp.
  rewrite (be_at_Ret 2 hdr 0) in Hp by lia. cbn [mbind go_bind] in Hp.
  destruct hdr as [|b0 [|b1 hdr]]; [discriminate Hl|discriminate Hl|]. change (be_val (ztake 2 (zdrop 0 (b0 :: b1 :: hdr)))) with (be_val [b0; b1]) in Hp.
  destruct (Z.eqb_spec (be_val [b0; b1]) DubboMagicNumber) as [Hm|]; [|done]. clear Hp.
  change (ztake 24 ((b0 :: b1 :: hdr) ++ s1)) with (b0 :: b1 :: ztake 22 (hdr ++ s1)). unfold DetectDubbo.
  rewrite !len_cons. pose proof (len_nonneg (ztake 22 (hdr ++ s1))). destruct (Z.ltb_spec (1 + (1 + len (ztake 22 (hdr ++ s1)))) 2); [lia|].
  rewrite be_at_Ret by (rewrite ?len_cons; lia). change (be_val (ztake 2 (zdrop 0 (b0 :: b1 :: _)))) with (be_val [b0; b1]).
  cbn [mbind go_bind]. by rewrite Hm.
Qed.
(** The bytes start with the frame of a request in compacted Java, and its body
    is [bad]. *)
Definition java_frame (bad : list byte → Prop) (s : list byte) : Prop :=
  ∃ hdr h body rest, s = hdr ++ body ++ rest ∧ len hdr = 16 ∧ ParseDubboHeader hdr = Ret (inr h) ∧ IsRequest h = true
    ∧ SerializationID h = SerializationCompactedJava ∧ DataLength h = len body ∧ bad body.

(** A response is never parsed. *)
Lemma ParseDubboBody_response m : IsRequest (Header m) = false → ∃ m', ParseDubboBody m = Val m'.
Proof.
  intros Hr. unfold ParseDubboBody. cbv zeta. cbn [set_Header Header].
  destruct (fixupFlags_request (Header m)) as (-> & _). rewrite Hr. by eexists.
Qed.

Lemma ReadDubboMessage_cases s :
  match ReadDubboMessage s with
  | Got m rest => ∃ hdr, len hdr = 16 ∧ s = hdr ++ Body m ++ rest ∧ DataLength (Header m) = len (Body m)
  | Fail _ rest => ∃ pre, s = pre ++ rest
  | Panicked => java_frame long_string s
  | Spin => java_frame reference s
  end.
Proof.
  unfold ReadDubboMessage. destruct (read_n_cases DubboHeaderSize s) as [(hdr & s1 & Hg & -> & Hl)|(e & Hg & _)]; [by vm_compute| |].
  2: { unfold mbind, parser_bind. rewrite Hg. exists s. by rewrite app_nil_r. }
  rewrite (bind_Got _ _ _ _ _ Hg). unfold lift. unfold mbind at 1, parser_bind at 1.
  destruct (header_total hdr Hl) as [r Hr]. rewrite Hr. destruct r as [e|h]; [by exists hdr|].
  pose proof (header_inv hdr h Hl Hr) as Hn. unfold mbind at 1, parser_bind at 1, wrap.
  destruct (read_n_cases (DataLength h) s1) as [(body & s2 & -> & -> & Hb)|(e & -> & _)]; [unfold max_alloc; lia| |].
  2: { exists (hdr ++ s1). by rewrite app_nil_r. }
  destruct (ParseDubboBody_safe (new_message h body)) as [Hs Hm]; [cbn; unfold max_alloc; lia|].
  unfold liftc, java_ok in *. destruct (ParseDubboBody _) as [m| |] eqn:Ep.
  - destruct (Hm m eq_refl) as [HB HH]. exists hdr. cbn [new_message Body Header] in *. rewrite HB, HH. split_and!; [done|done|].
    destruct (fixupFlags_request h) as (_ & _ & ->). done.
  - destruct (IsRequest h) eqn:Hq; [|destruct (ParseDubboBody_response (new_message h body) Hq); congruence].
    exists hdr, h, body, s2. by destruct Hs.
  - destruct (IsRequest h) eqn:Hq; [|destruct (ParseDubboBody_response (new_message h body) Hq); congruence].
    exists hdr, h, body, s2. by destruct Hs.
Qed.

(** C36. On every stream the reader comes back with a message, whose frame of
    header and body it has taken off the stream, or with an error that leaves
    an end of the stream. The exceptions are frames of requests whose header
    names compacted Java: if the body has the tag of a long string the
    deserializer can panic, if it has that of a reference it can recurse
    forever. No other serialization, and no response, does either. *)
Theorem dubbo_total s :
  match ReadDubboMessage s with
  | Got m rest => ∃ hdr, len hdr = 16 ∧ s = hdr ++ Body m ++ rest ∧ DataLength (Header m) = len (Body m)
  | Fail _ rest => ∃ pre, s = pre ++ rest
  | Panicked => java_frame long_string s
  | Spin => java_frame reference s
  end.
Proof. exact (ReadDubboMessage_cases s). Qed.

(** ** Requests in compacted Java *)

(** A string behind two bytes of length. *)
Definition utf (s : list byte) : list byte := be_bytes 2 (len s) ++ s.
Definition readable (s : list byte) : Prop := isReadableString s = true ∧ len s ≤ 10000.

Lemma header_strings_read strs : ∀ n pre rest acc last, Forall readable strs → (length strs ≤ n)%nat → strs ≠ [] →
  header_strings n (pre ++ concat (map utf strs) ++ rest) (len pre) acc last =
  header_strings (n - length strs) (pre ++ concat (map utf strs) ++ rest) (len pre + len (concat (map utf strs))) (acc ++ strs)
    (len pre + len (concat (map utf strs))).
Proof.
  induction strs as [|s strs IH]; intros n pre rest acc last Hs Hn Hne; [done|]. apply Forall_cons in Hs as [[Hr Hl] Hs].
  destruct n as [|n]; [cbn in Hn; lia|]. cbn [map concat header_strings length Nat.sub].
  assert (0 < len s) as Hpos. { unfold isReadableString in Hr. destruct (Z.eqb_spec (len s) 0); [done|]. pose proof (len_nonneg s). lia. }
  set (tail := concat (map utf strs)) in *. pose proof (len_nonneg tail). pose proof (len_nonneg rest). pose proof (len_nonneg pre).
  assert (len (utf s) = 2 + len s) as Hu by (unfold utf; by len_simpl).
  set (body := pre ++ (utf s ++ tail) ++ rest).
  assert (len body = len pre + 2 + len s + len tail + len rest) as Hb by (unfold body; rewrite !len_app, Hu; lia).
  destruct (Z.leb_spec (len pre + 2) (len body)); [|lia].
  assert (be_at 2 body (len pre) = Ret (len s)) as ->.
  { unfold body, utf. rewrite <-!app_assoc. rewrite (be_at_mid 2 pre (len s) (s ++ tail ++ rest) (len pre) 2) by done.
    rewrite Z.mod_small; [done|]. change (256 ^ Z.of_nat 2) with 65536. lia. }
  cbn [mbind go_bind]. cbv zeta.
  destruct (Z.leb_spec (len s) 0), (Z.ltb_spec 10000 (len s)), (Z.ltb_spec (len body) (len pre + 2 + len s)); try lia. cbn [orb].
  assert (sub body (len pre + 2) (len pre + 2 + len s) = Ret s) as ->.
  { unfold body, utf. rewrite <-!app_assoc, (app_assoc pre). apply sub_mid; len_simpl; lia. }
  cbn [mbind go_bind]. rewrite Hr.
  destruct strs as [|s' strs].
  - subst tail. cbn [map concat length Nat.sub]. rewrite Nat.sub_0_r, app_nil_r, Hu.
    by replace (len pre + (2 + len s)) with (len pre + 2 + len s) by lia.
  - assert (body = (pre ++ utf s) ++ tail ++ rest) as -> by (unfold body; by rewrite <-!app_assoc).
    assert (len pre + 2 + len s = len (pre ++ utf s)) as -> by (rewrite len_app; lia).
    unfold tail at 1. rewrite IH; [|done|cbn in *; lia|done]. fold tail. rewrite <-!app_assoc, len_app. cbn [app].
    rewrite (len_app (utf s)). by replace (len pre + len (utf s) + len tail) with (len pre + (len (utf s) + len tail)) by lia.
Qed.

(** The name of a class that starts with a package the cleaning knows. *)
Definition package_name (s : list byte) : Prop :=
  ∃ p, List.find (λ p, 0 <=? Index s p) packages = Some p ∧ Index s p = 0.
Lemma Index_0 s p : p ≠ [] → Index s p = 0 → ∃ t, s = p ++ t.
Proof.
  intros Hp. destruct s as [|b s]; cbn [Index]; (destruct (HasPrefix _ p) eqn:E; [intros _; by apply HasPrefix_spec|]).
  - destruct p; done.
  - pose proof (Index_bounds s p). pose proof (len_nonneg p). cbv zeta. destruct (Z.ltb_spec (Index s p) 0); lia.
Qed.
Lemma package_name_inv s : package_name s → ∃ p t, p ∈ packages ∧ s = p ++ t ∧ cleanClassName s = s.
Proof.
  intros (p & Hp & Hi). pose proof (find_some _ _ Hp) as [Hin _]. apply list_elem_of_In in Hin.
  assert (p ≠ []) as Hne. { intros ->. revert Hin. by apply (bool_decide_eq_false_1 ([] ∈ packages)). }
  destruct (Index_0 s p Hne Hi) as [t Ht]. exists p, t. split_and!; [done|done|].
  unfold cleanClassName. rewrite str_eqb_neq by (intros ->; by destruct p). rewrite Hp, Hi.
  destruct (isNumericDotOnly s) eqn:E; [|done]. exfalso. revert E. rewrite Ht. clear -Hin.
  unfold packages in Hin. cbn [map] in Hin. repeat (apply elem_of_cons in Hin as [->|Hin]; [done|]). by apply elem_of_nil in Hin.
Qed.
Lemma package_name_dotted s : package_name s → isNumericDotOnly s = false ∧ containsDot s = true ∧ s ≠ [].
Proof.
  intros (p & t & Hin & -> & _)%package_name_inv. unfold packages in Hin. cbn [map] in Hin.
  repeat (apply elem_of_cons in Hin as [->|Hin]; [done|]). by apply elem_of_nil in Hin.
Qed.

Lemma find_stream_here fuel pre ts last : find_stream (S fuel) (pre ++ java_stream ts last) (len pre) = Ret (Some (len pre)).
Proof.
  cbn [find_stream]. unfold java_stream. set (rest := concat _ ++ _). rewrite !len_app, !len_be_bytes. pose proof (len_nonneg rest).
  destruct (Z.leb_spec (len pre + 2) (len pre + (Z.of_nat 2 + (Z.of_nat 2 + len rest)))); [|lia].
  destruct (Z.leb_spec (len pre + 4) (len pre + (Z.of_nat 2 + (Z.of_nat 2 + len rest)))); [|lia].
  rewrite (be_at_mid 2 pre _streamMagic _ (len pre)) by done. cbn [mbind go_bind].
  change (_streamMagic mod 256 ^ Z.of_nat 2 =? 44269) with true. cbv iota.
  rewrite app_assoc, (be_at_mid 2) by (rewrite ?len_app, ?len_be_bytes; done). done.
Qed.
Lemma header_strings_stop n pre ts more acc last : header_strings (S n) (pre ++ java_stream ts more) (len pre) acc last = Ret (len pre + 2, acc, last).
Proof.
  cbn [header_strings]. unfold java_stream. set (rest := concat _ ++ _). rewrite !len_app, !len_be_bytes. pose proof (len_nonneg rest).
  destruct (Z.leb_spec (len pre + 2) (len pre + (Z.of_nat 2 + (Z.of_nat 2 + len rest)))); [|lia].
  rewrite (be_at_mid 2 pre _streamMagic _ (len pre)) by done. cbn [mbind go_bind]. cbv zeta.
  change (_streamMagic mod 256 ^ Z.of_nat 2) with 44269. change ((44269 <=? 0) || (10000 <? 44269)) with true. done.
Qed.

Lemma Contains_app pre p post : Contains (pre ++ p ++ post) p = true.
Proof.
  unfold Contains. apply Z.leb_le. induction pre as [|b pre IH]; cbn [app].
  - destruct (p ++ post) as [|b s] eqn:E; cbn [Index]; rewrite <-E, HasPrefix_app; lia.
  - cbn [Index]. destruct (HasPrefix _ _); [lia|]. cbv zeta. destruct (Z.ltb_spec (Index (pre ++ p ++ post) p) 0); lia.
Qed.
Lemma class_scan_absent fuel body name : Contains body name = false → ∀ p, 0 ≤ p → class_scan body fuel p name = Ret (-1).
Proof.
  intros Hc. induction fuel as [|fuel IH]; intros p Hp; cbn [class_scan]; [done|]. cbv zeta. pose proof (len_nonneg name).
  destruct (Z.leb_spec (p + 3 + len name) (len body)); [|done].
  destruct (index_Ret body p ltac:(lia)) as (b & -> & _). cbn [mbind go_bind]. destruct (negb _); [apply IH; lia|].
  rewrite be_at_Ret by lia. cbn [mbind go_bind]. destruct (negb _); [apply IH; lia|].
  rewrite sub_Ret by lia. cbn [mbind go_bind]. destruct (str_eqb_spec (ztake (p + 3 + len name - (p + 3)) (zdrop (p + 3) body)) name) as [E|_]; [exfalso|apply IH; lia].
  assert (body = ztake (p + 3) body ++ name ++ zdrop (len name) (zdrop (p + 3) body)) as Hb.
  { replace (p + 3 + len name - (p + 3)) with (len name) in E by lia. rewrite <-(ztake_zdrop (p + 3) body) at 1. f_equal.
    rewrite <-(ztake_zdrop (len name) (zdrop (p + 3) body)) at 1. by rewrite E. }
  rewrite Hb, Contains_app in Hc. done.
Qed.

Lemma cleanMethodName_nonempty s : s ≠ [] → cleanMethodName s ≠ [].
Proof.
  intros Hs Hc. unfold cleanMethodName in Hc. apply (f_equal (@rev byte)) in Hc. rewrite rev_involutive in Hc. cbn [rev] in Hc.
  assert (rev s ≠ []) as Hr by (intros E; apply Hs; by rewrite <-(rev_involutive s), E).
  revert Hc Hr. generalize (rev s) as r. induction r as [|d [|c r] IH]; [done|done|]. cbn [clean_end].
  destruct (is_digit d); [|done]. destruct (_ && _); [|done]. intros Hc _. by apply IH.
Qed.

(** A call in the layout the parser documents for Dubbo 2.5: strings, then the
    arguments, and whatever stands behind them. *)
Record call := mkCall {
  c_dubbo : list byte; c_service : list byte; c_version : list byte; c_method : list byte; c_types : list byte;
  c_args : list tree; c_last : list byte }.
Definition call_header (c : call) : list byte :=
  concat (map utf [c_dubbo c; c_service c; c_version c; c_method c; c_types c]).
Definition enc_call (c : call) : list byte := call_header c ++ java_stream (c_args c) (c_last c).
Definition call_ok (c : call) : Prop :=
  Forall readable [c_dubbo c; c_service c; c_version c; c_method c; c_types c]
  ∧ package_name (c_service c) ∧ isJavaMethodName (c_method c) = true
  ∧ Forall argument_ok (c_args c) ∧ ending (c_last c)
  ∧ (names_of (c_args c) ≠ [] → Contains (enc_call c) (gs "java.util.HashMap") = false) ∧ len (enc_call c) < 2 ^ 32.
(** The message after the header strings have been found. *)
Definition call_message (c : call) (m : DubboMessage) : DubboMessage :=
  set_ParamTypes (c_types c) (set_MethodName (c_method c) (set_ServiceVersion (c_version c) (set_ServiceName (c_service c)
    (set_ArgStartPos (len (call_header c)) m)))).

Lemma call_header_pos c : call_ok c → 10 ≤ len (call_header c).
Proof.
  intros _. unfold call_header. cbn [map concat]. unfold utf. len_simpl.
  repeat match goal with |- context [len ?x] => lazymatch goal with H : 0 ≤ len x |- _ => fail | _ => pose proof (len_nonneg x) end end. lia.
Qed.
Lemma direct_call c m : call_ok c → Body m = enc_call c → MethodName m = [] → parseCompactedJavaDirect m = Ret (call_message c m).
Proof.
  intros Hc Hb Hm. pose proof (call_header_pos c Hc). destruct Hc as (Hr & Hp & Hj & _). unfold parseCompactedJavaDirect. rewrite Hb. cbv zeta.
  assert (10 ≤ len (enc_call c)) as Hl. { unfold enc_call. rewrite len_app. pose proof (len_nonneg (java_stream (c_args c) (c_last c))). lia. }
  destruct (Z.ltb_spec (len (enc_call c)) 2); [lia|].
  pose proof (header_strings_read _ 8 [] (java_stream (c_args c) (c_last c)) [] 0 Hr ltac:(cbn; lia) ltac:(done)) as Hh.
  cbn [app length Nat.sub] in Hh. change (len []) with 0 in Hh. fold (call_header c) in Hh. unfold enc_call. rewrite Hh, Z.add_0_l.
  rewrite (header_strings_stop 2). cbn [mbind go_bind]. cbv zeta.
  destruct (Z.eqb_spec (len (call_header c)) 0); [lia|]. cbn [andb]. rewrite find_stream_here. cbn [mbind go_bind default]. f_equal.
  destruct (package_name_dotted _ Hp) as (Hn & Hd & _). unfold assign_header. rewrite Hn, Hd. unfold set_names at 1. rewrite Hj.
  cbn [set_MethodName set_ServiceVersion set_ServiceName set_ArgStartPos MethodName].
  assert (c_method c ≠ []) as Hne by (intros E; by rewrite E in Hj). rewrite (str_eqb_neq _ _ Hne).
  change (5 <=? len _) with true. cbv iota. unfold set_names. by rewrite Hj.
Qed.

(** The message when its names have been cleaned. *)
Definition cleaned (c : call) (m : DubboMessage) : DubboMessage :=
  set_MethodName (cleanMethodName (c_method c)) (set_ServiceName (c_service c) (call_message c m)).

(** The steps of a body whose layout names the service. *)
Lemma parse_args_at m r : SerializationID (Header m) = SerializationCompactedJava → 0 < ArgStartPos m < len (Body m) →
  ParsedArgs m = None → ParseJavaSerializedArgs (Body m) (ArgStartPos m) = Val r → (∀ a, r = Some a → args_map a ≠ ∅) →
  parse_args m = Val (set_ParsedArgs r m).
Proof.
  intros Hs [Hlo Hhi] Hn Hp Ha. unfold parse_args. rewrite Hs, Hp, (proj2 (Z.ltb_lt _ _) Hlo), (proj2 (Z.ltb_lt _ _) Hhi). cbn.
  destruct r as [a|]; [by rewrite decide_False by by apply Ha|]. by rewrite <-Hn; destruct m.
Qed.
Lemma params_at m : java_args m = true → 0 < ArgStartPos m < len (Body m) → 4 ≤ len (Body m) →
  Contains (Body m) (gs "java.util.HashMap") = false → ∃ params, parseBodyParams m = Val (set_Params params m).
Proof.
  intros Hj [Hlo Hhi] H4 Hmap. unfold parseBodyParams. rewrite Hj, (proj2 (Z.ltb_ge _ _) H4). unfold parseAttachmentsFromJava.
  rewrite (proj2 (Z.leb_gt _ _) Hlo), (proj2 (Z.leb_gt _ _) Hhi). cbn [orb].
  unfold ParseJavaSerializedAttachments, findClassDesc. rewrite class_scan_absent by (done || lia). cbn [of_go mbind comp_bind].
  change (-1 <? 0) with true. cbv iota zeta. cbn [mbind comp_bind].
  lazymatch goal with |- context [collect_params ?x ?y ?z] => destruct (collect_params_ok y x z) as (params & -> & _) end.
  cbn [of_go mbind comp_bind]. exists params. change (java_args (set_Params params m)) with (java_args m). by rewrite Hj.
Qed.
Lemma parseBodyParams_plain m : java_args m = false →
  ∃ ps at_, parseBodyParams m = Val (set_Attachments at_ (set_Params ps m)).
Proof.
  intros Hj.
  unfold parseBodyParams. destruct (_ <? 4); [exists (Params m), (Attachments m); by destruct m|]. rewrite Hj. cbn [mbind comp_bind]. cbv zeta.
  lazymatch goal with |- context [collect_params ?x ?y ?z] => destruct (collect_params_ok y x z) as (params & -> & _) end.
  cbn [of_go mbind comp_bind]. change (java_args (set_Params params m)) with (java_args m). rewrite Hj. by eexists params, _.
Qed.
Definition parse_rest (m : DubboMessage) : comp DubboMessage :=
  m ← of_go (parse_by_type m);
  let m := if str_eqb (ServiceName m) [] && str_eqb (MethodName m) [] && (2 <? len (Body m)) then parseGenericBody m else m in
  m ← of_go (retry_service (clean_names m));
  m ← parse_args m;
  m ← (if IsRequest (Header m) && (4 <? len (Body m)) then parseBodyParams m else Val m);
  Val (label_event m).
Lemma parse_rest_steps m m2 m3 m4 m5 : parse_by_type m = Ret m2 → str_eqb (ServiceName m2) [] = false →
  retry_service (clean_names m2) = Ret m3 → parse_args m3 = Val m4 → IsRequest (Header m4) = true → 4 < len (Body m4) →
  parseBodyParams m4 = Val m5 → parse_rest m = Val (label_event m5).
Proof.
  intros H2 Hs H3 H4 Hr Hl H5. unfold parse_rest. rewrite H2. cbn [of_go mbind comp_bind]. rewrite Hs. cbn [andb]. cbv zeta. rewrite H3.
  cbn [of_go mbind comp_bind]. rewrite H4. cbn [mbind comp_bind]. rewrite Hr, (proj2 (Z.ltb_lt _ _) Hl). cbn [andb]. by rewrite H5.
Qed.
Lemma ParseDubboBody_request m : IsRequest (fixupFlags (Header m)) = true →
  ParseDubboBody m = parse_rest (set_IsRealHeartbeat (IsEvent (fixupFlags (Header m)) && (len (Body m) <=? 50)) (set_Header (fixupFlags (Header m)) m)).
Proof. intros Hr. unfold ParseDubboBody. cbn [set_Header Header Body]. by rewrite Hr. Qed.

Section call.
Context (c : call) (m : DubboMessage) (Hc : call_ok c) (Hb : Body m = enc_call c)
  (Hser : SerializationID (Header m) = SerializationCompactedJava).

Lemma service_some : str_eqb (c_service c) [] = false.
Proof. destruct Hc as (_ & Hp & _). by apply str_eqb_neq, package_name_dotted. Qed.
Lemma method_some : c_method c ≠ [].
Proof. destruct Hc as (_ & _ & Hj & _). intros E. by rewrite E in Hj. Qed.
Lemma len_enc_call : len (call_header c) + 4 ≤ len (enc_call c).
Proof. unfold enc_call, java_stream. rewrite !len_app, !len_be_bytes. pose proof (len_nonneg (concat (map enc_tree (c_args c)))). pose proof (len_nonneg (c_last c)). lia. Qed.
Lemma by_type_call : MethodName m = [] → parse_by_type m = Ret (call_message c m).
Proof.
  intros Hm. unfold parse_by_type. rewrite Hser. cbv zeta. change (SerializationCompactedJava =? SerializationCompactedJava) with true. cbv iota.
  rewrite (direct_call c) by done. cbn [mbind go_bind]. change (ServiceName (call_message c m)) with (c_service c). by rewrite service_some.
Qed.
Lemma clean_call : clean_names (call_message c m) = cleaned c m.
Proof.
  destruct Hc as (_ & Hp & _). destruct (package_name_inv _ Hp) as (_ & _ & _ & _ & Hclean). unfold clean_names.
  change (ServiceName (call_message c m)) with (c_service c). rewrite service_some. cbn [negb]. cbv zeta.
  change (MethodName (set_ServiceName _ (call_message c m))) with (c_method c). rewrite (str_eqb_neq _ _ method_some). cbn [negb]. by rewrite Hclean.
Qed.
Lemma retry_call : retry_service (cleaned c m) = Ret (cleaned c m).
Proof.
  destruct Hc as (_ & Hp & _). destruct (package_name_dotted _ Hp) as (Hnum & _ & _). unfold retry_service.
  change (Header (cleaned c m)) with (Header m). change (ServiceName (cleaned c m)) with (c_service c). by rewrite Hser, service_some, Hnum.
Qed.
Lemma call_pos : 0 < len (call_header c) < len (enc_call c) ∧ 10 ≤ len (enc_call c).
Proof. pose proof (call_header_pos c Hc). pose proof len_enc_call. lia. Qed.
Lemma args_call : ParsedArgs m = None → ∃ r, parse_args (cleaned c m) = Val (set_ParsedArgs r (cleaned c m)) ∧ arguments_read (c_args c) r.
Proof.
  intros Hn. pose proof call_pos as [Hpos _]. destruct Hc as (_ & _ & _ & Ho & Hlast & _ & Hlen).
  destruct (java_args_read (call_header c) (c_args c) (c_last c)) as (r & Hr & Hread); [unfold enc_call in Hlen; unfold max_alloc; lia|done|done|].
  assert (Body (cleaned c m) = enc_call c ∧ ArgStartPos (cleaned c m) = len (call_header c)) as [HB HA] by (by split).
  exists r. split; [|done]. apply parse_args_at; rewrite ?HB, ?HA; try done. intros a ->. apply Hread.
Qed.
Lemma params_call r : arguments_read (c_args c) r → let m' := set_ParsedArgs r (cleaned c m) in
  ∃ params at_, parseBodyParams m' = Val (set_Attachments at_ (set_Params params m')).
Proof.
  pose proof call_pos as [Hpos Hl]. destruct Hc as (_ & _ & _ & _ & _ & Hmap & _). intros Hread m'.
  assert (Body m' = enc_call c ∧ ArgStartPos m' = len (call_header c)) as [HB HA] by (by split).
  destruct r as [a|]; [|by apply parseBodyParams_plain].
  destruct (params_at m') as (params & ->); rewrite ?HB, ?HA; [|done|lia|by apply Hmap, Hread|by exists params, (Attachments (set_Params params m'))].
  unfold java_args. change (Header m') with (Header m). by rewrite Hser.
Qed.
Lemma label_call at_ params r : let m' := set_Attachments at_ (set_Params params (set_ParsedArgs r (cleaned c m))) in label_event m' = m'.
Proof.
  intros m'. unfold label_event. change (MethodName m') with (cleanMethodName (c_method c)).
  by rewrite (str_eqb_neq _ _ (cleanMethodName_nonempty _ method_some)), andb_false_r.
Qed.
Lemma parse_call : MethodName m = [] → ParsedArgs m = None → IsRequest (Header m) = true → ∃ at_ params r,
  arguments_read (c_args c) r ∧
  parse_rest m = Val (set_Attachments at_ (set_Params params (set_ParsedArgs r (cleaned c m)))).
Proof.
  intros Hm Hn Hreq. destruct (args_call Hn) as (r & Ha & Hread), (params_call r Hread) as (params & at_ & Hpar).
  exists at_, params, r. split; [done|].
  rewrite <-label_call. eapply (parse_rest_steps m).
  - by apply by_type_call.
  - apply service_some.
  - rewrite clean_call. apply retry_call.
  - exact Ha.
  - exact Hreq.
  - change (Body (set_ParsedArgs _ _)) with (Body m). rewrite Hb. pose proof call_pos. lia.
  - exact Hpar.
Qed.
End call.

(** A method that does not end in a digit keeps its name. *)
Lemma cleanMethodName_keeps s b : last s = Some b → is_digit b = false → cleanMethodName s = s.
Proof.
  intros [t ->]%last_Some Hb. unfold cleanMethodName. rewrite rev_app_distr. cbn [rev app clean_end].
  destruct (rev t) as [|c r] eqn:E; [by rewrite <-(rev_involutive t), E|]. rewrite Hb, <-E. cbn [rev]. by rewrite rev_involutive.
Qed.


(** ** Requests in Hessian *)

(** A request as Dubbo writes it in Hessian 2: the version [2.0.2] and the
    service, each a string of at most 31 bytes, behind one byte with its
    length. *)
Definition hessian_body (service tail : list byte) : list byte :=
  Byte.x05 :: gs "2.0.2" ++ to_byte (len service) :: service ++ tail.
Lemma short_length_unreadable (s : list byte) : len s ≤ 31 → isReadable (to_byte (len s)) = false.
Proof.
  intros Hs. pose proof (len_nonneg s). unfold isReadable. rewrite bz_to_byte_small by lia.
  apply not_true_iff_false. rewrite !orb_true_iff, !andb_true_iff, !Z.leb_le, !Z.eqb_eq. lia.
Qed.

Lemma generic_keeps strs : ∀ m, ServiceName m ≠ [] → ServiceName (fold_left generic_step strs m) = ServiceName m.
Proof.
  induction strs as [|s strs IH]; intros m Hm; [done|]. cbn [fold_left]. unfold generic_step at 2. cbv zeta.
  rewrite (str_eqb_neq _ _ Hm), andb_false_r. destruct (_ && _); by rewrite IH.
Qed.
Lemma label_event_service m : ServiceName (label_event m) = ServiceName m.
Proof. unfold label_event. destruct (IsEvent (Header m) && str_eqb (MethodName m) []); reflexivity. Qed.
(** What is left of the reading when the serialization is another one. *)
Lemma finish_plain m : SerializationID (Header m) ≠ SerializationCompactedJava →
  ∃ ps at_, (m3 ← of_go (retry_service m); m4 ← parse_args m3;
         m5 ← (if IsRequest (Header m4) && (4 <? len (Body m4)) then parseBodyParams m4 else Val m4); Val (label_event m5))
      = Val (label_event (set_Attachments at_ (set_Params ps m))).
Proof.
  intros Hs. assert ((SerializationID (Header m) =? SerializationCompactedJava) = false) as Hs' by by apply Z.eqb_neq.
  unfold retry_service. rewrite Hs'. cbn [andb of_go mbind comp_bind]. unfold parse_args. rewrite Hs'. cbn [andb mbind comp_bind].
  destruct (_ && _).
  - destruct (parseBodyParams_plain m) as (ps & at_ & ->); [|by exists ps, at_].
    unfold java_args. destruct (ParsedArgs m); [exact Hs'|done].
  - exists (Params m), (Attachments m). by destruct m.
Qed.

(** C37. A request in Hessian 2 as Dubbo writes it, whose service has at most
    31 bytes, is never parsed by its layout, because its first byte is skipped
    as a version: the text of the version is then taken for a tag. The scan for
    texts that follows takes the version for the service, for the length of the
    service ends it, the cleaning removes it, and the service is empty,
    whatever the service is and whatever follows it. (The two bytes of the
    length of a longer service can be texts themselves; it may then be found
    behind the version, as [long_service_found] shows.) *)
Theorem hessian_service_lost flag service tail id rest (Hflag : Z.land (bz flag) FlagSerializationMask = SerializationHessian2)
  (Hservice : len service ≤ 31) (Hid : 0 ≤ id < 2 ^ 64) (Hlen : len (hessian_body service tail) < 774909490) :
  ∃ m, ReadDubboMessage (enc_header flag Byte.x00 id (len (hessian_body service tail)) ++ hessian_body service tail ++ rest) = Got m rest
    ∧ ServiceName m = [].
Proof.
  pose proof (short_length_unreadable service Hservice) as Htag.
  rewrite read_dubbo_frame by lia. set (body := hessian_body service tail) in *. set (h := header_of flag Byte.x00 id (len body)).
  assert (SerializationID (fixupFlags h) = SerializationHessian2) as Hser by (rewrite fixupFlags_type; exact Hflag).
  assert (IsRequest (fixupFlags h) = true) as Hreq by (by destruct (fixupFlags_request h) as (-> & _)).
  assert (7 <= len body) as Hl. { unfold body, hessian_body. len_simpl. pose proof (len_nonneg tail). pose proof (len_nonneg service). change (len (gs "2.0.2")) with 5. lia. }
  unfold ParseDubboBody. cbn [new_message set_Header Header Body]. fold h. rewrite Hreq. cbn [negb]. cbv zeta.
  set (m1 := set_IsRealHeartbeat _ _).
  assert (parse_by_type m1 = Ret m1) as ->.
  { unfold parse_by_type. change (Header m1) with (fixupFlags h). rewrite Hser. cbv zeta. unfold parseRequestMetadata. change (Body m1) with body.
    change ((SerializationHessian2 =? SerializationCompactedJava)) with false. cbv iota. cbn [orb].
    change ((SerializationHessian2 =? SerializationHessian2)) with true. cbn [orb]. destruct (Z.ltb_spec (len body) 2); [lia|].
    cbn [hessian_strings]. destruct (Z.ltb_spec 1 (len body)); [|lia]. unfold readHessian2String.
    destruct (Z.leb_spec (len body) 1); [lia|]. change (index body 1) with (Ret Byte.x32). cbn [mbind go_bind]. cbv zeta.
    change (bz Byte.x32 <=? 31) with false. change (beq Byte.x32 48) with false. change (beq Byte.x32 49) with false. change (beq Byte.x32 50) with true. cbn [orb].
    destruct (Z.ltb_spec (len body) (1 + 1 + 4)); [lia|]. rewrite be_at_Ret by lia. change (be_val (ztake 4 (zdrop (1 + 1) body))) with 774909490.
    cbn [mbind go_bind]. unfold hessian_text. by destruct (Z.ltb_spec (len body) (1 + 1 + 4 + 774909490)); [|lia]. }
  cbn [of_go mbind comp_bind]. change (Body m1) with body. change (str_eqb (ServiceName m1) [] && str_eqb (MethodName m1) []) with true.
  destruct (Z.ltb_spec 2 (len body)); [|lia]. cbn [andb]. set (m2 := parseGenericBody m1).
  assert (ServiceName m2 = gs "2.0.2") as Hs2.
  { unfold m2, parseGenericBody. assert (∃ strs, extractReadableStrings (Body m1) 4 = gs "2.0.2" :: strs) as [strs ->].
    { exists (extract_loop 4 [] (service ++ tail)). change (Body m1) with body. unfold extractReadableStrings, body, hessian_body.
      change (extract_loop 4 [] (Byte.x05 :: gs "2.0.2" ++ ?t)) with (extract_loop 4 (gs "2.0.2") t).
      cbn [extract_loop]. by rewrite Htag. }
    cbn [fold_left]. set (m' := generic_step m1 (gs "2.0.2")). by rewrite (generic_keeps strs m'). }
  assert (same_frame m1 (clean_names m2)) as [Hh _].
  { assert (same_frame m1 m2) as [??] by apply parseGenericBody_frame. unfold clean_names. destruct (negb (str_eqb (ServiceName m2) [])); by apply same_frame_if; split. }
  destruct (finish_plain (clean_names m2)) as (ps & at_ & ->).
  { rewrite Hh. change (Header m1) with (fixupFlags h). by rewrite Hser. }
  eexists. split; [done|]. rewrite label_event_service.
  cbn [set_Attachments set_Params ServiceName]. unfold clean_names. rewrite Hs2. cbv zeta.
  change (negb (str_eqb (gs "2.0.2") [])) with true. cbv iota. by destruct (negb _).
Qed.

(** The correction of the flags changes exactly the requests with the
    bit 0x40 and without 0x20 and more than 50 bytes of body: they become calls
    that expect a response. The last heuristic, for more than 200 bytes, never
    changes anything. So a call of Apache Dubbo (flags 0xc0 and up) is read as
    one exactly when its body has more than 50 bytes; a shorter one is taken
    for an event. *)
Theorem fixupFlags_spec flag status id n :
  let h := header_of flag status id n in
  fixupFlags h = (if (bz status =? 0) && (50 <? n) && has_flag (bz flag) 64 && negb (has_flag (bz flag) 32) then set_flags h true false else h)
  ∧ (bz status = 0 → Z.land (bz flag) 224 = 192 → IsTwoway (fixupFlags h) = (50 <? n) ∧ IsEvent (fixupFlags h) = negb (50 <? n)).
Proof.
  intros h. assert (fixupFlags h = (if (bz status =? 0) && (50 <? n) && has_flag (bz flag) 64 && negb (has_flag (bz flag) 32) then set_flags h true false else h)) as Hf.
  { unfold fixupFlags, h, header_of, set_flags. cbn [IsRequest DataLength IsTwoway IsEvent h_Flag Magic Status RequestID SerializationID].
    unfold FlagTwoway, FlagEvent, FlagApacheTwoway, FlagApacheEvent. cbv zeta.
    destruct (bz status =? 0); [|done]. cbn [negb orb andb]. destruct (Z.leb_spec n 50), (Z.ltb_spec 50 n); try lia; [done|].
    cbn [andb]. destruct (has_flag (bz flag) 32), (has_flag (bz flag) 64); cbn [negb andb orb eqb]; try done; by destruct (200 <? n). }
  split; [done|]. intros Hs Hb. rewrite Hf, Hs. assert (has_flag (bz flag) 64 = true ∧ has_flag (bz flag) 32 = false) as [H64 H32].
  { clear -Hb. revert Hb. destruct flag; vm_compute; intros; by (discriminate || split). }
  rewrite H64, H32. cbn [Z.eqb andb negb]. unfold h, header_of. unfold FlagTwoway, FlagEvent.
  destruct (50 <? n); cbn [andb set_flags IsTwoway IsEvent negb]; [done|]. by rewrite H64, H32.
Qed.

(** A string behind one of the tags the reader knows. *)
Definition hessian (s : list byte) : list byte :=
  if len s <=? 31 then [to_byte (len s)] ++ s
  else if len s <=? 255 then [Byte.x30; to_byte (len s)] ++ s
  else if len s <=? 65535 then [Byte.x31] ++ be_bytes 2 (len s) ++ s
  else [Byte.x32] ++ be_bytes 4 (len s) ++ s.
Lemma hessian_text_read pre s rest p : p = len pre → hessian_text (pre ++ s ++ rest) p (len s) = Ret (Some (s, p + len s)).
Proof.
  intros ->. unfold hessian_text. rewrite !len_app. pose proof (len_nonneg rest). destruct (Z.ltb_spec (len pre + (len s + len rest)) (len pre + len s)); [lia|].
  by rewrite sub_mid by lia.
Qed.
Lemma hessian_read pre s rest : len s < 2 ^ 32 →
  readHessian2String (pre ++ hessian s ++ rest) (len pre) = Ret (Some (s, len pre + len (hessian s))).
Proof.
  intros Hs. pose proof (len_nonneg s). pose proof (len_nonneg pre). pose proof (len_nonneg rest). unfold readHessian2String.
  assert (∀ t x, index (pre ++ t :: x) (len pre) = Ret t) as Hi
    by (intros t x; rewrite <-(Z.add_0_r (len pre)), index_app_r by lia; apply index_cons_0).
  unfold hessian. destruct (Z.leb_spec (len s) 31).
  { rewrite <-app_assoc, !len_app, len_cons, len_nil. destruct (Z.leb_spec (len pre + (1 + 0 + (len s + len rest))) (len pre)); [lia|].
    cbn [app]. rewrite Hi. cbn [mbind go_bind]. cbv zeta. rewrite bz_to_byte_small by lia. destruct (Z.leb_spec (len s) 31); [|lia].
    rewrite (app_assoc pre [to_byte (len s)] (s ++ rest) : pre ++ _ :: s ++ rest = _). rewrite hessian_text_read by (len_simpl; lia). by rewrite Z.add_assoc. }
  destruct (Z.leb_spec (len s) 255).
  { rewrite <-app_assoc, !len_app, !len_cons, len_nil. destruct (Z.leb_spec (len pre + (1 + (1 + 0) + (len s + len rest))) (len pre)); [lia|].
    cbn [app]. rewrite Hi. cbn [mbind go_bind]. cbv zeta. change (bz Byte.x30 <=? 31) with false. change (beq Byte.x30 48) with true. cbv iota.
    match goal with |- context [?a <=? ?b] => destruct (Z.leb_spec a b) as [Hl|_]; [lia|] end.
    rewrite index_app_r by lia. change (index (Byte.x30 :: ?b :: ?x) 1) with (Ret b). cbn [mbind go_bind]. rewrite bz_to_byte_small by lia.
    rewrite (app_assoc pre [Byte.x30; to_byte (len s)] (s ++ rest) : pre ++ _ :: _ :: s ++ rest = _).
    rewrite hessian_text_read by (len_simpl; lia). do 3 f_equal. lia. }
  destruct (Z.leb_spec (len s) 65535).
  { rewrite <-!app_assoc, !len_app, len_cons, len_nil, len_be_bytes. destruct (Z.leb_spec (len pre + (1 + 0 + (Z.of_nat 2 + (len s + len rest)))) (len pre)); [lia|].
    cbn [app]. rewrite Hi. cbn [mbind go_bind]. cbv zeta. change (bz Byte.x31 <=? 31) with false. change (beq Byte.x31 48) with false.
    change (beq Byte.x31 49) with true. cbv iota.
    rewrite (app_assoc pre [Byte.x31] (be_bytes 2 (len s) ++ s ++ rest) : pre ++ Byte.x31 :: _ = _).
    match goal with |- context [?a <? ?b] => destruct (Z.ltb_spec a b) as [Hl|_]; [lia|] end.
    rewrite (be_at_mid 2 (pre ++ [Byte.x31]) (len s) (s ++ rest) (len pre + 1) 2) by (done || by len_simpl). cbn [mbind go_bind].
    rewrite Z.mod_small by (change (256 ^ Z.of_nat 2) with 65536; lia). rewrite app_assoc.
    rewrite hessian_text_read by (rewrite !len_app, len_be_bytes, len_cons, len_nil; lia). do 3 f_equal. lia. }
  rewrite <-!app_assoc, !len_app, len_cons, len_nil, len_be_bytes. destruct (Z.leb_spec (len pre + (1 + 0 + (Z.of_nat 4 + (len s + len rest)))) (len pre)); [lia|].
  cbn [app]. rewrite Hi. cbn [mbind go_bind]. cbv zeta. change (bz Byte.x32 <=? 31) with false. change (beq Byte.x32 48) with false.
  change (beq Byte.x32 49) with false. change (beq Byte.x32 50) with true. cbn [orb].
  rewrite (app_assoc pre [Byte.x32] (be_bytes 4 (len s) ++ s ++ rest) : pre ++ Byte.x32 :: _ = _).
  match goal with |- context [?a <? ?b] => destruct (Z.ltb_spec a b) as [Hl|_]; [lia|] end.
  rewrite (be_at_mid 4 (pre ++ [Byte.x32]) (len s) (s ++ rest) (len pre + 1) 4) by (done || by len_simpl). cbn [mbind go_bind].
  rewrite Z.mod_small by (change (256 ^ Z.of_nat 4) with (2 ^ 32); lia). rewrite app_assoc.
  rewrite hessian_text_read by (rewrite !len_app, len_be_bytes, len_cons, len_nil; lia). do 3 f_equal. lia.
Qed.

Lemma hessian_longer s : len s < len (hessian s).
Proof.
  unfold hessian. pose proof (len_nonneg s). repeat match goal with |- context [if ?c then _ else _] => destruct c end; len_simpl; lia.
Qed.
Lemma hessian_pos s : 0 < len (hessian s).
Proof. pose proof (hessian_longer s). pose proof (len_nonneg s). lia. Qed.
Lemma hessian_strings_read strs : ∀ n pre rest acc, Forall (λ s, len s < 2 ^ 32) strs → (length strs ≤ n)%nat →
  hessian_strings n (pre ++ concat (map hessian strs) ++ rest) (len pre) acc =
  hessian_strings (n - length strs) (pre ++ concat (map hessian strs) ++ rest) (len pre + len (concat (map hessian strs))) (acc ++ strs).
Proof.
  induction strs as [|s strs IH]; intros n pre rest acc Hs Hn.
  { cbn [map concat length]. change (len []) with 0. by rewrite Nat.sub_0_r, Z.add_0_r, app_nil_r. }
  apply Forall_cons in Hs as [Hl Hs]. destruct n as [|n]; [cbn in Hn; lia|]. cbn [map concat hessian_strings length Nat.sub].
  set (tail := concat (map hessian strs)) in *. set (body := pre ++ (hessian s ++ tail) ++ rest).
  pose proof (hessian_pos s).
  pose proof (len_nonneg tail). pose proof (len_nonneg rest).
  destruct (Z.ltb_spec (len pre) (len body)) as [_|Hb]; [|unfold body in Hb; rewrite !len_app in Hb; lia].
  assert (body = pre ++ hessian s ++ tail ++ rest) as Hb by (unfold body; by rewrite <-!app_assoc).
  rewrite Hb at 1. rewrite hessian_read by done. cbn [mbind go_bind].
  assert (body = (pre ++ hessian s) ++ tail ++ rest) as -> by (rewrite Hb; by rewrite <-!app_assoc).
  rewrite <-len_app. unfold tail at 1. rewrite IH by (done || (cbn in Hn; lia)). fold tail. rewrite <-(app_assoc acc), !len_app. cbn [app].
  by rewrite Z.add_assoc.
Qed.

(** A request in the layout the parser of Hessian expects, a byte and
    then the strings, is read with its service, version, method and parameter
    types, whatever its arguments and attachments are. *)
Theorem hessian_request_roundtrip flag b dubbo service version method types tail id rest
  (Hflag : Z.land (bz flag) FlagSerializationMask = SerializationHessian2) (Hp : package_name service) (Hm : method ≠ [])
  (Hid : 0 ≤ id < 2 ^ 64) :
  let body := [b] ++ concat (map hessian [dubbo; service; version; method; types]) ++ tail in
  len body < 2 ^ 32 →
  ∃ m, ReadDubboMessage (enc_header flag Byte.x00 id (len body) ++ body ++ rest) = Got m rest
    ∧ ServiceName m = service ∧ ServiceVersion m = version ∧ MethodName m = cleanMethodName method ∧ ParamTypes m = types
    ∧ RequestID (Header m) = id.
Proof.
  intros body Hlen. rewrite read_dubbo_frame by lia. set (h := header_of flag Byte.x00 id (len body)).
  assert (SerializationID (fixupFlags h) = SerializationHessian2) as Hser by (rewrite fixupFlags_type; exact Hflag).
  assert (IsRequest (fixupFlags h) = true ∧ RequestID (fixupFlags h) = id) as [Hreq Hrid] by (by destruct (fixupFlags_request h) as (-> & -> & _)).
  destruct (package_name_dotted _ Hp) as (_ & _ & Hsne). destruct (package_name_inv _ Hp) as (_ & _ & _ & _ & Hclean).
  set (strs := [dubbo; service; version; method; types]) in *.
  assert (len body = 1 + len (concat (map hessian strs)) + len tail) as Hbl by (unfold body; len_simpl; lia). pose proof (len_nonneg tail).
  assert (2 ≤ len body) as Hl2.
  { rewrite Hbl. unfold strs. cbn [map]. change (concat (hessian dubbo :: ?l)) with (hessian dubbo ++ concat l). rewrite len_app.
    pose proof (hessian_pos dubbo). match goal with |- context [len (concat ?l)] => pose proof (len_nonneg (concat l)) end. lia. }
  assert (Forall (λ s, len s < 2 ^ 32) strs) as Hall.
  { assert (∀ l, len (concat (map hessian l)) < 2 ^ 32 → Forall (λ s, len s < 2 ^ 32) l) as Hx; [|apply Hx; lia].
    induction l as [|x l IH]; intros Hx; [by constructor|]. cbn [map concat] in Hx. rewrite len_app in Hx.
    pose proof (hessian_longer x). pose proof (len_nonneg (concat (map hessian l))). pose proof (len_nonneg x). constructor; [lia|]. apply IH. lia. }
  unfold ParseDubboBody. cbn [new_message set_Header Header Body]. fold h. rewrite Hreq. cbn [negb]. cbv zeta.
  set (m1 := set_IsRealHeartbeat _ _).
  set (m2 := set_ParamTypes types (set_MethodName method (set_ServiceVersion version (set_ServiceName service m1)))).
  assert (parse_by_type m1 = Ret m2) as ->.
  { unfold parse_by_type. change (Header m1) with (fixupFlags h). rewrite Hser. cbv zeta. unfold parseRequestMetadata. change (Body m1) with body.
    change ((SerializationHessian2 =? SerializationCompactedJava)) with false. cbv iota. cbn [orb].
    change ((SerializationHessian2 =? SerializationHessian2)) with true. cbn [orb]. destruct (Z.ltb_spec (len body) 2); [lia|].
    pose proof (hessian_strings_read strs 6 [b] tail [] Hall ltac:(cbn; lia)) as Hr. change (len [b]) with 1 in Hr. fold body in Hr. rewrite Hr.
    destruct (hessian_strings_ok (6 - length strs) body (1 + len (concat (map hessian strs))) ([] ++ strs)) as (r & -> & more & ->); [pose proof (len_nonneg (concat (map hessian strs))); lia|].
    unfold strs. cbn [app mbind go_bind]. done. }
  cbn [of_go mbind comp_bind]. change (ServiceName m2) with service. rewrite (str_eqb_neq _ _ Hsne). cbn [andb].
  assert (clean_names m2 = set_MethodName (cleanMethodName method) (set_ServiceName service m2)) as ->.
  { unfold clean_names. change (ServiceName m2) with service. rewrite (str_eqb_neq _ _ Hsne). cbn [negb]. cbv zeta.
    change (MethodName (set_ServiceName _ m2)) with method. rewrite (str_eqb_neq _ _ Hm). cbn [negb]. by rewrite Hclean. }
  lazymatch goal with |- context [retry_service ?x] => destruct (finish_plain x) as (ps & at_ & ->) end.
  { change (SerializationID (fixupFlags h) ≠ SerializationCompactedJava). by rewrite Hser. }
  eexists. split; [done|]. set (m5 := set_Attachments _ _).
  assert (label_event m5 = m5) as ->.
  { unfold label_event. change (MethodName m5) with (cleanMethodName method).
    by rewrite (str_eqb_neq _ _ (cleanMethodName_nonempty _ Hm)), andb_false_r. }
  by split_and!.
Qed.
End safety.

(** ** The properties at work *)

(** Two calls: an integer, which is read, and a point, which is not. *)
Definition demo_call (args : list tree) : call :=
  mkCall (gs "2.0.2") (gs "com.acme.DemoService") (gs "1.0.0") (gs "sayHello") (gs "Lcom/acme/Point;") args (enc_plain_value demo_plain).
Lemma demo_call_ok args : args ∈ [[]; [demo_account]] → @call_ok no_tables (demo_call args).
Proof.
  intros Hargs. rewrite !elem_of_cons, elem_of_nil in Hargs.
  split; [repeat constructor; vm_compute; congruence|]. split; [exists (gs "com."); split; vm_compute; reflexivity|].
  split; [vm_compute; reflexivity|]. split; [destruct Hargs as [->|[->|[]]]; [constructor|constructor; [apply demo_account_ok|constructor]]|].
  split; [right; exists demo_plain; split; [apply demo_plain_ok|reflexivity]|].
  split; destruct Hargs as [->|[->|[]]]; vm_compute; done.
Qed.
(** The single digit at the end of a method is lost. *)
Example digit_lost : cleanMethodName (gs "getUser2") = gs "getUser" ∧ cleanMethodName (gs "md5") = gs "md"
  ∧ cleanMethodName (gs "utf16") = gs "utf16".
Proof. by vm_compute. Qed.

Lemma hessian_service_lost_witness :
  ∃ m, @ReadDubboMessage no_tables some_runtime list_order
      (enc_header (to_byte 192) Byte.x00 1 (len (hessian_body (gs "com.acme.DemoService") (gs "...")))
        ++ hessian_body (gs "com.acme.DemoService") (gs "...") ++ []) = Got m []
    ∧ ServiceName m = [].
Proof.
  apply (@hessian_service_lost no_tables some_runtime list_order); [reflexivity|by vm_compute|split; [discriminate|reflexivity]|reflexivity].
Defined.
(** A service of 50 bytes, whose length is the text [02], is found. *)
Example long_service_found :
  let service := gs "com.alibaba.dubbo.samples.api.customer.DemoService" in
  let body := Byte.x05 :: gs "2.0.2" ++ [Byte.x30; to_byte (len service)] ++ service ++ [Byte.x05] ++ gs "1.0.0" in
  ∃ m, @ReadDubboMessage no_tables some_runtime list_order (enc_header (to_byte 192) Byte.x00 1 (len body) ++ body) = Got m []
    ∧ ServiceName m = service.
Proof. eexists. by vm_compute. Qed.

Lemma hessian_request_roundtrip_witness :
  let body := [Byte.x48] ++ concat (map hessian (map gs ["2.0.2"; "org.acme.Demo"; "1.0.0"; "sayHello"; "I"]%string)) ++ [Byte.x90] in
  ∃ m, @ReadDubboMessage no_tables some_runtime list_order (enc_header (to_byte 192) Byte.x00 1 (len body) ++ body ++ []) = Got m []
    ∧ ServiceName m = gs "org.acme.Demo" ∧ ServiceVersion m = gs "1.0.0" ∧ MethodName m = cleanMethodName (gs "sayHello")
    ∧ ParamTypes m = gs "I" ∧ RequestID (Header m) = 1.
Proof.
  cbv zeta.
  apply (@hessian_request_roundtrip no_tables some_runtime list_order (to_byte 192) Byte.x48 (gs "2.0.2") (gs "org.acme.Demo") (gs "1.0.0")
    (gs "sayHello") (gs "I") [Byte.x90] 1 []).
  - reflexivity.
  - exists (gs "org."). split; vm_compute; reflexivity.
  - discriminate.
  - split; [discriminate|reflexivity].
  - reflexivity.
Defined.

(** A package is looked for anywhere in the name, so a class is cut where a
    part of its own package ends like one. *)
Example class_name_cut : @cleanClassName no_tables (gs "telecom.billing.Service") = gs "com.billing.Service"
  ∧ @cleanClassName no_tables (gs "org.acme.com.Foo") = gs "com.Foo".
Proof. split; vm_compute; reflexivity. Qed.
