(* ===== verification/Cli.v ===== *)
(** * The command line (src/main.go)

    The cost filter, the table of subcommands, Go's [flag.FlagSet.Parse] as
    [main] uses it, and [main] up to the point where the capture starts. *)

From S2P Require Import Prelude GoBytes GoStrings Unicode.

(** ** The cost filter *)

Definition plus : list byte := [Byte.x2b].
Definition minus : list byte := [Byte.x2d].
Definition dashes2 : list byte := [Byte.x2d; Byte.x2d].
Definition equals : list byte := [Byte.x3d].

(** [if threshold, err := strconv.ParseInt(s, 10, 64); err == nil { return f(threshold) }]
    and the code behind it. *)
Definition threshold (s : list byte) (f : Z → bool) (next : bool) : bool :=
  match Atoi s with Some t => f t | None => next end.

Definition matchCost (ms : Z) (filter : list byte) : bool :=
  let filter := TrimSpace filter in
  if str_eqb filter [] then true
  else
    (* Exact match *)
    let exact := threshold filter (λ t, ms =? t) true in
    (* "50-200" *)
    let range :=
      if Contains filter minus then
        match SplitN2 filter minus with
        | [lo; hi] =>
            match Atoi lo, Atoi hi with
            | Some minVal, Some maxVal => (minVal <=? ms) && (ms <=? maxVal)
            | _, _ => exact
            end
        | _ => exact
        end
      else exact in
    (* "100-" or "-100" *)
    let at_most_prefix :=
      if HasPrefix filter minus && negb (Contains (zdrop 1 filter) minus)
      then threshold (zdrop 1 filter) (λ t, ms <=? t) range else range in
    let at_most :=
      if HasSuffix filter minus
      then threshold (TrimSuffix filter minus) (λ t, ms <=? t) at_most_prefix else at_most_prefix in
    (* "100+" or "+100" *)
    let at_least_prefix :=
      if HasPrefix filter plus
      then threshold (TrimPrefix filter plus) (λ t, t <=? ms) at_most else at_most in
    if HasSuffix filter plus
    then threshold (TrimSuffix filter plus) (λ t, t <=? ms) at_least_prefix else at_least_prefix.

(** ** The configuration *)

Record GlobalConfig := mkGlobal {
  Interface : list byte; IP : list byte; Port : Z; OutputDir : list byte;
  Level : list byte; PcapFile : list byte; global_Cost : list byte }.

(** [&GlobalConfig{Level: "all"}] with the defaults its flags write. *)
Definition new_GlobalConfig : GlobalConfig := mkGlobal (gs "any") [] 0 [] (gs "all") [] [].

Definition set_Interface x g := mkGlobal x (IP g) (Port g) (OutputDir g) (Level g) (PcapFile g) (global_Cost g).
Definition set_IP x g := mkGlobal (Interface g) x (Port g) (OutputDir g) (Level g) (PcapFile g) (global_Cost g).
Definition set_Port x g := mkGlobal (Interface g) (IP g) x (OutputDir g) (Level g) (PcapFile g) (global_Cost g).
Definition set_OutputDir x g := mkGlobal (Interface g) (IP g) (Port g) x (Level g) (PcapFile g) (global_Cost g).
Definition set_Level x g := mkGlobal (Interface g) (IP g) (Port g) (OutputDir g) x (PcapFile g) (global_Cost g).
Definition set_PcapFile x g := mkGlobal (Interface g) (IP g) (Port g) (OutputDir g) (Level g) x (global_Cost g).

Record ProtoConfig := mkProto {
  Protocol : list byte;
  DubboService : list byte; DubboMethod : list byte; DubboShowBody : bool;
  RedisKey : list byte; RedisCommand : list byte;
  RMQCode : Z;
  MySQLCommand : list byte; MySQLQuery : list byte;
  MongoOpCode : Z;
  Cost : list byte }.

Definition new_ProtoConfig : ProtoConfig := mkProto [] [] [] false [] [] 0 [] [] 0 [].

Definition set_Protocol x p := mkProto x (DubboService p) (DubboMethod p) (DubboShowBody p) (RedisKey p)
  (RedisCommand p) (RMQCode p) (MySQLCommand p) (MySQLQuery p) (MongoOpCode p) (Cost p).
Definition set_DubboService x p := mkProto (Protocol p) x (DubboMethod p) (DubboShowBody p) (RedisKey p)
  (RedisCommand p) (RMQCode p) (MySQLCommand p) (MySQLQuery p) (MongoOpCode p) (Cost p).
Definition set_DubboMethod x p := mkProto (Protocol p) (DubboService p) x (DubboShowBody p) (RedisKey p)
  (RedisCommand p) (RMQCode p) (MySQLCommand p) (MySQLQuery p) (MongoOpCode p) (Cost p).
Definition set_DubboShowBody x p := mkProto (Protocol p) (DubboService p) (DubboMethod p) x (RedisKey p)
  (RedisCommand p) (RMQCode p) (MySQLCommand p) (MySQLQuery p) (MongoOpCode p) (Cost p).
Definition set_RedisKey x p := mkProto (Protocol p) (DubboService p) (DubboMethod p) (DubboShowBody p) x
  (RedisCommand p) (RMQCode p) (MySQLCommand p) (MySQLQuery p) (MongoOpCode p) (Cost p).
Definition set_RedisCommand x p := mkProto (Protocol p) (DubboService p) (DubboMethod p) (DubboShowBody p)
  (RedisKey p) x (RMQCode p) (MySQLCommand p) (MySQLQuery p) (MongoOpCode p) (Cost p).
Definition set_RMQCode x p := mkProto (Protocol p) (DubboService p) (DubboMethod p) (DubboShowBody p)
  (RedisKey p) (RedisCommand p) x (MySQLCommand p) (MySQLQuery p) (MongoOpCode p) (Cost p).
Definition set_MySQLCommand x p := mkProto (Protocol p) (DubboService p) (DubboMethod p) (DubboShowBody p)
  (RedisKey p) (RedisCommand p) (RMQCode p) x (MySQLQuery p) (MongoOpCode p) (Cost p).
Definition set_MySQLQuery x p := mkProto (Protocol p) (DubboService p) (DubboMethod p) (DubboShowBody p)
  (RedisKey p) (RedisCommand p) (RMQCode p) (MySQLCommand p) x (MongoOpCode p) (Cost p).
Definition set_MongoOpCode x p := mkProto (Protocol p) (DubboService p) (DubboMethod p) (DubboShowBody p)
  (RedisKey p) (RedisCommand p) (RMQCode p) (MySQLCommand p) (MySQLQuery p) x (Cost p).
Definition set_Cost x p := mkProto (Protocol p) (DubboService p) (DubboMethod p) (DubboShowBody p)
  (RedisKey p) (RedisCommand p) (RMQCode p) (MySQLCommand p) (MySQLQuery p) (MongoOpCode p) x.

(** ** [strconv.ParseUint(s, 0, 64)], [strconv.ParseInt(s, 0, 64)] and
    [strconv.ParseBool], which the flags use *)

Definition lower (b : byte) : Z := Z.lor (bz b) 32.

Definition digit_value (b : byte) : option Z :=
  if is_digit b then Some (bz b - 48)
  else if (97 <=? lower b) && (lower b <=? 122) then Some (lower b - 97 + 10)
  else None.

(** The digits of base [base]; an underscore is skipped. *)
Fixpoint parse_base (base acc : Z) (s : list byte) : option Z :=
  match s with
  | [] => Some acc
  | b :: s =>
      if beq b 95 then parse_base base acc s
      else match digit_value b with
           | Some d =>
               if d <? base then
                 let n := acc * base + d in if n <? 2 ^ 64 then parse_base base n s else None
               else None
           | None => None
           end
  end.

(** [underscoreOK]: [saw] is the last thing seen, a digit ['0'], an underscore
    ['_'], the start ['^'] or anything else ['!']. *)
Inductive seen := SawStart | SawDigit | SawUnderscore | SawOther.
Fixpoint underscore_loop (hex : bool) (saw : seen) (s : list byte) : bool :=
  match s with
  | [] => match saw with SawUnderscore => false | _ => true end
  | b :: s =>
      if is_digit b || (hex && (97 <=? lower b) && (lower b <=? 102)) then underscore_loop hex SawDigit s
      else if beq b 95 then match saw with SawDigit => underscore_loop hex SawUnderscore s | _ => false end
      else match saw with SawUnderscore => false | _ => underscore_loop hex SawOther s end
  end.
Definition underscoreOK (s : list byte) : bool :=
  let s := match s with b :: s' => if beq b 45 || beq b 43 then s' else s | [] => s end in
  match s with
  | b0 :: b1 :: s' =>
      if beq b0 48 && ((lower b1 =? 98) || (lower b1 =? 111) || (lower b1 =? 120))
      then underscore_loop (lower b1 =? 120) SawDigit s' else underscore_loop false SawStart s
  | _ => underscore_loop false SawStart s
  end.

Definition ParseUint0 (s : list byte) : option Z :=
  let value :=
    match s with
    | [] => None
    | b0 :: s' =>
        if beq b0 48 then
          match s' with
          | b1 :: (_ :: _) as t =>
              if lower b1 =? 98 then parse_base 2 0 (tl s')
              else if lower b1 =? 111 then parse_base 8 0 (tl s')
              else if lower b1 =? 120 then parse_base 16 0 (tl s')
              else parse_base 8 0 s'
          | _ => parse_base 8 0 s'
          end
        else parse_base 10 0 s
    end in
  match value with
  | Some n => if Contains s (gs "_") && negb (underscoreOK s) then None else Some n
  | None => None
  end.

Definition ParseInt0 (s : list byte) : option Z :=
  let '(neg, ds) :=
    match s with
    | b :: s' => if beq b 45 then (true, s') else if beq b 43 then (false, s') else (false, s)
    | [] => (false, s)
    end in
  match ParseUint0 ds with
  | None => None
  | Some n =>
      if neg : bool then (if n <=? 2 ^ 63 then Some (- n) else None)
      else if n <? 2 ^ 63 then Some n else None
  end.

Definition ParseBool (s : list byte) : option bool :=
  if bool_decide (s ∈ map gs ["1"; "t"; "T"; "true"; "TRUE"; "True"]%string) then Some true
  else if bool_decide (s ∈ map gs ["0"; "f"; "F"; "false"; "FALSE"; "False"]%string) then Some false
  else None.

(** ** [flag.FlagSet]

    A flag writes its value into the configuration, and has a default value
    and a text for the help; [-h] and [-help] that are not defined ask for
    help. *)
Inductive flag (C : Type) : Type :=
| StringVar (set : list byte → C → C) (value usage : list byte)
| BoolVar (set : bool → C → C) (value : bool) (usage : list byte)
| IntVar (set : Z → C → C) (value : Z) (usage : list byte)
| UintVar (set : Z → C → C) (value : Z) (usage : list byte).
Arguments StringVar {C} set value usage.
Arguments BoolVar {C} set value usage.
Arguments IntVar {C} set value usage.
Arguments UintVar {C} set value usage.

Definition FlagSet (C : Type) : Type := list (list byte * flag C).

Fixpoint formal {C} (fs : FlagSet C) (name : list byte) : option (flag C) :=
  match fs with
  | [] => None
  | (n, f) :: fs => if str_eqb name n then Some f else formal fs name
  end.

Inductive parsed (C : Type) : Type :=
| Parsed (c : C) (rest : list (list byte))
| ErrHelp
| BadFlag (message : list byte).
Arguments Parsed {C} c rest.
Arguments ErrHelp {C}.
Arguments BadFlag {C} message.

(** The flag's [Set]; [None] is its error. *)
Definition flag_set {C} (f : flag C) (value : list byte) (c : C) : option C :=
  match f with
  | StringVar set _ _ => Some (set value c)
  | BoolVar set _ _ => (λ b, set b c) <$> ParseBool value
  | IntVar set _ _ => (λ n, set n c) <$> ParseInt0 value
  | UintVar set _ _ => (λ n, set n c) <$> ParseUint0 value
  end.

(** The name and the value of [name=value]; the name has at least one byte. *)
Definition split_flag (name : list byte) : list byte * option (list byte) :=
  match name with
  | [] => ([], None)
  | b :: more =>
      let i := Index more equals in
      if i <? 0 then (name, None) else (b :: ztake i more, Some (zdrop (i + 1) more))
  end.

(** [fs.Parse(args)]: flags up to the first argument that is none. *)
Fixpoint Parse {C} (fs : FlagSet C) (args : list (list byte)) (c : C) : parsed C :=
  match args with
  | [] => Parsed c []
  | s :: more =>
      if (len s <? 2) || negb (HasPrefix s minus) then Parsed c args
      else if str_eqb s dashes2 then Parsed c more
      else
        let name := if HasPrefix s dashes2 then zdrop 2 s else zdrop 1 s in
        if str_eqb name [] || HasPrefix name minus || HasPrefix name equals then
          BadFlag (gs "bad flag syntax: " ++ s)
        else
          let '(name, value) := split_flag name in
          match formal fs name with
          | None =>
              if str_eqb name (gs "help") || str_eqb name (gs "h") then ErrHelp
              else BadFlag (gs "flag provided but not defined: -" ++ name)
          | Some (BoolVar _ _ _ as f) =>
              match flag_set f (default (gs "true") value) c with
              | Some c => Parse fs more c
              | None => BadFlag (gs "invalid boolean value for -" ++ name)
              end
          | Some f =>
              match value, more with
              | Some v, _ =>
                  match flag_set f v c with
                  | Some c => Parse fs more c
                  | None => BadFlag (gs "invalid value for flag -" ++ name)
                  end
              | None, v :: more =>
                  match flag_set f v c with
                  | Some c => Parse fs more c
                  | None => BadFlag (gs "invalid value for flag -" ++ name)
                  end
              | None, [] => BadFlag (gs "flag needs an argument: -" ++ name)
              end
          end
  end.

(** ** The subcommands *)

Record subcommand := mkSubcommand {
  Name : list byte; Description : list byte; Aliases : list (list byte); Setup : FlagSet ProtoConfig; Examples : list (list byte) }.

Definition strings (l : list string) : list (list byte) := map gs l.

(** [-C] and [-cost], which every subcommand has. *)
Definition cost_flags : FlagSet ProtoConfig :=
  [(gs "C", StringVar set_Cost [] (gs "Cost filter: 100+, 50-200, -50"));
   (gs "cost", StringVar set_Cost [] (gs "Cost filter: 100+, 50-200, -50"))].

Definition subcommands : list subcommand :=
  [ mkSubcommand (gs "dubbo") (gs "Capture Dubbo/Triple RPC traffic") (strings ["d"]%string)
      ([(gs "s", StringVar set_DubboService [] (gs "Filter by service name (wildcard)"));
        (gs "service", StringVar set_DubboService [] (gs "Filter by service name (wildcard)"));
        (gs "m", StringVar set_DubboMethod [] (gs "Filter by method name (wildcard)"));
        (gs "method", StringVar set_DubboMethod [] (gs "Filter by method name (wildcard)"));
        (gs "b", BoolVar set_DubboShowBody false (gs "Show raw request/response body (hex dump)"));
        (gs "body", BoolVar set_DubboShowBody false (gs "Show raw request/response body (hex dump)"))] ++ cost_flags)
      (strings ["  tcpshow dubbo";
         "  tcpshow dubbo -s com.example.* -m getUser";
         "  tcpshow dubbo -C 100+"]%string);
    mkSubcommand (gs "redis") (gs "Capture Redis RESP traffic") (strings ["r"]%string)
      ([(gs "k", StringVar set_RedisKey [] (gs "Filter by key (regex)"));
        (gs "key", StringVar set_RedisKey [] (gs "Filter by key (regex)"));
        (gs "c", StringVar set_RedisCommand [] (gs "Filter by command: SET, GET, ..."));
        (gs "cmd", StringVar set_RedisCommand [] (gs "Filter by command: SET, GET, ..."))] ++ cost_flags)
      (strings ["  tcpshow redis";
         "  tcpshow redis -k 'user:session:*'";
         "  tcpshow redis -c GET -C 50+"]%string);
    mkSubcommand (gs "mysql") (gs "Capture MySQL traffic") (strings ["m"]%string)
      ([(gs "c", StringVar set_MySQLCommand [] (gs "Filter by command: Query, Ping, ..."));
        (gs "cmd", StringVar set_MySQLCommand [] (gs "Filter by command: Query, Ping, ..."));
        (gs "q", StringVar set_MySQLQuery [] (gs "Filter by SQL substring"));
        (gs "query", StringVar set_MySQLQuery [] (gs "Filter by SQL substring"))] ++ cost_flags)
      (strings ["  tcpshow mysql";
         "  tcpshow mysql -q tableName -C 100+";
         "  tcpshow mysql -q 'SELECT.*FROM users'"]%string);
    mkSubcommand (gs "mongo") (gs "Capture MongoDB wire protocol traffic") []
      ([(gs "opcode", IntVar set_MongoOpCode 0 (gs "Filter by opcode (2013=OP_MSG, 2004=OP_QUERY)"))] ++ cost_flags)
      (strings ["  tcpshow mongo";
         "  tcpshow mongo -C 200+"]%string);
    mkSubcommand (gs "rocketmq") (gs "Capture RocketMQ Remoting traffic") (strings ["rmq"]%string)
      ([(gs "code", IntVar set_RMQCode 0 (gs "Filter by request code"))] ++ cost_flags)
      (strings ["  tcpshow rocketmq";
         "  tcpshow rocketmq --code 10 -C 50+"]%string);
    mkSubcommand (gs "http") (gs "Capture HTTP/1.x traffic") []
      cost_flags
      (strings ["  tcpshow http";
         "  tcpshow http -C 500+"]%string);
    mkSubcommand (gs "websocket") (gs "Capture WebSocket traffic") (strings ["ws"]%string)
      cost_flags
      (strings ["  tcpshow websocket";
         "  tcpshow ws -C 100+"]%string);
    mkSubcommand (gs "zookeeper") (gs "Capture ZooKeeper traffic") (strings ["zk"]%string)
      cost_flags
      (strings ["  tcpshow zookeeper";
         "  tcpshow zk -C 50+"]%string);
    mkSubcommand (gs "nacos") (gs "Capture Nacos HTTP API traffic") []
      cost_flags
      (strings ["  tcpshow nacos";
         "  tcpshow nacos -C 200+"]%string) ].

Definition help_flag (a : list byte) : bool := str_eqb a (gs "-h") || str_eqb a (gs "--help").

Fixpoint findSubcommand_from (i : Z) (args : list (list byte)) : Z :=
  match args with
  | [] => i
  | a :: more =>
      if negb (HasPrefix a minus) then i
      else if help_flag a then -1
      else findSubcommand_from (i + 1) more
  end.
Definition findSubcommand (args : list (list byte)) : Z := findSubcommand_from 0 args.

Definition names_it (name : list byte) (sc : subcommand) : bool :=
  str_eqb (Name sc) name || bool_decide (name ∈ Aliases sc).
Definition subcommandByName (name : list byte) : option subcommand :=
  List.find (names_it name) subcommands.

(** ** [main] up to the capture *)

Definition global_flags : FlagSet GlobalConfig :=
  [ (gs "i", StringVar set_Interface (gs "any") (gs "Network interface"));
    (gs "ip", StringVar set_IP [] (gs "Filter by IP"));
    (gs "port", UintVar set_Port 0 (gs "Filter by port"));
    (gs "o", StringVar set_OutputDir [] (gs "Output per-protocol files to directory"));
    (gs "l", StringVar set_Level (gs "all") (gs "Output level: url|all"));
    (gs "r", StringVar set_PcapFile [] (gs "Read from pcap file"));
    (gs "h", BoolVar (λ _ g, g) false (gs "Show help")) ].

Inductive outcome :=
| PrintVersion
| GlobalHelp
| AllHelp
| ProtoHelp (sc : subcommand)
| Exit (status : Z)
| Capture (global : GlobalConfig) (proto : ProtoConfig).

(** [flag.ExitOnError]: status 0 after the help, status 2 after an error. *)
Definition exit_on_error {C} (p : parsed C) (k : C → go outcome) : go outcome :=
  match p with
  | Parsed c _ => k c
  | ErrHelp => Ret (Exit 0)
  | BadFlag _ => Ret (Exit 2)
  end.

Definition main (args : list (list byte)) : go outcome :=
  if existsb (λ a, str_eqb a (gs "-v") || str_eqb a (gs "--version")) args then Ret PrintVersion
  else
    let subIdx := findSubcommand args in
    if existsb (λ a, help_flag a && (subIdx =? -1)) args then Ret GlobalHelp
    else if existsb (λ a, str_eqb a (gs "--all")) args then Ret AllHelp
    else
      globalArgs ← (if subIdx <? len args then sub args 0 subIdx else Ret args);
      exit_on_error (Parse global_flags globalArgs new_GlobalConfig) (λ global,
        let global := set_Port (uint 16 (Port global)) global in
        if subIdx <? len args then
          protoName ← index args subIdx;
          match subcommandByName protoName with
          | None => Ret (Exit 1)
          | Some sc =>
              let proto := set_Protocol (Name sc) new_ProtoConfig in
              protoArgs ← sub args (subIdx + 1) (len args);
              if existsb help_flag protoArgs then Ret (ProtoHelp sc)
              else exit_on_error (Parse (Setup sc) protoArgs proto) (λ proto, Ret (Capture global proto))
          end
        else Ret (Capture global (set_Protocol (gs "auto") new_ProtoConfig))).

Example main_redis : main (strings ["-i=eth0"; "--port"; "6379"; "redis"; "-C"; "100+"]%string) = Ret (Exit 2).
Proof. vm_compute. reflexivity. Qed.
Example main_redis_eq : main (strings ["-i=eth0"; "--port=65616"; "r"; "-C"; "100+"]%string)
  = Ret (Capture (mkGlobal (gs "eth0") [] 80 [] (gs "all") [] [])
           (mkProto (gs "redis") [] [] false [] [] 0 [] [] 0 (gs "100+"))).
Proof. vm_compute. reflexivity. Qed.

(** ** What the cost filter selects *)

Definition sign_byte (b : byte) : bool := beq b 45 || beq b 43.

Lemma word_digit b : is_digit b = true → word_byte b = true.
Proof.
  unfold is_digit, word_byte, is_space. intros H. zbool.
  lia.
Qed.

Lemma Itoa_no n c : 0 ≤ n → is_digit c = false → c ∉ Itoa n.
Proof.
  intros Hn Hc Hin. destruct (Itoa_digits n Hn) as [H _]. rewrite Forall_forall in H.
  specialize (H c Hin). congruence.
Qed.
Lemma Itoa_cons n : 0 ≤ n → ∃ d ds, Itoa n = d :: ds ∧ is_digit d = true.
Proof.
  intros Hn. destruct (Itoa_digits n Hn) as [H Hne]. destruct (Itoa n) as [|d ds]; [done|].
  exists d, ds. split; [done|]. by inversion H.
Qed.
Lemma Itoa_snoc n : 0 ≤ n → ∃ ds d, Itoa n = ds ++ [d] ∧ is_digit d = true.
Proof.
  intros Hn. destruct (Itoa_digits n Hn) as [H Hne]. destruct (Itoa n) as [|d ds _] using rev_ind; [done|].
  exists ds, d. split; [done|]. rewrite Forall_app, Forall_singleton in H. by destruct H.
Qed.
Lemma digit_not b c : is_digit b = true → is_digit c = false → Byte.eqb b c = false.
Proof. intros Hb Hc. apply byte_eqb_neq. congruence. Qed.

Lemma word_form u n v : 0 ≤ n → Forall (λ b, word_byte b = true) u → Forall (λ b, word_byte b = true) v →
  word (u ++ Itoa n ++ v).
Proof.
  intros Hn Hu Hv. destruct (Itoa_digits n Hn) as [H Hne]. split.
  - destruct u; [|done]. by destruct (Itoa n).
  - rewrite !Forall_app. split_and!; [done| |done]. eapply Forall_impl; [exact H|]. intros. by apply word_digit.
Qed.

Lemma suffix_num u n c : 0 ≤ n → is_digit c = false → HasSuffix (u ++ Itoa n) [c] = false.
Proof.
  intros Hn Hc. destruct (Itoa_snoc n Hn) as (ds & d & -> & Hd). rewrite app_assoc, HasSuffix_snoc.
  by apply digit_not.
Qed.
Lemma prefix_num n v c : 0 ≤ n → is_digit c = false → HasPrefix (Itoa n ++ v) [c] = false.
Proof.
  intros Hn Hc. destruct (Itoa_cons n Hn) as (d & ds & -> & Hd). simpl app. rewrite HasPrefix_byte.
  by apply digit_not.
Qed.

Lemma matchCost_text ms l w r : Forall (λ b, space_byte b = true) l → Forall (λ b, space_byte b = true) r →
  trimmed_text w → matchCost ms (l ++ w ++ r) = matchCost ms w ∧ TrimSpace w = w ∧ str_eqb w [] = false.
Proof.
  intros Hl Hr Hw. assert (TrimSpace w = w) as Ht.
  { rewrite <-(app_nil_r w) at 1. by apply (TrimSpace_text [] w []). }
  split_and!; [|done|by destruct (str_eqb_spec w []) as [->|]; [destruct Hw|]].
  unfold matchCost. by rewrite TrimSpace_text, Ht by done.
Qed.

Section forms.
Context (ms a b : Z) (Ha : 0 ≤ a < 2 ^ 63) (Hb : 0 ≤ b < 2 ^ 63).
Context (l r : list byte) (Hl : Forall (λ b, space_byte b = true) l) (Hr : Forall (λ b, space_byte b = true) r).

Lemma Atoi_nat n : 0 ≤ n < 2 ^ 63 → Atoi (Itoa n) = Some n.
Proof. intros. apply Atoi_Itoa. lia. Qed.

(** Drop the white space around the filter, a word, and unfold. *)
Ltac filter_is Hw :=
  let H1 := fresh in let Ht := fresh in let Hn := fresh in
  destruct (matchCost_text ms l _ r Hl Hr (word_trimmed _ Hw)) as (H1 & Ht & Hn);
  rewrite H1; unfold matchCost; rewrite Ht; cbv zeta; rewrite Hn; clear H1 Ht Hn;
  unfold plus, minus in *.

Lemma word_num u v : Forall (λ x, word_byte x = true) u → Forall (λ x, word_byte x = true) v →
  word (u ++ Itoa a ++ v).
Proof. apply word_form. lia. Qed.

Lemma cost_suffix_plus : matchCost ms (l ++ (Itoa a ++ plus) ++ r) = (a <=? ms).
Proof.
  assert (word (Itoa a ++ plus)) as Hw by (apply (word_num [] plus); by repeat constructor). filter_is Hw.
  rewrite HasSuffix_snoc, TrimSuffix_snoc, byte_eqb_refl.
  unfold threshold. by rewrite Atoi_nat.
Qed.
Lemma cost_prefix_plus : matchCost ms (l ++ (plus ++ Itoa a) ++ r) = (a <=? ms).
Proof.
  assert (word (plus ++ Itoa a)) as Hw.
  { rewrite <-(app_nil_r (Itoa a)). apply word_num; by repeat constructor. }
  filter_is Hw. rewrite (suffix_num [Byte.x2b]) by (done || lia). cbn [app]. rewrite HasPrefix_byte, byte_eqb_refl.
  unfold TrimPrefix. rewrite HasPrefix_byte, byte_eqb_refl. unfold threshold.
  change (zdrop (len [Byte.x2b]) (Byte.x2b :: Itoa a)) with (Itoa a). by rewrite Atoi_nat.
Qed.
Lemma cost_suffix_minus : matchCost ms (l ++ (Itoa a ++ minus) ++ r) = (ms <=? a).
Proof.
  assert (word (Itoa a ++ minus)) as Hw by (apply (word_num [] minus); by repeat constructor). filter_is Hw.
  rewrite !HasSuffix_snoc, !TrimSuffix_snoc, !byte_eqb_refl.
  rewrite (prefix_num a [Byte.x2d]) by (done || lia).
  change (Byte.eqb Byte.x2d Byte.x2b) with false. cbv iota. unfold threshold. by rewrite Atoi_nat.
Qed.
Lemma cost_prefix_minus : matchCost ms (l ++ (minus ++ Itoa a) ++ r) = (ms <=? a).
Proof.
  assert (word (minus ++ Itoa a)) as Hw.
  { rewrite <-(app_nil_r (Itoa a)). apply word_num; by repeat constructor. }
  filter_is Hw. rewrite !(suffix_num [Byte.x2d]) by (done || lia). cbn [app]. rewrite !HasPrefix_byte, byte_eqb_refl.
  change (zdrop 1 (Byte.x2d :: Itoa a)) with (Itoa a).
  rewrite Contains_absent by (apply Itoa_no; [lia|done]). unfold threshold. by rewrite Atoi_nat.
Qed.
Lemma cost_range : matchCost ms (l ++ (Itoa a ++ minus ++ Itoa b) ++ r) = (a <=? ms) && (ms <=? b).
Proof.
  assert (Forall (λ x, word_byte x = true) (Byte.x2d :: Itoa b)) as Hv.
  { constructor; [done|]. eapply Forall_impl; [apply Itoa_digits; lia|]. intros. by apply word_digit. }
  assert (word (Itoa a ++ minus ++ Itoa b)) as Hw by (apply (word_num []); [done|exact Hv]).
  filter_is Hw. cbn [app].
  assert (∀ c, is_digit c = false → HasSuffix (Itoa a ++ Byte.x2d :: Itoa b) [c] = false) as Hs.
  { intros c Hc. rewrite (app_assoc (Itoa a) [Byte.x2d] (Itoa b) : Itoa a ++ Byte.x2d :: Itoa b = _).
    apply suffix_num; [lia|done]. }
  rewrite !Hs, !(prefix_num a (Byte.x2d :: Itoa b)) by (done || lia). cbn [andb].
  assert (Byte.x2d ∉ Itoa a) by (apply Itoa_no; [lia|done]).
  rewrite Contains_first by done. unfold SplitN2. rewrite Index_first by done.
  pose proof (len_nonneg (Itoa a)). destruct (Z.ltb_spec (len (Itoa a)) 0); [lia|].
  rewrite ztake_app_eq by done.
  rewrite (app_assoc (Itoa a) [Byte.x2d] (Itoa b) : Itoa a ++ Byte.x2d :: Itoa b = _).
  rewrite zdrop_app_eq by (len_simpl; lia). by rewrite !Atoi_nat.
Qed.
Lemma cost_exact : matchCost ms (l ++ Itoa a ++ r) = (ms =? a).
Proof.
  assert (word (Itoa a)) as Hw.
  { rewrite <-(app_nil_r (Itoa a)). apply (word_num []); by repeat constructor. }
  filter_is Hw.
  assert (∀ c, is_digit c = false → HasPrefix (Itoa a) [c] = false) as Hp.
  { intros c Hc. rewrite <-(app_nil_r (Itoa a)). apply prefix_num; [lia|done]. }
  assert (∀ c, is_digit c = false → HasSuffix (Itoa a) [c] = false) as Hs.
  { intros c Hc. apply (suffix_num []); [lia|done]. }
  rewrite !Hs, !Hp by done. cbn [andb]. rewrite (Contains_absent (Itoa a)) by (apply Itoa_no; [lia|done]).
  unfold threshold. by rewrite Atoi_nat.
Qed.
End forms.

(** A filter with any other byte selects everything. *)
Lemma cost_other ms w x : trimmed_text w → x ∈ w → is_digit x = false → sign_byte x = false → matchCost ms w = true.
Proof.
  intros Hw Hx Hd Hs. unfold sign_byte in Hs. apply orb_false_iff in Hs as [H1 H2].
  assert (∀ s, x ∈ s → Atoi s = None) as Hbad by (intros; by eapply Atoi_bad).
  assert (∀ s f next, x ∈ s → threshold s f next = next) as Ht.
  { intros s f next Hin. unfold threshold. by rewrite Hbad. }
  assert (∀ c, beq c 45 || beq c 43 = true → x ≠ c) as Hne.
  { intros c Hc ->. by rewrite H1, H2 in Hc. }
  assert (∀ c s, beq c 45 || beq c 43 = true → x ∈ s → x ∈ TrimSuffix s [c]) as Hsuf.
  { intros c s Hc Hin. specialize (Hne c Hc). destruct s as [|b s _] using rev_ind; [done|].
    rewrite TrimSuffix_snoc. destruct (Byte.eqb b c) eqn:E; [|done]. apply Byte.byte_dec_bl in E as ->. set_solver. }
  assert (∀ c s, beq c 45 || beq c 43 = true → x ∈ s → HasPrefix s [c] = true → x ∈ zdrop 1 s) as Hpre.
  { intros c s Hc Hin Hp. specialize (Hne c Hc). destruct s as [|b s]; [done|]. rewrite HasPrefix_byte in Hp.
    apply Byte.byte_dec_bl in Hp as ->. change (zdrop 1 (c :: s)) with s. set_solver. }
  assert (matchCost ms w = matchCost ms w ∧ TrimSpace w = w ∧ str_eqb w [] = false) as (_ & Htr & Hn).
  { rewrite <-(app_nil_r w) at 1. by apply (matchCost_text ms [] w []). }
  unfold matchCost. rewrite Htr. cbv zeta. rewrite Hn. unfold plus, minus. rewrite !(Ht w) by done.
  assert ((if Contains w [Byte.x2d] then match SplitN2 w [Byte.x2d] with
      | [lo; hi] => match Atoi lo, Atoi hi with
          | Some minVal, Some maxVal => (minVal <=? ms) && (ms <=? maxVal)
          | _, _ => true
          end
      | _ => true
      end else true) = true) as ->.
  { destruct (decide (Byte.x2d ∈ w)) as [(p & q & -> & Hp)%first_byte|Hno]; [|by rewrite Contains_absent].
    rewrite Contains_first by done. unfold SplitN2. rewrite Index_first by done.
    pose proof (len_nonneg p). destruct (Z.ltb_spec (len p) 0); [lia|]. rewrite ztake_app_eq by done.
    rewrite (app_assoc p [Byte.x2d] q : p ++ Byte.x2d :: q = _), zdrop_app_eq by (len_simpl; lia).
    apply elem_of_app in Hx as [Hx|Hx]; [by rewrite (Hbad p)|].
    apply elem_of_cons in Hx as [->|Hx]; [done|]. rewrite (Hbad q) by done. by destruct (Atoi p). }
  assert (∀ c f, beq c 45 || beq c 43 = true →
    (if HasSuffix w [c] then threshold (TrimSuffix w [c]) f true else true) = true) as Hs.
  { intros c f Hc. rewrite Ht by auto. by destruct (HasSuffix _ _). }
  assert (∀ c f e, beq c 45 || beq c 43 = true →
    (if HasPrefix w [c] && e then threshold (zdrop 1 w) f true else true) = true) as Hp.
  { intros c f e Hc. destruct (HasPrefix w [c]) eqn:E; [|done]. rewrite Ht by eauto. by destruct e. }
  rewrite Hp, Hs by done. unfold TrimPrefix.
  specialize (Hp Byte.x2b (λ t, t <=? ms) true eq_refl).
  destruct (HasPrefix w [Byte.x2b]); cbn [andb] in Hp; [|by apply Hs].
  change (len [Byte.x2b]) with 1. rewrite Hp. by apply Hs.
Qed.

(** C27. The cost filter: [N+] and [+N] select the calls that took at least N
    milliseconds, [N-] and [-N] those that took at most N, [A-B] those in
    between (both bounds included), [N] those of exactly N; white space around
    it does not count, and a filter that has a byte that is neither a digit
    nor a sign, and begins and ends with non-blank ASCII, selects every
    call.  (Other texts of digits and signs are read by
    the first rule that accepts a part of them, see [cost_signs].) *)
Theorem matchCost_spec ms a b l r other x
  (Ha : 0 ≤ a < 2 ^ 63) (Hb : 0 ≤ b < 2 ^ 63)
  (Hl : Forall (λ c, space_byte c = true) l) (Hr : Forall (λ c, space_byte c = true) r)
  (Hother : trimmed_text other) (Hx : x ∈ other) (Hd : is_digit x = false) (Hs : sign_byte x = false) :
  let selects filter := matchCost ms (l ++ filter ++ r) in
  selects (Itoa a ++ gs "+") = (a <=? ms) ∧ selects (gs "+" ++ Itoa a) = (a <=? ms) ∧
  selects (Itoa a ++ gs "-") = (ms <=? a) ∧ selects (gs "-" ++ Itoa a) = (ms <=? a) ∧
  selects (Itoa a ++ gs "-" ++ Itoa b) = (a <=? ms) && (ms <=? b) ∧
  selects (Itoa a) = (ms =? a) ∧ selects other = true.
Proof.
  cbv zeta. split_and!.
  - by apply cost_suffix_plus.
  - by apply cost_prefix_plus.
  - by apply cost_suffix_minus.
  - by apply cost_prefix_minus.
  - by apply cost_range.
  - by apply cost_exact.
  - destruct (matchCost_text ms l other r Hl Hr Hother) as (-> & _). by eapply cost_other.
Qed.

Example cost_signs : map (matchCost 7) (map gs ["+5-"; "1--5"; "-5-"; "5-+6"; "--"; ""])%string = [false; false; false; false; true; true].
Proof. vm_compute. reflexivity. Qed.

(** ** Parsing flags *)

(** What every flag writes keeps what every flag's setter keeps. *)
Definition keeps {C} (P : C → Prop) (f : flag C) : Prop :=
  match f with
  | StringVar set _ _ => ∀ v c, P c → P (set v c)
  | BoolVar set _ _ => ∀ v c, P c → P (set v c)
  | IntVar set _ _ | UintVar set _ _ => ∀ v c, P c → P (set v c)
  end.

Lemma flag_set_keeps {C} (P : C → Prop) f v c c' : keeps P f → P c → flag_set f v c = Some c' → P c'.
Proof.
  destruct f; simpl; intros Hk Hc H.
  - injection H as <-. auto.
  - destruct (ParseBool v); [|done]. injection H as <-. auto.
  - destruct (ParseInt0 v); [|done]. injection H as <-. auto.
  - destruct (ParseUint0 v); [|done]. injection H as <-. auto.
Qed.

Lemma formal_keeps {C} (P : C → Prop) (fs : FlagSet C) n f :
  Forall (λ nf, keeps P nf.2) fs → formal fs n = Some f → keeps P f.
Proof.
  induction 1 as [|[m g] fs Hg Hfs IH]; simpl; [done|]. destruct (str_eqb n m); [|done]. by intros [= <-].
Qed.

Lemma Parse_keeps {C} (P : C → Prop) (fs : FlagSet C) : Forall (λ nf, keeps P nf.2) fs →
  ∀ k args c c' rest, (length args ≤ k)%nat → P c → Parse fs args c = Parsed c' rest → P c'.
Proof.
  intros Hfs. induction k as [|k IH]; intros args c c' rest Hk Hc.
  { destruct args; [|simpl in Hk; lia]. simpl. by intros [= <- _]. }
  destruct args as [|s more]; [simpl; by intros [= <- _]|]. simpl in Hk. cbn [Parse].
  destruct (_ || _); [by intros [= <- _]|]. destruct (str_eqb s _); [by intros [= <- _]|]. cbv zeta.
  destruct (_ || _ || _); [done|]. destruct (split_flag _) as [name value].
  destruct (formal fs name) as [f|] eqn:Ef; [|by destruct (_ || _)].
  apply (formal_keeps P) in Ef; [|done].
  destruct f as [set|set|set|set];
    (destruct value as [v|]; [|destruct more as [|v more]]); cbn [default from_option];
    try done;
    match goal with |- context [flag_set ?f ?v c] => destruct (flag_set f v c) as [c1|] eqn:E end; try done;
    apply (flag_set_keeps P) in E; try done; apply IH; simpl in *; lia || done.
Qed.

(** Names as the program's flags have them. *)
Definition flag_name (n : list byte) : bool :=
  negb (str_eqb n []) && forallb (λ b, negb (beq b 45) && negb (beq b 61)) n.

Lemma flag_name_inv n : flag_name n = true →
  ∃ b m, n = b :: m ∧ Byte.eqb b Byte.x2d = false ∧ Byte.eqb b Byte.x3d = false ∧ Byte.x3d ∉ m.
Proof.
  unfold flag_name. intros H. apply andb_true_iff in H as [Hn H].
  rewrite forallb_forall in H. setoid_rewrite <-list_elem_of_In in H.
  assert (∀ c, c ∈ n → c ≠ Byte.x2d ∧ c ≠ Byte.x3d) as Hc.
  { intros c Hin. specialize (H c Hin). split; intros ->; done. }
  destruct n as [|b m]; [done|]. exists b, m. destruct (Hc b) as [H1 H2]; [by constructor|].
  split_and!; [done|by apply byte_eqb_neq..|]. intros Hin. destruct (Hc Byte.x3d) as [_ []]; [by constructor|done].
Qed.

Section parse.
Context {C : Type} (fs : FlagSet C) (n : list byte) (Hn : flag_name n = true).

(** Both [-n] and [--n] name the flag. *)
Lemma Parse_flag dashes value more c : dashes = minus ∨ dashes = dashes2 →
  Parse fs ((dashes ++ n ++ value) :: more) c =
  let '(name, v) := split_flag (n ++ value) in
  match formal fs name with
  | None => if str_eqb name (gs "help") || str_eqb name (gs "h") then ErrHelp
            else BadFlag (gs "flag provided but not defined: -" ++ name)
  | Some (BoolVar _ _ _ as f) =>
      match flag_set f (default (gs "true") v) c with
      | Some c => Parse fs more c
      | None => BadFlag (gs "invalid boolean value for -" ++ name)
      end
  | Some f =>
      match v, more with
      | Some v, _ => match flag_set f v c with
                     | Some c => Parse fs more c
                     | None => BadFlag (gs "invalid value for flag -" ++ name)
                     end
      | None, v :: more => match flag_set f v c with
                     | Some c => Parse fs more c
                     | None => BadFlag (gs "invalid value for flag -" ++ name)
                     end
      | None, [] => BadFlag (gs "flag needs an argument: -" ++ name)
      end
  end.
Proof.
  intros Hd. destruct (flag_name_inv n Hn) as (b & m & -> & Hb & He & Hm).
  assert (Byte.eqb Byte.x2d b = false) as Hb'.
  { apply byte_eqb_neq. intros <-. by rewrite byte_eqb_refl in Hb. }
  pose proof (len_nonneg (m ++ value)).
  destruct Hd as [-> | ->]; cbn [minus dashes2 app Parse].
  - rewrite !len_cons. destruct (Z.ltb_spec (1 + (1 + len (m ++ value))) 2); [lia|].
    cbn [HasPrefix minus Byte.eqb orb negb andb]. rewrite byte_eqb_refl. cbn [andb negb orb].
    rewrite str_eqb_neq by (intros [= -> _]; by rewrite byte_eqb_refl in Hb).
    unfold dashes2, equals, minus. cbn [HasPrefix]. rewrite byte_eqb_refl, Hb. cbn [andb].
    change (zdrop 1 (Byte.x2d :: b :: m ++ value)) with (b :: m ++ value).
    rewrite !HasPrefix_byte, Hb, He, (str_eqb_neq (b :: m ++ value)) by done. done.
  - rewrite !len_cons. destruct (Z.ltb_spec (1 + (1 + (1 + len (m ++ value)))) 2); [lia|].
    cbn [HasPrefix minus Byte.eqb orb negb andb]. rewrite byte_eqb_refl. cbn [andb negb orb].
    rewrite str_eqb_neq by done.
    unfold dashes2, equals, minus. cbn [HasPrefix]. rewrite byte_eqb_refl. cbn [andb].
    change (zdrop 2 (Byte.x2d :: Byte.x2d :: b :: m ++ value)) with (b :: m ++ value).
    rewrite !HasPrefix_byte, Hb, He, (str_eqb_neq (b :: m ++ value)) by done. done.
Qed.

Lemma split_flag_plain : split_flag n = (n, None).
Proof.
  destruct (flag_name_inv n Hn) as (b & m & -> & _ & _ & Hm). unfold split_flag.
  unfold equals. by rewrite Index_absent.
Qed.
Lemma split_flag_value v : split_flag (n ++ equals ++ v) = (n, Some v).
Proof.
  destruct (flag_name_inv n Hn) as (b & m & -> & _ & _ & Hm). unfold split_flag. cbn [app].
  unfold equals. cbn [app].
  rewrite Index_first by done. pose proof (len_nonneg m). destruct (Z.ltb_spec (len m) 0); [lia|].
  rewrite ztake_app_eq by done. rewrite (app_assoc m [Byte.x3d] v : m ++ Byte.x3d :: v = _).
  by rewrite zdrop_app_eq by (len_simpl; lia).
Qed.

Lemma Parse_string_value set d u v more c : formal fs n = Some (StringVar set d u) →
  Parse fs ((minus ++ n ++ equals ++ v) :: more) c = Parse fs more (set v c).
Proof. intros Hf. rewrite Parse_flag by auto. rewrite split_flag_value, Hf. done. Qed.
Lemma Parse_string_next set d u v more c : formal fs n = Some (StringVar set d u) →
  Parse fs ((minus ++ n) :: v :: more) c = Parse fs more (set v c).
Proof.
  intros Hf. rewrite <-(app_nil_r n) at 1. rewrite Parse_flag by auto.
  rewrite app_nil_r, split_flag_plain, Hf. done.
Qed.
(** A flag that takes a value and has none. *)
Lemma Parse_no_value dashes f c : dashes = minus ∨ dashes = dashes2 → formal fs n = Some f →
  (∀ set d u, f ≠ BoolVar set d u) →
  Parse fs [dashes ++ n] c = BadFlag (gs "flag needs an argument: -" ++ n).
Proof.
  intros Hd Hf Hb. rewrite <-(app_nil_r n) at 1. rewrite Parse_flag by done.
  rewrite app_nil_r, split_flag_plain, Hf. destruct f as [|set d u| |]; [done| |done|done]. by destruct (Hb set d u).
Qed.
End parse.

(** ** [main] *)

(** The words that mean something wherever they stand. *)
Definition reserved (a : list byte) : bool :=
  str_eqb a (gs "-v") || str_eqb a (gs "--version") || str_eqb a (gs "--all") || help_flag a.

Lemma existsb_reserved (f : list byte → bool) args : (∀ a, f a = true → reserved a = true) →
  Forall (λ a, reserved a = false) args → existsb f args = false.
Proof.
  intros Hf. induction 1 as [|a args Ha _ IH]; [done|]. simpl. rewrite IH, orb_false_r.
  destruct (f a) eqn:E; [|done]. by rewrite Hf in Ha.
Qed.

(** Arguments without a reserved word go to the flags. *)
Lemma main_no_reserved args : Forall (λ a, reserved a = false) args →
  main args =
    (globalArgs ← (if findSubcommand args <? len args then sub args 0 (findSubcommand args) else Ret args);
     exit_on_error (Parse global_flags globalArgs new_GlobalConfig) (λ global,
       let global := set_Port (uint 16 (Port global)) global in
       if findSubcommand args <? len args then
         protoName ← index args (findSubcommand args);
         match subcommandByName protoName with
         | None => Ret (Exit 1)
         | Some sc =>
             let proto := set_Protocol (Name sc) new_ProtoConfig in
             protoArgs ← sub args (findSubcommand args + 1) (len args);
             if existsb help_flag protoArgs then Ret (ProtoHelp sc)
             else exit_on_error (Parse (Setup sc) protoArgs proto) (λ proto, Ret (Capture global proto))
         end
       else Ret (Capture global (set_Protocol (gs "auto") new_ProtoConfig)))).
Proof.
  intros Hr. unfold main. cbv zeta. rewrite !existsb_reserved; try done.
  - intros a. unfold reserved. intros ->. by rewrite !orb_true_r.
  - intros a Ha. apply andb_true_iff in Ha as [Ha _]. unfold reserved. rewrite Ha. by rewrite orb_true_r.
  - intros a Ha. unfold reserved. by rewrite Ha.
Qed.

Lemma findSubcommand_from_range i args : findSubcommand_from i args = -1 ∧ existsb help_flag args = true ∨
  i ≤ findSubcommand_from i args ≤ i + len args.
Proof.
  revert i. induction args as [|a args IH]; intros i; cbn [findSubcommand_from existsb].
  - right. change (len []) with 0. lia.
  - rewrite len_cons. pose proof (len_nonneg args). destruct (negb _); [right; lia|].
    destruct (help_flag a) eqn:E; [by left|]. destruct (IH (i + 1)) as [[H1 H2]|H1]; [left|right; lia].
    split; [done|]. by rewrite H2, orb_true_r.
Qed.

(** The arguments before the protocol. *)
Lemma findSubcommand_app pre v rest i : Forall (λ a, HasPrefix a minus = true ∧ help_flag a = false) pre →
  HasPrefix v minus = false → findSubcommand_from i (pre ++ v :: rest) = i + len pre.
Proof.
  intros Hpre Hv. revert i. induction Hpre as [|a pre [H1 H2] _ IH]; intros i; cbn [app findSubcommand_from].
  - rewrite Hv. simpl. change (len []) with 0. lia.
  - rewrite H1, H2, IH, len_cons. simpl. lia.
Qed.

Lemma sub_prefix {A} (pre : list A) k : sub (pre ++ k) 0 (len pre) = Ret pre.
Proof. by rewrite sub_Ret, zdrop_nonpos, Z.sub_0_r, ztake_app_eq by (len_lia || done). Qed.

Definition proto_ok (p : ProtoConfig) : Prop :=
  Protocol p = gs "auto" ∨ ∃ sc, sc ∈ subcommands ∧ Protocol p = Name sc.

Lemma subcommands_keep name : Forall (λ sc, Forall (λ nf, keeps (λ p, Protocol p = name) nf.2) (Setup sc)) subcommands.
Proof.
  unfold subcommands, cost_flags. cbn [app].
  repeat (first [apply Forall_nil_2|apply Forall_cons_2]; cbn [Setup]); intros ??; exact id.
Qed.

(** [main] never panics, and whenever it starts a capture the port is a
    port number and the protocol one that has a handler. *)
Theorem main_starts_captures args :
  ∃ o, main args = Ret o ∧
    ∀ global proto, o = Capture global proto → 0 ≤ Port global < 65536 ∧ proto_ok proto.
Proof.
  change (returns (main args) (λ o, ∀ global proto, o = Capture global proto → 0 ≤ Port global < 65536 ∧ proto_ok proto)).
  unfold main. destruct (existsb _ args); [by apply returns_Ret|]. cbv zeta.
  set (i := findSubcommand args). destruct (existsb (λ a, help_flag a && _) args) eqn:Eh; [by apply returns_Ret|].
  destruct (existsb (λ a, str_eqb a (gs "--all")) args); [by apply returns_Ret|].
  assert (0 ≤ i ≤ len args) as Hi.
  { clear -Eh. destruct (findSubcommand_from_range 0 args) as [[H1 H2]|?]; [|unfold i, findSubcommand; lia].
    unfold i, findSubcommand in Eh. rewrite H1 in Eh. change (-1 =? -1) with true in Eh.
    exfalso. clear -H2 Eh. induction args as [|a args IH]; [done|]. simpl in *.
    rewrite andb_true_r in *. destruct (help_flag a); [done|]. by apply IH. }
  clear Eh. assert (∀ p, 0 ≤ uint 16 p < 65536) as Hport by (intros; by apply uint_range).
  eapply (returns_bind _ _ (λ _, True)).
  { destruct (Z.ltb_spec i (len args)); [|by apply returns_Ret]. rewrite sub_Ret by lia. by apply returns_Ret. }
  intros ga _. destruct (Parse _ ga _) as [g rest| |]; cbn [exit_on_error]; try by apply returns_Ret.
  destruct (Z.ltb_spec i (len args)).
  2:{ apply returns_Ret. intros ?? [= <- <-]. split; [apply Hport|by left]. }
  destruct (index_Ret args i) as (name & Hname & _); [lia|]. rewrite Hname. cbn [mbind go_bind].
  destruct (subcommandByName name) as [sc|] eqn:Es; [|by apply returns_Ret].
  apply find_some in Es as [Hin _]. rewrite sub_Ret by lia. cbn [mbind go_bind].
  destruct (existsb _ _); [by apply returns_Ret|].
  destruct (Parse _ _ _) as [p rest'| |] eqn:Ep; cbn [exit_on_error]; try by apply returns_Ret.
  apply returns_Ret. intros ?? [= <- <-]. split; [apply Hport|]. right. exists sc.
  apply list_elem_of_In in Hin. split; [done|].
  eapply (Parse_keeps (λ p, Protocol p = Name sc)) in Ep; [done| |reflexivity|done].
  pose proof (subcommands_keep (Name sc)) as Hk. rewrite Forall_forall in Hk. by apply Hk.
Qed.

(** A flag of the program written [-name=value]. *)
Definition flag_eq (nv : list byte * list byte) : list byte := minus ++ nv.1 ++ equals ++ nv.2.

(** [c] with the string flags of [l] written into it. *)
Fixpoint assign {C} (fs : FlagSet C) (l : list (list byte * list byte)) (c : C) : option C :=
  match l with
  | [] => Some c
  | (n, v) :: l =>
      match formal fs n with
      | Some (StringVar set _ _) => assign fs l (set v c)
      | _ => None
      end
  end.

Lemma Parse_assign {C} (fs : FlagSet C) l : Forall (λ nf, flag_name nf.1 = true) fs → ∀ c c',
  assign fs l c = Some c' → Parse fs (map flag_eq l) c = Parsed c' [].
Proof.
  intros Hfs. induction l as [|[n v] l IH]; intros c c' Ha; [simpl in *; by injection Ha as ->|].
  cbn [assign] in Ha. destruct (formal fs n) as [[set d u| | |]|] eqn:Ef; try done.
  assert (flag_name n = true) as Hn.
  { clear -Hfs Ef. induction Hfs as [|[m g] fs Hg _ IH]; [done|]. simpl in Ef.
    destruct (str_eqb_spec n m) as [->|]; [done|by apply IH]. }
  cbn [map]. unfold flag_eq at 1. cbn [fst snd]. rewrite (Parse_string_value fs n Hn set d u) by done. by apply IH.
Qed.

Lemma global_names : Forall (λ nf : list byte * flag GlobalConfig, flag_name nf.1 = true) global_flags.
Proof. repeat (first [apply Forall_nil_2|apply Forall_cons_2]); reflexivity. Qed.
Lemma subcommand_names : Forall (λ sc, Forall (λ nf : list byte * flag ProtoConfig, flag_name nf.1 = true) (Setup sc)) subcommands.
Proof.
  unfold subcommands, cost_flags. cbn [app].
  repeat (first [apply Forall_nil_2|apply Forall_cons_2]; cbn [Setup]); reflexivity.
Qed.

Lemma flag_eq_prefix nv : HasPrefix (flag_eq nv) minus = true.
Proof. unfold flag_eq. apply HasPrefix_app. Qed.

Lemma formal_flag_name {C} (fs : FlagSet C) n f : Forall (λ nf, flag_name nf.1 = true) fs →
  formal fs n = Some f → flag_name n = true.
Proof.
  intros Hfs. induction Hfs as [|[m g] fs Hg _ IH]; [done|]. simpl.
  destruct (str_eqb_spec n m) as [->|]; [done|exact IH].
Qed.

(** C28. With every value written behind an equals sign, the command line
    means what it says: the global flags before the protocol, its name or one
    of its aliases, and the protocol's own flags are all found in the
    configuration of the capture. *)
Theorem flags_reach_the_capture gl pl name sc g p
  (Hg : assign global_flags gl new_GlobalConfig = Some g) (Hsc : subcommandByName name = Some sc)
  (Hp : assign (Setup sc) pl (set_Protocol (Name sc) new_ProtoConfig) = Some p)
  (Hname : HasPrefix name minus = false)
  (Hres : Forall (λ a, reserved a = false) (map flag_eq gl ++ name :: map flag_eq pl)) :
  main (map flag_eq gl ++ name :: map flag_eq pl) = Ret (Capture (set_Port (uint 16 (Port g)) g) p).
Proof.
  rewrite main_no_reserved by done. unfold findSubcommand. set (pre := map flag_eq gl) in *.
  assert (Forall (λ a, reserved a = false) pre ∧ Forall (λ a, reserved a = false) (map flag_eq pl)) as [Hr1 Hr2].
  { apply Forall_app in Hres as [H1 H2]. by inversion H2. }
  rewrite findSubcommand_app; [|clear Hres Hr2|done].
  2:{ rewrite Forall_forall in *. intros a Ha. split.
      - apply list_elem_of_In, in_map_iff in Ha as (nv & <- & _). apply flag_eq_prefix.
      - specialize (Hr1 a Ha). unfold reserved in Hr1. by apply orb_false_iff in Hr1 as [_ ?]. }
  pose proof (len_nonneg pre). pose proof (len_nonneg (map flag_eq pl)). rewrite Z.add_0_l.
  assert (len (pre ++ name :: map flag_eq pl) = len pre + (1 + len (map flag_eq pl))) as Hl by (len_simpl; lia).
  rewrite Hl. destruct (Z.ltb_spec (len pre) (len pre + (1 + len (map flag_eq pl)))); [|lia].
  rewrite sub_prefix. cbn [mbind go_bind]. unfold pre at 1.
  rewrite (Parse_assign _ _ global_names _ _ Hg). cbn [exit_on_error]. cbv zeta.
  replace (len pre) with (len pre + 0) at 1 by lia. rewrite index_app_r by lia.
  cbn [index]. rewrite index_cons_0. cbn [mbind go_bind]. rewrite Hsc.
  assert (sub (pre ++ name :: map flag_eq pl) (len pre + 1) (len pre + (1 + len (map flag_eq pl))) = Ret (map flag_eq pl)) as ->.
  { rewrite sub_app_r by lia. rewrite sub_Ret by (rewrite ?len_cons; lia). f_equal.
    change (zdrop 1 (name :: ?l)) with l. apply ztake_ge. lia. }
  cbn [mbind go_bind]. rewrite existsb_reserved; [|by intros a Ha; unfold reserved; rewrite Ha, orb_true_r|done].
  apply find_some in Hsc as [Hin%list_elem_of_In _].
  rewrite (Parse_assign _ _ (proj1 (Forall_forall _ _) subcommand_names sc Hin) _ _ Hp). done.
Qed.

(** But a global flag whose value is the next argument, as the help text
    and the README write it ([tcpshow -i eth0 redis]), ends the program with
    status 2: the value is taken for the protocol, and the flag before it is
    left without one. *)
Theorem separate_value_is_refused dashes n f v rest
  (Hd : dashes = minus ∨ dashes = dashes2) (Hf : formal global_flags n = Some f)
  (Hb : n ≠ gs "h") (Hv : HasPrefix v minus = false)
  (Hres : Forall (λ a, reserved a = false) ((dashes ++ n) :: v :: rest)) :
  main ((dashes ++ n) :: v :: rest) = Ret (Exit 2).
Proof.
  rewrite main_no_reserved by done. unfold findSubcommand.
  change ((dashes ++ n) :: v :: rest) with ([dashes ++ n] ++ v :: rest).
  rewrite findSubcommand_app; [|apply Forall_cons_2, Forall_nil_2; split|done].
  2:{ destruct Hd as [-> | ->]; apply HasPrefix_spec; eexists; reflexivity. }
  2:{ inversion Hres as [|? ? H _]. unfold reserved in H. by apply orb_false_iff in H as [_ ?]. }
  pose proof (len_nonneg rest). set (x := dashes ++ n) in *.
  assert (len [x] = 1) as Hl by done.
  assert (sub ([x] ++ v :: rest) 0 1 = Ret [x]) as Hs by (rewrite <-Hl; apply sub_prefix).
  rewrite Z.add_0_l, len_app, !Hl, len_cons. destruct (Z.ltb_spec 1 (1 + (1 + len rest))); [|lia].
  rewrite Hs. cbn [mbind go_bind]. unfold x.
  rewrite (Parse_no_value global_flags n (formal_flag_name _ _ _ global_names Hf) dashes f); [done|done|done|].
  intros set d u ->. clear -Hf Hb. unfold global_flags in Hf. cbn [formal] in Hf.
  repeat match type of Hf with
  | context [str_eqb n ?m] => destruct (str_eqb_spec n m) as [?|_]; [first [discriminate Hf|by destruct Hb]|]
  end.
  discriminate Hf.
Qed.

(** ** The properties at work *)

Lemma matchCost_spec_witness : matchCost 60 (gs " 50-200 ") = true ∧ matchCost 60 (gs "slow") = true.
Proof.
  destruct (matchCost_spec 60 50 200 (gs " ") (gs " ") (gs "slow") Byte.x73) as (_ & _ & _ & _ & H & _ & _);
    [lia|lia|by repeat constructor|by repeat constructor|by split|by constructor|done|done|].
  destruct (matchCost_spec 60 50 200 [] [] (gs "slow") Byte.x73) as (_ & _ & _ & _ & _ & _ & H');
    [lia|lia|done|done|by split|by constructor|done|done|].
  split; [exact H|exact H'].
Defined.

Lemma flags_reach_the_capture_witness :
  main (strings ["-i=eth0"; "-ip=10.0.0.1"; "zk"; "-C=50+"]%string)
  = Ret (Capture (mkGlobal (gs "eth0") (gs "10.0.0.1") 0 [] (gs "all") [] [])
           (mkProto (gs "zookeeper") [] [] false [] [] 0 [] [] 0 (gs "50+"))).
Proof.
  apply (flags_reach_the_capture [(gs "i", gs "eth0"); (gs "ip", gs "10.0.0.1")] [(gs "C", gs "50+")]
    (gs "zk") (default (mkSubcommand [] [] [] [] []) (subcommandByName (gs "zk")))
    (mkGlobal (gs "eth0") (gs "10.0.0.1") 0 [] (gs "all") [] []));
    [reflexivity|reflexivity|reflexivity|reflexivity|repeat constructor].
Defined.

Lemma separate_value_is_refused_witness :
  main (strings ["-i"; "eth0"; "redis"; "-k"; "user:*"]%string) = Ret (Exit 2).
Proof.
  apply (separate_value_is_refused minus (gs "i") (StringVar set_Interface (gs "any") (gs "Network interface")) (gs "eth0")
           (strings ["redis"; "-k"; "user:*"]%string));
    [by left|reflexivity|done|reflexivity|repeat constructor].
Defined.
