(* ===== verification/Help.v ===== *)
(** * The help texts (src/main.go)

    What [main] prints instead of capturing: the version, the help of the
    program and of its protocols, and the texts of [flag.PrintDefaults]. *)

From S2P Require Import Prelude GoBytes GoStrings Unicode Reader Cli.

(** ** [flag.PrintDefaults] *)

(** [flag.UnquoteUsage] for a text without back quotes: the name of the
    operand is that of the type. *)
Definition operand {C} (f : flag C) : list byte :=
  match f with
  | StringVar _ _ _ => gs "string"
  | BoolVar _ _ _ => []
  | IntVar _ _ _ => gs "int"
  | UintVar _ _ _ => gs "uint"
  end.
Definition usage {C} (f : flag C) : list byte :=
  match f with StringVar _ _ u | BoolVar _ _ u | IntVar _ _ u | UintVar _ _ u => u end.

Section help.
Context `{UnicodeTables}.

(** The default value, unless it is the zero value of the type. *)
Definition default_text {C} (f : flag C) : list byte :=
  match f with
  | StringVar _ v _ => if str_eqb v [] then [] else gs " (default " ++ Quote v ++ gs ")"
  | BoolVar _ v _ => if v then gs " (default true)" else []
  | IntVar _ v _ | UintVar _ v _ => if v =? 0 then [] else gs " (default " ++ Itoa v ++ gs ")"
  end.

Definition tab : byte := Byte.x09.
(** [strings.ReplaceAll(usage, "\n", "\n    \t")] *)
Definition indent_lines (s : list byte) : list byte :=
  concat (map (λ b, if Byte.eqb b newline then newline :: gs "    " ++ [tab] else [b]) s).

Definition flag_text {C} (nf : list byte * flag C) : list byte :=
  let b := gs "  -" ++ nf.1 in
  let b := match operand nf.2 with [] => b | name => b ++ gs " " ++ name end in
  let b := if len b <=? 4 then b ++ [tab] else b ++ newline :: gs "    " ++ [tab] in
  b ++ indent_lines (usage nf.2) ++ default_text nf.2 ++ [newline].

(** [VisitAll] goes in the order of the names. *)
Fixpoint insert_flag {C} (nf : list byte * flag C) (fs : FlagSet C) : FlagSet C :=
  match fs with
  | [] => [nf]
  | mf :: fs' => if str_ltb nf.1 mf.1 then nf :: fs else mf :: insert_flag nf fs'
  end.
Definition sort_flags {C} (fs : FlagSet C) : FlagSet C := fold_right insert_flag [] fs.

Definition PrintDefaults {C} (fs : FlagSet C) : list byte := concat (map flag_text (sort_flags fs)).

(** ** The texts of main.go *)

(** [fmt.Println(s)] *)
Definition println (s : list byte) : list byte := s ++ [newline].
Definition printlns (l : list (list byte)) : list byte := concat (map println l).

(** [%-10s] *)
Definition pad10 (s : list byte) : list byte := s ++ replicate (10 - length (runes s)) Byte.x20.

Definition version : list byte := gs "0.2.0".
Definition printVersion : list byte := gs "tcpshow v" ++ version ++ [newline].

Definition help_head : list byte :=
  println (gs "tcpshow - TCP traffic sniffer for Dubbo, Redis, MySQL, MongoDB, RocketMQ, HTTP, WebSocket, ZooKeeper, Nacos") ++ println [] ++
  printlns (strings
    ["USAGE:";
     "  tcpshow [global-flags] [protocol] [protocol-flags]";
     "  tcpshow -h"]%string) ++ println [] ++
  printlns (strings
    ["GLOBAL FLAGS:";
     "  -i <iface>      Network interface (default: any)";
     "  -r <file>       Read from pcap file";
     "  --ip <ip>       Filter by IP address";
     "  --port <port>   Filter by port";
     "  -o <dir>        Output per-protocol files to directory";
     "  -l <level>      Output level: url (compact) | all (default)";
     "  -h, --help      Show this help";
     "  -v, --version   Print version"]%string) ++ println [] ++
  println (gs "PROTOCOLS:").

Definition protocol_line (sc : subcommand) : list byte :=
  let aliases := match Aliases sc with [] => [] | l => gs " (alias: " ++ Join l (gs ", ") ++ gs ")" end in
  gs "  " ++ pad10 (Name sc) ++ gs " " ++ Description sc ++ aliases ++ [newline].

(** The examples at the end of the global help. *)
Definition global_examples : list (list byte) := strings
  ["  tcpshow                         # auto-detect all protocols";
   "  tcpshow -i eth0 redis -k 'user:*'";
   "  tcpshow mysql -q tableName -C 100+";
   "  tcpshow -r capture.pcap dubbo -s 'com.example.*'"]%string.

Definition printGlobalHelp : list byte :=
  help_head ++ concat (map protocol_line subcommands) ++ println [] ++
  println (gs "Run 'tcpshow <protocol> -h' for protocol-specific flags.") ++ println [] ++
  println (gs "EXAMPLES:") ++ printlns global_examples.

(** The flags of a subcommand, and its examples below [title]. *)
Definition flags_and_examples (sc : subcommand) (title : list byte) : list byte :=
  PrintDefaults (Setup sc) ++ match Examples sc with [] => [] | l => println [] ++ println title ++ printlns l end.

Definition printProtoHelp (sc : subcommand) : list byte :=
  gs "tcpshow " ++ Name sc ++ gs " — " ++ Description sc ++ [newline; newline] ++
  println (gs "USAGE: tcpshow [global-flags] " ++ Name sc ++ gs " [flags]") ++ println [] ++
  println (gs "FLAGS:") ++ flags_and_examples sc (gs "EXAMPLES:").

Definition printAllHelp : list byte :=
  printGlobalHelp ++ println (gs "---") ++ println [] ++
  concat (map (λ sc, gs "PROTOCOL: " ++ Name sc ++ gs " — " ++ Description sc ++ [newline] ++
                     flags_and_examples sc (gs "Examples:") ++ println []) subcommands).

(** What an outcome of [main] prints before the program ends. *)
Definition printed_text (o : outcome) : list byte :=
  match o with
  | PrintVersion => printVersion
  | GlobalHelp => printGlobalHelp
  | AllHelp => printAllHelp
  | ProtoHelp sc => printProtoHelp sc
  | Exit _ | Capture _ _ => []
  end.

(** ** The help is complete *)

Lemma insert_flag_perm {C} (nf : list byte * flag C) fs : insert_flag nf fs ≡ₚ nf :: fs.
Proof. induction fs as [|mf fs IH]; [done|]. cbn [insert_flag]. destruct (str_ltb _ _); [done|]. by rewrite IH, Permutation_swap. Qed.
Lemma sort_flags_perm {C} (fs : FlagSet C) : sort_flags fs ≡ₚ fs.
Proof. induction fs as [|nf fs IH]; [done|]. cbn [sort_flags fold_right]. by rewrite insert_flag_perm, IH. Qed.

(** [t] is a part of [s]. *)
Definition part (t s : list byte) : Prop := ∃ before behind, s = before ++ t ++ behind.

Lemma part_refl t : part t t.
Proof. exists [], []. by rewrite app_nil_r. Qed.
Lemma part_app_l t s s' : part t s → part t (s' ++ s).
Proof. intros (x & y & ->). exists (s' ++ x), y. by rewrite <-app_assoc. Qed.
Lemma part_app_r t s s' : part t s → part t (s ++ s').
Proof. intros (x & y & ->). exists x, (y ++ s'). by rewrite <-!app_assoc. Qed.
Lemma part_concat t l : t ∈ l → part t (concat l).
Proof. induction 1; cbn [concat]; [apply part_app_r, part_refl|by apply part_app_l]. Qed.

Lemma part_concat_map {A} (f : A → list byte) x l t : x ∈ l → part t (f x) → part t (concat (map f l)).
Proof. intros Hx Ht. induction Hx; cbn [map concat]; [by apply part_app_r|apply part_app_l; auto]. Qed.

#[local] Hint Resolve part_app_l part_app_r part_refl : core.

Lemma PrintDefaults_lists {C} (fs : FlagSet C) nf : nf ∈ fs → part (flag_text nf) (PrintDefaults fs).
Proof. intros Hin. apply part_concat, list_elem_of_fmap_2. by rewrite sort_flags_perm. Qed.

(** The help of a protocol has a line for every flag that its parser knows, and
    the help of everything has those of every protocol, and every name with
    its aliases. *)
Theorem help_lists_flags sc nf (Hsc : sc ∈ subcommands) (Hnf : nf ∈ Setup sc) :
  part (flag_text nf) (printProtoHelp sc) ∧ part (flag_text nf) printAllHelp ∧ part (protocol_line sc) printGlobalHelp.
Proof.
  assert (∀ t, part (flag_text nf) (flags_and_examples sc t)) as Hf by (intros t; by apply part_app_r, PrintDefaults_lists).
  split_and!.
  - unfold printProtoHelp. auto 20.
  - unfold printAllHelp. do 3 apply part_app_l. apply (part_concat_map _ sc); [done|]. auto 20.
  - unfold printGlobalHelp. apply part_app_l, part_app_r. by apply part_concat, list_elem_of_fmap_2.
Qed.
End help.

(** ** The examples *)

(** The words a shell makes of a line: parted by spaces, without the quotes
    around them, up to a comment. *)
Fixpoint shell_words (quoted : bool) (word : option (list byte)) (s : list byte) : list (list byte) :=
  let done := option_list word in
  match s with
  | [] => done
  | b :: s =>
      let more := Some (default [] word ++ [b]) in
      if Byte.eqb b Byte.x27 then shell_words (negb quoted) (Some (default [] word)) s
      else if quoted then shell_words quoted more s
      else if Byte.eqb b Byte.x20 then done ++ shell_words false None s
      else if Byte.eqb b Byte.x23 && bool_decide (word = None) then []
      else shell_words false more s
  end.
(** A line of the help as a call of the program. *)
Definition run_example (e : list byte) : go outcome := main (List.tl (shell_words false None e)).

Definition runs_as (sc : subcommand) (e : list byte) : bool :=
  match run_example e with
  | Ret (Capture g p) => bool_decide (Protocol p = Name sc) && bool_decide (Interface g = gs "any") && str_eqb (PcapFile g) []
  | _ => false
  end.

(** The examples of every protocol start a capture of that protocol.  Of the
    four in the global help, the two that give a value to a global flag behind
    a space end with status 2 instead: the value is taken for the protocol, and
    the flag is left without one. *)
Theorem help_examples :
  (∀ sc e, sc ∈ subcommands → e ∈ Examples sc → ∃ g p, run_example e = Ret (Capture g p) ∧ Protocol p = Name sc) ∧
  ∃ g1 p1 g3 p3, map run_example global_examples =
    [Ret (Capture g1 p1); Ret (Exit 2); Ret (Capture g3 p3); Ret (Exit 2)] ∧
    Protocol p1 = gs "auto" ∧ Protocol p3 = gs "mysql" ∧ MySQLQuery p3 = gs "tableName" ∧ Cost p3 = gs "100+".
Proof.
  split.
  - intros sc e Hsc He.
    assert (forallb (λ sc, forallb (runs_as sc) (Examples sc)) subcommands = true) as Hall by (vm_compute; reflexivity).
    rewrite forallb_forall in Hall. specialize (Hall sc ltac:(by apply list_elem_of_In)). rewrite forallb_forall in Hall.
    specialize (Hall e ltac:(by apply list_elem_of_In)). unfold runs_as in Hall.
    destruct (run_example e) as [[| | | | |g p]|]; try done. exists g, p. split; [done|]. zbool. by apply bool_decide_eq_true in H.
  - do 4 eexists. split; [vm_compute; reflexivity|]. split_and!; vm_compute; reflexivity.
Qed.
