(* ===== verification/Handlers.v ===== *)
(** * The traffic handlers (src/main.go)

    The handlers of Redis, MySQL, MongoDB, WebSocket, ZooKeeper and HTTP: their loops
    over the two directions of a connection, the filters, and the texts they
    hand to the printer. *)

From S2P Require Import Prelude GoBytes GoStrings Unicode Window Reader Assembler Text Cli.
From S2P Require Printers Redis MySQL ZooKeeper WebSocket Bson Mongo Http.

(** What a handler gets from outside: the [k]-th reading of the clock, in
    nanoseconds, the local date and time it stands for, and the expressions of
    package [regexp]; [None] is the panic of [MustCompile].  The printer is
    shared with the other handlers, its own goroutine and [main], which closes
    it: [printer_checked k] is the printer as the [k]-th call of [Send] finds
    it, [printer_put k] the one in which the send statement of that call goes
    on, or waits. *)
Class Environment := {
  now : nat → Z;
  format_time : Z → list byte;
  MustCompile : list byte → option (list byte → bool);
  printer_checked : nat → Printers.MultiPrinter;
  printer_put : nat → Printers.MultiPrinter }.

(** ** The state of a handler

    [h_up] and [h_down] are what is left to read of the two directions, up to
    the end of the connection; [h_req] is [reqTime], [h_buf] is [Buf], and
    [h_sent] the calls of [Send] that have come back, the protocol with each
    text.  [HWaits] is a handler that waits in [Send], [HPanic] one that
    panics. *)
Record hstate := mkH {
  h_up : list byte; h_down : list byte; h_ticks : nat; h_req : Z;
  h_buf : list byte; h_sent : list (list byte * list byte) }.

Inductive hres (A : Type) : Type :=
| HRet (a : A) (s : hstate)
| HPanic
| HWaits
| HSpin.
Arguments HRet {A} a s.
Arguments HPanic {A}.
Arguments HWaits {A}.
Arguments HSpin {A}.

Definition handler (A : Type) : Type := hstate → hres A.

#[export] Instance handler_ret : MRet handler := fun A a s => HRet a s.
#[export] Instance handler_bind : MBind handler := fun A B f m s =>
  match m s with HRet a s => f a s | HPanic => HPanic | HWaits => HWaits | HSpin => HSpin end.

(** A call of a reader on one of the directions, its error returned. *)
Definition read_up {A} (m : parser A) : handler (A + error) := fun s =>
  match try m (h_up s) with
  | Got r rest => HRet r (mkH rest (h_down s) (h_ticks s) (h_req s) (h_buf s) (h_sent s))
  | Fail _ _ | Panicked => HPanic
  | Spin => HSpin
  end.
Definition read_down {A} (m : parser A) : handler (A + error) := fun s =>
  match try m (h_down s) with
  | Got r rest => HRet r (mkH (h_up s) rest (h_ticks s) (h_req s) (h_buf s) (h_sent s))
  | Fail _ _ | Panicked => HPanic
  | Spin => HSpin
  end.

Definition initBuf : handler unit := fun s =>
  HRet tt (mkH (h_up s) (h_down s) (h_ticks s) (h_req s) [] (h_sent s)).
Definition write (b : list byte) : handler unit := fun s =>
  HRet tt (mkH (h_up s) (h_down s) (h_ticks s) (h_req s) (h_buf s ++ b) (h_sent s)).
Definition writeLine (b : list byte) : handler unit := write (b ++ [newline]).
Definition hasContent : handler bool := fun s => HRet (negb (str_eqb (h_buf s) [])) s.

(** The loop of a handler, [true] for another round. *)
Fixpoint rounds (fuel : nat) (body : handler bool) : handler unit :=
  match fuel with
  | O => fun _ => HSpin
  | S fuel => again ← body; if again : bool then rounds fuel body else mret tt
  end.

Section sending.
Context `{Environment}.

(** The [k]-th call of [h.Printer.Send]: a full queue drops the message
    ([Sent false]); the send statement puts it into the queue, waits, or panics
    when [main] has closed the printer. *)
Definition call_Send (k : nat) (protocol text : list byte) : Printers.sent bool :=
  if Printers.Send_drops (printer_checked k) then Printers.Sent false
  else match Printers.Send_puts (printer_put k) (Printers.mkMsg protocol text) with
       | Printers.Sent _ => Printers.Sent true
       | Printers.Waits => Printers.Waits
       | Printers.SendPanics => Printers.SendPanics
       end.

Definition send (protocol : list byte) : handler unit := fun s =>
  match call_Send (length (h_sent s)) protocol (h_buf s) with
  | Printers.Sent _ => HRet tt (mkH (h_up s) (h_down s) (h_ticks s) (h_req s) (h_buf s) (h_sent s ++ [(protocol, h_buf s)]))
  | Printers.Waits => HWaits
  | Printers.SendPanics => HPanic
  end.

(** [if h.hasContent() { h.send() }] after the loop. *)
Definition flush (protocol : list byte) : handler unit :=
  c ← hasContent; if c : bool then send protocol else mret tt.

(** Several calls one after the other, the first being the [k]-th. *)
Fixpoint sends (k : nat) (calls : list (list byte * list byte)) : Printers.sent unit :=
  match calls with
  | [] => Printers.Sent tt
  | (protocol, text) :: calls =>
      match call_Send k protocol text with
      | Printers.Sent _ => sends (S k) calls
      | Printers.Waits => Printers.Waits
      | Printers.SendPanics => Printers.SendPanics
      end
  end.
(** What a handler comes to that makes these calls and ends in [s]. *)
Definition after_sends {A} (k : nat) (calls : list (list byte * list byte)) (a : A) (s : hstate) : hres A :=
  match sends k calls with Printers.Sent _ => HRet a s | Printers.Waits => HWaits | Printers.SendPanics => HPanic end.
(** The handler calls [Send] with exactly [calls] and ends, unless one of the
    calls does not come back. *)
Definition makes_calls (calls : list (list byte * list byte)) (r : hres unit) : Prop :=
  ∃ s, r = after_sends 0 calls tt s ∧ h_sent s = calls.
(** Every call of [Send] comes back. *)
Definition sends_return : Prop := ∀ k protocol text, ∃ b, call_Send k protocol text = Printers.Sent b.
(** A call of [Send] waits for room in the queue. *)
Definition send_waits : Prop := ∃ k protocol text, call_Send k protocol text = Printers.Waits.

Lemma sends_app a b : ∀ k, sends k (a ++ b) =
  match sends k a with Printers.Sent _ => sends (k + length a) b | r => r end.
Proof.
  induction a as [|[p t] a IH]; intros k; cbn [app sends length]; [by rewrite Nat.add_0_r|].
  destruct (call_Send k p t); [|done..]. rewrite IH. by replace (S k + length a)%nat with (k + S (length a))%nat by lia.
Qed.
Lemma sends_all calls : sends_return → ∀ k, sends k calls = Printers.Sent tt.
Proof. intros Hr. induction calls as [|[p t] calls IH]; intros k; [done|]. cbn [sends]. destruct (Hr k p t) as [b ->]. apply IH. Qed.
Lemma makes_calls_return calls r : sends_return → makes_calls calls r → ∃ s, r = HRet tt s ∧ h_sent s = calls.
Proof. intros Hr (s & -> & Hs). exists s. unfold after_sends. by rewrite sends_all. Qed.
Lemma send_returns protocol s : sends_return → send protocol s
  = HRet tt (mkH (h_up s) (h_down s) (h_ticks s) (h_req s) (h_buf s) (h_sent s ++ [(protocol, h_buf s)])).
Proof. intros Hr. unfold send. by destruct (Hr (length (h_sent s)) protocol (h_buf s)) as [b ->]. Qed.
Lemma after_sends_bind {A B} (m : handler A) (f : A → handler B) s k calls a s' : m s = after_sends k calls a s' →
  (m ≫= f) s = match sends k calls with Printers.Sent _ => f a s' | Printers.Waits => HWaits | Printers.SendPanics => HPanic end.
Proof. intros Hm. unfold mbind, handler_bind. rewrite Hm. unfold after_sends. by destruct (sends k calls). Qed.
Lemma after_sends_app {A} k a b (x : A) s :
  match sends k a with
  | Printers.Sent _ => after_sends (k + length a) b x s
  | Printers.Waits => HWaits
  | Printers.SendPanics => HPanic
  end = after_sends k (a ++ b) x s.
Proof. unfold after_sends. rewrite sends_app. by destruct (sends k a). Qed.
Lemma send_after protocol s : send protocol s = after_sends (length (h_sent s)) [(protocol, h_buf s)] tt
  (mkH (h_up s) (h_down s) (h_ticks s) (h_req s) (h_buf s) (h_sent s ++ [(protocol, h_buf s)])).
Proof. unfold send, after_sends. cbn [sends]. by destruct (call_Send _ _ _). Qed.
End sending.

(** The deferred [DiscardAll] on both readers. *)
Definition discard : handler unit := fun s =>
  HRet tt (mkH [] [] (h_ticks s) (h_req s) (h_buf s) (h_sent s)).

(** ** What the handlers share: [baseHandler] *)

Section base.
Context `{Environment} (global : GlobalConfig) (proto : ProtoConfig) (src dst : Endpoint).

Definition SrcString : list byte := Endpoint_String src.
Definition DstString : list byte := Endpoint_String dst.
Definition url_level : bool := str_eqb (Level global) (gs "url").

Definition startReq : handler unit := fun s =>
  HRet tt (mkH (h_up s) (h_down s) (S (h_ticks s)) (now (h_ticks s)) (h_buf s) (h_sent s)).
(** [time.Since(h.reqTime).Milliseconds()] *)
Definition elapsedMs : handler Z := fun s =>
  HRet (Z.quot (now (h_ticks s) - h_req s) 1000000)
    (mkH (h_up s) (h_down s) (S (h_ticks s)) (h_req s) (h_buf s) (h_sent s)).
Definition reqTime : handler Z := fun s => HRet (h_req s) s.

(** [writeReqLine(SrcString(), DstString())] *)
Definition writeReqLine : handler unit :=
  t ← reqTime;
  write (format_time t ++ gs " [" ++ SrcString ++ gs " -----> " ++ DstString ++ gs "]" ++ [newline]).
(** [writeRespLine(DstString(), SrcString())] *)
Definition writeRespLine : handler unit :=
  t ← reqTime;
  ms ← elapsedMs;
  write (format_time t ++ gs " [" ++ SrcString ++ gs " <----- " ++ DstString ++ gs "] ("
         ++ Itoa ms ++ gs "ms)" ++ [newline]).

Definition checkCost : handler bool :=
  if str_eqb (Cost proto) [] then mret true
  else ms ← elapsedMs; mret (matchCost ms (Cost proto)).

Definition wildcard (str pattern : list byte) : handler bool := fun s =>
  match WildcardMatch str pattern with
  | Ret (Some b) => HRet b s
  | Ret None => HSpin
  | Panic => HPanic
  end.

(** [h.Proto.X != "" && !WildcardMatch(ToUpper(name), ToUpper(X))], negated. *)
Definition matches `{UnicodeTables} (name filter : list byte) : handler bool :=
  if str_eqb filter [] then mret true else wildcard (ToUpper name) (ToUpper filter).

(** ** Redis *)

Section redis.
Import Redis.
Context `{UnicodeTables}.

Definition redis : list byte := gs "redis".

Definition key_matches (keyRe : option (list byte → bool)) (cmd : RESPCommand) : bool :=
  match keyRe with
  | None => true
  | Some matches => matches (match Args cmd with _ :: k :: _ => k | _ => [] end)
  end.

Definition redis_show (cmd : RESPCommand) : handler bool :=
  _ ← writeReqLine;
  _ ← writeLine (if url_level then FormatRESPURL cmd else FormatRESPCommand cmd);
  resp ← read_down ReadRESPResponse;
  match resp with
  | inr _ => _ ← send redis; mret false
  | inl resp =>
      ok ← checkCost;
      if negb ok then mret true
      else
        _ ← (if url_level then mret tt else _ ← writeRespLine; writeLine (FormatRESPResponse resp));
        _ ← send redis; mret true
  end.

Definition redis_round (keyRe : option (list byte → bool)) : handler bool :=
  _ ← initBuf; _ ← startReq;
  cmd ← read_up ReadRESPCommand;
  match cmd with
  | inr _ => mret false
  | inl cmd =>
      ok ← matches (Command cmd) (RedisCommand proto);
      if negb ok || negb (key_matches keyRe cmd) then _ ← read_down ReadRESPResponse; mret true
      else redis_show cmd
  end.

Definition redis_Handle (fuel : nat) : handler unit :=
  keyRe ← (if str_eqb (RedisKey proto) [] then mret None
           else match MustCompile (RedisKey proto) with
                | Some re => mret (Some re)
                | None => fun _ => HPanic
                end);
  _ ← rounds fuel (redis_round keyRe);
  _ ← flush redis;
  discard.
End redis.

(** ** MySQL *)

Section mysql.
Import MySQL.
Context `{UnicodeTables}.

Definition mysql : list byte := gs "mysql".

Definition mysql_handshake : handler unit :=
  _ ← initBuf; _ ← startReq;
  msg ← read_down (ReadMySQLMessage (gs "S->C"));
  match msg with
  | inr _ => mret tt
  | inl msg =>
      _ ← (if url_level then _ ← writeRespLine; writeLine (FormatMySQLURL msg)
           else if str_eqb (Type_ msg) (gs "handshake")
                then _ ← writeRespLine; writeLine (FormatMySQLMessage msg)
                else mret tt);
      send mysql
  end.

(** The answers of one command, at most [n]. *)
Fixpoint mysql_answers (n : nat) : handler unit :=
  match n with
  | O => mret tt
  | S n =>
      resp ← read_down (ReadMySQLMessage (gs "S->C"));
      match resp with
      | inr _ => mret tt
      | inl resp =>
          ok ← (if url_level then mret false else checkCost);
          _ ← (if ok : bool then _ ← writeRespLine; writeLine (FormatMySQLMessage resp) else mret tt);
          if bool_decide (Type_ resp ∈ [gs "ok"; gs "eof"; gs "error"]) then mret tt else mysql_answers n
      end
  end.

Definition mysql_round : handler bool :=
  _ ← initBuf; _ ← startReq;
  cmd ← read_up (ReadMySQLMessage (gs "C->S"));
  match cmd with
  | inr _ => mret false
  | inl cmd =>
      ok ← matches (CommandName_ cmd) (MySQLCommand proto);
      if negb ok || (negb (str_eqb (MySQLQuery proto) []) && negb (Contains (Query cmd) (MySQLQuery proto)))
      then mret true
      else
        _ ← writeReqLine;
        _ ← writeLine (if url_level then FormatMySQLURL cmd else FormatMySQLMessage cmd);
        _ ← mysql_answers 10;
        _ ← send mysql; mret true
  end.

Definition mysql_Handle (fuel : nat) : handler unit :=
  _ ← mysql_handshake; _ ← rounds fuel mysql_round; _ ← flush mysql; discard.
End mysql.

(** ** MongoDB *)

Section mongo.
Import Mongo.
Context `{Bson.JsonRuntime}.

Definition mongo : list byte := gs "mongo".

Fixpoint mongo_answers (n : nat) : handler unit :=
  match n with
  | O => mret tt
  | S n =>
      resp ← read_down (ReadMongoMessage (gs "S->C"));
      match resp with
      | inr _ => mret tt
      | inl resp =>
          _ ← (if url_level then mret tt else _ ← writeRespLine; writeLine (FormatMongoResponse resp));
          mongo_answers n
      end
  end.

Definition mongo_round : handler bool :=
  _ ← initBuf; _ ← startReq;
  req ← read_up (ReadMongoMessage (gs "C->S"));
  match req with
  | inr _ => mret false
  | inl req =>
      if negb (MongoOpCode proto =? 0) && negb (OpCode (Header req) =? int32 (MongoOpCode proto))
      then mret true
      else
        _ ← writeReqLine;
        _ ← writeLine (if url_level then FormatMongoURL req else FormatMongoMessage req);
        _ ← mongo_answers 5;
        _ ← send mongo; mret true
  end.

Definition mongo_Handle (fuel : nat) : handler unit :=
  _ ← rounds fuel mongo_round; _ ← flush mongo; discard.
End mongo.

(** ** WebSocket *)

Section websocket.
Import WebSocket.
Context `{UnicodeTables}.

Definition websocket : list byte := gs "websocket".

Definition websocket_round : handler bool :=
  _ ← initBuf; _ ← startReq;
  msg ← read_up (ReadWebSocketMessage (gs "C->S"));
  match msg with
  | inr _ => mret false
  | inl msg =>
      _ ← writeReqLine;
      _ ← writeLine (if url_level then FormatWebSocketURL msg else FormatWebSocketMessage msg);
      _ ← send websocket; mret true
  end.

Definition websocket_Handle (fuel : nat) : handler unit :=
  _ ← rounds fuel websocket_round; _ ← flush websocket; discard.
End websocket.

(** ** ZooKeeper *)

Section zookeeper.
Import ZooKeeper.

Definition zookeeper : list byte := gs "zookeeper".

Definition zookeeper_round : handler bool :=
  _ ← initBuf; _ ← startReq;
  msg ← read_up (ReadZKMessage (gs "C->S"));
  match msg with
  | inr _ => mret false
  | inl (Response _) => mret true
  | inl (Request req) =>
      _ ← writeReqLine;
      _ ← writeLine (if url_level then FormatZKURL req else FormatZKRequest req);
      resp ← read_down (ReadZKMessage (gs "S->C"));
      match resp with
      | inr _ => _ ← send zookeeper; mret false
      | inl resp =>
          ok ← checkCost;
          if negb ok then mret true
          else
            _ ← writeRespLine;
            _ ← (match resp with Response r => writeLine (FormatZKResponse r) | Request _ => mret tt end);
            _ ← send zookeeper; mret true
      end
  end.

Definition zookeeper_Handle (fuel : nat) : handler unit :=
  _ ← rounds fuel zookeeper_round; _ ← flush zookeeper; discard.
End zookeeper.

(** ** HTTP *)

Section http.
Import Http.
Context `{UnicodeTables}.

Definition http : list byte := gs "http".

Definition http_round : handler bool :=
  _ ← initBuf; _ ← startReq;
  req ← read_up ReadHTTPMessage;
  match req with
  | inr _ => mret false
  | inl req =>
      _ ← writeReqLine;
      _ ← writeLine (if url_level then FormatHTTPURL req else FormatHTTP req);
      resp ← read_down ReadHTTPMessage;
      match resp with
      | inr _ => _ ← send http; mret false
      | inl resp =>
          ok ← checkCost;
          _ ← (if ok && negb url_level then _ ← writeRespLine; writeLine (FormatHTTP resp) else mret tt);
          _ ← send http; mret true
      end
  end.

Definition http_Handle (fuel : nat) : handler unit :=
  _ ← rounds fuel http_round; _ ← flush http; discard.
End http.
End base.

(** ** Every handler comes to its end *)

Section good.
Context `{Environment}.

(** [hgood m Q s]: [m] does not loop from [s], and ends in [Q] unless it panics
    or waits in a call of [Send] for which the queue has no room. *)
Definition hgood {A} (m : handler A) (Q : A → hstate → Prop) (s : hstate) : Prop :=
  match m s with HRet a s' => Q a s' | HPanic => True | HWaits => send_waits | HSpin => False end.

Lemma hgood_bind {A B} (m : handler A) (f : A → handler B) P Q s :
  hgood m P s → (∀ a s', P a s' → hgood (f a) Q s') → hgood (m ≫= f) Q s.
Proof.
  unfold hgood at 1 3, mbind, handler_bind. destruct (m s); [|done..]. intros HP Hf. by apply Hf.
Qed.
Lemma hgood_mono {A} (m : handler A) (P Q : A → hstate → Prop) s :
  hgood m P s → (∀ a s', P a s' → Q a s') → hgood m Q s.
Proof. unfold hgood. destruct (m s); auto. Qed.

(** [calm m]: [m] ends, and takes nothing off the requests. *)
Definition calm {A} (m : handler A) : Prop := ∀ s, hgood m (λ _ s', h_up s' = h_up s) s.

Lemma calm_ret {A} (a : A) : calm (mret a).
Proof. done. Qed.
Lemma calm_bind {A B} (m : handler A) (f : A → handler B) : calm m → (∀ a, calm (f a)) → calm (m ≫= f).
Proof.
  intros Hm Hf s. eapply hgood_bind; [apply Hm|]. cbv beta. intros a s' <-. apply Hf.
Qed.
Lemma calm_read_down {A} k (m : parser A) : (∀ s, progress k m s) → calm (read_down m).
Proof.
  intros Hm s. unfold hgood, read_down, try. specialize (Hm (h_down s)). unfold progress in Hm.
  by destruct (m (h_down s)).
Qed.
Lemma calm_wildcard str pattern : calm (wildcard str pattern).
Proof.
  intros s. unfold hgood, wildcard. destruct (WildcardMatch_decides str pattern) as (b & -> & _). done.
Qed.
Lemma calm_write b : calm (write b).
Proof. done. Qed.
Lemma calm_send p : calm (send p).
Proof.
  intros s. unfold hgood, send. destruct (call_Send _ _ _) eqn:E; [done| |done]. unfold send_waits. eauto.
Qed.
Lemma calm_initBuf : calm initBuf.
Proof. done. Qed.
Lemma calm_hasContent : calm hasContent.
Proof. done. Qed.
End good.
#[export] Hint Resolve calm_ret calm_write calm_send calm_initBuf calm_hasContent calm_wildcard : gohints.

Section calm.
Context `{Environment} (global : GlobalConfig) (proto : ProtoConfig) (src dst : Endpoint).

Lemma calm_writeReqLine : calm (writeReqLine src dst).
Proof. done. Qed.
Lemma calm_writeRespLine : calm (writeRespLine src dst).
Proof. done. Qed.
Lemma calm_startReq : calm startReq.
Proof. done. Qed.
Lemma calm_checkCost : calm (checkCost proto).
Proof. intros s. unfold checkCost. by destruct (str_eqb _ _). Qed.
Lemma calm_matches `{UnicodeTables} name filter : calm (matches name filter).
Proof. unfold matches. destruct (str_eqb _ _); auto with gohints. Qed.
End calm.
#[export] Hint Resolve calm_writeReqLine calm_writeRespLine calm_startReq calm_checkCost calm_matches : gohints.

Ltac calm_steps :=
  repeat match goal with
  | |- calm (if ?c then _ else _) => destruct c
  | |- calm (match ?x with _ => _ end) => destruct x
  | |- calm (_ ≫= _) => apply calm_bind; [|intros]
  | |- calm _ => solve [auto with gohints]
  end.

(** A round reads one request, if it can, and nothing else of that direction. *)
Definition round_ok `{Environment} (m : handler bool) : Prop :=
  ∀ s, hgood m (λ again s', if again : bool then (length (h_up s') < length (h_up s))%nat else True) s.

Lemma round_ok_reads `{Environment} {A} k (rd : parser A) (rest : A + error → handler bool) :
  (∀ s, progress (S k) rd s) → (∀ a, calm (rest (inl a))) → (∀ e, rest (inr e) = mret false) →
  round_ok (_ ← initBuf; _ ← startReq; r ← read_up rd; rest r).
Proof.
  intros Hp Hc He s. eapply hgood_bind; [apply calm_initBuf|]. cbv beta. intros _ s1 H1.
  eapply hgood_bind; [apply calm_startReq|]. cbv beta. intros _ s2 H2. rewrite H1 in H2. rewrite <-H2. clear s1 H1 H2.
  eapply (hgood_bind _ _ (λ r s', ∀ a, r = inl a → (length (h_up s') < length (h_up s2))%nat)).
  - unfold hgood, read_up, try. specialize (Hp (h_up s2)). unfold progress in Hp.
    destruct (rd (h_up s2)) as [a r|e r| |]; try done. intros a' _. simpl. lia.
  - intros [a|e] s' Hs.
    + eapply hgood_mono; [apply Hc|]. cbv beta. intros again s'' ->. destruct again; [by eapply Hs|done].
    + by rewrite He.
Qed.

Lemma rounds_end `{Environment} m fuel s : round_ok m → (length (h_up s) < fuel)%nat → hgood (rounds fuel m) (λ _ _, True) s.
Proof.
  intros Hm. revert s. induction fuel as [|fuel IH]; intros s Hf; [lia|]. cbn [rounds].
  eapply hgood_bind; [apply Hm|]. cbv beta. intros again s' Hs. destruct again; [|done]. apply IH. lia.
Qed.

Lemma handle_ends `{Environment} m fuel p s : round_ok m → (length (h_up s) < fuel)%nat →
  hgood (_ ← rounds fuel m; _ ← flush p; discard) (λ _ _, True) s.
Proof.
  intros Hm Hf. eapply hgood_bind; [by apply rounds_end|]. cbv beta. intros _ s' _.
  eapply (hgood_bind _ _ (λ _ _, True)); [|done]. unfold flush.
  eapply hgood_bind; [apply calm_hasContent|]. intros c s'' _. destruct c; [|done].
  eapply hgood_mono; [apply calm_send|done].
Qed.

Section ends.
Context `{Environment} (global : GlobalConfig) (proto : ProtoConfig) (src dst : Endpoint).
Context `{Htab : UnicodeTables} `{Hjson : Bson.JsonRuntime}.

Lemma calm_read_redis : calm (read_down Redis.ReadRESPResponse).
Proof. apply (calm_read_down 1). intros. apply Redis.read_response_progress. lia. Qed.
Lemma calm_read_mysql d : calm (read_down (MySQL.ReadMySQLMessage d)).
Proof. apply (calm_read_down 4). intros. apply MySQL.progress_ReadMySQLMessage. Qed.
Lemma calm_read_mongo d : calm (read_down (Mongo.ReadMongoMessage d)).
Proof. apply (calm_read_down 16). intros. apply Mongo.progress_ReadMongoMessage. Qed.
Lemma calm_read_http : calm (read_down Http.ReadHTTPMessage).
Proof. apply (calm_read_down 1). intros. apply Http.progress_ReadHTTPMessage. Qed.
Lemma calm_read_zk d : calm (read_down (ZooKeeper.ReadZKMessage d)).
Proof. apply (calm_read_down 12). intros. apply ZooKeeper.progress_ReadZKMessage. Qed.
Hint Resolve calm_read_redis calm_read_mysql calm_read_mongo calm_read_zk calm_read_http : gohints.

Lemma redis_round_ok keyRe : round_ok (redis_round global proto src dst keyRe).
Proof.
  apply (round_ok_reads 0); [intros; apply Redis.ReadRESPCommand_progress| |done].
  intros cmd. unfold redis_show, writeLine. calm_steps.
Qed.
Lemma calm_mysql_handshake : calm (mysql_handshake global src dst).
Proof. unfold mysql_handshake, writeLine. calm_steps. Qed.
Lemma mysql_answers_calm n : calm (mysql_answers global proto src dst n).
Proof. induction n; cbn [mysql_answers]; unfold writeLine; calm_steps. Qed.
Lemma mongo_answers_calm n : calm (mongo_answers global src dst n).
Proof. induction n; cbn [mongo_answers]; unfold writeLine; calm_steps. Qed.
Hint Resolve mysql_answers_calm mongo_answers_calm : gohints.
Lemma mysql_round_ok : round_ok (mysql_round global proto src dst).
Proof.
  apply (round_ok_reads 3); [intros; apply MySQL.progress_ReadMySQLMessage| |done].
  intros cmd. unfold writeLine. calm_steps.
Qed.
Lemma mongo_round_ok : round_ok (mongo_round global proto src dst).
Proof.
  apply (round_ok_reads 15); [intros; apply Mongo.progress_ReadMongoMessage| |done].
  intros req. unfold writeLine. calm_steps.
Qed.
Lemma websocket_round_ok : round_ok (websocket_round global src dst).
Proof.
  apply (round_ok_reads 1); [intros; apply WebSocket.progress_ReadWebSocketMessage| |done].
  intros msg. unfold writeLine. calm_steps.
Qed.
Lemma zookeeper_round_ok : round_ok (zookeeper_round global proto src dst).
Proof.
  apply (round_ok_reads 11); [intros; apply ZooKeeper.progress_ReadZKMessage| |done].
  intros msg. unfold writeLine. calm_steps.
Qed.

Lemma http_round_ok : round_ok (http_round global proto src dst).
Proof.
  apply (round_ok_reads 0); [intros; apply Http.progress_ReadHTTPMessage| |done].
  intros msg. unfold writeLine. calm_steps.
Qed.

(** [m] ends, panics, or waits in a call of [Send] for room in the queue. *)
Definition comes_to_end (m : handler unit) (s : hstate) : Prop := m s ≠ HSpin ∧ (m s = HWaits → send_waits).

Lemma hgood_ends (m : handler unit) P s : hgood m P s → comes_to_end m s.
Proof. unfold hgood, comes_to_end. by destruct (m s). Qed.

Section each.
Context (s : hstate) (fuel : nat) (Hf : (length (h_up s) < fuel)%nat).
Lemma redis_ends : hgood (redis_Handle global proto src dst fuel) (λ _ _, True) s.
Proof.
  eapply (hgood_bind _ _ (λ _ s', h_up s' = h_up s)).
  - destruct (str_eqb _ _); [done|]. by destruct (MustCompile _).
  - intros keyRe s' Hs. apply handle_ends; [apply redis_round_ok|by rewrite Hs].
Qed.
Lemma mysql_ends : hgood (mysql_Handle global proto src dst fuel) (λ _ _, True) s.
Proof.
  eapply (hgood_bind _ _ (λ _ s', h_up s' = h_up s)); [apply calm_mysql_handshake|].
  cbv beta. intros _ s' Hs. apply handle_ends; [apply mysql_round_ok|by rewrite Hs].
Qed.
Lemma mongo_ends : hgood (mongo_Handle global proto src dst fuel) (λ _ _, True) s.
Proof. by apply handle_ends, Hf; apply mongo_round_ok. Qed.
Lemma websocket_ends : hgood (websocket_Handle global src dst fuel) (λ _ _, True) s.
Proof. by apply handle_ends, Hf; apply websocket_round_ok. Qed.
Lemma zookeeper_ends : hgood (zookeeper_Handle global proto src dst fuel) (λ _ _, True) s.
Proof. by apply handle_ends, Hf; apply zookeeper_round_ok. Qed.
Lemma http_ends : hgood (http_Handle global proto src dst fuel) (λ _ _, True) s.
Proof. by apply handle_ends, Hf; apply http_round_ok. Qed.
End each.

(** Whatever the two directions of a connection carry, every handler
    comes to the end of its loop: it handles the connection or panics, or it
    waits in [Send] for room in the queue; a round that goes on has taken a
    request. *)
Theorem handlers_end s fuel (Hf : (length (h_up s) < fuel)%nat) :
  comes_to_end (redis_Handle global proto src dst fuel) s ∧
  comes_to_end (mysql_Handle global proto src dst fuel) s ∧
  comes_to_end (mongo_Handle global proto src dst fuel) s ∧
  comes_to_end (websocket_Handle global src dst fuel) s ∧
  comes_to_end (zookeeper_Handle global proto src dst fuel) s ∧
  comes_to_end (http_Handle global proto src dst fuel) s.
Proof.
  split_and!; eapply hgood_ends; by auto using redis_ends, mysql_ends, mongo_ends, websocket_ends, zookeeper_ends, http_ends.
Qed.
End ends.

(** ** What the Redis handler prints *)

Lemma bind_HRet {A B} (m : handler A) (f : A → handler B) s a s' :
  m s = HRet a s' → (m ≫= f) s = f a s'.
Proof. intros H. unfold mbind, handler_bind. by rewrite H. Qed.

Lemma read_up_Got {A} (m : parser A) s a rest : m (h_up s) = Got a rest →
  read_up m s = HRet (inl a) (mkH rest (h_down s) (h_ticks s) (h_req s) (h_buf s) (h_sent s)).
Proof. intros H. unfold read_up, try. by rewrite H. Qed.
Lemma read_down_Got {A} (m : parser A) s a rest : m (h_down s) = Got a rest →
  read_down m s = HRet (inl a) (mkH (h_up s) rest (h_ticks s) (h_req s) (h_buf s) (h_sent s)).
Proof. intros H. unfold read_down, try. by rewrite H. Qed.

Section redis_texts.
Import Redis.
Context `{Environment} `{Htab : UnicodeTables} (global : GlobalConfig) (proto : ProtoConfig) (src dst : Endpoint).
Context (keyRe : option (list byte → bool)).

(** Does the pattern of [-c] match the command? *)
Definition command_matches (name : list byte) : bool :=
  if str_eqb (RedisCommand proto) [] then true
  else match WildcardMatch (ToUpper name) (ToUpper (RedisCommand proto)) with
       | Ret (Some b) => b
       | _ => false
       end.

Definition req_line (req : Z) : list byte :=
  format_time req ++ gs " [" ++ SrcString src ++ gs " -----> " ++ DstString dst ++ gs "]" ++ [newline].
Definition resp_line (req ms : Z) : list byte :=
  format_time req ++ gs " [" ++ SrcString src ++ gs " <----- " ++ DstString dst ++ gs "] ("
  ++ Itoa ms ++ gs "ms)" ++ [newline].

(** The texts of a sequence of calls, the clock having been read [t] times. *)
Fixpoint redis_texts (t : nat) (calls : list (RESPCommand * RESPResponse)) : list (list byte) :=
  match calls with
  | [] => []
  | (cmd, resp) :: calls =>
      let ms k := Z.quot (now k - now t) 1000000 in
      if negb (command_matches (Command cmd)) || negb (key_matches keyRe cmd)
      then redis_texts (S t) calls
      else
        let head := req_line (now t)
          ++ (if url_level global then FormatRESPURL cmd else FormatRESPCommand cmd) ++ [newline] in
        let '(shown, t1) :=
          if str_eqb (Cost proto) [] then (true, S t)
          else (matchCost (ms (S t)) (Cost proto), S (S t)) in
        if negb shown then redis_texts t1 calls
        else if url_level global then head :: redis_texts t1 calls
        else (head ++ resp_line (now t) (ms t1) ++ FormatRESPResponse resp ++ [newline])
             :: redis_texts (S t1) calls
  end.

Lemma matches_command name s :
  matches name (RedisCommand proto) s = HRet (command_matches name) s.
Proof.
  unfold matches, command_matches, wildcard. destruct (str_eqb _ _); [done|].
  by destruct (WildcardMatch_decides (ToUpper name) (ToUpper (RedisCommand proto))) as (b & -> & _).
Qed.

(** One round, on the encodings of a command and of its reply. *)
Lemma redis_round_texts args r up1 down1 t req buf sent :
  len args * 16 ≤ max_alloc → Forall fits args → reply_ok r →
  ∃ t1 buf1 new, redis_round global proto src dst keyRe
      (mkH (enc_command args ++ up1) (enc_reply r ++ down1) t req buf sent)
      = after_sends (length sent) (map (pair redis) new) true
          (mkH up1 down1 t1 (now t) buf1 (sent ++ map (pair redis) new)) ∧
    ∀ more, redis_texts t ((command_of args, reply_resp r) :: more) = new ++ redis_texts t1 more.
Proof.
  intros Hl Hargs Hr. set (cmd := command_of args). set (resp := reply_resp r).
  assert (∀ buf t req, read_up ReadRESPCommand (mkH (enc_command args ++ up1) (enc_reply r ++ down1) t req buf sent)
    = HRet (inl cmd) (mkH up1 (enc_reply r ++ down1) t req buf sent)) as Hreq.
  { intros. apply (read_up_Got _ (mkH _ _ _ _ _ _)). by apply read_command_enc. }
  assert (∀ buf t req, read_down ReadRESPResponse (mkH up1 (enc_reply r ++ down1) t req buf sent)
    = HRet (inl resp) (mkH up1 down1 t req buf sent)) as Hresp.
  { intros. apply (read_down_Got _ (mkH _ _ _ _ _ _)). apply read_response_enc; [cbn [h_down]; lia|done]. }
  unfold redis_round. cbn [redis_texts].
  do 2 (erewrite bind_HRet; [|reflexivity]). cbn [h_up h_down h_ticks h_req h_buf h_sent].
  erewrite bind_HRet; [|apply Hreq]. cbv beta iota.
  erewrite bind_HRet; [|apply matches_command].
  destruct (negb (command_matches (Command cmd)) || negb (key_matches keyRe cmd)).
  { erewrite bind_HRet; [|apply Hresp]. exists (S t), [], []. cbn [map]. rewrite app_nil_r. done. }
  unfold redis_show, writeReqLine, writeRespLine, writeLine, reqTime, write.
  unfold mbind, handler_bind. cbn [h_up h_down h_ticks h_req h_buf h_sent].
  rewrite Hresp. unfold checkCost, elapsedMs, send, after_sends, mret, handler_ret, mbind, handler_bind.
  cbv zeta beta. destruct (str_eqb (Cost proto) []); cbv beta iota zeta;
    cbn [negb h_up h_down h_ticks h_req h_buf h_sent];
    [|destruct (matchCost (Z.quot (now (S t) - now t) 1000000) (Cost proto))];
    cbv beta iota zeta; cbn [negb h_up h_down h_ticks h_req h_buf h_sent];
    destruct (url_level global); cbn [h_up h_down h_ticks h_req h_buf h_sent].
  5-6: eexists _, _, []; cbn [map]; rewrite app_nil_r; split; reflexivity.
  all: match goal with |- context [call_Send _ _ ?text] => eexists _, _, [text] end;
    split; [cbn [map sends]; destruct (call_Send _ _ _); reflexivity|]; intros more; cbn [app]; f_equal;
    unfold req_line, resp_line; rewrite <-?app_assoc; reflexivity.
Qed.

Definition call_ok (c : list (list byte) * reply) : Prop :=
  len c.1 * 16 ≤ max_alloc ∧ Forall fits c.1 ∧ reply_ok c.2.
Definition requests (calls : list (list (list byte) * reply)) : list byte :=
  concat (map (λ c, enc_command c.1) calls).
Definition answers (calls : list (list (list byte) * reply)) : list byte :=
  concat (map (λ c, enc_reply c.2) calls).
Definition parsed_calls (calls : list (list (list byte) * reply)) : list (RESPCommand * RESPResponse) :=
  map (λ c, (command_of c.1, reply_resp c.2)) calls.

Lemma redis_round_end down t req buf sent :
  redis_round global proto src dst keyRe (mkH [] down t req buf sent) = HRet false (mkH [] down (S t) (now t) [] sent).
Proof. done. Qed.

Lemma rounds_texts calls : ∀ fuel down t req buf sent, (length calls < fuel)%nat → Forall call_ok calls →
  ∃ t' req', rounds fuel (redis_round global proto src dst keyRe)
      (mkH (requests calls) (answers calls ++ down) t req buf sent)
    = let new := map (pair redis) (redis_texts t (parsed_calls calls)) in
      after_sends (length sent) new tt (mkH [] down t' req' [] (sent ++ new)).
Proof.
  induction calls as [|[args r] calls IH]; intros [|fuel] down t req buf sent Hf Hok; simpl in Hf; try lia.
  - exists (S t), (now t). cbn [rounds]. rewrite (bind_HRet _ _ _ _ _ (redis_round_end _ _ _ _ _)).
    cbn. by rewrite app_nil_r.
  - inversion Hok as [|? ? (Hl & Hargs & Hr) Hrest]; subst. cbn [fst snd] in *.
    unfold requests, answers. cbn [map concat fst snd]. rewrite <-!app_assoc. cbn [rounds].
    destruct (redis_round_texts args r (requests calls) (answers calls ++ down) t req buf sent Hl Hargs Hr)
      as (t1 & buf1 & new & Hround & Htexts).
    unfold requests, answers in Hround. rewrite (after_sends_bind _ _ _ _ _ _ _ Hround). cbv beta iota zeta.
    destruct (IH fuel down t1 (now t) buf1 (sent ++ map (pair redis) new)) as (t' & req' & IHr); [lia|done|].
    exists t', req'. unfold requests, answers in IHr. rewrite IHr. cbv zeta.
    change (parsed_calls ((args, r) :: calls)) with ((command_of args, reply_resp r) :: parsed_calls calls).
    by rewrite length_app, after_sends_app, Htexts, map_app, app_assoc.
Qed.
End redis_texts.

Section redis_property.
Import Redis.
Context `{Environment} `{Htab : UnicodeTables} (global : GlobalConfig) (proto : ProtoConfig) (src dst : Endpoint).

Lemma redis_prints keyRe calls down fuel t
  (Hre : if str_eqb (RedisKey proto) [] then keyRe = None
         else ∃ re, MustCompile (RedisKey proto) = Some re ∧ keyRe = Some re)
  (Hf : (length calls < fuel)%nat) (Hok : Forall call_ok calls) :
  makes_calls (map (pair redis) (redis_texts global proto src dst keyRe t (parsed_calls calls)))
    (redis_Handle global proto src dst fuel (mkH (requests calls) (answers calls ++ down) t 0 [] [])).
Proof.
  unfold redis_Handle. set (st := mkH _ _ _ _ _ _).
  rewrite (bind_HRet _ _ _ keyRe st).
  2:{ destruct (str_eqb _ _); [by subst|]. by destruct Hre as (re & -> & ->). }
  destruct (rounds_texts global proto src dst keyRe calls fuel down t 0 [] [] Hf Hok) as (t' & req' & Hr).
  rewrite (after_sends_bind _ _ _ _ _ _ _ Hr). cbv beta. eexists. by split.
Qed.

(** The Redis handler prints the calls of a connection: for every
    command the filters let through it calls [Send] once, in the order of the
    commands, with the command and the value of the reply that belongs to it;
    the others leave no trace, their replies included, and nothing else is
    sent. A call of [Send] that waits, or panics because [main] has closed the
    printer, is the end of the handler. *)
Theorem redis_handler_prints_calls keyRe calls down fuel t
  (Hre : if str_eqb (RedisKey proto) [] then keyRe = None
         else ∃ re, MustCompile (RedisKey proto) = Some re ∧ keyRe = Some re)
  (Hf : (length calls < fuel)%nat) (Hok : Forall call_ok calls) :
  makes_calls (map (pair redis) (redis_texts global proto src dst keyRe t (parsed_calls calls)))
    (redis_Handle global proto src dst fuel (mkH (requests calls) (answers calls ++ down) t 0 [] [])).
Proof. exact (redis_prints keyRe calls down fuel t Hre Hf Hok). Qed.

(** A command whose reply is missing at the end of the connection is
    printed twice: once when the reply cannot be read, and once more after
    the loop, because sending does not empty the buffer. *)
Theorem unanswered_command_printed_twice args fuel t
  (Hlen : len args * 16 ≤ max_alloc) (Hargs : Forall fits args) (Hf : (2 ≤ fuel)%nat)
  (Hcmd : RedisCommand proto = []) (Hkey : RedisKey proto = []) (Hback : sends_return) :
  ∃ s, redis_Handle global proto src dst fuel (mkH (enc_command args) [] t 0 [] []) = HRet tt s ∧
    let text := req_line src dst (now t)
      ++ (if url_level global then FormatRESPURL (command_of args) else FormatRESPCommand (command_of args))
      ++ [newline] in
    h_sent s = [(redis, text); (redis, text)].
Proof.
  unfold redis_Handle. rewrite Hkey. change (str_eqb [] []) with true. cbv iota.
  rewrite (bind_HRet _ _ _ None _ eq_refl). destruct fuel as [|fuel]; [lia|].
  set (text := req_line _ _ _ ++ _).
  assert (redis_round global proto src dst None (mkH (enc_command args) [] t 0 [] [])
    = HRet false (mkH [] [] (S t) (now t) text [(redis, text)])) as Hround.
  { unfold redis_round. do 2 (erewrite bind_HRet; [|reflexivity]). cbn [h_up h_down h_ticks h_req h_buf h_sent].
    erewrite bind_HRet.
    2:{ apply read_up_Got. cbn [h_up]. rewrite <-(app_nil_r (enc_command args)). by apply read_command_enc. }
    cbv beta iota. erewrite bind_HRet; [|unfold matches; rewrite Hcmd; reflexivity].
    cbn [key_matches negb orb]. unfold redis_show. do 3 (erewrite bind_HRet; [|reflexivity]). cbv beta iota.
    by erewrite bind_HRet; [|by apply send_returns]. }
  assert (rounds (S fuel) (redis_round global proto src dst None) (mkH (enc_command args) [] t 0 [] [])
    = HRet tt (mkH [] [] (S t) (now t) text [(redis, text)])) as Hrounds.
  { cbn [rounds]. by rewrite (bind_HRet _ _ _ _ _ Hround). }
  rewrite (bind_HRet _ _ _ _ _ Hrounds). cbv beta.
  assert (str_eqb text [] = false) as Hne.
  { apply str_eqb_neq. unfold text. by intros [_ [_ ?]%app_eq_nil]%app_eq_nil. }
  unfold flush. erewrite bind_HRet; [|erewrite bind_HRet; [|reflexivity]; cbn [h_buf]; rewrite Hne; by apply send_returns].
  eexists. split; [reflexivity|]. done.
Qed.
End redis_property.

(** ** What the MongoDB handler prints *)

Section mongo_property.
Import Mongo.
Context `{Environment} `{Hjson : Bson.JsonRuntime} (global : GlobalConfig) (proto : ProtoConfig) (src dst : Endpoint).
Context (Hlevel : url_level global = false) (Hop : MongoOpCode proto = 0) (Hback : sends_return).

Definition mongo_head (t : nat) (m : MongoMessage) : list byte :=
  req_line src dst (now t) ++ FormatMongoMessage m ++ [newline].
(** The answers printed behind a request, the clock having been read [t]
    times. *)
Fixpoint mongo_replies (req : Z) (t : nat) (rs : list MongoMessage) : list byte :=
  match rs with
  | [] => []
  | r :: rs => resp_line src dst req (Z.quot (now t - req) 1000000) ++ FormatMongoResponse r ++ [newline]
               ++ mongo_replies req (S t) rs
  end.
Fixpoint mongo_heads (t : nat) (ms : list MongoMessage) : list (list byte) :=
  match ms with [] => [] | m :: ms => mongo_head t m :: mongo_heads (S t) ms end.

Lemma many_cons {A} (m : parser A) n s l rest : many (S n) m s = Got l rest →
  ∃ a l' s', m s = Got a s' ∧ many n m s' = Got l' rest ∧ l = a :: l'.
Proof.
  cbn [many]. unfold mbind, parser_bind. destruct (m s) as [a s'| | |]; try done.
  destruct (many n m s') as [l' r| | |] eqn:E; try done. intros [= <- <-]. by exists a, l', s'.
Qed.

Lemma mongo_answers_all n : ∀ rs up down t req buf sent, (length rs ≤ n)%nat →
  many (length rs) (ReadMongoMessage (gs "S->C")) down = Got rs [] →
  mongo_answers global src dst n (mkH up down t req buf sent)
    = HRet tt (mkH up [] (t + length rs) req (buf ++ mongo_replies req t rs) sent).
Proof.
  induction n as [|n IH]; intros rs up down t req buf sent Hn Hd.
  - destruct rs; [|simpl in Hn; lia]. injection Hd as ->. cbn. by rewrite Nat.add_0_r, app_nil_r.
  - destruct rs as [|r rs].
    + injection Hd as ->. cbn [mongo_answers mongo_replies length]. by rewrite Nat.add_0_r, app_nil_r.
    + apply many_cons in Hd as (a & l & d' & Hr & Hd & [= <- <-]). cbn [mongo_answers length].
      erewrite bind_HRet; [|apply read_down_Got; exact Hr]. cbv beta iota. rewrite Hlevel.
      unfold writeRespLine, writeLine, write, reqTime, elapsedMs.
      rewrite (bind_HRet _ _ _ tt (mkH up d' (S t) req
        (buf ++ resp_line src dst req (Z.quot (now t - req) 1000000) ++ FormatMongoResponse r ++ [newline]) sent)).
      * cbn [length] in Hn. rewrite (IH rs) by (lia || done). cbn [mongo_replies]. rewrite <-!app_assoc.
        by rewrite Nat.add_succ_r.
      * unfold mbind, handler_bind. cbn [h_up h_down h_ticks h_req h_buf h_sent]. by rewrite <-app_assoc.
Qed.

Lemma mongo_round_all m up up' rs down t req buf sent : (length rs ≤ 5)%nat →
  ReadMongoMessage (gs "C->S") up = Got m up' →
  many (length rs) (ReadMongoMessage (gs "S->C")) down = Got rs [] →
  ∃ buf', mongo_round global proto src dst (mkH up down t req buf sent)
    = HRet true (mkH up' [] (S t + length rs) (now t) buf'
        (sent ++ [(mongo, mongo_head t m ++ mongo_replies (now t) (S t) rs)])).
Proof.
  intros Hn Hm Hd. unfold mongo_round. do 2 (erewrite bind_HRet; [|reflexivity]).
  cbn [h_up h_down h_ticks h_req h_buf h_sent].
  erewrite bind_HRet; [|apply read_up_Got; exact Hm]. cbv beta iota. rewrite Hop. cbn [Z.eqb negb andb].
  rewrite Hlevel. do 2 (erewrite bind_HRet; [|reflexivity]). cbn [h_up h_down h_ticks h_req h_buf h_sent].
  erewrite bind_HRet; [|apply mongo_answers_all; [exact Hn|exact Hd]].
  eexists. erewrite bind_HRet; [|by apply send_returns]. cbn [h_up h_down h_ticks h_req h_buf h_sent app].
  unfold mret, handler_ret. unfold mongo_head, req_line. rewrite <-!app_assoc. reflexivity.
Qed.

Lemma mongo_rounds_unanswered ms : ∀ up fuel t req buf sent, (length ms < fuel)%nat →
  many (length ms) (ReadMongoMessage (gs "C->S")) up = Got ms [] →
  ∃ t' req', rounds fuel (mongo_round global proto src dst) (mkH up [] t req buf sent)
      = HRet tt (mkH [] [] t' req' [] (sent ++ map (pair mongo) (mongo_heads t ms))).
Proof.
  induction ms as [|m ms IH]; intros up [|fuel] t req buf sent Hf Hup; simpl in Hf; try lia.
    - injection Hup as ->. exists (S t), (now t). cbn [rounds].
      rewrite (bind_HRet _ _ _ false (mkH [] [] (S t) (now t) [] sent)); [|done]. cbn. by rewrite app_nil_r.
    - apply many_cons in Hup as (a & l & up' & Hm & Hup & [= <- <-]). cbn [rounds mongo_heads].
      destruct (mongo_round_all m up up' [] [] t req buf sent) as [buf' Hr]; [simpl; lia|done|done|].
      cbn [mongo_replies length] in Hr. rewrite app_nil_r, Nat.add_0_r in Hr.
      rewrite (bind_HRet _ _ _ _ _ Hr). cbv beta iota.
      destruct (IH up' fuel (S t) (now t) buf' (sent ++ [(mongo, mongo_head t m)])) as (t' & req' & ->); [lia|done|].
      exists t', req'. by rewrite <-app_assoc.
Qed.

(** MongoDB: up to five answers that have arrived are all printed behind
    the first request, with its times; the requests behind it are printed
    without the answers that belong to them. *)
Theorem mongo_answers_go_to_the_first m ms rs up down fuel t
  (Hup : many (S (length ms)) (ReadMongoMessage (gs "C->S")) up = Got (m :: ms) [])
  (Hdown : many (length rs) (ReadMongoMessage (gs "S->C")) down = Got rs [])
  (Hrs : (length rs ≤ 5)%nat) (Hf : (S (length ms) < fuel)%nat) :
  ∃ s, mongo_Handle global proto src dst fuel (mkH up down t 0 [] []) = HRet tt s ∧
    h_sent s = map (pair mongo)
      ((mongo_head t m ++ mongo_replies (now t) (S t) rs) :: mongo_heads (S t + length rs) ms).
Proof.
  apply many_cons in Hup as (a & l & up' & Hm & Hup & [= <- <-]). unfold mongo_Handle.
  destruct fuel as [|fuel]; [lia|].
  destruct (mongo_round_all m up up' rs down t 0 [] [] Hrs Hm Hdown) as [buf' Hr].
  destruct (mongo_rounds_unanswered ms up' fuel (S t + length rs)%nat (now t) buf' [(mongo, mongo_head t m ++ mongo_replies (now t) (S t) rs)])
    as (t' & req' & Hrs'); [lia|done|].
  rewrite (bind_HRet _ _ _ tt (mkH [] [] t' req' []
    ([(mongo, mongo_head t m ++ mongo_replies (now t) (S t) rs)] ++ map (pair mongo) (mongo_heads (S t + length rs) ms)))).
  - eexists. split; [reflexivity|]. done.
  - cbn [rounds]. by rewrite (bind_HRet _ _ _ _ _ Hr).
Qed.
End mongo_property.

(** ** The properties at work *)

(** A clock that ticks every five milliseconds, expressions that are searched
    for as they are, and the default configuration. *)
Definition demo_env : Environment :=
  {| now k := 5000000 * Z.of_nat k; format_time _ := gs "T"; MustCompile p := Some (λ s, Contains s p);
     printer_checked _ := Printers.NewMultiPrinter []; printer_put _ := Printers.NewMultiPrinter [] |}.
Lemma demo_returns : sends_return (H := demo_env).
Proof. intros k protocol text. by exists true. Qed.
(** The same with a printer that [main] has closed behind the [n]-th call. *)
Definition closing_env (n : nat) : Environment :=
  let p k := if (k <? n)%nat then Printers.NewMultiPrinter [] else Printers.mkPrinter (Printers.mkQueue [] true) [] ∅ [] in
  {| now k := 5000000 * Z.of_nat k; format_time _ := gs "T"; MustCompile p := Some (λ s, Contains s p);
     printer_checked := p; printer_put := p |}.
Definition demo_endpoints : Endpoint * Endpoint := (mkEndpoint (gs "10.0.0.1") 4000, mkEndpoint (gs "10.0.0.2") 6379).
Definition demo_calls : list (list (list byte) * Redis.reply) :=
  [([gs "get"; gs "user:1"], Redis.RBulk (gs "x")); ([gs "ping"], Redis.RSimple (gs "PONG"))].

Lemma small_fits l : forallb (λ b, len b <? 1000) l = true → Forall Redis.fits l.
Proof.
  rewrite forallb_forall, Forall_forall. intros Hl b Hb%list_elem_of_In. specialize (Hl b Hb).
  zbool. unfold Redis.fits, max_alloc. lia.
Qed.

Lemma handlers_end_witness :
  redis_Handle (H := demo_env) (H0 := no_tables) new_GlobalConfig new_ProtoConfig demo_endpoints.1 demo_endpoints.2 3
    (mkH (gs "??") (gs "x") 0 0 [] []) ≠ HSpin.
Proof.
  apply (handlers_end (H := demo_env) (Htab := no_tables) (Hjson := Mongo.demo_runtime)
    new_GlobalConfig new_ProtoConfig demo_endpoints.1 demo_endpoints.2). simpl. lia.
Defined.

Lemma demo_calls_ok : Forall call_ok demo_calls.
Proof.
  apply Forall_cons_2; [|apply Forall_cons_2; [|apply Forall_nil_2]].
  - split_and!; [vm_compute; congruence|by apply small_fits|].
    cbn [snd Redis.reply_ok]. unfold Redis.fits. vm_compute. congruence.
  - split_and!; [vm_compute; congruence|by apply small_fits|]. by apply Redis.line_bytes_bool.
Qed.

Lemma redis_handler_prints_calls_witness :
  ∃ s, redis_Handle (H := demo_env) (H0 := no_tables) new_GlobalConfig (set_RedisKey (gs "user:") new_ProtoConfig)
         demo_endpoints.1 demo_endpoints.2 3
         (mkH (requests demo_calls) (answers demo_calls ++ gs "more") 0 0 [] []) = HRet tt s ∧
    length (h_sent s) = 1%nat.
Proof.
  destruct (redis_handler_prints_calls (H := demo_env) (Htab := no_tables) new_GlobalConfig
    (set_RedisKey (gs "user:") new_ProtoConfig) demo_endpoints.1 demo_endpoints.2
    (Some (λ s, Contains s (gs "user:"))) demo_calls (gs "more") 3 0) as (s & Hs & Hsent).
  - exists (λ s, Contains s (gs "user:")). done.
  - simpl. lia.
  - exact demo_calls_ok.
  - exists s. split; [by vm_compute in Hs |- *|]. rewrite Hsent. vm_compute. reflexivity.
Defined.

(** A handler that goes on behind the end of [main] panics at its first call of
    [Send]: the second command here. *)
Example redis_after_Finish :
  redis_Handle (H := closing_env 1) (H0 := no_tables) new_GlobalConfig new_ProtoConfig
    demo_endpoints.1 demo_endpoints.2 3 (mkH (requests demo_calls) (answers demo_calls) 0 0 [] []) = HPanic.
Proof. vm_compute. reflexivity. Qed.

Lemma unanswered_command_printed_twice_witness :
  ∃ s, redis_Handle (H := demo_env) (H0 := no_tables) new_GlobalConfig new_ProtoConfig
         demo_endpoints.1 demo_endpoints.2 2
         (mkH (Redis.enc_command [gs "get"; gs "k"]) [] 0 0 [] []) = HRet tt s ∧ length (h_sent s) = 2%nat.
Proof.
  destruct (unanswered_command_printed_twice (H := demo_env) (Htab := no_tables) new_GlobalConfig new_ProtoConfig
    demo_endpoints.1 demo_endpoints.2 [gs "get"; gs "k"] 2 0) as (s & Hs & Hsent).
  - vm_compute. congruence.
  - by apply small_fits.
  - lia.
  - reflexivity.
  - reflexivity.
  - exact demo_returns.
  - exists s. split; [exact Hs|]. by rewrite Hsent.
Defined.

(** A message with an opcode that has no body. *)
Definition demo_mongo (id : Z) : list byte := Mongo.enc_header (Mongo.mkHeader 16 id 0 Mongo.OpGetMore).

Lemma mongo_answers_go_to_the_first_witness :
  ∃ s, mongo_Handle (H := demo_env) (H0 := Mongo.demo_runtime) new_GlobalConfig new_ProtoConfig
         demo_endpoints.1 demo_endpoints.2 3
         (mkH (demo_mongo 1 ++ demo_mongo 2) (demo_mongo 3 ++ demo_mongo 4) 0 0 [] []) = HRet tt s ∧
    length (h_sent s) = 2%nat.
Proof.
  destruct (mongo_answers_go_to_the_first (H := demo_env) (Hjson := Mongo.demo_runtime) new_GlobalConfig new_ProtoConfig
    demo_endpoints.1 demo_endpoints.2 eq_refl eq_refl demo_returns
    (Mongo.TypeAs (gs "GET_MORE") (Mongo.new_message (Mongo.mkHeader 16 1 0 Mongo.OpGetMore) 0 (gs "C->S")))
    [Mongo.TypeAs (gs "GET_MORE") (Mongo.new_message (Mongo.mkHeader 16 2 0 Mongo.OpGetMore) 0 (gs "C->S"))]
    [Mongo.TypeAs (gs "GET_MORE") (Mongo.new_message (Mongo.mkHeader 16 3 0 Mongo.OpGetMore) 0 (gs "S->C"));
     Mongo.TypeAs (gs "GET_MORE") (Mongo.new_message (Mongo.mkHeader 16 4 0 Mongo.OpGetMore) 0 (gs "S->C"))]
    (demo_mongo 1 ++ demo_mongo 2) (demo_mongo 3 ++ demo_mongo 4) 3 0) as (s & Hs & Hsent).
  - vm_compute. reflexivity.
  - vm_compute. reflexivity.
  - simpl. lia.
  - simpl. lia.
  - exists s. split; [exact Hs|]. by rewrite Hsent.
Defined.
