(* ===== verification/Dispatch.v ===== *)
(** * The handler of a connection (src/main.go)

    The handlers of Dubbo and Triple, RocketMQ and Nacos, the automatic
    detection of the protocol, and the choice of the handler in [main]. *)

From S2P Require Import Prelude GoBytes GoStrings Unicode Window Reader Assembler Text Cli Handlers.
From S2P Require Bson Redis MySQL ZooKeeper WebSocket Mongo Http Java JavaProps JavaRead Json Triple Nacos RocketMQ Dubbo DubboProps.

(** How the bytes of the client arrive: the number of bytes that the first
    [Read] of at most 24 returns, and the parts in which the reads of the
    reader of Triple return them. *)
Class Arrival := {
  first_read : list byte → Z;
  reads : list byte → list (list byte) }.
Class Arrival_ok `{Arrival} : Prop := {
  first_read_ok s : s ≠ [] → 1 ≤ first_read s ≤ 24;
  reads_concat s : concat (reads s) = s;
  reads_some s : Forall (λ part, part ≠ []) (reads s) }.

(** A reader whose calls return at most one part. *)
#[export] Instance parts_Reader : io_Reader (list (list byte)) :=
  {| rd_Read parts n :=
       match parts with
       | [] => Done ([], Some EOF, [])
       | p :: parts => if len p <=? n then Done (p, None, parts) else Done (ztake n p, None, zdrop n p :: parts)
       end |}.

(** ** What the handlers add *)

Definition hgo {A} (g : go A) : handler A := fun s => match g with Ret a => HRet a s | Panic => HPanic end.
(** [reqR.Peek(n)]; at the end of the stream it returns what there is. *)
Definition peek (n : Z) : handler (list byte) := fun s => HRet (ztake n (h_up s)) s.

(** A loop that carries a state from round to round; [None] leaves it. *)
Fixpoint rounds_with {X} (fuel : nat) (body : X → handler (option X)) (x : X) : handler unit :=
  match fuel with
  | O => fun _ => HSpin
  | S fuel => next ← body x; match next with Some x => rounds_with fuel body x | None => mret tt end
  end.

Section dispatch.
Context `{Environment} `{UnicodeTables} (global : GlobalConfig) (proto : ProtoConfig) (src dst : Endpoint).

(** [h.Proto.X != "" && !tcpport.WildcardMatch(s, h.Proto.X)] *)
Definition filtered (s filter : list byte) : handler bool :=
  if str_eqb filter [] then mret false else m ← wildcard s filter; mret (negb m).

(** ** Dubbo *)

Section dubbo.
Import Dubbo.
Context `{Java.JavaRuntime, MapOrder, JsonFloats}.

Definition dubbo : list byte := gs "dubbo".

Definition dedupKey (m : DubboMessage) : Z := Z.lor (uint 64 (Z.shiftl (Assembler.Port dst) 48)) (RequestID (Header m)).

Definition dubbo_show (req : DubboMessage) : handler unit :=
  _ ← writeReqLine src dst;
  _ ← writeLine (if url_level global then FormatDubboURL req else FormatDubbo (set_ShowBody (DubboShowBody proto) req));
  if negb (IsTwoway (Header req)) || IsRealHeartbeat req then send dubbo
  else
    resp ← read_down ReadDubboMessage;
    match resp with
    | inr _ => send dubbo
    | inl resp =>
        ok ← checkCost proto;
        if negb ok then send dubbo
        else
          _ ← (if url_level global then mret tt
               else _ ← writeRespLine src dst; writeLine (FormatDubbo (set_ShowBody (DubboShowBody proto) resp)));
          send dubbo
    end.

Definition dubbo_round (seen : gset Z) : handler (option (gset Z)) :=
  _ ← initBuf; _ ← startReq;
  req ← read_up ReadDubboMessage;
  match req with
  | inr _ => mret None
  | inl req =>
      if bool_decide (dedupKey req ∈ seen) then mret (Some seen)
      else
        let seen := {[dedupKey req]} ∪ seen in
        service ← filtered (ServiceName req) (DubboService proto);
        skip ← (if service : bool then mret true else filtered (MethodName req) (DubboMethod proto));
        if skip : bool then mret (Some seen) else _ ← dubbo_show req; mret (Some seen)
  end.

Definition handleDubbo (fuel : nat) : handler unit :=
  _ ← rounds_with fuel dubbo_round ∅; flush dubbo.
End dubbo.

Section triple.
Import Triple.
Context `{Arrival}.

Fixpoint triple_show (msgs : list TripleMessage) : handler unit :=
  match msgs with
  | [] => mret tt
  | msg :: msgs =>
      service ← filtered (ServiceName msg) (DubboService proto);
      skip ← (if service : bool then mret true else filtered (MethodName msg) (DubboMethod proto));
      _ ← (if skip : bool then mret tt
           else _ ← writeReqLine src dst; writeLine (if url_level global then FormatTripleURL msg else FormatTriple msg));
      triple_show msgs
  end.
(** [dubboport.ReadTripleMessages(reqR)]; every read but the last returns a
    byte. *)
Definition read_triple : handler (list TripleMessage) := fun s =>
  match ReadTripleMessages (S (length (h_up s))) (reads (h_up s)) [] 0 with
  | Done (msgs, _, _, rest) => HRet msgs (mkH (concat rest) (h_down s) (h_ticks s) (h_req s) (h_buf s) (h_sent s))
  | Crash => HPanic
  | Blocked => HSpin
  end.
Definition handleTriple : handler unit :=
  _ ← initBuf; _ ← startReq;
  msgs ← read_triple;
  _ ← triple_show msgs;
  flush dubbo.
End triple.

Section dubbo_handler.
Context `{Java.JavaRuntime, MapOrder, Dubbo.JsonFloats, Arrival}.

Definition dubbo_Handle (fuel : nat) : handler unit :=
  first ← peek 24;
  isDubbo ← hgo (Dubbo.DetectDubbo first);
  _ ← (if isDubbo : bool then handleDubbo fuel
       else isTriple ← hgo (Triple.DetectTriple first); if isTriple : bool then handleTriple else mret tt);
  discard.
End dubbo_handler.

(** ** RocketMQ *)

Section rocketmq.
Import RocketMQ.
Context `{MapOrder}.

Definition rocketmq : list byte := gs "rocketmq".

(** A command that is [nil] is dereferenced. *)
Definition deref (cmd : option RemotingCommand) : handler RemotingCommand := fun s =>
  match cmd with Some cmd => HRet cmd s | None => HPanic end.

Definition rocketmq_show (req : RemotingCommand) : handler bool :=
  _ ← writeReqLine src dst;
  _ ← writeLine (if url_level global then FormatRemotingURL req else FormatRemotingCommand req);
  resp ← read_down ReadRemotingCommand;
  match resp with
  | inr _ => _ ← send rocketmq; mret false
  | inl resp =>
      ok ← checkCost proto;
      if negb ok then mret true
      else
        _ ← (if url_level global then mret tt
             else _ ← writeRespLine src dst; resp ← deref resp; writeLine (FormatRemotingResponse resp));
        _ ← send rocketmq; mret true
  end.
Definition rocketmq_round : handler bool :=
  _ ← initBuf; _ ← startReq;
  req ← read_up ReadRemotingCommand;
  match req with
  | inr _ => mret false
  | inl req =>
      req ← deref req;
      if negb (RMQCode proto =? 0) && negb (Code req =? RMQCode proto) then mret true else rocketmq_show req
  end.
Definition rocketmq_Handle (fuel : nat) : handler unit :=
  _ ← rounds fuel rocketmq_round; _ ← flush rocketmq; discard.
End rocketmq.

(** ** Nacos *)

Section nacos.
Import Nacos.
Context `{JsonNumbers, MapOrder}.

Definition nacos : list byte := gs "nacos".

Definition nacos_round : handler bool :=
  _ ← initBuf; _ ← startReq;
  msg ← read_up (ReadNacosMessage (gs "C->S"));
  match msg with
  | inr _ => mret false
  | inl msg =>
      _ ← writeReqLine src dst;
      _ ← writeLine (if url_level global then FormatNacosURL msg else FormatNacosMessage msg);
      resp ← read_down (ReadNacosMessage (gs "S->C"));
      match resp with
      | inr _ => _ ← send nacos; mret false
      | inl resp =>
          ok ← checkCost proto;
          if negb ok then mret true
          else
            _ ← (if url_level global then mret tt else _ ← writeRespLine src dst; writeLine (FormatNacosMessage resp));
            _ ← send nacos; mret true
      end
  end.
Definition nacos_Handle (fuel : nat) : handler unit :=
  _ ← rounds fuel nacos_round; _ ← flush nacos; discard.
End nacos.

(** ** Automatic detection *)

Section auto.
Context `{Java.JavaRuntime, MapOrder, Dubbo.JsonFloats, Nacos.JsonNumbers, Bson.JsonRuntime, Arrival}.

Definition triple : list byte := gs "triple".

(** The detectors in the order of [autoHandler.run], each with the handler it
    makes; [detector] of [main] asks them in the same order. *)
Definition detectors (fuel : nat) : list (list byte * (list byte → go bool) * handler unit) :=
  [(dubbo, Dubbo.DetectDubbo, dubbo_Handle fuel);
   (triple, Triple.DetectTriple, dubbo_Handle fuel);
   (rocketmq, RocketMQ.DetectRocketMQ, rocketmq_Handle fuel);
   (mongo, Mongo.DetectMongo, mongo_Handle global proto src dst fuel);
   (mysql, MySQL.DetectMySQL, mysql_Handle global proto src dst fuel);
   (redis, λ b, Ret (Redis.DetectRESP b), redis_Handle global proto src dst fuel);
   (zookeeper, ZooKeeper.DetectZK, zookeeper_Handle global proto src dst fuel);
   (websocket, λ b, Ret (WebSocket.DetectWebSocket b), websocket_Handle global src dst fuel);
   (nacos, λ b, Ret (Nacos.DetectNacos b), nacos_Handle fuel);
   (http, λ b, Ret (Http.DetectHTTP b), http_Handle global proto src dst fuel)].

(** The first that accepts the bytes, with its name. *)
Fixpoint detect (l : list (list byte * (list byte → go bool) * handler unit)) (peekResult : list byte)
  : go (option (list byte * handler unit)) :=
  match l with
  | [] => Ret None
  | (name, fn, make) :: l =>
      found ← (if 0 <? len peekResult then fn peekResult else Ret false);
      if found : bool then Ret (Some (name, make)) else detect l peekResult
  end.
(** What [Read] of 24 bytes returns; [Prepend] puts it back. *)
Definition auto_peek : handler (list byte) := fun s =>
  HRet (match h_up s with [] => [] | _ => ztake (first_read (h_up s)) (h_up s) end) s.
Definition auto_Handle (fuel : nat) : handler unit :=
  peekResult ← auto_peek;
  found ← hgo (detect (detectors fuel) peekResult);
  match found with
  | Some (_, sub) => sub
  | None => mret tt
  end.

(** [detector] of [main], for the assembler. *)
Fixpoint any_of (l : list (list byte → go bool)) (data : list byte) : go bool :=
  match l with
  | [] => Ret false
  | d :: l => b ← d data; if b : bool then Ret true else any_of l data
  end.
Definition detector (data : list byte) : go bool :=
  if str_eqb (Protocol proto) (gs "auto") then any_of (map (λ d, d.1.2) (detectors 0)) data else Ret true.

(** [makeHandler] of [main]; a protocol without a case leaves it [nil]. *)
Definition handler_cases (fuel : nat) : list (list byte * handler unit) :=
  [(gs "auto", auto_Handle fuel); (dubbo, dubbo_Handle fuel); (redis, redis_Handle global proto src dst fuel);
   (rocketmq, rocketmq_Handle fuel); (mysql, mysql_Handle global proto src dst fuel); (mongo, mongo_Handle global proto src dst fuel);
   (http, http_Handle global proto src dst fuel); (websocket, websocket_Handle global src dst fuel);
   (zookeeper, zookeeper_Handle global proto src dst fuel); (nacos, nacos_Handle fuel)].
Definition makeHandler (fuel : nat) : option (handler unit) := snd <$> List.find (λ c, str_eqb (Protocol proto) c.1) (handler_cases fuel).
(** [connHandlerAdapter.Handle] *)
Definition serve (fuel : nat) : handler unit := fun s =>
  match makeHandler fuel with Some h => h s | None => HPanic end.
End auto.
End dispatch.

(** ** Every connection comes to its end *)

#[export] Program Instance parts_Reader_ok : io_Reader_ok (list (list byte)) :=
  {| ready parts := Forall (λ p, p ≠ []) parts; pending parts := concat parts |}.
Next Obligation.
  intros [|p parts] n Hr Hp; [by exists []|]. inv_eq Hr. by apply app_eq_nil in Hp as [? _].
Qed.
Next Obligation.
  intros [|p parts] n Hr Hn Hp; [done|]. inv_eq Hr. cbn [rd_Read parts_Reader]. destruct (Z.leb_spec (len p) n).
  - eexists _, _. split_and!; done.
  - eexists _, _. split_and!; [done| |cbn; by rewrite app_assoc, ztake_zdrop|len_lia|].
    + constructor; [|done]. intros Hz. apply (f_equal len) in Hz. rewrite len_zdrop in Hz. change (len (@nil byte)) with 0 in Hz. lia.
    + intros H0 Hz. apply (f_equal len) in Hz. rewrite len_ztake in Hz. change (len (@nil byte)) with 0 in Hz. lia.
Qed.

(** Nowhere in what is left of either direction starts the frame of a Dubbo
    request in compacted Java whose body has a reference tag. *)
Definition no_reference (s : hstate) : Prop :=
  ∀ pre rest, h_up s = pre ++ rest ∨ h_down s = pre ++ rest → ¬ DubboProps.java_frame JavaProps.reference rest.
(** The requests do not start as Dubbo, or there is no such frame. *)
Definition no_recursion (s : hstate) : Prop := Dubbo.DetectDubbo (ztake 24 (h_up s)) = Ret false ∨ no_reference s.

Lemma no_reference_ends s s' pre pre' : no_reference s → h_up s = pre ++ h_up s' → h_down s = pre' ++ h_down s' → no_reference s'.
Proof.
  intros Hn Hu Hd p rest [E|E]; [apply (Hn (pre ++ p))|apply (Hn (pre' ++ p))]; [left|right]; by rewrite ?Hu, ?Hd, E, app_assoc.
Qed.
Lemma no_reference_bytes s : ¬ JavaProps.reference (h_up s) → ¬ JavaProps.reference (h_down s) → no_reference s.
Proof.
  intros Hu Hd pre rest E (hdr & h & body & more & -> & _ & _ & _ & _ & _ & b & Hb & Hr).
  destruct E as [E|E]; [apply Hu|apply Hd]; exists b; rewrite E; split; try done; set_solver.
Qed.

Section good.
Context `{Environment}.

Lemma rounds_with_end {X} (I : hstate → Prop) (body : X → handler (option X)) fuel : ∀ x s,
  (∀ x s, I s → hgood (body x) (λ next s', match next with Some _ => I s' ∧ (length (h_up s') < length (h_up s))%nat | None => True end) s) →
  I s → (length (h_up s) < fuel)%nat → hgood (rounds_with fuel body x) (λ _ _, True) s.
Proof.
  induction fuel as [|fuel IH]; intros x s Hb HI Hf; [lia|]. cbn [rounds_with]. eapply hgood_bind; [by apply Hb|].
  cbv beta. intros [y|] s' Hs; [|done]. destruct Hs as [HI' Hs]. apply IH; [done|done|lia].
Qed.

(** Steps that read neither direction. *)
Definition still {A} (m : handler A) : Prop := ∀ s, hgood m (λ _ s', h_up s' = h_up s ∧ h_down s' = h_down s) s.

Lemma still_ret {A} (a : A) : still (mret a).
Proof. done. Qed.
Lemma still_bind {A B} (m : handler A) (f : A → handler B) : still m → (∀ a, still (f a)) → still (m ≫= f).
Proof.
  intros Hm Hf s. eapply hgood_bind; [apply Hm|]. cbv beta. intros a s' [<- <-]. apply Hf.
Qed.
Lemma still_write b : still (write b).
Proof. done. Qed.
Lemma still_writeLine b : still (writeLine b).
Proof. done. Qed.
Lemma still_send p : still (send p).
Proof.
  intros s. unfold hgood, send. destruct (call_Send _ _ _) eqn:E; [done| |done]. unfold send_waits. eauto.
Qed.
Lemma still_initBuf : still initBuf.
Proof. done. Qed.
Lemma still_startReq : still startReq.
Proof. done. Qed.
Lemma still_writeReqLine src dst : still (writeReqLine src dst).
Proof. done. Qed.
Lemma still_writeRespLine src dst : still (writeRespLine src dst).
Proof. done. Qed.
Lemma still_checkCost proto : still (checkCost proto).
Proof. intros s. unfold checkCost. by destruct (str_eqb _ _). Qed.
Lemma still_flush p : still (flush p).
Proof. unfold flush. apply still_bind; [done|]. intros [|]; [apply still_send|apply still_ret]. Qed.
Lemma still_filtered s filter : still (filtered s filter).
Proof.
  intros st. unfold filtered, hgood, wildcard, mbind, handler_bind. destruct (str_eqb _ _); [done|].
  by destruct (WildcardMatch_decides s filter) as (b & -> & _).
Qed.
Lemma still_keeps {A} (m : handler A) s : still m → no_reference s →
  hgood m (λ _ s', no_reference s' ∧ h_up s' = h_up s) s.
Proof.
  intros Hm Hn. eapply hgood_mono; [apply Hm|]. cbv beta. intros _ s' [Hu Hd]. split; [|done].
  apply (no_reference_ends s s' [] [] Hn); by rewrite ?Hu, ?Hd.
Qed.
End good.
#[export] Hint Resolve still_ret still_write still_writeLine still_send still_initBuf still_startReq still_writeReqLine still_writeRespLine
  still_checkCost still_flush still_filtered : gohints.
Ltac still_steps :=
  repeat match goal with
  | |- still (if ?c then _ else _) => destruct c
  | |- still (_ ≫= _) => apply still_bind; [|intros]
  | |- still _ => solve [auto with gohints]
  end.

Section ends.
Context `{Environment} `{Htab : UnicodeTables} `{Hjson : Bson.JsonRuntime} `{Hjava : Java.JavaRuntime} `{Hmap : MapOrder}.
Context `{Hfloat : Dubbo.JsonFloats} `{Hnum : Nacos.JsonNumbers} `{Hok : Arrival_ok}.
Context (global : GlobalConfig) (proto : ProtoConfig) (src dst : Endpoint).

Lemma calm_filtered s filter : calm (filtered s filter).
Proof. unfold filtered. destruct (str_eqb _ _); calm_steps. Qed.
Lemma calm_read_rocketmq : calm (read_down RocketMQ.ReadRemotingCommand).
Proof. apply (calm_read_down 4). intros. apply RocketMQ.progress_ReadRemotingCommand. Qed.
Lemma calm_read_nacos d : calm (read_down (Nacos.ReadNacosMessage d)).
Proof. apply (calm_read_down 1). intros. apply Nacos.progress_ReadNacosMessage. Qed.
Lemma calm_deref cmd : calm (deref cmd).
Proof. by destruct cmd. Qed.
Hint Resolve calm_filtered calm_read_rocketmq calm_read_nacos calm_deref : gohints.

Lemma rocketmq_round_ok : round_ok (rocketmq_round global proto src dst).
Proof.
  apply (round_ok_reads 3); [intros; apply RocketMQ.progress_ReadRemotingCommand| |done].
  intros cmd. unfold rocketmq_show, writeLine. calm_steps.
Qed.
Lemma nacos_round_ok : round_ok (nacos_round global proto src dst).
Proof.
  apply (round_ok_reads 0); [intros; apply Nacos.progress_ReadNacosMessage| |done].
  intros msg. unfold writeLine. calm_steps.
Qed.

(** *** Dubbo *)

Lemma read_up_dubbo s : no_reference s → hgood (read_up Dubbo.ReadDubboMessage)
  (λ r s', no_reference s' ∧ ∀ m, r = inl m → (length (h_up s') < length (h_up s))%nat) s.
Proof.
  intros Hn. unfold hgood, read_up, try. pose proof (DubboProps.ReadDubboMessage_cases (h_up s)) as Hr.
  destruct (Dubbo.ReadDubboMessage (h_up s)) as [m rest|e rest| |]; [| |done|].
  - destruct Hr as (hdr & Hl & Hs & _). rewrite app_assoc in Hs. split; [by apply (no_reference_ends s _ (hdr ++ Dubbo.Body m) [] Hn)|].
    intros _ _. cbn [h_up]. rewrite Hs, !length_app. rewrite len_length in Hl. lia.
  - destruct Hr as (pre & Hs). split; [by apply (no_reference_ends s _ pre [] Hn)|done].
  - by apply (Hn [] (h_up s)); [left|].
Qed.
Lemma read_down_dubbo s : no_reference s → hgood (read_down Dubbo.ReadDubboMessage)
  (λ _ s', no_reference s' ∧ h_up s' = h_up s) s.
Proof.
  intros Hn. unfold hgood, read_down, try. pose proof (DubboProps.ReadDubboMessage_cases (h_down s)) as Hr.
  destruct (Dubbo.ReadDubboMessage (h_down s)) as [m rest|e rest| |]; [| |done|].
  - destruct Hr as (hdr & Hl & Hs & _). rewrite app_assoc in Hs. split; [by apply (no_reference_ends s _ [] (hdr ++ Dubbo.Body m) Hn)|done].
  - destruct Hr as (pre & Hs). split; [by apply (no_reference_ends s _ [] pre Hn)|done].
  - by apply (Hn [] (h_down s)); [right|].
Qed.

Lemma dubbo_show_ends req s : no_reference s →
  hgood (dubbo_show global proto src dst req) (λ _ s', no_reference s' ∧ h_up s' = h_up s) s.
Proof.
  intros Hn. unfold dubbo_show. eapply hgood_bind; [by apply still_keeps, Hn; auto with gohints|]. cbv beta. intros _ s1 [H1 <-].
  eapply hgood_bind; [by apply still_keeps, H1; auto with gohints|]. cbv beta. intros _ s2 [H2 <-].
  destruct (_ || _); [by apply still_keeps; auto with gohints|].
  eapply hgood_bind; [by apply read_down_dubbo|]. cbv beta. intros r s3 [H3 <-].
  apply still_keeps; [|done]. destruct r; still_steps.
Qed.
Lemma dubbo_round_ends seen s : no_reference s → hgood (dubbo_round global proto src dst seen)
  (λ next s', match next with Some _ => no_reference s' ∧ (length (h_up s') < length (h_up s))%nat | None => True end) s.
Proof.
  intros Hn. unfold dubbo_round. eapply hgood_bind; [by apply still_keeps, Hn; auto with gohints|]. cbv beta. intros _ s1 [H1 <-].
  eapply hgood_bind; [by apply still_keeps, H1; auto with gohints|]. cbv beta. intros _ s2 [H2 <-].
  eapply hgood_bind; [by apply read_up_dubbo|]. cbv beta. intros [req|e] s3 [H3 Hl]; [|done]. specialize (Hl req eq_refl).
  destruct (bool_decide _); [by split|]. cbv zeta.
  eapply hgood_bind; [by apply still_keeps, H3; auto with gohints|]. cbv beta. intros service s4 [H4 E4]. rewrite <-E4 in Hl.
  eapply hgood_bind; [apply still_keeps, H4; destruct service; auto with gohints|]. cbv beta. intros skip s5 [H5 E5]. rewrite <-E5 in Hl.
  destruct skip; [by split|]. eapply hgood_bind; [by apply dubbo_show_ends|]. cbv beta. intros _ s6 [H6 E6]. rewrite <-E6 in Hl. by split.
Qed.

(** *** The handler of any protocol *)

Lemma hgo_returns {A} (g : go A) st : returns g (λ _, True) → hgood (hgo g) (λ _ s', s' = st) st.
Proof. unfold hgood, hgo. by destruct g. Qed.
Lemma detectDubbo_returns data : returns (Dubbo.DetectDubbo data) (λ _, True).
Proof.
  unfold Dubbo.DetectDubbo. destruct (Z.ltb_spec (len data) 2); [by apply returns_Ret|].
  rewrite be_at_Ret by lia. by apply returns_Ret.
Qed.
Lemma detectTriple_returns data : returns (Triple.DetectTriple data) (λ _, True).
Proof.
  unfold Triple.DetectTriple, Triple.IsTriplePreface. destruct (_ <? _); [by apply returns_Ret|].
  destruct (Z.leb_spec (len Triple.HTTP2Preface) (len data)); [|by apply returns_Ret].
  eapply returns_bind; [by apply returns_sub; [split; [lia|apply len_nonneg]|]|]. intros p _. by apply returns_Ret.
Qed.
Lemma detectRocketMQ_returns data : returns (RocketMQ.DetectRocketMQ data) (λ _, True).
Proof.
  unfold RocketMQ.DetectRocketMQ. destruct (Z.ltb_spec (len data) 4); [by apply returns_Ret|].
  eapply returns_bind; [by apply returns_sub; lia|]. intros l _. cbv zeta. destruct (_ || _); [by apply returns_Ret|].
  destruct (Z.leb_spec 8 (len data)); [|by apply returns_Ret].
  eapply returns_bind; [by apply returns_sub; lia|]. intros h _.
  destruct (_ && _) eqn:E; [|by apply returns_Ret]. zbool.
  eapply returns_bind; [apply returns_sub; lia|]. intros header _. by apply returns_Ret.
Qed.

Lemma triple_show_ends msgs : still (triple_show global proto src dst msgs).
Proof. induction msgs; cbn [triple_show]; still_steps. Qed.
Lemma handleTriple_ends s : hgood (handleTriple global proto src dst) (λ _ _, True) s.
Proof.
  unfold handleTriple. eapply hgood_bind; [apply still_initBuf|]. cbv beta. intros _ s1 [_ _].
  eapply hgood_bind; [apply still_startReq|]. cbv beta. intros _ s2 [_ _].
  eapply (hgood_bind _ _ (λ _ _, True)).
  - unfold hgood, read_triple. set (r := reads (h_up s2)).
    assert (concat r = h_up s2) as Hr by apply reads_concat.
    pose proof (Triple.triple_reader_ends r (S (length (h_up s2))) (reads_some _)) as He.
    cbn [pending parts_Reader_ok] in He. rewrite Hr in He. specialize (He ltac:(lia)).
    by destruct (Triple.ReadTripleMessages _ _ _ _) as [[[[? ?] ?] ?]| |].
  - intros msgs s3 _. eapply hgood_bind; [apply triple_show_ends|]. intros _ s4 _. eapply hgood_mono; [apply still_flush|done].
Qed.


Section each.
Context (s : hstate) (fuel : nat) (Hf : (length (h_up s) < fuel)%nat).

Lemma rocketmq_ends : hgood (rocketmq_Handle global proto src dst fuel) (λ _ _, True) s.
Proof. by apply handle_ends, Hf; apply rocketmq_round_ok. Qed.
Lemma nacos_ends : hgood (nacos_Handle global proto src dst fuel) (λ _ _, True) s.
Proof. by apply handle_ends, Hf; apply nacos_round_ok. Qed.
Lemma handleDubbo_ends : no_reference s → hgood (handleDubbo global proto src dst fuel) (λ _ _, True) s.
Proof.
  intros Hn. eapply hgood_bind.
  - by apply (rounds_with_end no_reference); [intros; by apply dubbo_round_ends| |].
  - intros _ s' _. eapply hgood_mono; [apply still_flush|done].
Qed.
End each.

Lemma dubbo_ends s fuel : (length (h_up s) < fuel)%nat → no_recursion s → hgood (dubbo_Handle global proto src dst fuel) (λ _ _, True) s.
Proof.
  intros Hf Hn. unfold dubbo_Handle. eapply (hgood_bind _ _ (λ a s', a = ztake 24 (h_up s) ∧ s' = s)); [done|]. intros first ? [-> ->].
  eapply (hgood_bind _ _ (λ b s', Dubbo.DetectDubbo (ztake 24 (h_up s)) = Ret b ∧ s' = s)).
  { destruct (detectDubbo_returns (ztake 24 (h_up s))) as (b & Hd & _). unfold hgood, hgo. by rewrite Hd. }
  cbv beta. intros isDubbo ? [Hd ->].
  eapply (hgood_bind _ _ (λ _ _, True)); [|done]. destruct isDubbo.
  { destruct Hn as [Hn|Hn]; [congruence|by apply handleDubbo_ends]. }
  eapply hgood_bind; [apply hgo_returns, detectTriple_returns|]. cbv beta. intros isTriple ? ->.
  destruct isTriple; [|done]. apply handleTriple_ends.
Qed.

Lemma detectors_return fuel : Forall (λ d : list byte * (list byte → go bool) * handler unit, ∀ data, returns (d.1.2 data) (λ _, True))
  (detectors global proto src dst fuel).
Proof.
  repeat apply Forall_cons_2; [..|apply Forall_nil_2]; cbn [fst snd]; intros data;
    auto using detectDubbo_returns, detectTriple_returns, detectRocketMQ_returns, Mongo.DetectMongo_returns, MySQL.DetectMySQL_returns,
      ZooKeeper.DetectZK_returns, returns_Ret.
Qed.
(** Every detector comes back, and every handler but Dubbo's always ends. *)
Lemma detectors_end fuel s : (length (h_up s) < fuel)%nat → no_recursion s →
  Forall (λ d : list byte * (list byte → go bool) * handler unit, (∀ data, returns (d.1.2 data) (λ _, True)) ∧ hgood d.2 (λ _ _, True) s)
    (detectors global proto src dst fuel).
Proof.
  intros Hf Hn. assert (hgood (dubbo_Handle global proto src dst fuel) (λ _ _, True) s) as Hd by by apply dubbo_ends.
  apply Forall_and. split; [apply detectors_return|]. repeat apply Forall_cons_2; [..|apply Forall_nil_2]; cbn [snd];
    auto using redis_ends, rocketmq_ends, mysql_ends, mongo_ends, http_ends, websocket_ends, zookeeper_ends, nacos_ends.
Qed.
Lemma detect_ends l data s : Forall (λ d : list byte * (list byte → go bool) * handler unit, (∀ data, returns (d.1.2 data) (λ _, True)) ∧ hgood d.2 (λ _ _, True) s) l →
  returns (detect l data) (λ r, match r with Some (_, h) => hgood h (λ _ _, True) s | None => True end).
Proof.
  induction 1 as [|[[name fn] make] l [Hd Hh] _ IH]; cbn [detect]; [by apply returns_Ret|].
  apply (returns_bind _ _ (λ _, True)); [destruct (_ <? _); [apply Hd|by apply returns_Ret]|].
  intros [|] _; [by apply returns_Ret|done].
Qed.
Lemma auto_ends fuel s : (length (h_up s) < fuel)%nat → no_recursion s → hgood (auto_Handle global proto src dst fuel) (λ _ _, True) s.
Proof.
  intros Hf Hn. unfold auto_Handle. eapply (hgood_bind _ _ (λ _ s', s' = s)); [done|]. intros data ? ->.
  destruct (detect_ends _ data s (detectors_end fuel s Hf Hn)) as (r & Hd & Hr). unfold hgo. rewrite Hd.
  by destruct r as [[? ?]|].
Qed.
Lemma makeHandler_cases fuel h : makeHandler global proto src dst fuel = Some h →
  (Protocol proto, h) ∈ handler_cases global proto src dst fuel.
Proof.
  unfold makeHandler. destruct (List.find _ _) as [[name h']|] eqn:E; [|done]. intros [= <-].
  apply find_some in E as [E Hn]. cbn [fst snd] in *. destruct (str_eqb_spec (Protocol proto) name) as [->|]; [|done]. by apply list_elem_of_In.
Qed.
Lemma cases_end fuel s : (length (h_up s) < fuel)%nat →
  Forall (λ c, c.1 ∉ [gs "auto"; dubbo] ∨ no_recursion s → hgood c.2 (λ _ _, True) s) (handler_cases global proto src dst fuel).
Proof.
  intros Hf. repeat apply Forall_cons_2; cbn [fst snd]; [..|by apply Forall_nil_2]; intros Hn.
  1,2: destruct Hn as [Hn|Hn]; [set_solver|]; auto using auto_ends, dubbo_ends.
  all: auto using redis_ends, rocketmq_ends, mysql_ends, mongo_ends, http_ends, websocket_ends, zookeeper_ends, nacos_ends.
Qed.

(** On the same bytes the detector of [main], by which the assembler opens a
    connection, answers without panic, and it answers as the detection of the
    handler does. *)
Theorem detector_agrees fuel data (Hp : Protocol proto = gs "auto") (Hd : data ≠ []) :
  ∃ r, detect (detectors global proto src dst fuel) data = Ret r ∧
    detector global proto src dst data = Ret (match r with Some _ => true | None => false end).
Proof.
  assert (0 < len data) as Hl by (destruct data; [done|]; rewrite len_cons; pose proof (len_nonneg data); lia).
  unfold detector. rewrite Hp, str_eqb_refl.
  assert (map (λ d, d.1.2) (detectors global proto src dst 0) = map (λ d, d.1.2) (detectors global proto src dst fuel)) as -> by done.
  assert (Forall (λ d : list byte * (list byte → go bool) * handler unit, ∀ data, returns (d.1.2 data) (λ _, True))
    (detectors global proto src dst fuel)) as Hall by apply detectors_return.
  induction Hall as [|[[name fn] make] l Hf _ IH]; cbn [detect map any_of fst snd]; [by eexists|].
  specialize (Hf data). cbn [fst snd] in Hf. destruct Hf as (b & -> & _). rewrite (proj2 (Z.ltb_lt _ _) Hl). cbn [mbind go_bind]. destruct b; [by eexists|done].
Qed.

Lemma serve_ends s fuel (Hf : (length (h_up s) < fuel)%nat) (Hd : Protocol proto ∉ [gs "auto"; dubbo] ∨ no_recursion s) :
  comes_to_end (serve global proto src dst fuel) s.
Proof.
  unfold comes_to_end, serve. destruct (makeHandler _ _ _ _ _) as [h|] eqn:E; [|done]. apply makeHandler_cases in E.
  exact (hgood_ends _ _ _ (proj1 (Forall_forall _ _) (cases_end fuel s Hf) _ E Hd)).
Qed.

(** Whatever the protocol is and whatever the two directions of a
    connection carry, the handler of the connection comes to an end. The one
    exception is Dubbo, chosen or detected, and there only connections that
    carry a request in compacted Java with a reference. *)
Theorem connections_end s fuel (Hf : (length (h_up s) < fuel)%nat) (Hd : Protocol proto ∉ [gs "auto"; dubbo] ∨ no_recursion s) :
  comes_to_end (serve global proto src dst fuel) s.
Proof. by apply serve_ends. Qed.
End ends.

Section started.
Context `{Environment} `{Htab : UnicodeTables} `{Hjson : Bson.JsonRuntime} `{Hjava : Java.JavaRuntime} `{Hmap : MapOrder}.
Context `{Hfloat : Dubbo.JsonFloats} `{Hnum : Nacos.JsonNumbers} `{Harr : Arrival} (src dst : Endpoint).

(** C17. [main] never panics, and a capture that it starts has a port number
    and a protocol with a case in [makeHandler], so that no connection meets a
    handler that is [nil]: for its protocol's own name the handler of that
    name, and without a protocol the detection. *)
Theorem captures_have_handlers args fuel :
  ∃ o, main args = Ret o ∧ ∀ g p, o = Capture g p →
    0 ≤ Cli.Port g < 65536 ∧ (Protocol p = gs "auto" ∨ ∃ sc, sc ∈ subcommands ∧ Protocol p = Name sc) ∧
    ∃ h, makeHandler g p src dst fuel = Some h ∧ (Protocol p, h) ∈ handler_cases g p src dst fuel.
Proof.
  destruct (main_starts_captures args) as (o & Ho & Hc). exists o. split; [done|]. intros g p ->.
  destruct (Hc g p eq_refl) as [Hport Hp]. split_and!; [lia..|exact Hp|].
  assert (∃ h, makeHandler g p src dst fuel = Some h) as [h Hh]; [|exists h; split; [done|by apply makeHandler_cases]].
  unfold makeHandler. destruct Hp as [->|(sc & Hsc & ->)]; [by eexists|].
  revert sc Hsc. apply Forall_forall. unfold subcommands. repeat apply Forall_cons_2; [..|apply Forall_nil_2]; by eexists.
Qed.
End started.

(** ** What the handler of Dubbo prints *)

Section dubbo_texts.
Import Dubbo.
Context `{Environment} `{Htab : UnicodeTables} `{Hjava : Java.JavaRuntime} `{Hmap : MapOrder} `{Hfloat : Dubbo.JsonFloats}.
Context (global : GlobalConfig) (proto : ProtoConfig) (src dst : Endpoint).

(** Does the filter let the name through? *)
Definition lets (name filter : list byte) : bool :=
  if str_eqb filter [] then true else match WildcardMatch name filter with Ret (Some b) => b | _ => false end.
Definition passes (m : DubboMessage) : bool := lets (ServiceName m) (DubboService proto) && lets (MethodName m) (DubboMethod proto).

Definition dubbo_head (t : nat) (m : DubboMessage) : list byte :=
  req_line src dst (now t)
  ++ (if url_level global then FormatDubboURL m else FormatDubbo (set_ShowBody (DubboShowBody proto) m)) ++ [newline].

(** The texts for the requests and responses of a connection, the clock
    having been read [t] times: a request whose number has been seen before
    and one that the filters reject leave no trace; a request that expects no
    response is printed alone; every other is printed with the next response. *)
Fixpoint dubbo_texts (seen : gset Z) (t : nat) (reqs resps : list DubboMessage) : list (list byte) :=
  match reqs with
  | [] => []
  | q :: reqs =>
      if bool_decide (dedupKey dst q ∈ seen) then dubbo_texts seen (S t) reqs resps
      else
        let seen := {[dedupKey dst q]} ∪ seen in
        if negb (passes q) then dubbo_texts seen (S t) reqs resps
        else if negb (IsTwoway (Header q)) || IsRealHeartbeat q then dubbo_head t q :: dubbo_texts seen (S t) reqs resps
        else
          match resps with
          | [] => dubbo_head t q :: dubbo_texts seen (S t) reqs []
          | r :: resps =>
              let ms k := Z.quot (now k - now t) 1000000 in
              let '(shown, t1) := if str_eqb (Cost proto) [] then (true, S t) else (matchCost (ms (S t)) (Cost proto), S (S t)) in
              if negb shown || url_level global then dubbo_head t q :: dubbo_texts seen t1 reqs resps
              else (dubbo_head t q ++ resp_line src dst (now t) (ms t1) ++ FormatDubbo (set_ShowBody (DubboShowBody proto) r) ++ [newline])
                   :: dubbo_texts seen (S t1) reqs resps
          end
  end.

Lemma filtered_lets name filter s : filtered name filter s = HRet (negb (lets name filter)) s.
Proof.
  unfold filtered, lets, wildcard, mbind, handler_bind. destruct (str_eqb _ _); [done|].
  by destruct (WildcardMatch_decides name filter) as (b & -> & _).
Qed.
Lemma skip_passes q s : (service ← filtered (ServiceName q) (DubboService proto);
   (if service : bool then mret true else filtered (MethodName q) (DubboMethod proto))) s = HRet (negb (passes q)) s.
Proof.
  erewrite bind_HRet; [|apply filtered_lets]. unfold passes. destruct (lets _ _); [apply filtered_lets|done].
Qed.

Lemma checkCost_shown up down t req buf sent shown t1 :
  (if str_eqb (Cost proto) [] then (true, t) else (matchCost (Z.quot (now t - req) 1000000) (Cost proto), S t)) = (shown, t1) →
  checkCost proto (mkH up down t req buf sent) = HRet shown (mkH up down t1 req buf sent).
Proof. unfold checkCost. by destruct (str_eqb _ _); intros [= <- <-]. Qed.
Lemma dubbo_show_texts q resps up down t buf sent : many (length resps) ReadDubboMessage down = Got resps [] →
  ∃ t1 buf1 resps' down' text, dubbo_show global proto src dst q (mkH up down (S t) (now t) buf sent)
      = after_sends (length sent) [(dubbo, buf ++ text)] tt (mkH up down' t1 (now t) buf1 (sent ++ [(dubbo, buf ++ text)])) ∧
    many (length resps') ReadDubboMessage down' = Got resps' [] ∧
    ∀ seen reqs, bool_decide (dedupKey dst q ∈ seen) = false → passes q = true →
      dubbo_texts seen t (q :: reqs) resps = text :: dubbo_texts ({[dedupKey dst q]} ∪ seen) t1 reqs resps'.
Proof.
  intros Hd. unfold dubbo_show. do 2 (erewrite bind_HRet; [|reflexivity]). cbn [h_up h_down h_ticks h_req h_buf h_sent].
  rewrite <-app_assoc. match goal with |- context [buf ++ ?x] => assert (x = dubbo_head t q) as -> by (unfold dubbo_head, req_line; by rewrite <-!app_assoc) end.
  destruct (negb (IsTwoway (Header q)) || IsRealHeartbeat q) eqn:E.
  { eexists _, _, resps, down, (dubbo_head t q). split_and!; [|done|].
    - apply send_after.
    - intros seen reqs Hs Hp. cbn [dubbo_texts]. by rewrite Hs, Hp, E. }
  destruct resps as [|r resps].
  { injection Hd as ->. eexists _, _, [], [], (dubbo_head t q). split_and!; [|done|].
    - apply send_after.
    - intros seen reqs Hs Hp. cbn [dubbo_texts]. by rewrite Hs, Hp, E. }
  apply many_cons in Hd as (a & l & down' & Hr & Hd & [= <- <-]).
  erewrite bind_HRet; [|by apply read_down_Got]. cbv beta iota. cbn [h_up h_down h_ticks h_req h_buf h_sent].
  destruct (if str_eqb (Cost proto) [] then (true, S t) else (matchCost (Z.quot (now (S t) - now t) 1000000) (Cost proto), S (S t)))
    as [shown t1] eqn:Ec.
  erewrite bind_HRet; [|by apply (checkCost_shown _ _ _ _ _ _ _ _ Ec)].
  assert (∀ seen reqs, bool_decide (dedupKey dst q ∈ seen) = false → passes q = true →
    dubbo_texts seen t (q :: reqs) (r :: resps) =
      if negb shown || url_level global then dubbo_head t q :: dubbo_texts ({[dedupKey dst q]} ∪ seen) t1 reqs resps
      else (dubbo_head t q ++ resp_line src dst (now t) (Z.quot (now t1 - now t) 1000000)
            ++ FormatDubbo (set_ShowBody (DubboShowBody proto) r) ++ [newline])
           :: dubbo_texts ({[dedupKey dst q]} ∪ seen) (S t1) reqs resps) as Ht.
  { intros seen reqs Hs Hp. cbn [dubbo_texts]. by rewrite Hs, Hp, E, Ec. }
  destruct shown; cbn [negb orb] in *; [destruct (url_level global)|].
  1,3: eexists _, _, resps, down', (dubbo_head t q); split_and!; [apply send_after|done|exact Ht].
  eexists _, _, resps, down', _. split_and!; [|done|exact Ht].
  unfold writeRespLine, writeLine, write, reqTime, elapsedMs, mbind, handler_bind. cbn [h_up h_down h_ticks h_req h_buf h_sent].
  unfold resp_line. rewrite <-?app_assoc. apply send_after.
Qed.

Lemma dubbo_round_texts seen q up1 resps up down t req buf sent :
  ReadDubboMessage up = Got q up1 → many (length resps) ReadDubboMessage down = Got resps [] →
  ∃ seen' t1 req1 buf1 resps' down' new, dubbo_round global proto src dst seen (mkH up down t req buf sent)
      = after_sends (length sent) (map (pair dubbo) new) (Some seen') (mkH up1 down' t1 req1 buf1 (sent ++ map (pair dubbo) new)) ∧
    many (length resps') ReadDubboMessage down' = Got resps' [] ∧
    ∀ reqs, dubbo_texts seen t (q :: reqs) resps = new ++ dubbo_texts seen' t1 reqs resps'.
Proof.
  intros Hq Hd. unfold dubbo_round. do 2 (erewrite bind_HRet; [|reflexivity]). cbn [h_up h_down h_ticks h_req h_buf h_sent].
  erewrite bind_HRet; [|by apply read_up_Got]. cbv beta iota. cbn [h_up h_down h_ticks h_req h_buf h_sent].
  destruct (bool_decide (dedupKey dst q ∈ seen)) eqn:Hs.
  { eexists seen, _, _, _, resps, down, []. cbn [map]. rewrite app_nil_r. split_and!; [reflexivity|done|].
    intros reqs. cbn [dubbo_texts]. by rewrite Hs. }
  cbv zeta. set (st := mkH _ _ _ _ _ _). pose proof (skip_passes q st) as Hskip.
  assert (∀ B (f : bool → handler B), (service ← filtered (ServiceName q) (DubboService proto);
    skip ← (if service : bool then mret true else filtered (MethodName q) (DubboMethod proto)); f skip) st = f (negb (passes q)) st) as ->.
  { intros B f. revert Hskip. unfold mbind, handler_bind. destruct (filtered _ _ st) as [service ?| | |]; [|done..]. by intros ->. }
  destruct (passes q) eqn:Hp; cbn [negb].
  - destruct (dubbo_show_texts q resps up1 down t [] sent Hd) as (t1 & buf1 & resps' & down' & text & Hshow & Hd' & Ht).
    unfold st. rewrite (after_sends_bind _ _ _ _ _ _ _ Hshow). eexists _, _, _, _, resps', down', [text]. split_and!; [reflexivity|done|].
    intros reqs. by apply Ht.
  - eexists _, _, _, _, resps, down, []. cbn [map]. rewrite app_nil_r. split_and!; [reflexivity|done|].
    intros reqs. cbn [dubbo_texts]. by rewrite Hs, Hp.
Qed.
Lemma dubbo_rounds_texts reqs : ∀ resps up down fuel seen t req buf sent, (length reqs < fuel)%nat →
  many (length reqs) ReadDubboMessage up = Got reqs [] → many (length resps) ReadDubboMessage down = Got resps [] →
  let new := map (pair dubbo) (dubbo_texts seen t reqs resps) in
  ∃ s', rounds_with fuel (dubbo_round global proto src dst) seen (mkH up down t req buf sent) = after_sends (length sent) new tt s' ∧
    h_buf s' = [] ∧ h_sent s' = sent ++ new.
Proof.
  induction reqs as [|q reqs IH]; intros resps up down [|fuel] seen t req buf sent Hf Hu Hd; simpl in Hf; try lia; cbn [rounds_with].
  - injection Hu as ->. eexists. split_and!; [reflexivity|done|]. cbn. by rewrite app_nil_r.
  - apply many_cons in Hu as (a & l & up' & Hq & Hu & [= <- <-]).
    destruct (dubbo_round_texts seen q up' resps up down t req buf sent Hq Hd)
      as (seen' & t1 & req1 & buf1 & resps' & down' & new & Hr & Hd' & Ht).
    rewrite (after_sends_bind _ _ _ _ _ _ _ Hr). cbv beta iota.
    destruct (IH resps' up' down' fuel seen' t1 req1 buf1 (sent ++ map (pair dubbo) new)) as (s' & -> & Hb & Hs'); [lia|done|done|].
    exists s'. rewrite (Ht reqs), map_app, length_app, after_sends_app. split_and!; [done|done|]. by rewrite Hs', app_assoc.
Qed.

(** C8. The handler of Dubbo prints the requests it has not seen before and
    that the filters let through, in their order, with one call of [Send] for
    each: with the next response of the server if it expects one, whichever
    request that response answers, and alone otherwise. Nothing else is
    printed. *)
Theorem dubbo_handler_prints_calls `{Harr : Arrival} reqs resps up down fuel t (Hf : (length reqs < fuel)%nat)
  (Hup : many (length reqs) ReadDubboMessage up = Got reqs []) (Hdown : many (length resps) ReadDubboMessage down = Got resps []) :
  makes_calls (map (pair dubbo) (dubbo_texts ∅ t reqs resps)) (dubbo_Handle global proto src dst fuel (mkH up down t 0 [] [])).
Proof.
  unfold dubbo_Handle. erewrite bind_HRet; [|reflexivity]. cbn [h_up]. destruct reqs as [|q reqs].
  { injection Hup as ->. eexists. split; reflexivity. }
  assert (Dubbo.DetectDubbo (ztake 24 up) = Ret true) as Hdet.
  { apply many_cons in Hup as (a & l & up' & Hq & _). by eapply DubboProps.read_dubbo_detected. }
  erewrite bind_HRet; [|unfold hgo; by rewrite Hdet]. cbv iota.
  destruct (dubbo_rounds_texts (q :: reqs) resps up down fuel ∅ t 0 [] [] Hf Hup Hdown) as (s & Hs & Hb & Hsent).
  assert (handleDubbo global proto src dst fuel (mkH up down t 0 [] []) =
    after_sends 0 (map (pair dubbo) (dubbo_texts ∅ t (q :: reqs) resps)) tt s) as Hh.
  { unfold handleDubbo. rewrite (after_sends_bind _ _ _ _ _ _ _ Hs). unfold flush, hasContent, mbind, handler_bind. by rewrite Hb. }
  rewrite (after_sends_bind _ _ _ _ _ _ _ Hh). exists (mkH [] [] (h_ticks s) (h_req s) (h_buf s) (h_sent s)). by split.
Qed.
End dubbo_texts.

(** ** The properties at work *)

(** Everything the client sends arrives at once. *)
Definition one_part : Arrival := {| first_read s := Z.min 24 (len s); reads s := match s with [] => [] | _ => [s] end |}.
#[export] Instance one_part_ok : @Arrival_ok one_part.
Proof.
  split.
  - intros [|b s] Hs; [done|]. cbn. rewrite len_cons. pose proof (len_nonneg s). lia.
  - intros [|b s]; [done|]. cbn. by rewrite app_nil_r.
  - intros [|b s]; [done|]. by repeat constructor.
Qed.
Definition demo_floats : Dubbo.JsonFloats := {| Dubbo.json_float _ := [] |}.
Definition demo_numbers : Nacos.JsonNumbers := {| Nacos.ParseFloat_text s := Some s |}.

Definition demo_request (id : Z) (body : list byte) : list byte := DubboProps.enc_header (to_byte 36) Byte.x00 id (len body) ++ body.
Definition demo_response (id : Z) : list byte := DubboProps.enc_header (to_byte 4) (to_byte 20) id 0.
Definition demo_up : list byte :=
  demo_request 1 (gs "com.a.Foo" ++ [Byte.x00] ++ gs "getIt") ++ demo_request 2 (gs "com.b.Bar" ++ [Byte.x00] ++ gs "putIt").
Definition demo_down : list byte := demo_response 1 ++ demo_response 2.
Definition demo_read (s : list byte) : list Dubbo.DubboMessage :=
  match many 2 (@Dubbo.ReadDubboMessage no_tables JavaRead.some_runtime list_order) s with Got l _ => l | _ => [] end.
Definition demo_dubbo (fuel : nat) : hres unit :=
  @dubbo_Handle demo_env no_tables new_GlobalConfig (set_DubboService (gs "com.b.*") new_ProtoConfig) demo_endpoints.1 demo_endpoints.2
    JavaRead.some_runtime list_order demo_floats one_part fuel (mkH demo_up demo_down 0 0 [] []).

(** The first request is rejected and its response stays in the stream: the
    second is printed with it. *)
Lemma dubbo_handler_prints_calls_witness :
  ∃ s text, demo_dubbo 3 = HRet tt s ∧ h_sent s = [(dubbo, text)] ∧
    Contains text (gs "Dubbo Request  id=2") = true ∧ Contains text (gs "Dubbo Response  id=1") = true.
Proof.
  destruct (dubbo_handler_prints_calls (H := demo_env) (Htab := no_tables) (Hjava := JavaRead.some_runtime) (Hmap := list_order)
    (Hfloat := demo_floats) (Harr := one_part) new_GlobalConfig (set_DubboService (gs "com.b.*") new_ProtoConfig)
    demo_endpoints.1 demo_endpoints.2 (demo_read demo_up) (demo_read demo_down) demo_up demo_down 3 0) as (s & Hs & Hsent).
  - apply Nat.ltb_lt. vm_compute. reflexivity.
  - vm_compute. reflexivity.
  - vm_compute. reflexivity.
  - exists s. eexists. split; [exact Hs|]. split; [rewrite Hsent; vm_compute; reflexivity|]. split; vm_compute; reflexivity.
Defined.

(** A connection of Dubbo that is found by detection. *)
Lemma connections_end_witness :
  @serve demo_env no_tables new_GlobalConfig (set_Protocol (gs "auto") new_ProtoConfig) demo_endpoints.1 demo_endpoints.2
    JavaRead.some_runtime list_order demo_floats demo_numbers Mongo.demo_runtime one_part (S (length demo_up))
    (mkH demo_up demo_down 0 0 [] []) ≠ HSpin.
Proof.
  apply (connections_end (H := demo_env) (Htab := no_tables) (Hjson := Mongo.demo_runtime) (Hjava := JavaRead.some_runtime) (Hmap := list_order)
    (Hfloat := demo_floats) (Hnum := demo_numbers)); [cbn [h_up]; lia|]. right. right.
  apply no_reference_bytes; intros (b & Hb & Hr); vm_compute in Hb; repeat (apply elem_of_cons in Hb as [->|Hb]; [vm_compute in Hr; discriminate Hr|]);
    by apply elem_of_nil in Hb.
Defined.

Lemma captures_have_handlers_witness : ∃ g p h,
  main (map gs ["-i=eth0"; "--port=6379"; "rocketmq"]%string) = Ret (Capture g p) ∧ Cli.Port g = 6379 ∧
  @makeHandler demo_env no_tables g p demo_endpoints.1 demo_endpoints.2 JavaRead.some_runtime list_order demo_floats demo_numbers
    Mongo.demo_runtime one_part 5 = Some h.
Proof.
  destruct (captures_have_handlers (H := demo_env) (Htab := no_tables) (Hjson := Mongo.demo_runtime) (Hjava := JavaRead.some_runtime)
    (Hmap := list_order) (Hfloat := demo_floats) (Hnum := demo_numbers) (Harr := one_part) demo_endpoints.1 demo_endpoints.2
    (map gs ["-i=eth0"; "--port=6379"; "rocketmq"]%string) 5) as (o & Ho & Hc).
  vm_compute in Ho. injection Ho as <-. destruct (Hc _ _ eq_refl) as (_ & _ & h & Hh & _).
  eexists _, _, h. split; [vm_compute; reflexivity|]. split; [vm_compute; reflexivity|exact Hh].
Defined.
