(* ===== verification/Detect.v ===== *)
(** * What the automatic detection takes a connection for (src/main.go)

    The first bytes of a client, at most 24, and the handler that the
    detectors choose for them. *)

From S2P Require Import Prelude GoBytes GoStrings Unicode Window Reader Assembler Text Cli Handlers Dispatch.
From S2P Require Bson Redis MySQL ZooKeeper WebSocket Mongo Http Java JavaRead Json Triple Nacos RocketMQ Dubbo.

Lemma detect_hit name fn make l data : 0 < len data → fn data = Ret true → detect ((name, fn, make) :: l) data = Ret (Some (name, make)).
Proof. intros Hl Hf. cbn [detect]. rewrite (proj2 (Z.ltb_lt _ _) Hl), Hf. done. Qed.
Lemma detect_miss name fn make l data : fn data = Ret false → detect ((name, fn, make) :: l) data = detect l data.
Proof. intros Hf. cbn [detect]. destruct (_ <? _); [by rewrite Hf|done]. Qed.

(** ** The detectors on the first bytes *)

Section bytes.
Context (b0 b1 b2 b3 : byte) (tl : list byte).
Let data := b0 :: b1 :: b2 :: b3 :: tl.

Lemma len_data : len data = 4 + len tl.
Proof. unfold data. rewrite !len_cons. lia. Qed.
Lemma sub4 : sub data 0 4 = Ret [b0; b1; b2; b3].
Proof. rewrite sub_Ret by (rewrite ?len_data; pose proof (len_nonneg tl); lia). reflexivity. Qed.
Lemma be4 : be_val [b0; b1; b2; b3] = bz b0 * 2 ^ 24 + bz b1 * 2 ^ 16 + bz b2 * 2 ^ 8 + bz b3.
Proof. unfold be_val. cbn [rev app le_val]. lia. Qed.
Lemma le4 : le_val [b0; b1; b2; b3] = bz b0 + bz b1 * 2 ^ 8 + bz b2 * 2 ^ 16 + bz b3 * 2 ^ 24.
Proof. cbn [le_val]. lia. Qed.

Lemma not_dubbo : bz b0 ≠ 218 → Dubbo.DetectDubbo data = Ret false.
Proof.
  intros H0. unfold Dubbo.DetectDubbo. rewrite len_data. pose proof (len_nonneg tl).
  destruct (Z.ltb_spec (4 + len tl) 2); [done|]. rewrite be_at_Ret by (rewrite ?len_data; lia).
  change (be_val (ztake 2 (zdrop 0 data))) with (be_val [b0; b1]). cbn [mbind go_bind].
  unfold be_val. cbn [rev app le_val]. unfold Dubbo.DubboMagicNumber. pose proof (bz_range b1).
  destruct (Z.eqb_spec (bz b1 + 256 * (bz b0 + 256 * 0)) 55995); [lia|done].
Qed.
Lemma not_triple : b0 ≠ Byte.x50 ∨ b1 ≠ Byte.x52 → Triple.DetectTriple data = Ret false.
Proof.
  intros Hp. unfold Triple.DetectTriple, Triple.IsTriplePreface. destruct (_ <? _); [done|].
  destruct (Z.leb_spec (len Triple.HTTP2Preface) (len data)); [|done].
  rewrite sub_Ret by done. cbn [mbind go_bind].
  rewrite (str_eqb_neq _ Triple.HTTP2Preface); [done|]. change (ztake (len Triple.HTTP2Preface - 0) (zdrop 0 data)) with (b0 :: b1 :: ztake 22 (b2 :: b3 :: tl)).
  change Triple.HTTP2Preface with (Byte.x50 :: Byte.x52 :: zdrop 2 Triple.HTTP2Preface). intros [= ? ?]. naive_solver.
Qed.
Lemma not_rocketmq : 7 ≤ bz b0 → RocketMQ.DetectRocketMQ data = Ret false.
Proof.
  intros H0. unfold RocketMQ.DetectRocketMQ. rewrite len_data. pose proof (len_nonneg tl).
  destruct (Z.ltb_spec (4 + len tl) 4); [done|]. rewrite sub4. cbn [mbind go_bind]. cbv zeta. rewrite be4.
  pose proof (bz_range b1). pose proof (bz_range b2). pose proof (bz_range b3). unfold RocketMQ.RocketMQMaxFrameSize.
  destruct (Z.ltb_spec (100 * 1024 * 1024) (bz b0 * 2 ^ 24 + bz b1 * 2 ^ 16 + bz b2 * 2 ^ 8 + bz b3)); [|lia]. by rewrite orb_true_r.
Qed.
Lemma not_mongo : 4 ≤ bz b3 < 128 → Mongo.DetectMongo data = Ret false.
Proof.
  intros H3. unfold Mongo.DetectMongo. destruct (Z.ltb_spec (len data) Mongo.MsgHeaderSize); [done|].
  rewrite (le_at_Ret 4 data 0) by (rewrite ?len_data; pose proof (len_nonneg tl); lia).
  change (le_val (ztake 4 (zdrop 0 data))) with (le_val [b0; b1; b2; b3]). cbn [mbind go_bind]. cbv zeta.
  pose proof (bz_range b0). pose proof (bz_range b1). pose proof (bz_range b2).
  rewrite (sint_small 32) by (rewrite ?le4; lia). rewrite le4. unfold Mongo.MaxMsgSize.
  destruct (Z.ltb_spec (48 * 1024 * 1024) (bz b0 + bz b1 * 2 ^ 8 + bz b2 * 2 ^ 16 + bz b3 * 2 ^ 24)); [|lia]. by rewrite orb_true_r.
Qed.
(** A packet that is longer than the bytes at hand is judged by its fifth byte. *)
Lemma long_mysql b4 tl' : tl = b4 :: tl' → len data ≤ 24 → 20 < bz b0 + bz b1 * 2 ^ 8 + bz b2 * 2 ^ 16 →
  MySQL.DetectMySQL data = Ret (MySQL.mysql_marker b4).
Proof.
  intros Htl Hlen Hlong. unfold MySQL.DetectMySQL. pose proof len_data as Hl. pose proof (len_nonneg tl') as Hn. rewrite Htl, len_cons in Hl.
  destruct (Z.ltb_spec (len data) 4); [lia|]. change (index data 0) with (Ret b0). change (index data 1) with (Ret b1).
  change (index data 2) with (Ret b2). cbn [mbind go_bind]. cbv zeta. rewrite le24_val.
  assert (le_val [b0; b1; b2] = bz b0 + bz b1 * 2 ^ 8 + bz b2 * 2 ^ 16) as -> by (cbn [le_val]; lia).
  pose proof (bz_range b0). pose proof (bz_range b1). pose proof (bz_range b2). set (n := bz b0 + _ + _) in *.
  destruct (Z.eqb_spec n 0); [lia|]. unfold MySQL.MaxPayloadLen. destruct (Z.ltb_spec (2 ^ 24 - 1) n); [lia|]. cbn [orb].
  rewrite (uint_small 32) by lia. destruct (Z.leb_spec (4 + n) (len data)); [lia|]. destruct (Z.ltb_spec 4 (len data)); [|lia].
  unfold data. rewrite Htl. change (index (b0 :: b1 :: b2 :: b3 :: b4 :: tl') 4) with (Ret b4). done.
Qed.
Lemma not_zookeeper : 1 ≤ bz b0 < 128 → ZooKeeper.DetectZK data = Ret false.
Proof.
  intros H0. unfold ZooKeeper.DetectZK. destruct (Z.ltb_spec (len data) 4); [done|].
  rewrite (be_at_Ret 4 data 0) by (rewrite ?len_data; pose proof (len_nonneg tl); lia).
  change (be_val (ztake 4 (zdrop 0 data))) with (be_val [b0; b1; b2; b3]). cbn [mbind go_bind]. cbv zeta.
  pose proof (bz_range b1). pose proof (bz_range b2). pose proof (bz_range b3).
  rewrite (sint_small 32) by (rewrite ?be4; lia). rewrite be4. change ZooKeeper.MaxZKMessageSize with (2 ^ 20).
  destruct (Z.ltb_spec (2 ^ 20) (bz b0 * 2 ^ 24 + bz b1 * 2 ^ 16 + bz b2 * 2 ^ 8 + bz b3)); [|lia]. by rewrite orb_true_r.
Qed.
Lemma zero_mysql : bz b0 = 0 → bz b1 = 0 → bz b2 = 0 → MySQL.DetectMySQL data = Ret false.
Proof.
  intros H0 H1 H2. unfold MySQL.DetectMySQL. destruct (Z.ltb_spec (len data) 4); [done|].
  change (index data 0) with (Ret b0). change (index data 1) with (Ret b1). change (index data 2) with (Ret b2).
  cbn [mbind go_bind]. cbv zeta. rewrite le24_val. cbn [le_val]. by rewrite H0, H1, H2.
Qed.
End bytes.

(** ** Redis *)


Lemma ztake5 {A} k (a b c d e : A) l : 5 ≤ k → ztake k (a :: b :: c :: d :: e :: l) = a :: b :: c :: d :: e :: ztake (k - 5) l.
Proof.
  intros Hk. unfold ztake. replace (Z.to_nat k) with (5 + Z.to_nat (k - 5))%nat by lia. reflexivity.
Qed.
Lemma digit_bounds b : is_digit b = true → 48 ≤ bz b ≤ 57.
Proof. unfold is_digit. intros. zbool. lia. Qed.

Lemma Itoa_len_cases n : 0 ≤ n → (n < 10 ∧ len (Itoa n) = 1) ∨ (10 ≤ n < 100 ∧ len (Itoa n) = 2) ∨
  (100 ≤ n < 1000 ∧ len (Itoa n) = 3) ∨ (1000 ≤ n ∧ 4 ≤ len (Itoa n)).
Proof.
  intros Hn. pose proof (Z.div_pos n 10 Hn ltac:(lia)) as H1. pose proof (Z.div_pos (n / 10) 10 H1 ltac:(lia)) as H2.
  pose proof (Z.div_pos (n / 10 / 10) 10 H2 ltac:(lia)) as H3.
  pose proof (Itoa_len n Hn). pose proof (Itoa_len _ H1). pose proof (Itoa_len _ H2). pose proof (Itoa_len _ H3).
  pose proof (len_nonneg (Itoa (n / 10 / 10 / 10 / 10))).
  pose proof (Z.div_mod n 10). pose proof (Z.mod_pos_bound n 10). pose proof (Z.div_mod (n / 10) 10).
  pose proof (Z.mod_pos_bound (n / 10) 10). pose proof (Z.div_mod (n / 10 / 10) 10). pose proof (Z.mod_pos_bound (n / 10 / 10) 10). lia.
Qed.

Lemma not_marker b : 32 ≤ bz b < 128 → MySQL.mysql_marker b = false.
Proof.
  intros Hb. assert (∀ t, bz t < 32 ∨ 128 ≤ bz t → Byte.eqb b t = false) as Hne by (intros t Ht; apply byte_eqb_neq; intros ->; lia).
  unfold MySQL.mysql_marker, beq. rewrite !Hne by (vm_compute; intuition congruence). rewrite (proj2 (Z.eqb_neq _ _)), (proj2 (Z.leb_gt _ 31)) by lia.
  by rewrite andb_false_r.
Qed.

(** A header that starts like the type of a ZooKeeper request is no JSON. *)
Lemma not_json b s : bz b = 0 ∨ bz b = 255 → Json.Valid (b :: s) = false.
Proof.
  assert (∀ b', bz b = bz b' → b = b') as Hinj by (intros b'; apply bz_inj).
  intros [H|H]; [rewrite (Hinj Byte.x00) by done|rewrite (Hinj Byte.xff) by done]; reflexivity.
Qed.
Lemma zk_type_byte b8 b9 b10 b11 : ZooKeeper.IsValidType (int32 (be_val [b8; b9; b10; b11])) = true → bz b8 = 0 ∨ bz b8 = 255.
Proof.
  intros Ht. assert (-100 ≤ int32 (be_val [b8; b9; b10; b11]) ≤ 200) as Hr.
  { revert Ht. generalize (int32 (be_val [b8; b9; b10; b11])) as v. intros v. unfold ZooKeeper.IsValidType, ZooKeeper.opcodeNames. cbn [assoc].
    repeat match goal with |- context [Z.eqb v ?n] => destruct (Z.eqb_spec v n) as [->|]; [intros _; by vm_compute|] end. done. }
  revert Hr. rewrite be4. pose proof (bz_range b8). pose proof (bz_range b9). pose proof (bz_range b10). pose proof (bz_range b11).
  unfold int32, sint. change (2 ^ (32 - 1)) with 2147483648. change (2 ^ 32) with 4294967296.
  set (v := _ + bz b11). destruct (Z.ltb_spec v 2147483648).
  - rewrite Z.mod_small by lia. lia.
  - replace (v + 2147483648) with (v - 2147483648 + 1 * 4294967296) by lia. rewrite Z.mod_add, Z.mod_small by lia. lia.
Qed.

Lemma int32_pos x : 0 ≤ x < 2 ^ 32 → 0 ≤ int32 x → int32 x = x.
Proof.
  intros Hx. unfold int32, sint. change (2 ^ (32 - 1)) with 2147483648. change (2 ^ 32) with 4294967296 in *.
  destruct (Z.ltb_spec x 2147483648); [rewrite Z.mod_small by lia; lia|].
  replace (x + 2147483648) with (x - 2147483648 + 1 * 4294967296) by lia. rewrite Z.mod_add, Z.mod_small by lia. lia.
Qed.
(** What the detector of ZooKeeper has seen. *)
Lemma zk_bytes data : ZooKeeper.DetectZK data = Ret true → len data ≤ 24 → ∃ b0 b1 b2 b3 b4 b5 b6 b7 b8 tl,
  data = b0 :: b1 :: b2 :: b3 :: b4 :: b5 :: b6 :: b7 :: b8 :: tl ∧ bz b0 = 0 ∧ bz b1 = 0 ∧ bz b2 = 0
  ∧ 12 ≤ bz b3 ≤ len data ∧ (bz b8 = 0 ∨ bz b8 = 255).
Proof.
  intros Hzk Hl. unfold ZooKeeper.DetectZK in Hzk.
  destruct (Z.ltb_spec (len data) 4); [done|]. rewrite (be_at_Ret 4 data 0) in Hzk by lia. change (zdrop 0 data) with data in Hzk.
  cbn [mbind go_bind] in Hzk. cbv zeta in Hzk. set (v := int32 _) in Hzk. destruct (_ || _) eqn:E1; [done|].
  destruct ((v <? 4) || _) eqn:E2; [done|]. destruct (Z.ltb_spec (len data) 12); [done|]. rewrite (be_at_Ret 4 data 8) in Hzk by lia. zbool.
  unfold ZooKeeper.zkHeaderSize in *.
  do 12 (destruct data as [|? data]; [vm_compute in H0; by destruct H0|]).
  lazymatch goal with |- context [?a0 :: ?a1 :: ?a2 :: ?a3 :: ?a4 :: ?a5 :: ?a6 :: ?a7 :: ?a8 :: ?a9 :: ?a10 :: ?a11 :: _] =>
    change (be_val (ztake 4 (zdrop 8 _))) with (be_val [a8; a9; a10; a11]) in Hzk;
    change (be_val (ztake 4 _)) with (be_val [a0; a1; a2; a3]) in v;
    exists a0, a1, a2, a3, a4, a5, a6, a7, a8, (a9 :: a10 :: a11 :: data);
    pose proof (bz_range a0); pose proof (bz_range a1); pose proof (bz_range a2); pose proof (bz_range a3);
    assert (v = be_val [a0; a1; a2; a3]) as Hv by (apply int32_pos; [apply (be_val_range [a0; a1; a2; a3])|lia]);
    rewrite be4 in Hv; rewrite Hv in *; pose proof (zk_type_byte a8 a9 a10 a11) as Ht
  end.
  split_and!; [done|lia..|]. injection Hzk as Hzk. by apply Ht.
Qed.

Section detection.
Context `{Environment} `{Htab : UnicodeTables} `{Hjson : Bson.JsonRuntime} `{Hjava : Java.JavaRuntime} `{Hmap : MapOrder}.
Context `{Hfloat : Dubbo.JsonFloats} `{Hnum : Nacos.JsonNumbers} `{Harr : Arrival}.
Context (global : GlobalConfig) (proto : ProtoConfig) (src dst : Endpoint) (fuel : nat).

(** What [autoHandler.run] makes of the first bytes. *)
Definition detected (data : list byte) : go (option (list byte * handler unit)) := detect (detectors global proto src dst fuel) data.

Lemma after_binary b0 b1 b2 b3 tl : 7 ≤ bz b0 → bz b0 ≠ 218 → b0 ≠ Byte.x50 ∨ b1 ≠ Byte.x52 → 4 ≤ bz b3 < 128 →
  let data := b0 :: b1 :: b2 :: b3 :: tl in detected data = detect (drop 4 (detectors global proto src dst fuel)) data.
Proof.
  intros H0 H1 H2 H3 data. unfold detected, detectors.
  rewrite !detect_miss by (by apply not_dubbo || by apply not_triple || by apply not_rocketmq || by apply not_mongo). reflexivity.
Qed.

Lemma star_detected b1 b2 b3 b4 tl : 4 ≤ bz b3 < 128 → let data := Redis.TypeArray :: b1 :: b2 :: b3 :: b4 :: tl in len data ≤ 24 →
  detected data = Ret (Some (if MySQL.mysql_marker b4 then (mysql, mysql_Handle global proto src dst fuel)
                             else (redis, redis_Handle global proto src dst fuel))).
Proof.
  intros H3 data Hl. unfold data. rewrite after_binary by (done || by left). cbn [drop detectors]. fold data.
  assert (0 < len data) by (unfold data; rewrite len_cons; pose proof (len_nonneg (b1 :: b2 :: b3 :: b4 :: tl)); lia).
  assert (MySQL.DetectMySQL data = Ret (MySQL.mysql_marker b4)) as Hm.
  { apply long_mysql with (tl' := tl); [done|done|]. pose proof (bz_range b1). pose proof (bz_range b2). change (bz Redis.TypeArray) with 42. lia. }
  destruct (MySQL.mysql_marker b4); [by apply detect_hit|]. rewrite detect_miss by done. by apply detect_hit.
Qed.

Lemma redis_detected args more k : args ≠ [] → 5 ≤ k ≤ 24 →
  detected (ztake k (Redis.enc_command args ++ more)) = Ret (Some
    (if (10 <=? len args) && (len args <? 1000) then (mysql, mysql_Handle global proto src dst fuel)
     else (redis, redis_Handle global proto src dst fuel))).
Proof.
  intros Hargs Hk.
  assert (∃ x, Redis.enc_command args ++ more = Redis.TypeArray :: Itoa (len args) ++ [Byte.x0d; Byte.x0a; Byte.x24] ++ x) as [x ->].
  { destruct args as [|a args]; [done|]. unfold Redis.enc_command, Redis.enc_line. cbn [map concat]. unfold Redis.enc_bulk at 1, Redis.enc_line.
    eexists. rewrite <-!app_comm_cons, <-!app_assoc. reflexivity. }
  pose proof (len_nonneg args) as Hn. destruct (Itoa_digits (len args) Hn) as [Hd Hne].
  assert (∀ b1 b2 b3 b4 tl, 4 ≤ bz b3 < 128 →
    detected (ztake k (Redis.TypeArray :: b1 :: b2 :: b3 :: b4 :: tl)) = Ret (Some (if MySQL.mysql_marker b4
      then (mysql, mysql_Handle global proto src dst fuel) else (redis, redis_Handle global proto src dst fuel)))) as Hstar.
  { intros b1 b2 b3 b4 tl H3. rewrite ztake5 by lia. apply star_detected; [done|]. rewrite !len_cons, len_ztake.
    pose proof (len_nonneg tl). lia. }
  pose proof (Itoa_len_cases _ Hn) as Hlen. revert Hd Hne Hlen. generalize (Itoa (len args)) as ds. intros ds Hd _ Hlen.
  destruct ds as [|d1 [|d2 [|d3 ds]]]; rewrite ?Forall_cons in Hd.
  - rewrite len_nil in Hlen. lia.
  - change (len [d1]) with 1 in Hlen. assert (len args < 10) by lia. destruct (Z.leb_spec 10 (len args)); [lia|]. by apply Hstar.
  - change (len [d1; d2]) with 2 in Hlen. assert (10 ≤ len args < 100) by lia.
    destruct (Z.leb_spec 10 (len args)), (Z.ltb_spec (len args) 1000); try lia. by apply Hstar.
  - destruct Hd as (_ & _ & H3 & Hd). apply digit_bounds in H3. rewrite !len_cons in Hlen.
    destruct ds as [|d4 ds].
    + change (len []) with 0 in Hlen. assert (100 ≤ len args < 1000) by lia.
      destruct (Z.leb_spec 10 (len args)), (Z.ltb_spec (len args) 1000); try lia. apply Hstar. lia.
    + rewrite len_cons in Hlen. pose proof (len_nonneg ds). assert (1000 ≤ len args) by lia.
      destruct (Z.ltb_spec (len args) 1000); [lia|]. rewrite andb_false_r. apply Forall_cons in Hd as [H4 _]. apply digit_bounds in H4.
      cbn [app]. rewrite Hstar by lia. by rewrite not_marker by lia.
Qed.

(** C29. A connection that begins with a Redis command is handled as one of
    Redis when the command has less than ten parts, or a thousand and more.
    From ten to 999 the line end behind the count stands where the detector of
    MySQL looks for the kind of a packet, and the connection is handled as one
    of MySQL. *)
Theorem redis_commands_detected args more k (Hargs : args ≠ []) (Hk : 5 ≤ k ≤ 24) :
  detected (ztake k (Redis.enc_command args ++ more)) = Ret (Some
    (if (10 <=? len args) && (len args <? 1000) then (mysql, mysql_Handle global proto src dst fuel)
     else (redis, redis_Handle global proto src dst fuel))).
Proof. by apply redis_detected. Qed.

(** ** HTTP *)

Lemma text_detected b0 b1 b2 b3 b4 tl : 65 ≤ bz b0 < 128 → b0 ≠ Byte.x50 ∨ b1 ≠ Byte.x52 → 4 ≤ bz b3 < 128 → 32 ≤ bz b4 < 128 →
  let data := b0 :: b1 :: b2 :: b3 :: b4 :: tl in len data ≤ 24 → detected data = detect (drop 7 (detectors global proto src dst fuel)) data.
Proof.
  intros H0 Hp H3 H4 data Hl. unfold data. rewrite after_binary by (done || lia). fold data. cbn [drop detectors].
  rewrite detect_miss.
  2: { unfold data. rewrite (long_mysql b0 b1 b2 b3 (b4 :: tl) b4 tl) by (done || (pose proof (bz_range b1); pose proof (bz_range b2); lia)).
       by rewrite not_marker. }
  rewrite detect_miss.
  2: { assert (∀ t, bz t < 65 → Byte.eqb b0 t = false) as Hne by (intros t Ht; apply byte_eqb_neq; intros E; subst t; lia).
       unfold data, Redis.DetectRESP. by rewrite !Hne by done. }
  by rewrite detect_miss by (by apply not_zookeeper; lia).
Qed.

Definition ws_methods : list (list byte) := map gs ["POST"; "PUT"; "PATCH"; "HEAD"]%string.
(** The first five bytes of a request, and what the first makes of it. *)
Lemma method_bytes method c rest : method ∈ Http.httpMethods → 32 ≤ bz c < 128 → ∃ b0 b1 b2 b3 b4 tl,
  method ++ gs " " ++ c :: rest = b0 :: b1 :: b2 :: b3 :: b4 :: tl ∧ 65 ≤ bz b0 < 128 ∧ (b0 ≠ Byte.x50 ∨ b1 ≠ Byte.x52) ∧ 4 ≤ bz b3 < 128
  ∧ 32 ≤ bz b4 < 128 ∧ WebSocket.isValidWebSocketFrameStart b0 b1 = bool_decide (method ∈ ws_methods).
Proof.
  intros Hm Hc. unfold Http.httpMethods in Hm. cbn [map] in Hm.
  repeat (apply elem_of_cons in Hm as [->|Hm]; [do 6 eexists; split_and!; [reflexivity|..];
    first [lia|by vm_compute|by left|by right]|]). by apply elem_of_nil in Hm.
Qed.

(** Do the first bytes have a line end, and the words of an upgrade to
    WebSocket or of the answer to one? *)
Definition upgrade_words (data : list byte) : bool :=
  let lower := ToLower data in
  Contains data crlf && ((Contains lower (gs "upgrade:") && Contains lower (gs "websocket"))
                         || (Contains lower (gs "101") && Contains lower (gs "switching"))).

(** C30. A connection that begins with an HTTP request, whatever its target
    and what follows, and of which at least eight bytes arrive at once, is
    handled as one of WebSocket when the method is POST, PUT, PATCH or HEAD,
    because the lower half of the first letter is an opcode, or when the bytes
    that are looked at have a line end and the words of an upgrade. Every other
    is handled as one of Nacos or HTTP. *)
Theorem http_requests_detected method c rest k (Hm : method ∈ Http.httpMethods) (Hc : 32 ≤ bz c < 128)
  (Hrest : 8 ≤ len (method ++ gs " " ++ c :: rest)) (Hk : 8 ≤ k ≤ 24) :
  let data := ztake k (method ++ gs " " ++ c :: rest) in
  detected data = Ret (Some
    (if bool_decide (method ∈ ws_methods) || upgrade_words data then (websocket, websocket_Handle global src dst fuel)
     else if Nacos.DetectNacos data then (nacos, nacos_Handle global proto src dst fuel)
     else (http, http_Handle global proto src dst fuel))).
Proof.
  intros data.
  assert (8 ≤ len data ≤ 24) as Hl by (unfold data; rewrite len_ztake; lia).
  assert (Http.DetectHTTP data = true) as Hhttp.
  { unfold Http.DetectHTTP. destruct (Z.ltb_spec (len data) 8); [lia|]. apply orb_true_iff. left. apply existsb_exists.
    exists method. split; [by apply list_elem_of_In|]. apply HasPrefix_spec. unfold data.
    rewrite app_assoc.
    assert (len (method ++ gs " ") ≤ 8) as Hle by (clear -Hm; revert method Hm; apply Forall_forall; repeat constructor; discriminate).
    eexists. rewrite ztake_app_ge by lia. reflexivity. }
  assert (0 < len data) as Hpos by lia.
  assert (detect (drop 8 (detectors global proto src dst fuel)) data = Ret (Some (if Nacos.DetectNacos data
    then (nacos, nacos_Handle global proto src dst fuel) else (http, http_Handle global proto src dst fuel)))) as Htail.
  { cbn [drop detectors]. destruct (Nacos.DetectNacos data) eqn:En; [apply detect_hit; [done|by rewrite En]|].
    rewrite detect_miss by (by rewrite En). apply detect_hit; [done|by rewrite Hhttp]. }
  destruct (method_bytes method c rest Hm Hc) as (b0 & b1 & b2 & b3 & b4 & tl & Hb & H0 & Hp & H3 & H4 & Hws).
  assert (data = b0 :: b1 :: b2 :: b3 :: b4 :: ztake (k - 5) tl) as Hd by (unfold data; rewrite Hb; apply ztake5; lia).
  assert (WebSocket.DetectWebSocket data = bool_decide (method ∈ ws_methods) || upgrade_words data) as Hw.
  { rewrite <-Hws. unfold WebSocket.DetectWebSocket, upgrade_words. rewrite Hd. cbv zeta.
    rewrite (orb_comm (WebSocket.isValidWebSocketFrameStart _ _)). by destruct (Contains _ crlf && _). }
  rewrite Hd, text_detected by (done || (rewrite <-Hd; lia)). rewrite <-Hd. cbn [drop detectors] in *.
  destruct (bool_decide _ || _); [apply detect_hit; [done|by rewrite Hw]|]. rewrite detect_miss by (by rewrite Hw). exact Htail.
Qed.

(** ** ZooKeeper *)

(** Of the messages that the detector of ZooKeeper accepts, which all fit
    into the bytes that are looked at, those with a transaction number from 4
    to 16 that is no larger than what is there are handled as ZooKeeper. All
    others are handled as RocketMQ, whose detector comes first and takes any
    plausible length of a frame. *)
Theorem zookeeper_messages_detected data (Hzk : ZooKeeper.DetectZK data = Ret true) (Hl : len data ≤ 24) :
  let total := be_val (ztake 4 data) in let xid := be_val (ztake 4 (zdrop 4 data)) in
  detected data = Ret (Some
    (if (4 <=? xid) && (xid <=? total) && (xid <=? len data - 8) then (zookeeper, zookeeper_Handle global proto src dst fuel)
     else (rocketmq, rocketmq_Handle global proto src dst fuel))).
Proof.
  intros total xid. destruct (zk_bytes data Hzk Hl) as (b0 & b1 & b2 & b3 & b4 & b5 & b6 & b7 & b8 & tl & Hd & H0 & H1 & H2 & H3 & H8).
  assert (total = bz b3) as Htot by (unfold total; rewrite Hd; change (ztake 4 (b0 :: b1 :: b2 :: b3 :: ?l)) with [b0; b1; b2; b3]; rewrite be4; lia).
  assert (0 ≤ xid) as Hxid by apply be_val_range.
  set (ok := (4 <=? xid) && (xid <=? total) && (xid <=? len data - 8)).
  assert (RocketMQ.DetectRocketMQ data = Ret (negb ok)) as Hr.
  { unfold RocketMQ.DetectRocketMQ. destruct (Z.ltb_spec (len data) 4); [lia|]. rewrite !sub_Ret by lia. cbn [mbind go_bind]. cbv zeta.
    change (ztake (4 - 0) (zdrop 0 data)) with (ztake 4 data). change (ztake (8 - 4) (zdrop 4 data)) with (ztake 4 (zdrop 4 data)).
    fold total xid. pose proof (bz_range b3). unfold RocketMQ.RocketMQMinFrameSize, RocketMQ.RocketMQMaxFrameSize.
    destruct (Z.ltb_spec total 10), (Z.ltb_spec (100 * 1024 * 1024) total), (Z.leb_spec 10 total), (Z.leb_spec total (100 * 1024 * 1024)),
      (Z.leb_spec 8 (len data)); try lia. cbn [orb andb]. fold ok. destruct ok eqn:Eok; [|done]. unfold ok in Eok. zbool.
    destruct (Z.leb_spec (8 + xid - 4) (len data)); [|lia]. cbn [andb]. rewrite sub_Ret by lia. cbn [mbind go_bind negb]. f_equal.
    replace (8 + xid - 4 - 8) with (xid - 4) by lia. rewrite Hd. change (zdrop 8 (b0 :: b1 :: b2 :: b3 :: b4 :: b5 :: b6 :: b7 :: ?l)) with l.
    destruct (Z.eqb_spec xid 4) as [->|]; [done|]. unfold ztake. replace (Z.to_nat (xid - 4)) with (S (Z.to_nat (xid - 5))) by lia. by apply not_json. }
  unfold detected, detectors. rewrite !detect_miss by (rewrite Hd; by (apply not_dubbo; lia) || by (apply not_triple; left; intros ->)).
  destruct ok; [|apply detect_hit; [lia|by rewrite Hr]]. rewrite detect_miss by done.
  rewrite detect_miss by (rewrite Hd; apply not_mongo; lia).
  rewrite detect_miss by (rewrite Hd; by apply zero_mysql).
  rewrite detect_miss.
  2: { rewrite Hd. unfold Redis.DetectRESP. assert (b0 = Byte.x00) as -> by (by apply bz_inj). done. }
  by apply detect_hit; [lia|].
Qed.
End detection.

(** ** The properties at work *)

Definition demo_detected (data : list byte) : go (option (list byte)) :=
  match @detected demo_env no_tables Mongo.demo_runtime JavaRead.some_runtime list_order demo_floats demo_numbers one_part
          new_GlobalConfig new_ProtoConfig demo_endpoints.1 demo_endpoints.2 0 data with
  | Ret r => Ret (option_map fst r)
  | Panic => Panic
  end.
(** [MSET] of five keys. *)
Definition mset : list (list byte) := map gs ["MSET"; "a"; "1"; "b"; "2"; "c"; "3"; "d"; "4"; "e"; "5"]%string.

Lemma redis_commands_detected_witness :
  demo_detected (ztake 24 (Redis.enc_command (map gs ["GET"; "user:1"]%string) ++ [])) = Ret (Some redis)
  ∧ demo_detected (ztake 24 (Redis.enc_command mset ++ [])) = Ret (Some mysql).
Proof. split; unfold demo_detected; by rewrite redis_commands_detected. Defined.

Lemma http_requests_detected_witness :
  demo_detected (ztake 24 (gs "GET" ++ gs " " ++ [Byte.x2f] ++ gs " HTTP/1.1" ++ crlf ++ gs "Host: a" ++ crlf)) = Ret (Some http)
  ∧ demo_detected (ztake 24 (gs "OPTIONS" ++ gs " " ++ [Byte.x2a] ++ gs " HTTP/1.1" ++ crlf)) = Ret (Some http)
  ∧ demo_detected (ztake 24 (gs "POST" ++ gs " " ++ [Byte.x2f] ++ gs "nacos/v1/ns/instance")) = Ret (Some websocket).
Proof.
  split_and!; unfold demo_detected; cbn [app]; rewrite http_requests_detected; try (vm_compute; reflexivity); try (vm_compute; intuition congruence).
  - by apply list_elem_of_here.
  - by apply (bool_decide_unpack _).
  - by apply list_elem_of_further, list_elem_of_here.
Defined.

(** A [ping] with the transaction number [xid]. *)
Definition zk_ping (xid : Z) : list byte := be_bytes 4 12 ++ be_bytes 4 xid ++ be_bytes 4 11.
Lemma zookeeper_messages_detected_witness :
  demo_detected (zk_ping (2 ^ 32 - 2)) = Ret (Some rocketmq) ∧ demo_detected (zk_ping 4) = Ret (Some zookeeper).
Proof. split; unfold demo_detected; rewrite zookeeper_messages_detected; try (vm_compute; reflexivity); by vm_compute. Defined.

(** A short command of MySQL is a frame of RocketMQ. *)
Example mysql_ping : demo_detected [Byte.x01; Byte.x00; Byte.x00; Byte.x00; Byte.x0e] = Ret (Some rocketmq).
Proof. vm_compute. reflexivity. Qed.
