(* ===== verification/Capture.v ===== *)
(** * The capture loop of [main] (src/main.go)

    Where the packets come from, and the loop that hands them to the
    assembler, with the ticks that flush old connections and the shutdown. *)

From S2P Require Import Prelude GoBytes GoStrings Window WindowRing WindowRun Reader Stream Assembler AssemblerInv Cli.
From S2P Require Printers.

(** ** Sources of packets *)

(** What a call of [pcap.OpenLive] comes to. *)
Inductive opened := Opened | OpenError | OpenPanics.

(** The capture library and the operating system. *)
Class Pcap := {
  GOOS : list byte;
  OpenOffline : list byte → bool;
  FindAllDevs : option (list (list byte));
  OpenLive : list byte → opened;
  SetBPFFilter : list byte → list byte → bool }.

(** A channel of packets: of a file, or of a device with the filter that was
    set, if any. *)
Inductive source :=
| FileSource (file : list byte)
| DeviceSource (device : list byte) (bpf : option (list byte)).

Section open.
Context `{Pcap}.

Definition bpf_filter (ip : list byte) (port : Z) : list byte :=
  let bpf := gs "tcp" in
  let bpf := if negb (port =? 0) then bpf ++ gs " and port " ++ Itoa port else bpf in
  if negb (str_eqb ip []) then bpf ++ gs " and host " ++ ip else bpf.

(** A panic is recovered, and the result is then the nil channel. *)
Definition openDevice (device ip : list byte) (port : Z) : option source :=
  match OpenLive device with
  | Opened =>
      let bpf := bpf_filter ip port in
      Some (DeviceSource device (if SetBPFFilter device bpf then Some bpf else None))
  | OpenError | OpenPanics => None
  end.

(** The sources whose packets [main] reads; [mergeChannels] makes one channel
    of several, and one that never delivers anything of none. *)
Definition openPackets (global : GlobalConfig) : option (list source) :=
  if negb (str_eqb (PcapFile global) []) then
    if OpenOffline (PcapFile global) then Some [FileSource (PcapFile global)] else None
  else if str_eqb (Interface global) (gs "any") && negb (str_eqb GOOS (gs "linux")) then
    match FindAllDevs with
    | None => None
    | Some interfaces => Some (omap (λ name, openDevice name (IP global) (Port global)) interfaces)
    end
  else option_map (λ s, [s]) (openDevice (Interface global) (IP global) (Port global)).
End open.

(** ** Packets *)

(** The transport layer of a packet, and the packet: [None] for a layer that
    is nil; the addresses are those of [NetworkLayer().NetworkFlow()]. *)
Inductive layer := TCPLayer (tcp : TCP) | OtherLayer.
Record Packet := mkPacket {
  NetworkLayer : option (list byte * list byte); TransportLayer : option layer; Timestamp : Z }.

Definition take_packet (a : TCPAssembler) (pkt : Packet) : sched TCPAssembler :=
  match NetworkLayer pkt, TransportLayer pkt with
  | Some (src, dst), Some (TCPLayer tcp) => Assemble a src dst tcp (Timestamp pkt)
  | _, _ => Done a
  end.

(** What a handler does with a stream of its connection. *)
Inductive action := AReads (n : Z) | APrepends (data : list byte) | ACloses.
Definition stream_act (act : action) (s : netStream) : sched netStream :=
  match act with
  | AReads n => '(_, _, s) ← stream_Read s n; Done s
  | APrepends data => Done (Prepend s data)
  | ACloses => Done (stream_Close s)
  end.
(** There is no handler of a connection that does not exist. *)
Definition handler_acts (a : TCPAssembler) (id : nat) (sd : side) (act : action) : sched TCPAssembler :=
  match conns a !! id with
  | Some cn => s ← stream_act act (get_side cn sd); Done (set_conn a id (set_side cn sd s))
  | None => Blocked
  end.

(** ** The loop *)

(** What happens next: the loop receives a packet (nil from a closed
    channel), or the ticker fires at the time [now], the map being ranged over
    in some order; in between a handler does something. *)
Inductive event :=
| Receives (pkt : option Packet)
| Ticks (now : Z) (order : list nat → list nat)
| Acts (id : nat) (sd : side) (act : action).

(** [time.Minute] in nanoseconds *)
Definition Minute : Z := 60 * 10 ^ 9.

(** The loop up to [break outer]; without another event it waits. *)
Fixpoint capture_loop (events : list event) (a : TCPAssembler) : sched TCPAssembler :=
  match events with
  | [] => Blocked
  | Receives None :: _ => Done a
  | Receives (Some pkt) :: events => a ← take_packet a pkt; capture_loop events a
  | Ticks now order :: events => a ← FlushOlderThan a (now + Minute * -2) (order (dict_ids a)); capture_loop events a
  | Acts id sd act :: events => a ← handler_acts a id sd act; capture_loop events a
  end.

(** [main] from the assembler on; [order] is that of [FinishAll], [printer]
    the printer as the handlers leave it. *)
Definition run_capture (det : list byte → bool) (global : GlobalConfig) (events : list event)
    (order : list nat → list nat) (printer : Printers.MultiPrinter) : sched (TCPAssembler * Printers.MultiPrinter) :=
  let assembler := fresh (Some det) (IP global) (Port global) in
  assembler ← capture_loop events assembler;
  assembler ← FinishAll assembler (order (dict_ids assembler));
  printer ← run (Printers.Finish printer);
  Done (assembler, printer).

(** ** Safety *)

(** Payloads are those of IP packets, and a range statement meets every entry
    of the map once. *)
Definition event_ok (e : event) : Prop :=
  match e with
  | Receives (Some (mkPacket _ (Some (TCPLayer tcp)) _)) => len (Payload tcp) < 2 ^ 32
  | Receives _ | Acts _ _ _ => True
  | Ticks _ order => ∀ l, order l ≡ₚ l
  end.

(** The invariant of the loop. *)
Definition running (a : TCPAssembler) : Prop := Inv a ∧ connectionDict a ≠ None.

Lemma delete_keys_dict ids : ∀ a, connectionDict a ≠ None →
  ∀ a', delete_keys ids a = Done a' → connectionDict a' ≠ None.
Proof.
  induction ids as [|id ids IH]; intros a Hd a'; cbn [delete_keys]; [by intros [= <-]|].
  unfold get_conn. destruct (conns a !! id) as [cn|]; [|done]. apply IH. simpl. by destruct (connectionDict a).
Qed.
Lemma for_conns_dict f ids : ∀ a a', for_conns f ids a = Done a' → connectionDict a' = connectionDict a.
Proof.
  induction ids as [|id ids IH]; intros a a'; cbn [for_conns]; [by intros [= <-]|].
  unfold get_conn. destruct (conns a !! id) as [cn|]; [|done]. simpl. destruct (f cn) as [cn'| |]; [|done..].
  by intros ->%IH.
Qed.

Lemma set_conn_dict a id cn : connectionDict (set_conn a id cn) = connectionDict a.
Proof. done. Qed.

Lemma Assemble_dict a srcIP dstIP tcp ts a' : connectionDict a ≠ None → Assemble a srcIP dstIP tcp ts = Done a' →
  connectionDict a' ≠ None.
Proof.
  intros Hd. unfold Assemble, retrieveConnection. destruct (filtered _ _ _); [by intros [= <-]|].
  set (k := conn_key _ _).
  assert (∀ id a1, connectionDict a1 ≠ None →
    (cn ← get_conn a1 id; cn ← onReceive cn (mkEndpoint srcIP (SrcPort tcp)) (mkEndpoint dstIP (DstPort tcp)) tcp ts;
     if conn_closed cn then cn' ← conn_finish cn; Done (set_conn (deleteConnection (set_conn a1 id cn) k) id cn')
     else Done (set_conn a1 id cn)) = Done a' → connectionDict a' ≠ None) as Htail.
  { intros id a1 H1. destruct (get_conn a1 id) as [cn| |]; [|done..]. simpl.
    destruct (onReceive _ _ _ _ _) as [cn1| |]; [|done..]. simpl. destruct (conn_closed cn1); [|by intros [= <-]].
    destruct (conn_finish cn1); [|done..]. intros [= <-]. simpl. by destruct (connectionDict a1). }
  destruct (dict_lookup a k) as [id|]; [by apply Htail|].
  destruct (creates a tcp); [|by intros [= <-]]. destruct (connectionDict a); [|done]. by apply Htail.
Qed.

Lemma take_packet_running a pkt : running a → event_ok (Receives (Some pkt)) → safe (take_packet a pkt) running.
Proof.
  intros [HI Hd] Hok. unfold take_packet. destruct pkt as [[[src dst]|] [[tcp|]|] ts]; cbn [NetworkLayer TransportLayer Timestamp]; try (by split).
  pose proof (Assemble_safe a src dst tcp ts HI Hd Hok) as H. destruct (Assemble a src dst tcp ts) as [a'| |] eqn:E; [|done|destruct H].
  split; [exact H|]. by eapply Assemble_dict.
Qed.

Lemma flush_running a t ids : running a → ids ≡ₚ dict_ids a → ∃ a', FlushOlderThan a t ids = Done a' ∧ running a'.
Proof.
  intros [HI Hd] Hp. destruct (Flush_spec a t ids HI Hp) as (a' & HF & HI' & _). exists a'. split; [done|]. split; [done|].
  unfold FlushOlderThan in HF. destruct (delete_keys _ a) as [a1| |] eqn:E; [|done..]. simpl in HF.
  rewrite (for_conns_dict _ _ _ _ HF). by eapply delete_keys_dict.
Qed.

Lemma acts_running a id sd act : running a → safe (handler_acts a id sd act) running.
Proof.
  intros [HI Hd]. unfold handler_acts. destruct (conns a !! id) as [cn|] eqn:Hc; [|done].
  assert (∀ s', step a (set_conn a id (set_side cn sd s')) → running (set_conn a id (set_side cn sd s'))) as Hrun.
  { intros s' Hst. split; [by eapply step_Inv|done]. }
  destruct act as [n|data|]; simpl.
  - destruct (stream_Read (get_side cn sd) n) as [[[b e] s']| |] eqn:E; [|done|].
    + simpl. apply Hrun. by eapply step_read.
    + unfold stream_Read in E. destruct (fill _ _) as [[??]|]; [by destruct (_ <? _)|by destruct (chan_closed _)].
  - apply Hrun. by apply step_prepend.
  - apply Hrun. by apply step_ignore.
Qed.

Lemma capture_loop_safe events : ∀ a, running a → Forall event_ok events → safe (capture_loop events a) running.
Proof.
  induction events as [|e events IH]; intros a Ha Hok; [done|]. apply Forall_cons in Hok as [He Hok].
  destruct e as [[pkt|]|now order|id sd act]; cbn [capture_loop].
  - eapply safe_bind; [by apply take_packet_running|]. auto.
  - done.
  - destruct (flush_running a (now + Minute * -2) (order (dict_ids a)) Ha (He _)) as (a' & -> & Ha'). by apply IH.
  - eapply safe_bind; [by apply acts_running|]. auto.
Qed.

Lemma fresh_running det ip port : running (fresh det ip port).
Proof. split; [apply Inv_new|done]. Qed.

Lemma run_capture_safe det global events order printer : Forall event_ok events → (∀ l, order l ≡ₚ l) →
  Printers.q_closed (Printers.outputQueue printer) = false →
  safe (run_capture det global events order printer)
    (λ '(a, p), Inv a ∧ connectionDict a = None ∧ handler_finished a = true ∧
       Printers.q_closed (Printers.outputQueue p) = true ∧
       Printers.items (Printers.outputQueue p) = Printers.items (Printers.outputQueue printer)).
Proof.
  intros Hok Ho Hp. unfold run_capture. cbv zeta.
  eapply safe_bind; [apply capture_loop_safe; [apply fresh_running|done]|]. intros a [HI Hd].
  destruct (FinishAll_spec a (order (dict_ids a)) HI (Ho _)) as (a' & -> & HI' & Hn & Hh). cbn [mbind sched_bind].
  unfold Printers.Finish, Printers.close_queue. rewrite Hp. by split_and!.
Qed.

(** C5. The capture as [main] runs it never panics and never leaves a handler
    hanging: whatever packets of whatever layers arrive, whenever the ticker
    fires, in whatever order maps are ranged over and whatever the handlers do
    meanwhile, the loop goes on or waits; after the end of the packets it
    shuts down: every connection ever seen has both channels closed, so its
    handler comes to the end of its streams, and the printer is closed. *)
Theorem capture_never_panics det global events order dir
  (Hok : Forall event_ok events) (Horder : ∀ l, order l ≡ₚ l) :
  run_capture det global events order (Printers.NewMultiPrinter dir) ≠ Crash ∧
  ∀ a p, run_capture det global events order (Printers.NewMultiPrinter dir) = Done (a, p) →
    handler_finished a = true ∧ Printers.q_closed (Printers.outputQueue p) = true ∧
    ∀ id cn, conns a !! id = Some cn →
      chan_closed (c (UpStream cn)) = true ∧ chan_closed (c (DownStream cn)) = true.
Proof.
  pose proof (run_capture_safe det global events order (Printers.NewMultiPrinter dir) Hok Horder eq_refl) as Hs.
  split; [intros E; by rewrite E in Hs|]. intros a p E. rewrite E in Hs. destruct Hs as (HI & Hd & Hh & Hq & _).
  split_and!; [done|done|]. intros id cn Hc. apply (inv_out a [] HI id cn Hc). unfold in_map, dict_lookup. by rewrite Hd.
Qed.

(** ** The properties at work *)

Definition demo_capture : list event :=
  [Receives (Some (mkPacket (Some (demo_ip 1, demo_ip 2)) (Some (TCPLayer demo_syn)) 5));
   Receives (Some (mkPacket (Some (demo_ip 1, demo_ip 2)) (Some OtherLayer) 6));
   Acts 0 Up (APrepends (gs "x")); Ticks (200 * Minute) id; Receives None].

Lemma demo_capture_ok : Forall event_ok demo_capture.
Proof. unfold demo_capture. repeat (apply List.Forall_cons || apply List.Forall_nil); try done; vm_compute; reflexivity. Qed.

Lemma capture_never_panics_witness :
  run_capture (λ _, false) new_GlobalConfig demo_capture id (Printers.NewMultiPrinter []) ≠ Crash ∧
  ∃ a p cn, run_capture (λ _, false) new_GlobalConfig demo_capture id (Printers.NewMultiPrinter []) = Done (a, p) ∧
    conns a !! 0%nat = Some cn ∧ chan_closed (c (UpStream cn)) = true.
Proof.
  destruct (capture_never_panics (λ _, false) new_GlobalConfig demo_capture id [] demo_capture_ok) as [Hn Hd]; [done|].
  split; [exact Hn|]. destruct (run_capture _ _ _ _ _) as [[a p]| |] eqn:E.
  - exists a, p. destruct (Hd a p eq_refl) as (_ & _ & Hc). destruct (conns a !! 0%nat) as [cn|] eqn:Ec.
    + exists cn. split; [done|]. split; [done|]. by apply (Hc 0%nat).
    + exfalso. apply (f_equal (λ r, match r with Done (a, _) => match conns a with [] => false | _ => true end | _ => false end)) in E.
      assert (conns a = []) as Hz by (by destruct (conns a)). cbv beta iota in E. rewrite Hz in E. vm_compute in E. discriminate.
  - exfalso. apply (f_equal (λ r, match r with Done _ => true | _ => false end)) in E. vm_compute in E. discriminate.
  - by destruct Hn.
Defined.
