(* ===== verification/Sessions.v ===== *)
(** * Every connection on its own

    The assembler against a specification that knows one pair of endpoints
    only: the packets of other connections, their ends and the order in which
    maps are ranged over have no influence on what a connection receives. *)

From S2P Require Import Prelude GoBytes GoStrings Window WindowRing WindowRun Reader Stream Assembler AssemblerInv Cli Capture.
From S2P Require Printers.

(** ** The specification

    The connections two endpoints have had, and the one they have now. *)
Record sessions := mkSessions { ended : list TCPConnection; live : option TCPConnection }.
Definition no_sessions : sessions := mkSessions [] None.
Definition all_sessions (s : sessions) : list TCPConnection := ended s ++ option_list (live s).
Definition end_session (s : sessions) (cn : TCPConnection) : sessions := mkSessions (ended s ++ [cn]) None.

(** The end of the packets. *)
Definition session_finish (s : sessions) : sched sessions :=
  match live s with
  | Some cn => cn ← conn_finish cn; Done (end_session s cn)
  | None => Done s
  end.
Definition session_flush (t : Z) (s : sessions) : sched sessions :=
  match live s with
  | Some cn => if lastTimestamp cn <? t then cn ← conn_flushOlderThan cn; Done (end_session s cn) else Done s
  | None => Done s
  end.

Section sessions.
(** The settings of the assembler, and the key of the endpoints. *)
Context (config : TCPAssembler) (k : list byte).

(** The connection a packet is for: the present one, or a new one. *)
Definition session_for (s : sessions) (tcp : TCP) : option TCPConnection :=
  match live s with
  | Some cn => Some cn
  | None => if creates config tcp then Some (newTCPConnection k) else None
  end.
Definition session_receive (s : sessions) (src dst : Endpoint) (tcp : TCP) (ts : Z) : sched sessions :=
  match session_for s tcp with
  | None => Done s
  | Some cn =>
      cn ← onReceive cn src dst tcp ts;
      if conn_closed cn then cn ← conn_finish cn; Done (end_session s cn)
      else Done (mkSessions (ended s) (Some cn))
  end.
Definition session_packet (s : sessions) (pkt : Packet) : sched sessions :=
  match NetworkLayer pkt, TransportLayer pkt with
  | Some (srcIP, dstIP), Some (TCPLayer tcp) =>
      let src := mkEndpoint srcIP (SrcPort tcp) in
      let dst := mkEndpoint dstIP (DstPort tcp) in
      if filtered config src dst || negb (str_eqb (conn_key src dst) k) then Done s
      else session_receive s src dst tcp (Timestamp pkt)
  | _, _ => Done s
  end.

(** What an event may do: a step of a handler is one of a connection of these
    endpoints or of another. *)
Inductive session_step : event → sessions → sessions → Prop :=
| step_packet pkt s s' : session_packet s pkt = Done s' → session_step (Receives (Some pkt)) s s'
| step_tick now order s s' : session_flush (now + Minute * -2) s = Done s' → session_step (Ticks now order) s s'
| step_here id sd act s s' j cn st :
    all_sessions s !! j = Some cn → stream_act act (get_side cn sd) = Done st →
    all_sessions s' = <[j := set_side cn sd st]> (all_sessions s) → length (ended s') = length (ended s) →
    session_step (Acts id sd act) s s'
| step_elsewhere id sd act s : session_step (Acts id sd act) s s.

(** The events up to the end of the packets, and the shutdown. *)
Inductive session_run : list event → sessions → sessions → Prop :=
| run_finish events s s' : session_finish s = Done s' → session_run (Receives None :: events) s s'
| run_step e events s s1 s' : session_step e s s1 → session_run events s1 s' → session_run (e :: events) s s'.
End sessions.

(** ** The simulation relation *)

(** [ids] are the places of the connections with the key [k], in the order
    they were made. *)
Record sees (a : TCPAssembler) (k : list byte) (ids : list nat) (s : sessions) : Prop := {
  se_all : ∀ id cn, conns a !! id = Some cn → key cn = k → id ∈ ids;
  se_nodup : NoDup ids;
  se_conns : Forall2 (λ id cn, conns a !! id = Some cn ∧ key cn = k) ids (all_sessions s);
  se_live : dict_lookup a k = match live s with Some _ => last ids | None => None end }.

(** Two states are the same for the key [k]. *)
Definition agree (k : list byte) (a a' : TCPAssembler) : Prop :=
  dict_lookup a' k = dict_lookup a k ∧
  ∀ id cn, key cn = k → conns a' !! id = Some cn ↔ conns a !! id = Some cn.

#[export] Instance agree_equiv k : Equivalence (agree k).
Proof.
  split.
  - intros a. done.
  - intros a b [H1 H2]. split; [done|]. intros. by rewrite H2.
  - intros a b d [H1 H2] [H3 H4]. split; [congruence|]. intros. by rewrite H4, H2.
Qed.

Lemma sees_agree a a' k ids s : agree k a a' → sees a k ids s → sees a' k ids s.
Proof.
  intros [Hd Hc] [H1 H2 H3 H4]. split; [|done| |congruence].
  - intros id cn Hid Hk. apply (H1 id cn); [by apply Hc|done].
  - eapply Forall2_impl; [exact H3|]. intros id cn [? Hk]. split; [by apply Hc|done].
Qed.

Lemma agree_set k a id cn cn' : conns a !! id = Some cn → key cn ≠ k → key cn' ≠ k → agree k a (set_conn a id cn').
Proof.
  intros Hc Hk Hk'. split; [done|]. intros i x Hx. simpl. destruct (decide (i = id)) as [->|Hne].
  - rewrite list_lookup_insert_eq by (by eapply lookup_lt_Some). split; intros; simplify_eq.
  - by rewrite list_lookup_insert_ne by done.
Qed.
Lemma agree_delete k a k' : k' ≠ k → agree k a (deleteConnection a k').
Proof. intros Hk. split; [|done]. rewrite dict_delete. by case_decide. Qed.

(** The place of the present connection. *)
Lemma sees_live a k ids over cn : sees a k ids (mkSessions over (Some cn)) →
  ∃ ids0 id, ids = ids0 ++ [id] ∧ dict_lookup a k = Some id ∧ conns a !! id = Some cn ∧ key cn = k ∧
    Forall2 (λ id cn, conns a !! id = Some cn ∧ key cn = k) ids0 over ∧ id ∉ ids0.
Proof.
  intros [_ Hnd Hc Hl]. apply Forall2_app_inv_r in Hc as (ids0 & ids1 & H0 & H1 & ->).
  apply Forall2_cons_inv_r in H1 as (id & ids2 & [Hid Hk] & H2 & ->). apply Forall2_nil_inv_r in H2 as ->.
  cbn [live] in Hl. rewrite last_snoc in Hl. apply NoDup_app in Hnd as (_ & Hnd & _).
  exists ids0, id. split_and!; try done. intros Hin. apply (Hnd id Hin). by constructor.
Qed.

Lemma Forall2_impl_in {A B} (P Q : A → B → Prop) l1 l2 :
  Forall2 P l1 l2 → (∀ x y, x ∈ l1 → P x y → Q x y) → Forall2 Q l1 l2.
Proof. induction 1; intros H1; constructor; set_solver. Qed.

(** The present connection changes, and ends if it is taken out of the map. *)
Lemma sees_update a a' k ids over cn cn' (stays : bool) : sees a k ids (mkSessions over (Some cn)) → key cn' = k →
  (∀ id, dict_lookup a k = Some id →
     (∀ i x, key x = k → i ≠ id → conns a' !! i = Some x ↔ conns a !! i = Some x) ∧
     conns a' !! id = Some cn' ∧ dict_lookup a' k = if stays then Some id else None) →
  sees a' k ids (if stays then mkSessions over (Some cn') else mkSessions (over ++ [cn']) None).
Proof.
  intros Hs Hk' Ha. pose proof (sees_live a k ids over cn Hs) as (ids0 & id & -> & Hd & Hc & Hk & H0 & Hnin).
  destruct (Ha id Hd) as (Hsame & Hid & Hd').
  assert (Forall2 (λ i x, conns a' !! i = Some x ∧ key x = k) (ids0 ++ [id]) (over ++ [cn'])) as Hall.
  { apply Forall2_app; [|by repeat constructor]. eapply Forall2_impl_in; [exact H0|].
    intros i x Hi [Hx Hkx]. split; [|done]. apply Hsame; [done| |done]. by intros ->. }
  split; [|apply Hs| |].
  - intros i x Hx Hkx. destruct (decide (i = id)) as [->|Hne]; [set_solver|]. apply (se_all _ _ _ _ Hs i x); [by apply Hsame|done].
  - destruct stays; [done|]. unfold all_sessions. cbn. by rewrite app_nil_r.
  - destruct stays; cbn [live]; [by rewrite last_snoc|done].
Qed.

(** A new connection. *)
Lemma sees_new a k ids over src dst d : sees a k ids (mkSessions over None) → connectionDict a = Some d →
  sees (mkAssembler (Some (<[k := length (conns a)]> d)) (conns a ++ [newTCPConnection k])
          (handled a ++ [(src, dst, length (conns a))]) (handler_finished a) (FilterIP a) (FilterPort a) (Detector a))
    k (ids ++ [length (conns a)]) (mkSessions over (Some (newTCPConnection k))).
Proof.
  intros [H1 H2 H3 H4] Hd. unfold all_sessions in *. cbn [ended live option_list] in *. rewrite app_nil_r in H3.
  assert (∀ i, i ∈ ids → (i < length (conns a))%nat) as Hlt.
  { intros i Hi. apply list_elem_of_lookup in Hi as [j Hj]. destruct (Forall2_lookup_l _ _ _ _ _ H3 Hj) as (x & _ & Hx & _).
    by eapply lookup_lt_Some. }
  split; cbn [conns].
  - intros i x Hx Hk. apply lookup_app_Some in Hx as [Hx|[Hl Hx]]; [set_solver|].
    apply list_lookup_singleton_Some in Hx as [? _]. assert (i = length (conns a)) as -> by lia. set_solver.
  - apply NoDup_app. split_and!; [done| |apply NoDup_singleton]. intros i Hi. apply Hlt in Hi. intros ->%list_elem_of_singleton. lia.
  - apply Forall2_app.
    + eapply Forall2_impl; [exact H3|]. intros i x [Hx ?]. split; [by apply lookup_app_l_Some|done].
    + repeat constructor. by rewrite list_lookup_middle.
  - cbn [live]. rewrite last_snoc. unfold dict_lookup. simpl. by rewrite lookup_insert_eq.
Qed.

(** ** The settings never change *)

Definition settings (a : TCPAssembler) : list byte * Z * option (list byte → bool) := (FilterIP a, FilterPort a, Detector a).

Lemma settings_filtered a b src dst : settings a = settings b → filtered a src dst = filtered b src dst.
Proof. intros [= H1 H2 _]. unfold filtered. by rewrite H1, H2. Qed.
Lemma settings_creates a b tcp : settings a = settings b → creates a tcp = creates b tcp.
Proof. intros [= _ _ H]. unfold creates. by rewrite H. Qed.

Lemma for_conns_settings f ids : ∀ a a', for_conns f ids a = Done a' → settings a' = settings a.
Proof.
  induction ids as [|id ids IH]; intros a a'; cbn [for_conns]; [by intros [= <-]|].
  destruct (get_conn a id) as [cn| |]; [|done..]. simpl. destruct (f cn); [|done..]. by intros ->%IH.
Qed.
Lemma delete_keys_settings ids : ∀ a a', delete_keys ids a = Done a' → settings a' = settings a.
Proof.
  induction ids as [|id ids IH]; intros a a'; cbn [delete_keys]; [by intros [= <-]|].
  destruct (get_conn a id) as [cn| |]; [|done..]. by intros ->%IH.
Qed.
Lemma flush_settings a t ids a' : FlushOlderThan a t ids = Done a' → settings a' = settings a.
Proof.
  unfold FlushOlderThan. destruct (delete_keys _ a) as [a1| |] eqn:E; [|done..]. intros ->%for_conns_settings.
  by eapply delete_keys_settings.
Qed.
Lemma acts_settings a id sd act a' : handler_acts a id sd act = Done a' → settings a' = settings a.
Proof.
  unfold handler_acts. destruct (conns a !! id) as [cn|]; [|done]. by destruct (stream_act _ _); [intros [= <-]|..].
Qed.

(** ** Packets *)

(** [Assemble] after the connection has been found. *)
Definition deliver (a : TCPAssembler) (id : nat) (src dst : Endpoint) (tcp : TCP) (ts : Z) : sched TCPAssembler :=
  cn ← get_conn a id;
  cn ← onReceive cn src dst tcp ts;
  let a := set_conn a id cn in
  if conn_closed cn then
    let a := deleteConnection a (conn_key src dst) in
    cn ← conn_finish cn;
    Done (set_conn a id cn)
  else Done a.

Lemma Assemble_deliver a srcIP dstIP tcp ts :
  let src := mkEndpoint srcIP (SrcPort tcp) in
  let dst := mkEndpoint dstIP (DstPort tcp) in
  Assemble a srcIP dstIP tcp ts =
    if filtered a src dst then Done a
    else '(o, a) ← retrieveConnection a src dst (conn_key src dst) (creates a tcp);
         match o with None => Done a | Some id => deliver a id src dst tcp ts end.
Proof. done. Qed.

Lemma deliver_settings a id src dst tcp ts a' : deliver a id src dst tcp ts = Done a' → settings a' = settings a.
Proof.
  unfold deliver. destruct (get_conn a id) as [cn| |]; [|done..]. simpl.
  destruct (onReceive _ _ _ _ _) as [cn1| |]; [|done..]. simpl. destruct (conn_closed cn1); [|by intros [= <-]].
  by destruct (conn_finish cn1); [intros [= <-]|..].
Qed.
Lemma retrieve_settings a src dst k init o a' : retrieveConnection a src dst k init = Done (o, a') → settings a' = settings a.
Proof.
  unfold retrieveConnection. destruct (dict_lookup a k); [by intros [= _ <-]|]. destruct init; [|by intros [= _ <-]].
  by destruct (connectionDict a); [intros [= _ <-]|].
Qed.
Lemma packet_settings a pkt a' : take_packet a pkt = Done a' → settings a' = settings a.
Proof.
  unfold take_packet. destruct pkt as [[[srcIP dstIP]|] [[tcp|]|] ts]; cbn [NetworkLayer TransportLayer Timestamp]; try (by intros [= <-]).
  rewrite Assemble_deliver. cbv zeta. destruct (filtered _ _ _); [by intros [= <-]|].
  destruct (retrieveConnection _ _ _ _ _) as [[[id|] a1]| |] eqn:E; [| |done..]; cbn [mbind sched_bind].
  - intros ->%deliver_settings. by eapply retrieve_settings.
  - intros [= <-]. by eapply retrieve_settings.
Qed.

Lemma onReceive_key cn src dst tcp ts cn' : onReceive cn src dst tcp ts = Done cn' → key cn' = key cn.
Proof.
  unfold onReceive. destruct (Endpoint_Equals _ src).
  - destruct (appendPacket _ _) as [u| |]; [|done..]. simpl. by destruct (if ACK tcp then _ else _); [intros [= <-]|..].
  - destruct (appendPacket _ _) as [u| |]; [|done..]. simpl. by destruct (if ACK tcp then _ else _); [intros [= <-]|..].
Qed.
Lemma conn_finish_key cn cn' : conn_finish cn = Done cn' → key cn' = key cn.
Proof.
  unfold conn_finish. destruct (stream_finish (UpStream cn)); [|done..]. simpl.
  by destruct (stream_finish (DownStream cn)); [intros [= <-]|..].
Qed.
Lemma conn_flush_key cn cn' : conn_flushOlderThan cn = Done cn' → key cn' = key cn.
Proof. by intros ->%conn_finish_key. Qed.

Section simulation.
Context (config : TCPAssembler) (k : list byte).

Lemma deliver_agree a id cn src dst tcp ts a' : conns a !! id = Some cn → key cn ≠ k → conn_key src dst ≠ k →
  deliver a id src dst tcp ts = Done a' → agree k a a'.
Proof.
  intros Hc Hk Hk'. unfold deliver, get_conn. rewrite Hc. simpl. destruct (onReceive _ _ _ _ _) as [cn1| |] eqn:E1; [|done..].
  apply onReceive_key in E1. simpl. pose proof (agree_set k a id cn cn1 Hc Hk ltac:(congruence)) as H1.
  destruct (conn_closed cn1); [|by intros [= <-]]. destruct (conn_finish cn1) as [cn2| |] eqn:E2; [|done..].
  apply conn_finish_key in E2. intros [= <-]. etrans; [exact H1|]. etrans; [by apply agree_delete|].
  apply (agree_set k _ id cn1); [|congruence..]. simpl. by rewrite list_lookup_insert_eq by (by eapply lookup_lt_Some).
Qed.

Lemma deliver_here a ids over cn src dst tcp ts a' id : sees a k ids (mkSessions over (Some cn)) →
  conn_key src dst = k → dict_lookup a k = Some id → deliver a id src dst tcp ts = Done a' →
  ∃ s', (cn1 ← onReceive cn src dst tcp ts;
         if conn_closed cn1 then cn2 ← conn_finish cn1; Done (mkSessions (over ++ [cn2]) None) else Done (mkSessions over (Some cn1))) = Done s' ∧
    sees a' k ids s'.
Proof.
  intros Hs Hkey Hd. pose proof (sees_live a k ids over cn Hs) as (ids0 & id' & _ & Hd' & Hc & Hk & _ & _).
  assert (id' = id) as -> by congruence. pose proof (lookup_lt_Some _ _ _ Hc) as Hlt.
  unfold deliver, get_conn. rewrite Hc. simpl. destruct (onReceive _ _ _ _ _) as [cn1| |] eqn:E1; [|done..].
  apply onReceive_key in E1. simpl. destruct (conn_closed cn1).
  - destruct (conn_finish cn1) as [cn2| |] eqn:E2; [|done..]. apply conn_finish_key in E2. intros [= <-].
    eexists. split; [reflexivity|]. apply (sees_update a _ k ids over cn cn2 false Hs); [congruence|].
    intros i Hi. assert (i = id) as -> by congruence. cbn [conns set_conn deleteConnection].
    rewrite list_insert_insert_eq, list_lookup_insert_eq by done. split_and!; [|done|].
    + intros j x _ Hne. by rewrite list_lookup_insert_ne by done.
    + change (dict_lookup (deleteConnection a (conn_key src dst)) k = None). by rewrite dict_delete, Hkey, decide_True.
  - intros [= <-]. eexists. split; [reflexivity|]. apply (sees_update a _ k ids over cn cn1 true Hs); [congruence|].
    intros i Hi. assert (i = id) as -> by congruence. cbn [conns set_conn]. rewrite list_lookup_insert_eq by done.
    split_and!; [|done|done]. intros j x _ Hne. by rewrite list_lookup_insert_ne by done.
Qed.

Lemma retrieve_agree a src dst k' init o a' : k' ≠ k → retrieveConnection a src dst k' init = Done (o, a') → agree k a a'.
Proof.
  intros Hk. unfold retrieveConnection. destruct (dict_lookup a k'); [by intros [= _ <-]|]. destruct init; [|by intros [= _ <-]].
  destruct (connectionDict a) as [d|] eqn:Ed; [|done]. intros [= _ <-]. split.
  - unfold dict_lookup. simpl. by rewrite lookup_insert_ne, Ed.
  - intros i x Hx. simpl. split; [|by apply lookup_app_l_Some].
    intros [?|[_ Hl]]%lookup_app_Some; [done|]. apply list_lookup_singleton_Some in Hl as [_ <-]. done.
Qed.

(** Places are added behind the present ones, for new connections. *)
Definition later_places (a : TCPAssembler) (ids ids' : list nat) : Prop :=
  ∃ new, ids' = ids ++ new ∧ Forall (λ id, (length (conns a) ≤ id)%nat) new.

Lemma packet_simulated a ids s pkt a' : running a → settings a = settings config → sees a k ids s →
  take_packet a pkt = Done a' → ∃ s' ids', session_packet config k s pkt = Done s' ∧ sees a' k ids' s' ∧ later_places a ids ids'.
Proof.
  intros [HI Hdict] Hset Hs. assert (later_places a ids ids) by (exists []; by rewrite app_nil_r). unfold take_packet, session_packet.
  destruct pkt as [[[srcIP dstIP]|] [[tcp|]|] ts]; cbn [NetworkLayer TransportLayer Timestamp]; try (by intros [= <-]; exists s, ids).
  rewrite Assemble_deliver. cbv zeta. set (src := mkEndpoint srcIP _). set (dst := mkEndpoint dstIP _).
  rewrite (settings_filtered a config) by done. destruct (filtered _ _ _); [by intros [= <-]; exists s, ids|]. cbn [orb].
  pose proof (retrieve_safe a src dst (conn_key src dst) (creates a tcp) HI Hdict) as Hret.
  destruct (str_eqb_spec (conn_key src dst) k) as [Hkey|Hkey]; cbn [negb].
  - unfold session_receive, session_for. rewrite <-(settings_creates a config) by done. destruct s as [over [cn|]]; cbn [live ended].
    + pose proof (sees_live a k ids over cn Hs) as (_ & id & _ & Hd & _). unfold retrieveConnection. rewrite Hkey, Hd. cbn [mbind sched_bind].
      intros Hdel. edestruct (deliver_here a ids over cn) as (s' & ? & ?); [done..|]. by exists s', ids.
    + pose proof (se_live _ _ _ _ Hs) as Hd. cbn [live] in Hd. unfold retrieveConnection. rewrite Hkey, Hd.
      destruct (creates a tcp); [|by intros [= <-]; exists (mkSessions over None), ids]. destruct (connectionDict a) as [d|] eqn:Ed; [|done]. cbn [mbind sched_bind].
      intros Hdel. pose proof (sees_new a k ids over src dst d Hs Ed) as Hs1. destruct (deliver_here _ _ _ _ src dst tcp ts a' (length (conns a)) Hs1) as (s' & ? & ?); [done| |done|].
      { unfold dict_lookup. simpl. by rewrite lookup_insert_eq. } eexists _, _. split_and!; [done..|]. eexists. split; [reflexivity|]. by repeat constructor.
  - destruct (retrieveConnection _ _ _ _ _) as [[o a1]| |] eqn:E; [|done..]. cbn [mbind sched_bind].
    apply retrieve_agree in E; [|done]. apply (sees_agree a a1) in Hs; [|done]. destruct Hret as [HI1 Hid]. destruct o as [id|]; [|by intros [= <-]; exists s, ids].
    destruct (inv_dict a1 [] HI1 _ _ Hid) as (cn & Hc & Hk). intros Hdel. exists s, ids. split_and!; [done| |done].
    eapply sees_agree; [|done]. by apply (deliver_agree a1 id cn src dst tcp ts); [|congruence|..].
Qed.

(** *** Ends of connections *)

Lemma for_conns_lookup f ids : ∀ a a', NoDup ids → for_conns f ids a = Done a' →
  (∀ i, i ∉ ids → conns a' !! i = conns a !! i) ∧
  (∀ i, i ∈ ids → ∃ cn cn', conns a !! i = Some cn ∧ f cn = Done cn' ∧ conns a' !! i = Some cn').
Proof.
  induction ids as [|id ids IH]; intros a a' Hnd; cbn [for_conns].
  { intros [= <-]. split; [done|]. intros i Hi. by apply elem_of_nil in Hi. }
  apply NoDup_cons in Hnd as [Hid Hnd]. unfold get_conn. destruct (conns a !! id) as [cn|] eqn:Hc; [|done]. simpl.
  destruct (f cn) as [cn'| |] eqn:Hf; [|done..]. simpl. intros Hrest. destruct (IH _ _ Hnd Hrest) as [Hout Hin].
  pose proof (lookup_lt_Some _ _ _ Hc) as Hlt. split.
  - intros i [Hne Hi]%not_elem_of_cons. rewrite Hout by done. simpl. by rewrite list_lookup_insert_ne by done.
  - intros i [->|Hi]%elem_of_cons.
    + exists cn, cn'. rewrite Hout by done. simpl. by rewrite list_lookup_insert_eq.
    + destruct (Hin i Hi) as (x & x' & Hx & ? & ?). simpl in Hx. rewrite list_lookup_insert_ne in Hx by (by intros ->). by exists x, x'.
Qed.

Lemma close_simulated f (old ids : list nat) (a a1 a' : TCPAssembler) s :
  (∀ cn cn', f cn = Done cn' → key cn' = key cn) → NoDup old → Forall (mapped a) old → sees a k ids s →
  conns a1 = conns a → for_conns f old a1 = Done a' →
  dict_lookup a' k = match dict_lookup a k with Some id => if decide (id ∈ old) then None else Some id | None => None end →
  match live s with
  | Some cn => ∃ id, dict_lookup a k = Some id ∧ conns a !! id = Some cn ∧
      if decide (id ∈ old) then ∃ cn', f cn = Done cn' ∧ sees a' k ids (end_session s cn') else sees a' k ids s
  | None => sees a' k ids s
  end.
Proof.
  intros Hf Hnd Hm Hs Hc1 Hfor Hd'. destruct (for_conns_lookup f old a1 a' Hnd Hfor) as [Hout Hin]. rewrite Hc1 in Hout, Hin.
  rewrite Forall_forall in Hm.
  assert (∀ i x, i ∈ old → dict_lookup a k ≠ Some i → key x = k → conns a' !! i = Some x ↔ conns a !! i = Some x) as Hother.
  { intros i x Hi Hne Hx. destruct (Hin i Hi) as (cn & cn' & Hcn & Hfc & Hcn'). destruct (Hm i Hi) as (y & Hy & Hmy).
    unfold in_map in Hmy. apply Hf in Hfc. rewrite Hcn, Hcn'. split; intros; simplify_eq; congruence. }
  assert (∀ i x, dict_lookup a k ≠ Some i → key x = k → conns a' !! i = Some x ↔ conns a !! i = Some x) as Hsame.
  { intros i x Hne Hx. destruct (decide (i ∈ old)) as [Hi|Hi]; [by apply Hother|by rewrite Hout]. }
  destruct s as [over [cn|]]; cbn [live].
  - pose proof (sees_live a k ids over cn Hs) as (_ & id & _ & Hd & Hc & Hk & _). exists id. rewrite Hd in Hd', Hsame. split_and!; [done|done|].
    case_decide as Hi.
    + destruct (Hin id Hi) as (x & cn' & Hx & Hfc & Hcn'). rewrite Hc in Hx. injection Hx as <-. exists cn'. split; [done|].
      apply (sees_update a a' k ids over cn cn' false Hs); [apply Hf in Hfc; congruence|]. intros i Hi'.
      assert (i = id) as -> by congruence. split_and!; [|done|done]. intros j x Hx Hne. apply Hsame; congruence.
    + eapply sees_agree; [|exact Hs]. split; [congruence|]. intros i x Hx. destruct (decide (i = id)) as [->|Hne]; [by rewrite Hout|].
      apply Hsame; congruence.
  - eapply sees_agree; [|exact Hs]. pose proof (se_live _ _ _ _ Hs) as Hd. cbn [live] in Hd. rewrite Hd in Hd', Hsame.
    split; [congruence|]. intros i x Hx. by apply Hsame.
Qed.

Lemma dict_after a a' (old P : list nat) : Inv a → Inv_pend a' P → conns a' = conns a →
  (∀ i x, conns a !! i = Some x → in_map a' i x ↔ in_map a i x ∧ i ∉ old) →
  dict_lookup a' k = match dict_lookup a k with Some id => if decide (id ∈ old) then None else Some id | None => None end.
Proof.
  intros HI HI' Hc Hin.
  assert (∀ i, dict_lookup a' k = Some i → dict_lookup a k = Some i ∧ i ∉ old) as Hsub.
  { intros i Hi. destruct (inv_dict a' P HI' k i Hi) as (x & Hx & Hk). rewrite Hc in Hx.
    destruct (Hin i x Hx) as [Hto _]. unfold in_map in Hto. rewrite Hk in Hto. by apply Hto. }
  destruct (dict_lookup a k) as [id|] eqn:Hd.
  - destruct (inv_dict a [] HI k id Hd) as (x & Hx & Hk). destruct (Hin id x Hx) as [_ Hfrom]. unfold in_map in Hfrom. rewrite Hk in Hfrom.
    case_decide as Ho; [|by apply Hfrom]. destruct (dict_lookup a' k) as [i|]; [|done].
    destruct (Hsub i eq_refl) as [[= ->] ?]. done.
  - destruct (dict_lookup a' k) as [i|]; [|done]. by destruct (Hsub i eq_refl).
Qed.

Lemma dict_ids_has a k' id : dict_lookup a k' = Some id → id ∈ dict_ids a.
Proof.
  unfold dict_lookup, dict_ids. destruct (connectionDict a) as [d|]; [|done]. simpl. intros Hd.
  apply list_elem_of_fmap. exists (k', id). split; [done|]. by apply elem_of_map_to_list.
Qed.

Lemma flush_simulated a ids s t order a' : Inv a → order ≡ₚ dict_ids a → sees a k ids s →
  FlushOlderThan a t order = Done a' → ∃ s', session_flush t s = Done s' ∧ sees a' k ids s'.
Proof.
  intros HI Hp Hs. destruct (dict_ids_perm a [] order HI Hp) as [Hnd Hm]. unfold FlushOlderThan.
  set (old := List.filter (older a t) order).
  assert (NoDup old) as Hndo by (apply NoDup_ListNoDup, List.NoDup_filter; by apply NoDup_ListNoDup).
  assert (Forall (mapped a) old) as Hmo.
  { rewrite Forall_forall in *. intros i Hi. apply Hm. apply list_elem_of_In in Hi.
    apply list_elem_of_In. by apply filter_In in Hi as [??]. }
  destruct (delete_keys_spec old a [] HI Hndo Hmo) as (a1 & -> & HI1 & Hc1 & Hin1). cbn [mbind sched_bind]. intros Hfor.
  pose proof (dict_after a a1 old _ HI HI1 Hc1 Hin1) as Hd.
  assert (dict_lookup a' k = dict_lookup a1 k) as Hd' by (unfold dict_lookup; by rewrite (for_conns_dict _ _ _ _ Hfor)).
  pose proof (close_simulated _ old ids a a1 a' s conn_flush_key Hndo Hmo Hs Hc1 Hfor ltac:(congruence)) as Hclose.
  unfold session_flush. destruct (live s) as [cn|]; [|by eauto]. destruct Hclose as (id & Hid & Hc & Hclose).
  pose proof (older_filter a t order id cn Hc) as Ho. fold old in Ho.
  assert (id ∈ order) as Hord by (rewrite Hp; by eapply dict_ids_has).
  destruct (Z.ltb_spec (lastTimestamp cn) t).
  - rewrite decide_True in Hclose by tauto. destruct Hclose as (cn' & -> & Hs'). by eexists.
  - rewrite decide_False in Hclose by (intros [_ ?]%Ho; lia). by eexists.
Qed.

Lemma finish_simulated a ids s order a' : Inv a → order ≡ₚ dict_ids a → sees a k ids s →
  FinishAll a order = Done a' → ∃ s', session_finish s = Done s' ∧ live s' = None ∧ sees a' k ids s'.
Proof.
  intros HI Hp Hs. destruct (dict_ids_perm a [] order HI Hp) as [Hnd Hm]. unfold FinishAll.
  destruct (for_conns conn_finish order a) as [a1| |] eqn:Hfor; [|done..]. cbn [mbind sched_bind]. intros [= <-].
  pose proof (for_conns_no_dict conn_finish order a) as Hnod. rewrite Hfor in Hnod. cbn [mbind sched_bind] in Hnod.
  assert (∀ s', sees (no_dict a1) k ids s' →
    sees (mkAssembler None (conns a1) (handled a1) true (FilterIP a1) (FilterPort a1) (Detector a1)) k ids s') as Hlast.
  { intros s'. apply sees_agree. split; done. }
  pose proof (close_simulated conn_finish order ids a (no_dict a) (no_dict a1) s conn_finish_key Hnd Hm Hs eq_refl Hnod) as Hclose.
  assert (dict_lookup (no_dict a1) k =
    match dict_lookup a k with Some id => if decide (id ∈ order) then None else Some id | None => None end) as Hd.
  { change (dict_lookup (no_dict a1) k) with (@None nat). destruct (dict_lookup a k) as [id|] eqn:E; [|done].
    rewrite decide_True; [done|]. rewrite Hp. by eapply dict_ids_has. }
  specialize (Hclose Hd). unfold session_finish. destruct (live s) as [cn|] eqn:El; [|by eauto].
  destruct Hclose as (id & Hid & Hc & Hclose). rewrite decide_True in Hclose by (rewrite Hp; by eapply dict_ids_has).
  destruct Hclose as (cn' & -> & Hs'). eexists. split_and!; [done|done|auto].
Qed.

(** *** Handlers *)

Lemma set_side_key cn sd st : key (set_side cn sd st) = key cn.
Proof. by destruct sd. Qed.

(** The step is one of another connection, or of the connection at a place of
    these endpoints. *)
Lemma acts_located a ids s id sd act a' : sees a k ids s → handler_acts a id sd act = Done a' →
  (id ∉ ids ∧ sees a' k ids s) ∨
  ∃ j cn st s', ids !! j = Some id ∧ conns a !! id = Some cn ∧ all_sessions s !! j = Some cn ∧ stream_act act (get_side cn sd) = Done st ∧
    all_sessions s' = <[j := set_side cn sd st]> (all_sessions s) ∧ length (ended s') = length (ended s) ∧ sees a' k ids s'.
Proof.
  intros Hs. unfold handler_acts. destruct (conns a !! id) as [cn|] eqn:Hc; [|done].
  destruct (stream_act act _) as [st| |] eqn:Est; [|done..]. cbn [mbind sched_bind]. intros [= <-].
  destruct (decide (key cn = k)) as [Hk|Hk].
  2:{ left. split.
      - intros [j Hj]%list_elem_of_lookup. destruct (Forall2_lookup_l _ _ _ _ _ (se_conns _ _ _ _ Hs) Hj) as (x & _ & Hx & ?). congruence.
      - eapply sees_agree; [|done]. apply (agree_set k a id cn); [done|done|by rewrite set_side_key]. }
  right. pose proof (se_all _ _ _ _ Hs id cn Hc Hk) as Hid. apply list_elem_of_lookup in Hid as [j Hj].
  destruct (Forall2_lookup_l _ _ _ _ _ (se_conns _ _ _ _ Hs) Hj) as (x & Hx & Hcx & _). assert (x = cn) as -> by congruence.
  set (cn' := set_side cn sd st). pose proof (lookup_lt_Some _ _ _ Hc) as Hlt. pose proof (lookup_lt_Some _ _ _ Hx) as Hltx.
  assert (∃ s', all_sessions s' = <[j := cn']> (all_sessions s) ∧ length (ended s') = length (ended s) ∧
            (is_Some (live s') ↔ is_Some (live s))) as (s' & Hall & Hlen & Hlive).
  { destruct s as [over [cl|]]; unfold all_sessions in *; cbn [ended live option_list] in *.
    - rewrite length_app in Hltx. simpl in Hltx. destruct (decide (j < length over)%nat).
      + exists (mkSessions (<[j := cn']> over) (Some cl)). cbn [ended live option_list]. rewrite insert_app_l, length_insert by done. done.
      + assert (j = length over + 0)%nat as -> by lia. exists (mkSessions over (Some cn')). cbn [ended live option_list]. rewrite insert_app_r. done.
    - exists (mkSessions (<[j := cn']> over) None). cbn [ended live option_list]. rewrite !app_nil_r, length_insert. done. }
  exists j, cn, st, s'. split_and!; [done..|]. destruct Hs as [H1 H2 H3 H4]. split; [|done| |].
  - intros i y Hy Hky. destruct (lookup_set _ _ _ _ _ Hy) as [(-> & _)|[_ Hy']]; [by apply (H1 id cn)|by apply (H1 i y)].
  - rewrite Hall. apply Forall2_same_length_lookup. rewrite length_insert. split; [by eapply Forall2_length|].
    intros i n y Hi Hy. simpl. destruct (decide (i = j)) as [->|Hne].
    + rewrite list_lookup_insert_eq in Hy by done. injection Hy as <-. assert (n = id) as -> by congruence.
      rewrite list_lookup_insert_eq by done. split; [done|]. by unfold cn'; rewrite set_side_key.
    + rewrite list_lookup_insert_ne in Hy by done. destruct (Forall2_lookup_lr _ _ _ _ _ _ H3 Hi Hy) as [Hn Hky].
      rewrite list_lookup_insert_ne; [done|]. intros ->. apply Hne. by eapply NoDup_lookup.
  - change (dict_lookup (set_conn a id cn') k) with (dict_lookup a k). rewrite H4. destruct (live s), (live s'); try done;
      destruct Hlive as [Hl1 Hl2]; [by destruct (Hl2 ltac:(done))|by destruct (Hl1 ltac:(done))].
Qed.

Lemma acts_simulated a ids s id sd act a' : sees a k ids s → handler_acts a id sd act = Done a' →
  ∃ s', session_step config k (Acts id sd act) s s' ∧ sees a' k ids s'.
Proof.
  intros Hs Hact. destruct (acts_located a ids s id sd act a' Hs Hact) as [[_ Hs']|(j & cn & st & s' & _ & _ & Hj & Hst & Hall & Hlen & Hs')].
  - exists s. split; [apply step_elsewhere|done].
  - exists s'. split; [by eapply step_here|done].
Qed.

(** ** The whole capture *)

Lemma running_step a pkt a' : running a → event_ok (Receives (Some pkt)) → take_packet a pkt = Done a' → running a'.
Proof. intros Ha Hok E. exact (safe_Done _ _ _ (take_packet_running a pkt Ha Hok) E). Qed.

Lemma loop_simulated order printer events : (∀ l, order l ≡ₚ l) → ∀ a ids s a' p, running a → settings a = settings config →
  Forall event_ok events → sees a k ids s →
  (a1 ← capture_loop events a; a2 ← FinishAll a1 (order (dict_ids a1)); p ← run (Printers.Finish printer); Done (a2, p)) = Done (a', p) →
  ∃ s' ids', session_run config k events s s' ∧ live s' = None ∧ sees a' k ids' s'.
Proof.
  intros Horder. induction events as [|e events IH]; intros a ids s a' p Ha Hset Hok Hs; [done|].
  apply Forall_cons in Hok as [He Hok]. destruct e as [[pkt|]|now ord|id sd act]; cbn [capture_loop].
  - destruct (take_packet a pkt) as [a1| |] eqn:E; [|done..]. cbn [mbind sched_bind]. intros Hrun.
    destruct (packet_simulated a ids s pkt a1 Ha Hset Hs E) as (s1 & ids1 & Hstep & Hs1 & _).
    destruct (IH a1 ids1 s1 a' p) as (s' & ids' & Hr & Hl & Hs'); [by eapply running_step|by rewrite (packet_settings _ _ _ E)|done|done|exact Hrun|].
    exists s', ids'. split_and!; [|done|done]. eapply run_step; [by apply step_packet|done].
  - cbn [mbind sched_bind]. destruct (FinishAll a _) as [a2| |] eqn:E; [|done..]. cbn [mbind sched_bind].
    destruct (run _) as [p'| |]; [|done..]. intros [= <- <-].
    destruct (finish_simulated a ids s _ a2 (proj1 Ha) (Horder _) Hs E) as (s' & Hf & Hl & Hs'). exists s', ids.
    split_and!; [by apply run_finish|done|done].
  - destruct (flush_running a (now + Minute * -2) (ord (dict_ids a)) Ha (He _)) as (a1 & E & Ha1). rewrite E. cbn [mbind sched_bind]. intros Hrun.
    destruct (flush_simulated a ids s _ _ a1 (proj1 Ha) (He _) Hs E) as (s1 & Hstep & Hs1).
    destruct (IH a1 ids s1 a' p) as (s' & ids' & Hr & Hl & Hs'); [done|by rewrite (flush_settings _ _ _ _ E)|done|done|exact Hrun|].
    exists s', ids'. split_and!; [|done|done]. eapply run_step; [by apply step_tick|done].
  - destruct (handler_acts a id sd act) as [a1| |] eqn:E; [|done..]. cbn [mbind sched_bind]. intros Hrun.
    destruct (acts_simulated a ids s id sd act a1 Hs E) as (s1 & Hstep & Hs1).
    destruct (IH a1 ids s1 a' p) as (s' & ids' & Hr & Hl & Hs');
      [exact (safe_Done _ _ _ (acts_running a id sd act Ha) E)|by rewrite (acts_settings _ _ _ _ _ E)|done|done|exact Hrun|].
    exists s', ids'. split_and!; [|done|done]. by eapply run_step.
Qed.
End simulation.

Lemma sees_fresh det ip port k : sees (fresh det ip port) k [] no_sessions.
Proof. split; [intros id cn; simpl; by rewrite lookup_nil|constructor|constructor|done]. Qed.

(** C4. Connections do not disturb each other: whatever else is captured,
    ends, is flushed or is read, the connections of two endpoints come out as
    if the assembler had been given their packets only; each has its own place
    in the store, and after the shutdown none is open. *)
Theorem connections_are_separate det global events order printer a p k
  (Hok : Forall event_ok events) (Horder : ∀ l, order l ≡ₚ l)
  (Hrun : run_capture det global events order printer = Done (a, p)) :
  ∃ s ids, session_run (fresh (Some det) (IP global) (Port global)) k events no_sessions s ∧
    live s = None ∧ sees a k ids s.
Proof.
  apply (loop_simulated (fresh (Some det) (IP global) (Port global)) k order printer events Horder (fresh (Some det) (IP global) (Port global)) [] no_sessions a p);
    [apply fresh_running|done|done|apply sees_fresh|exact Hrun].
Qed.

Definition demo_done : TCPAssembler * Printers.MultiPrinter :=
  match run_capture (λ _, false) new_GlobalConfig demo_capture id (Printers.NewMultiPrinter []) with
  | Done r => r
  | _ => (fresh None [] 0, Printers.NewMultiPrinter [])
  end.
Lemma demo_done_run : run_capture (λ _, false) new_GlobalConfig demo_capture id (Printers.NewMultiPrinter []) = Done (demo_done.1, demo_done.2).
Proof.
  unfold demo_done. destruct (run_capture _ _ _ _ _) as [[a p]| |] eqn:E; [done|..];
    apply (f_equal (λ r, match r with Done _ => true | _ => false end)) in E; vm_compute in E; discriminate.
Qed.

Lemma connections_are_separate_witness : ∃ s ids,
  session_run (fresh (Some (λ _, false)) [] 0) (conn_key (mkEndpoint (demo_ip 2) 6379) (mkEndpoint (demo_ip 1) 1025)) demo_capture no_sessions s ∧
  live s = None ∧ sees demo_done.1 (conn_key (mkEndpoint (demo_ip 2) 6379) (mkEndpoint (demo_ip 1) 1025)) ids s.
Proof.
  apply (connections_are_separate (λ _, false) new_GlobalConfig demo_capture id (Printers.NewMultiPrinter []) demo_done.1 demo_done.2).
  - exact demo_capture_ok.
  - done.
  - exact demo_done_run.
Defined.
