(* ===== verification/Reads.v ===== *)
(** * What the handlers read while the capture goes on

    The goroutine of a connection reads its streams between any two steps of
    the assembler.  The history of a stream is what has been read of it so far;
    together with what is left it is what the stream would hold if nobody had
    read, and if its channel had room for everything. *)

From S2P Require Import Prelude GoBytes GoStrings Window WindowRing WindowOrder WindowRun Reader Stream.
From S2P Require Import Assembler AssemblerInv Cli Capture Sessions.

(** ** Histories *)

(** [h] without [data] at its end. *)
Definition give_back (data h : list byte) : option (list byte) :=
  let n := len h - len data in
  if (0 <=? n) && bool_decide (zdrop n h = data) then Some (ztake n h) else None.

(** What has been read of a stream, and not been put back; [None] once a
    handler has put back something else, or has closed the stream while
    packets may still arrive.  ([DiscardAll] is deferred behind [Close] and so
    runs before it: a handler closes a stream whose end it has seen.) *)
Definition history_act (act : action) (s : netStream) (h : option (list byte)) : option (list byte) :=
  match act with
  | AReads n => match stream_Read s n with Done (b, _, _) => (λ h, h ++ b) <$> h | _ => h end
  | APrepends data => h ≫= give_back data
  | ACloses => if chan_closed (c s) then h else None
  end.

#[export] Instance side_eq_dec : EqDecision side.
Proof. solve_decision. Defined.

(** One round of the loop of [main]. *)
Definition capture_step (e : event) (a : TCPAssembler) : sched TCPAssembler :=
  match e with
  | Receives None => Done a
  | Receives (Some pkt) => take_packet a pkt
  | Ticks now order => FlushOlderThan a (now + Minute * -2) (order (dict_ids a))
  | Acts id sd act => handler_acts a id sd act
  end.
Lemma capture_loop_step e events a : e ≠ Receives None →
  capture_loop (e :: events) a = (a ← capture_step e a; capture_loop events a).
Proof. by destruct e as [[pkt|]|now order|id sd act]. Qed.

Definition history_step (id : nat) (sd : side) (e : event) (a : TCPAssembler) (h : option (list byte)) : option (list byte) :=
  match e, conns a !! id with
  | Acts id' sd' act, Some cn => if bool_decide (id' = id ∧ sd' = sd) then history_act act (get_side cn sd) h else h
  | _, _ => h
  end.
(** What the handler of connection [id] has read of one side when the packets
    end. *)
Fixpoint history (id : nat) (sd : side) (events : list event) (a : TCPAssembler) (h : option (list byte)) : option (list byte) :=
  match events with
  | [] | Receives None :: _ => h
  | e :: events =>
      let h := history_step id sd e a h in
      match capture_step e a with Done a => history id sd events a h | _ => h end
  end.

Lemma history_cons id sd e events a a' h : e ≠ Receives None → capture_step e a = Done a' →
  history id sd (e :: events) a h = history id sd events a' (history_step id sd e a h).
Proof. intros He E. destruct e as [[pkt|]|now order|i sd' act]; cbn [history]; by rewrite ?E. Qed.

Lemma history_step_other id sd e a h : (∀ sd' act, e ≠ Acts id sd' act) → history_step id sd e a h = h.
Proof.
  intros He. unfold history_step. destruct e as [pkt|now order|i sd' act]; [done..|]. destruct (conns a !! id); [|done].
  case_bool_decide as Hi; [|done]. destruct Hi as [-> ->]. by destruct (He sd act).
Qed.

(** ** A stream that is read, and one that is not *)

(** [s] is [s0] with the history [h], as long as the history is known. *)
Definition behind (h : option (list byte)) (s0 s : netStream) : Prop :=
  ∀ b, h = Some b → b ++ stream_bytes s = stream_bytes s0 ∧ (is_open s → window s = window s0 ∧ ignore s = false).

Lemma behind_new s0 s : window s = window s0 → ignore s = false → stream_bytes s = stream_bytes s0 → behind (Some []) s0 s.
Proof. intros Hw Hi Hb b [= <-]. by split. Qed.

(** What [confirm] sends depends on the window only. *)
Lemma confirm_loop_sends ack n : ∀ idx w ch r w' ch', confirm_loop ack n idx w ch = Done (r, w', ch') →
  ∃ d, ch' = mkChan (queue ch ++ d) (capacity ch) (chan_closed ch) ∧
    ∀ ch0 r0 w0 ch0', confirm_loop ack n idx w ch0 = Done (r0, w0, ch0') →
      r0 = r ∧ w0 = w' ∧ ch0' = mkChan (queue ch0 ++ d) (capacity ch0) (chan_closed ch0).
Proof.
  assert (∀ ch : chan, mkChan (queue ch ++ []) (capacity ch) (chan_closed ch) = ch) as Hnil
    by (intros [q n' b]; cbn; by rewrite app_nil_r).
  induction n as [|n IH]; intros idx w ch r w' ch'; cbn [confirm_loop].
  { intros [= <- <- <-]. exists []. rewrite Hnil. split; [done|]. intros ch0 ? ? ? [= <- <- <-]. by rewrite Hnil. }
  destruct (deref w idx) as [packet|]; [|done]. cbn [run mbind sched_bind].
  destruct (0 <=? _). { intros [= <- <- <-]. exists []. rewrite Hnil. split; [done|]. intros ch0 ? ? ? [= <- <- <-]. by rewrite Hnil. }
  destruct (set_slot w idx None) as [w1|]; [|done]. cbn [run mbind sched_bind].
  destruct (trim _ _) as [[p|]|]; [| |done]; cbn [run mbind sched_bind]; [|apply IH].
  unfold send. destruct (chan_closed ch) eqn:Hc; [done|]. destruct (_ <? _); [|done]. cbn [mbind sched_bind].
  intros (d & -> & Hd)%IH. exists (p :: d). cbn [queue capacity chan_closed]. rewrite <-app_assoc. split; [done|].
  intros ch0 r0 w0 ch0'. destruct (chan_closed ch0) eqn:Hc0; [done|]. destruct (_ <? _); [|done]. cbn [mbind sched_bind].
  intros (-> & -> & ->)%Hd. cbn [queue capacity chan_closed]. by rewrite <-app_assoc.
Qed.

Lemma confirm_sends ack w ch w' ch' ch0 w0 ch0' : confirm w ack ch = Done (w', ch') → confirm w ack ch0 = Done (w0, ch0') →
  ∃ d, w0 = w' ∧ ch' = mkChan (queue ch ++ d) (capacity ch) (chan_closed ch) ∧ ch0' = mkChan (queue ch0 ++ d) (capacity ch0) (chan_closed ch0).
Proof.
  unfold confirm. destruct (confirm_loop _ _ _ w ch) as [[[r1 w1] c1]| |] eqn:E; [|done..].
  destruct (confirm_loop _ _ _ w ch0) as [[[r2 w2] c2]| |] eqn:E2; [|done..]. cbn [mbind sched_bind]. intros [= <- <-] [= <- <-].
  destruct (confirm_loop_sends _ _ _ _ _ _ _ _ E) as (d & -> & Hd). destruct (Hd _ _ _ _ E2) as (-> & -> & ->). by exists d.
Qed.

Lemma stream_op_same o s s' : stream_op o s = Done s' → is_open s →
  is_open s' ∧ ignore s' = ignore s ∧ closed s' = closed s.
Proof.
  destruct o as [p|ack]; cbn [stream_op]; unfold appendPacket, confirmPacket; destruct (ignore s) eqn:Hi; try (by intros [= <-]).
  - destruct (insert _ _); [|done]. cbn [run mbind sched_bind]. by intros [= <-].
  - unfold confirm. destruct (confirm_loop _ _ _ _ _) as [[[r1 w1] c1]| |] eqn:E; [|done..]. cbn [mbind sched_bind]. intros [= <-] Ho.
    destruct (confirm_loop_sends _ _ _ _ _ _ _ _ E) as (d & -> & _). by split_and!.
Qed.

Lemma stream_bytes_app w w' ch d rem ig cl :
  stream_bytes (mkStream w (mkChan (queue ch ++ d) (capacity ch) (chan_closed ch)) rem ig cl) = stream_bytes (mkStream w' ch rem ig cl) ++ payloads d.
Proof. unfold stream_bytes. cbn [remain c queue]. unfold payloads. by rewrite map_app, concat_app, app_assoc. Qed.

Lemma behind_op h o s0 s s0' s' : behind h s0 s → is_open s → ignore s0 = false →
  stream_op o s0 = Done s0' → stream_op o s = Done s' → behind h s0' s'.
Proof.
  intros Hb Ho Hi0 H0 H b Hh. destruct (Hb b Hh) as [Hbytes Hopen]. destruct (Hopen Ho) as [Hw Hi]. clear Hopen.
  destruct s as [w ch rem ig cl], s0 as [w0 ch0 rem0 ig0 cl0]. cbn [window ignore] in *. subst w0 ig ig0.
  destruct o as [p|ack]; cbn [stream_op] in *; unfold appendPacket, confirmPacket in *; cbn [ignore window c remain closed] in *.
  - destruct (insert w p) as [w1|]; [|done]. cbn [run mbind sched_bind] in *. injection H as <-. injection H0 as <-. by split.
  - destruct (confirm w ack ch) as [[w1 ch1]| |] eqn:E; [|done..]. destruct (confirm w ack ch0) as [[w2 ch2]| |] eqn:E0; [|done..].
    cbn [mbind sched_bind] in *. injection H as <-. injection H0 as <-.
    destruct (confirm_sends _ _ _ _ _ _ _ _ E E0) as (d & -> & -> & ->). split; [|done].
    rewrite (stream_bytes_app _ w), (stream_bytes_app _ w), app_assoc. by rewrite Hbytes.
Qed.

Lemma stream_act_same act s s' : stream_act act s = Done s' → chan_closed (c s') = chan_closed (c s) ∧ closed s' = closed s ∧ window s' = window s.
Proof.
  destruct act as [n|data|]; cbn [stream_act].
  - unfold stream_Read. destruct (fill _ _) as [[rem q]|].
    + destruct (_ <? _); cbn [mbind sched_bind]; by intros [= <-].
    + destruct (chan_closed (c s)) eqn:E; [|done]. cbn [mbind sched_bind]. by intros [= <-].
  - intros [= <-]. unfold Prepend. by destruct (_ <? _).
  - by intros [= <-].
Qed.

Lemma give_back_spec data h b : give_back data h = Some b → h = b ++ data.
Proof.
  unfold give_back. destruct (_ && _) eqn:E; [|done]. intros [= <-]. zbool.
  match goal with H : bool_decide _ = true |- _ => apply bool_decide_eq_true in H; rewrite <-H at 2 end. by rewrite ztake_zdrop.
Qed.

Lemma read_bytes s n b e s' : stream_Read s n = Done (b, e, s') → stream_bytes s = b ++ stream_bytes s' ∧ ignore s' = ignore s.
Proof.
  unfold stream_Read, stream_bytes. destruct (fill _ _) as [[rem q]|] eqn:E.
  - apply fill_Some in E as [_ ->]. destruct (_ <? _); intros [= <- <- <-]; cbn [remain c queue ignore]; [|by rewrite app_nil_l].
    by rewrite app_assoc, ztake_zdrop.
  - apply fill_None in E as ->. destruct (chan_closed _); [|done]. by intros [= <- <- <-].
Qed.

(** A step of the handler is a step of the history. *)
Lemma behind_act h act s0 s s' : behind h s0 s → stream_act act s = Done s' → behind (history_act act s h) s0 s'.
Proof.
  intros Hb Hact b Hh. destruct (stream_act_same _ _ _ Hact) as (Hcc & _ & Hw). unfold is_open. rewrite Hcc, Hw.
  destruct act as [n|data|]; cbn [stream_act history_act] in *.
  - destruct (stream_Read s n) as [[[r e] s1]| |] eqn:E; [|done..]. cbn [mbind sched_bind] in Hact. injection Hact as <-.
    apply read_bytes in E as [Hr ->]. destruct h as [h|]; [|done]. injection Hh as <-. destruct (Hb h eq_refl) as [Hbytes Hopen].
    split; [by rewrite <-app_assoc, <-Hr|done].
  - injection Hact as <-. destruct h as [h|]; [|done]. apply give_back_spec in Hh as ->. destruct (Hb _ eq_refl) as [Hbytes Hopen].
    unfold Prepend. destruct (0 <? len data) eqn:E.
    + split; [|done]. rewrite <-Hbytes. unfold stream_bytes. cbn [remain c]. by rewrite <-!app_assoc.
    + assert (data = []) as -> by (destruct data; [done|revert E; len_simpl; pose proof (len_nonneg data); intros E; zbool; lia]).
      rewrite app_nil_r in Hbytes. done.
  - injection Hact as <-. destruct (chan_closed (c s)) eqn:E; [|done]. destruct (Hb b Hh) as [Hbytes _]. split; [exact Hbytes|done].
Qed.

Lemma behind_shut h s0 s s' : behind h s0 s → stream_bytes s' = stream_bytes s → is_shut s' → behind h s0 s'.
Proof. intros Hb Hs Hsh b Hh. destruct (Hb b Hh) as [Hbytes _]. split; [by rewrite Hs|]. unfold is_open, is_shut in *. congruence. Qed.
