(* ===== verification/Served.v ===== *)
(** * Every connection has one handler

    The goroutines [retrieveConnection] starts, one for every connection, each
    called with the endpoints of the first packet. *)

From S2P Require Import Prelude GoBytes GoStrings Window WindowRing WindowRun Reader Stream.
From S2P Require Import Assembler AssemblerInv Cli Capture Sessions Reads.
From S2P Require Printers.

(** Connection [id] is served by goroutine [id], for the endpoints of its
    first packet. *)
Definition served (a : TCPAssembler) : Prop :=
  length (handled a) = length (conns a) ∧
  ∀ id cn, conns a !! id = Some cn → ∃ dst, handled a !! id = Some (ClientID cn, dst, id) ∧ key cn = conn_key (ClientID cn) dst ∧
    printed dst ∧ isRPC cn = true.

(** Endpoints are printed as gopacket prints them. *)
Definition packet_printed (pkt : Packet) : Prop :=
  match NetworkLayer pkt, TransportLayer pkt with
  | Some (srcIP, dstIP), Some (TCPLayer tcp) => printed (mkEndpoint srcIP (SrcPort tcp)) ∧ printed (mkEndpoint dstIP (DstPort tcp))
  | _, _ => True
  end.
Definition event_printed (e : event) : Prop := match e with Receives (Some pkt) => packet_printed pkt | _ => True end.

(** What of a connection never changes. *)
Definition identity (cn : TCPConnection) : list byte * Endpoint * bool := (key cn, ClientID cn, isRPC cn).

Definition same_conns (a a' : TCPAssembler) : Prop :=
  handled a' = handled a ∧ length (conns a') = length (conns a) ∧
  ∀ id cn', conns a' !! id = Some cn' → ∃ cn, conns a !! id = Some cn ∧ identity cn' = identity cn.

#[export] Instance same_conns_preorder : PreOrder same_conns.
Proof.
  split.
  - intros a. split_and!; [done..|eauto].
  - intros a b d (H1 & H2 & H3) (H4 & H5 & H6). split_and!; [congruence..|]. intros id cn (y & Hy & ->)%H6.
    destruct (H3 id y Hy) as (x & ? & ->). by exists x.
Qed.

Lemma served_same a a' : same_conns a a' → served a → served a'.
Proof.
  intros (H1 & H2 & H3) [Hl Hs]. split; [congruence|]. intros id cn' (cn & Hc & [= Hk Hcl Hr])%H3.
  rewrite H1, Hk, Hcl, Hr. by apply Hs.
Qed.

Lemma same_set a id cn cn' : conns a !! id = Some cn → identity cn' = identity cn → same_conns a (set_conn a id cn').
Proof.
  intros Hc Hi. split_and!; [done|simpl; by rewrite length_insert|]. intros i x Hx.
  destruct (lookup_set _ _ _ _ _ Hx) as [(-> & -> & _)|[_ Hx']]; eauto.
Qed.
Lemma same_for_conns f ids : (∀ cn cn', f cn = Done cn' → identity cn' = identity cn) →
  ∀ a a', for_conns f ids a = Done a' → same_conns a a'.
Proof.
  intros Hf. induction ids as [|id ids IH]; intros a a'; cbn [for_conns]; [by intros [= <-]|]. unfold get_conn.
  destruct (conns a !! id) as [cn|] eqn:Hc; [|done]. simpl. destruct (f cn) as [cn'| |] eqn:E; [|done..]. simpl. intros H.
  etrans; [|by apply IH]. apply (same_set a id cn); [done|auto].
Qed.
Lemma same_delete_keys ids : ∀ a a', delete_keys ids a = Done a' → same_conns a a'.
Proof.
  induction ids as [|id ids IH]; intros a a'; cbn [delete_keys]; [by intros [= <-]|]. unfold get_conn.
  destruct (conns a !! id) as [cn|] eqn:Hc; [|done]. simpl. intros H%IH. exact H.
Qed.
Lemma conn_finish_identity cn cn' : conn_finish cn = Done cn' → identity cn' = identity cn.
Proof.
  unfold conn_finish. destruct (stream_finish (UpStream cn)); [|done..]. simpl.
  by destruct (stream_finish (DownStream cn)); [intros [= <-]|..].
Qed.
Lemma conn_flush_identity cn cn' : conn_flushOlderThan cn = Done cn' → identity cn' = identity cn.
Proof. by intros ->%conn_finish_identity. Qed.

Lemma onReceive_client cn src dst tcp ts cn' : onReceive cn src dst tcp ts = Done cn' →
  isRPC cn' = true ∧ ClientID cn' = if isRPC cn then ClientID cn else src.
Proof.
  unfold onReceive. destruct (Endpoint_Equals _ src).
  - destruct (appendPacket _ _) as [u| |]; [|done..]. simpl. by destruct (if ACK tcp then _ else _); [intros [= <-]|..].
  - destruct (appendPacket _ _) as [u| |]; [|done..]. simpl. by destruct (if ACK tcp then _ else _); [intros [= <-]|..].
Qed.

Lemma deliver_store a id cn src dst tcp ts a' : conns a !! id = Some cn → deliver a id src dst tcp ts = Done a' →
  handled a' = handled a ∧ ∃ cn', conns a' = <[id := cn']> (conns a) ∧
    identity cn' = (key cn, if isRPC cn then ClientID cn else src, true).
Proof.
  intros Hc. unfold deliver, get_conn. rewrite Hc. simpl. destruct (onReceive _ _ _ _ _) as [cn1| |] eqn:E; [|done..].
  pose proof (onReceive_key _ _ _ _ _ _ E) as Hk. apply onReceive_client in E as [Hr Hcl].
  assert (identity cn1 = (key cn, if isRPC cn then ClientID cn else src, true)) as Hi by (unfold identity; congruence).
  simpl. destruct (conn_closed cn1).
  - destruct (conn_finish cn1) as [cn2| |] eqn:E2; [|done..]. apply conn_finish_identity in E2. intros [= <-]. split; [done|].
    exists cn2. cbn [conns set_conn deleteConnection]. rewrite list_insert_insert_eq. split; [done|congruence].
  - intros [= <-]. split; [done|]. by exists cn1.
Qed.

Lemma packet_served a pkt a' : running a → packet_printed pkt → served a → take_packet a pkt = Done a' → served a'.
Proof.
  intros [HI Hd] Hp Hs. unfold take_packet, packet_printed in *.
  destruct pkt as [[[srcIP dstIP]|] [[tcp|]|] ts]; cbn [NetworkLayer TransportLayer Timestamp]; try (by intros [= <-]).
  rewrite Assemble_deliver. cbv zeta. set (src := mkEndpoint srcIP _). set (dst := mkEndpoint dstIP _).
  destruct (filtered _ _ _); [by intros [= <-]|]. unfold retrieveConnection. destruct (dict_lookup a _) as [id|] eqn:Hid.
  - cbn [mbind sched_bind]. destruct (inv_dict a [] HI _ _ Hid) as (cn & Hc & Hk). intros Hdel.
    destruct (deliver_store a id cn _ _ _ _ _ Hc Hdel) as (Hh & cn' & Hcs & Hi). apply (served_same a); [|done].
    destruct Hs as [_ Hs]. destruct (Hs id cn Hc) as (dst' & _ & _ & _ & Hr). rewrite Hr in Hi.
    split_and!; [done|by rewrite Hcs, length_insert|]. intros i x Hx. rewrite Hcs in Hx.
    apply list_lookup_insert_Some in Hx as [(<- & <- & _)|[_ Hx]]; [|by eexists].
    exists cn. split; [done|]. unfold identity in *. congruence.
  - destruct (creates a tcp); [|by intros [= <-]]. destruct (connectionDict a) as [d|]; [|done]. cbn [mbind sched_bind]. intros Hdel.
    destruct Hs as [Hl Hs].
    eapply deliver_store in Hdel as (Hh & cn' & Hcs & Hi); [|simpl; by rewrite list_lookup_middle]. cbn [conns handled] in *.
    rewrite insert_app_r_alt, Nat.sub_diag in Hcs by done. cbn in Hcs. injection Hi as Hk Hcl Hr. split.
    + rewrite Hh, Hcs, !length_app. simpl. lia.
    + intros i x. rewrite Hcs, Hh. intros [Hx|[Hge Hx]]%lookup_app_Some.
      * destruct (Hs i x Hx) as (dst' & Hx1 & Hx2). exists dst'. split; [by apply lookup_app_l_Some|done].
      * apply list_lookup_singleton_Some in Hx as [Hx <-]. exists dst. rewrite Hk, Hcl, Hr. destruct Hp as [_ Hp]. split_and!; [|done..].
        assert (i = length (handled a)) as -> by lia. rewrite list_lookup_middle by done. by rewrite Hl.
Qed.

Lemma loop_served events : ∀ a a', running a → Forall event_ok events → Forall event_printed events → served a → capture_loop events a = Done a' → served a'.
Proof.
  induction events as [|e events IH]; intros a a' Ha Hok Hpr Hs; [done|]. apply Forall_cons in Hok as [He Hok], Hpr as [Hep Hpr].
  destruct e as [[pkt|]|now order|id sd act]; cbn [capture_loop].
  - destruct (take_packet a pkt) as [a1| |] eqn:E; [|done..]. cbn [mbind sched_bind].
    apply IH; [by eapply running_step|done|done|by eapply packet_served].
  - by intros [= <-].
  - destruct (flush_running a (now + Minute * -2) (order (dict_ids a)) Ha (He _)) as (a1 & E & Ha1). rewrite E. cbn [mbind sched_bind].
    apply IH; [done..|]. apply (served_same a); [|done]. revert E. unfold FlushOlderThan.
    destruct (delete_keys _ a) as [a2| |] eqn:E2; [|done..]. cbn [mbind sched_bind]. intros Hfor.
    etrans; [by eapply same_delete_keys|]. by eapply same_for_conns; [apply conn_flush_identity|].
  - destruct (handler_acts a id sd act) as [a1| |] eqn:E; [|done..]. cbn [mbind sched_bind].
    apply IH; [exact (safe_Done _ _ _ (acts_running a id sd act Ha) E)|done|done|]. apply (served_same a); [|done].
    revert E. unfold handler_acts. destruct (conns a !! id) as [cn|] eqn:Hc; [|done]. destruct (stream_act _ _); [|done..].
    cbn [mbind sched_bind]. intros [= <-]. apply (same_set a id cn); [done|]. by destruct sd.
Qed.

Lemma run_capture_served det global events order printer a p : Forall event_ok events → Forall event_printed events →
  run_capture det global events order printer = Done (a, p) → served a.
Proof.
  intros Hok Hpr. unfold run_capture. cbv zeta. destruct (capture_loop events _) as [a1| |] eqn:E; [|done..]. cbn [mbind sched_bind].
  unfold FinishAll. destruct (for_conns _ _ a1) as [a2| |] eqn:E2; [|done..]. cbn [mbind sched_bind].
  destruct (run _); [|done..]. cbn [mbind sched_bind]. intros [= <- _].
  apply (served_same a1).
  - etrans; [eapply same_for_conns, E2; apply conn_finish_identity|]. split_and!; [done..|]. intros i x Hx. by exists x.
  - eapply loop_served, E; [apply fresh_running|done|done|]. split; [done|]. intros i x. simpl. by rewrite lookup_nil.
Qed.

(** Connections are never forgotten. *)
Lemma step_length e a a' : running a → event_ok e → capture_step e a = Done a' → (length (conns a) ≤ length (conns a'))%nat.
Proof.
  intros [HI Hd] Hok. destruct e as [[pkt|]|now order|id sd act]; cbn [capture_step].
  - unfold take_packet. destruct pkt as [[[srcIP dstIP]|] [[tcp|]|] ts]; cbn [NetworkLayer TransportLayer Timestamp]; try (by intros [= <-]).
    rewrite Assemble_deliver. cbv zeta. destruct (filtered _ _ _); [by intros [= <-]|]. unfold retrieveConnection.
    destruct (dict_lookup a _) as [id|] eqn:Hid; cbn [mbind sched_bind].
    + destruct (inv_dict a [] HI _ _ Hid) as (cn & Hc & Hk). intros Hdel.
      destruct (deliver_store a id cn _ _ _ _ _ Hc Hdel) as (_ & cn' & -> & _). by rewrite length_insert.
    + destruct (creates a tcp); [|by intros [= <-]]. destruct (connectionDict a) as [d|]; [|done]. cbn [mbind sched_bind]. intros Hdel.
      eapply deliver_store in Hdel as (_ & cn' & -> & _); [|simpl; by rewrite list_lookup_middle].
      cbn [conns]. rewrite length_insert, length_app. simpl. lia.
  - by intros [= <-].
  - unfold FlushOlderThan. destruct (delete_keys _ a) as [a2| |] eqn:E2; [|done..]. cbn [mbind sched_bind]. intros Hfor.
    destruct (same_delete_keys _ _ _ E2) as (_ & <- & _).
    destruct (same_for_conns _ _ conn_flush_identity _ _ Hfor) as (_ & <- & _). done.
  - unfold handler_acts. destruct (conns a !! id) as [cn|]; [|done]. destruct (stream_act _ _); [|done..].
    cbn [mbind sched_bind]. intros [= <-]. simpl. by rewrite length_insert.
Qed.
