(* ===== verification/Conversation.v ===== *)
(** * A captured conversation reaches its handler

    The packets two endpoints exchange, in both directions, through the
    capture loop and the assembler to the streams of the handler, which may
    read them while the capture goes on. *)

From S2P Require Import Prelude GoBytes GoStrings Window WindowRing WindowOrder WindowRun WindowLive Reader Stream.
From S2P Require Import Assembler AssemblerInv Cli Capture Sessions Reads Served.
From S2P Require Printers.

(** ** The packets of two endpoints *)

(** Source, destination, packet and time. *)
Notation spoken := (Endpoint * Endpoint * TCP * Z)%type.

Section talk.
Context (config : TCPAssembler) (k : list byte).

Definition talk_packet (pkt : Packet) : option spoken :=
  match NetworkLayer pkt, TransportLayer pkt with
  | Some (srcIP, dstIP), Some (TCPLayer tcp) =>
      let src := mkEndpoint srcIP (SrcPort tcp) in
      let dst := mkEndpoint dstIP (DstPort tcp) in
      if filtered config src dst || negb (str_eqb (conn_key src dst) k) then None else Some (src, dst, tcp, Timestamp pkt)
  | _, _ => None
  end.

(** The packets with the key [k] up to the end. *)
Fixpoint talk (events : list event) : list spoken :=
  match events with
  | [] | Receives None :: _ => []
  | Receives (Some pkt) :: events => option_list (talk_packet pkt) ++ talk events
  | _ :: events => talk events
  end.

(** The packets end, and no tick finds the connection idle for two minutes;
    [last] is the time of the last packet. *)
Fixpoint steady (last : option Z) (events : list event) : bool :=
  match events with
  | [] => false
  | Receives None :: _ => true
  | Receives (Some pkt) :: events => steady (match talk_packet pkt with Some (_, ts) => Some ts | None => last end) events
  | Ticks now _ :: events => match last with Some ts => now + Minute * -2 <=? ts | None => true end && steady last events
  | Acts _ _ _ :: events => steady last events
  end.

Lemma session_packet_talk s pkt : session_packet config k s pkt =
  match talk_packet pkt with Some (src, dst, tcp, ts) => session_receive config k s src dst tcp ts | None => Done s end.
Proof.
  unfold session_packet, talk_packet. destruct pkt as [[[srcIP dstIP]|] [[tcp|]|] ts]; cbn [NetworkLayer TransportLayer Timestamp]; try done.
  cbv zeta. by destruct (_ || _).
Qed.

(** The present connection was last heard of at the time [last]. *)
Definition heard (last : option Z) (s : sessions) : Prop := ∀ cn, live s = Some cn → last = Some (lastTimestamp cn).

Lemma onReceive_time cn src dst tcp ts cn' : onReceive cn src dst tcp ts = Done cn' → lastTimestamp cn' = ts.
Proof.
  unfold onReceive. destruct (Endpoint_Equals _ src).
  - destruct (appendPacket _ _) as [u| |]; [|done..]. simpl. by destruct (if ACK tcp then _ else _); [intros [= <-]|..].
  - destruct (appendPacket _ _) as [u| |]; [|done..]. simpl. by destruct (if ACK tcp then _ else _); [intros [= <-]|..].
Qed.

Lemma session_receive_heard s src dst tcp ts s' : session_receive config k s src dst tcp ts = Done s' → heard (Some ts) s'.
Proof.
  unfold session_receive, session_for. intros H cn Hl. destruct s as [over [cl|]]; cbn [live] in H.
  - destruct (onReceive _ _ _ _ _) as [c1| |] eqn:E; [|done..]. apply onReceive_time in E. simpl in H.
    destruct (conn_closed c1); [|by simplify_eq/=]. by destruct (conn_finish c1); simplify_eq/=.
  - destruct (creates config tcp); [|by simplify_eq/=].
    destruct (onReceive _ _ _ _ _) as [c1| |] eqn:E; [|done..]. apply onReceive_time in E. simpl in H.
    destruct (conn_closed c1); [|by simplify_eq/=]. by destruct (conn_finish c1); simplify_eq/=.
Qed.

End talk.

(** ** The two directions *)

(** What a packet does to the streams: data to the one of its sender, and the
    acknowledgement to the other. *)
Definition up_ops_of (client : Endpoint) (m : spoken) : list op :=
  let '(src, _, tcp, _) := m in
  if Endpoint_Equals client src then [OpInsert tcp] else if ACK tcp then [OpConfirm (Ack tcp)] else [].
Definition down_ops_of (client : Endpoint) (m : spoken) : list op :=
  let '(src, _, tcp, _) := m in
  if Endpoint_Equals client src then if ACK tcp then [OpConfirm (Ack tcp)] else [] else [OpInsert tcp].
Definition up_ops (client : Endpoint) (l : list spoken) : list op := flat_map (up_ops_of client) l.
Definition down_ops (client : Endpoint) (l : list spoken) : list op := flat_map (down_ops_of client) l.

(** The packets up to the one that closes the second direction, and those
    behind it. *)
Fixpoint until_closed (client : Endpoint) (up down : bool) (l : list spoken) : list spoken * list spoken :=
  match l with
  | [] => ([], [])
  | (src, _, tcp, _) as m :: l =>
      let fin := FIN tcp || RST tcp in
      let up := up || (Endpoint_Equals client src && fin) in
      let down := down || (negb (Endpoint_Equals client src) && fin) in
      if up && down then ([m], l) else let '(before, after) := until_closed client up down l in (m :: before, after)
  end.

Definition with_closed (b : bool) (s : netStream) : netStream := mkStream (window s) (c s) (remain s) (ignore s) b.

Lemma with_closed_id s : with_closed (closed s) s = s.
Proof. by destruct s. Qed.
Lemma with_closed_closed b b' s : with_closed b (with_closed b' s) = with_closed b s.
Proof. done. Qed.

Lemma behind_closed h b s0 s : behind h s0 s → behind h s0 (with_closed b s).
Proof. done. Qed.

(** A packet of a connection whose client is known. *)
Lemma onReceive_ops client cn src dst tcp ts cn' : isRPC cn = true → ClientID cn = client → conn_open cn →
  onReceive cn src dst tcp ts = Done cn' →
  let fin := FIN tcp || RST tcp in
  ∃ up down, stream_ops (up_ops_of client (src, dst, tcp, ts)) (UpStream cn) = Done up ∧
    stream_ops (down_ops_of client (src, dst, tcp, ts)) (DownStream cn) = Done down ∧
    cn' = mkConn (with_closed (closed (UpStream cn) || (Endpoint_Equals client src && fin)) up)
            (with_closed (closed (DownStream cn) || (negb (Endpoint_Equals client src) && fin)) down) client ts true (key cn).
Proof.
  intros Hr <- [Hou Hod]. cbv zeta. unfold onReceive. rewrite Hr. cbn [up_ops_of down_ops_of].
  assert (∀ s s1 (b : bool), is_open s → (if b then confirmPacket s (Ack tcp) else Done s) = Done s1 →
    stream_ops (if b then [OpConfirm (Ack tcp)] else []) s = Done s1 ∧ closed s1 = closed s) as Hconf.
  { intros s s1 [] Ho H; [|by injection H as <-]. cbn [stream_ops stream_op]. rewrite H. split; [done|].
    by destruct (stream_op_same (OpConfirm (Ack tcp)) s s1 H Ho) as (_ & _ & ?). }
  assert (∀ s s1, is_open s → appendPacket s tcp = Done s1 → stream_ops [OpInsert tcp] s = Done s1 ∧ closed s1 = closed s) as Hins.
  { intros s s1 Ho H. cbn [stream_ops stream_op]. rewrite H. split; [done|]. by destruct (stream_op_same (OpInsert tcp) s s1 H Ho) as (_ & _ & ?). }
  destruct (Endpoint_Equals _ src); cbn [andb negb].
  - destruct (appendPacket (UpStream cn) tcp) as [up| |] eqn:Eu; [|done..]. cbn [mbind sched_bind].
    destruct (if ACK tcp then _ else _) as [down| |] eqn:Ed; [|done..]. cbn [mbind sched_bind]. intros [= <-].
    destruct (Hins _ _ Hou Eu) as [Hu Hcu], (Hconf _ _ _ Hod Ed) as [Hd Hcd]. exists up, down. split_and!; [done..|].
    rewrite orb_false_r, <-Hcd, <-Hcu, with_closed_id. destruct (FIN tcp || RST tcp); [by rewrite orb_true_r|by rewrite orb_false_r, with_closed_id].
  - destruct (appendPacket (DownStream cn) tcp) as [down| |] eqn:Ed; [|done..]. cbn [mbind sched_bind].
    destruct (if ACK tcp then _ else _) as [up| |] eqn:Eu; [|done..]. cbn [mbind sched_bind]. intros [= <-].
    destruct (Hins _ _ Hod Ed) as [Hd Hcd], (Hconf _ _ _ Hou Eu) as [Hu Hcu]. exists up, down. split_and!; [done..|].
    rewrite orb_false_r, <-Hcd, <-Hcu, with_closed_id. destruct (FIN tcp || RST tcp); [by rewrite orb_true_r|by rewrite orb_false_r, with_closed_id].
Qed.

Lemma stream_ops_app ops1 ops2 s s' : stream_ops (ops1 ++ ops2) s = Done s' →
  ∃ s1, stream_ops ops1 s = Done s1 ∧ stream_ops ops2 s1 = Done s'.
Proof.
  revert s. induction ops1 as [|o ops1 IH]; intros s; cbn [stream_ops app]; [eauto|].
  destruct (stream_op o s) as [s2| |]; [|done..]. apply IH.
Qed.

Lemma behind_ops h ops : ∀ s0 s s0' s', behind h s0 s → is_open s → is_open s0 → ignore s0 = false →
  stream_ops ops s0 = Done s0' → stream_ops ops s = Done s' →
  behind h s0' s' ∧ is_open s' ∧ is_open s0' ∧ ignore s0' = false.
Proof.
  induction ops as [|o ops IH]; intros s0 s s0' s' Hb Ho Ho0 Hi; cbn [stream_ops]; [by intros [= <-] [= <-]|].
  destruct (stream_op o s0) as [t0| |] eqn:E0; [|done..]. destruct (stream_op o s) as [t| |] eqn:E; [|done..]. cbn [mbind sched_bind].
  destruct (stream_op_same _ _ _ E0 Ho0) as (Ho0' & Hi0 & _), (stream_op_same _ _ _ E Ho) as (Ho' & _).
  apply IH; [by eapply behind_op|done..|congruence].
Qed.

Lemma session_finish_grows s s' : session_finish s = Done s' → ∃ t, ended s' = ended s ++ t.
Proof.
  unfold session_finish. destruct (live s) as [cn|]; [|intros [= <-]; exists []; by rewrite app_nil_r].
  destruct (conn_finish cn) as [cn'| |]; [|done..]. intros [= <-]. by exists [cn'].
Qed.
Lemma session_receive_grows config k s src dst tcp ts s' : session_receive config k s src dst tcp ts = Done s' → ∃ t, ended s' = ended s ++ t.
Proof.
  unfold session_receive. destruct (session_for config k s tcp) as [cn|]; [|intros [= <-]; exists []; by rewrite app_nil_r].
  destruct (onReceive _ _ _ _ _) as [c1| |]; [|done..]. simpl. destruct (conn_closed c1); [|intros [= <-]; exists []; by rewrite app_nil_r].
  destruct (conn_finish c1) as [c2| |]; [|done..]. intros [= <-]. by exists [c2].
Qed.
(** ** The first connection of two endpoints *)

Section first.
Context (config : TCPAssembler) (k : list byte) (client : Endpoint).
Context (order : list nat → list nat) (printer : Printers.MultiPrinter) (Horder : ∀ l, order l ≡ₚ l).

(** The rest of a capture, and the shutdown. *)
Definition capture_from (events : list event) (a : TCPAssembler) : sched (TCPAssembler * Printers.MultiPrinter) :=
  a ← capture_loop events a; a ← FinishAll a (order (dict_ids a)); p ← run (Printers.Finish printer); Done (a, p).

Lemma capture_from_step e events a r : e ≠ Receives None → capture_from (e :: events) a = Done r →
  ∃ a1, capture_step e a = Done a1 ∧ capture_from events a1 = Done r.
Proof.
  intros He. unfold capture_from. rewrite capture_loop_step by done. destruct (capture_step e a) as [a1| |]; [|done..]. by exists a1.
Qed.
Lemma capture_from_end events a a' p : capture_from (Receives None :: events) a = Done (a', p) → FinishAll a (order (dict_ids a)) = Done a'.
Proof.
  unfold capture_from. cbn [capture_loop mbind sched_bind]. destruct (FinishAll _ _) as [a2| |]; [|done..]. cbn [mbind sched_bind].
  destruct (run _); [|done..]. cbn [mbind sched_bind]. by intros [= -> _].
Qed.

(** An assembler of this capture. *)
Definition captures (a : TCPAssembler) : Prop := running a ∧ settings a = settings config.

Lemma captures_step e a a1 : captures a → event_ok e → capture_step e a = Done a1 → captures a1.
Proof.
  intros [Ha Hset] Hok. destruct e as [[pkt|]|now ord|id sd act]; cbn [capture_step].
  - intros E. split; [by eapply running_step|]. by rewrite (packet_settings _ _ _ E).
  - by intros [= <-].
  - intros E. destruct (flush_running a (now + Minute * -2) (ord (dict_ids a)) Ha (Hok _)) as (a2 & E2 & Ha2).
    assert (a2 = a1) as -> by congruence. split; [done|]. by rewrite (flush_settings _ _ _ _ E).
  - intros E. split; [exact (safe_Done _ _ _ (acts_running a id sd act Ha) E)|]. by rewrite (acts_settings _ _ _ _ _ E).
Qed.

(** The packet opens no connection. *)
Notation opens_none := (λ m : spoken, creates config m.1.2 = false).

(** The connection [cn] is the client's, and its streams with these histories
    are [su] and [sd]. *)
Definition fits (hu hd : option (list byte)) (su sd : netStream) (cn : TCPConnection) : Prop :=
  ClientID cn = client ∧ key cn = k ∧ behind hu su (UpStream cn) ∧ behind hd sd (DownStream cn).

Lemma fits_act a id cn sd' act st hu hd su sd : conns a !! id = Some cn → fits hu hd su sd cn →
  stream_act act (get_side cn sd') = Done st →
  fits (history_step id Up (Acts id sd' act) a hu) (history_step id Down (Acts id sd' act) a hd) su sd (set_side cn sd' st).
Proof.
  intros Hc (Hcl & Hk & Hu & Hd) Hst. unfold history_step. rewrite Hc.
  destruct sd'; [rewrite bool_decide_true, bool_decide_false by naive_solver|rewrite bool_decide_false, bool_decide_true by naive_solver];
    split_and!; try done; by eapply behind_act.
Qed.
Lemma fits_finish cn cn' hu hd su sd : fits hu hd su sd cn → conn_open cn → conn_finish cn = Done cn' → fits hu hd su sd cn'.
Proof.
  intros (Hcl & Hk & Hu & Hd) [Hou Hod]. unfold conn_finish. rewrite !stream_finish_open by done. cbn [mbind sched_bind]. intros [= <-].
  split_and!; [done|done|by eapply behind_shut|by eapply behind_shut].
Qed.

(** Place [id] has the connection in the end; if [alone], it is the only one. *)
Definition came_out (id : nat) (hu hd : option (list byte)) (su sd : netStream) (alone : Prop) (a : TCPAssembler) : Prop :=
  ∃ cn, conns a !! id = Some cn ∧ fits hu hd su sd cn ∧
    (alone → ∀ id' cn', conns a !! id' = Some cn' → key cn' = k → id' = id).

Lemma came_out_weaken id hu hd su sd (P Q : Prop) a : (Q → P) → came_out id hu hd su sd P a → came_out id hu hd su sd Q a.
Proof. intros HPQ (cn & Hc & Hf & Ha). exists cn. split; [done|]. split; [done|]. intros HQ. by apply Ha, HPQ. Qed.

Lemma sees_first a id ids s cn : sees a k (id :: ids) s → all_sessions s !! 0%nat = Some cn → conns a !! id = Some cn ∧ key cn = k.
Proof. intros Hs H0. exact (Forall2_lookup_lr _ _ _ 0%nat _ _ (se_conns _ _ _ _ Hs) eq_refl H0). Qed.
Lemma sees_alone a id ids s : sees a k (id :: ids) s → length (all_sessions s) = 1%nat →
  ∀ id' cn', conns a !! id' = Some cn' → key cn' = k → id' = id.
Proof.
  intros Hs Hl id' cn' Hc Hk. pose proof (Forall2_length _ _ _ (se_conns _ _ _ _ Hs)) as Hlen. rewrite Hl in Hlen.
  destruct ids; [|done]. pose proof (se_all _ _ _ _ Hs id' cn' Hc Hk) as Hin. by apply list_elem_of_singleton in Hin.
Qed.

Lemma first_stays s s1 t : ended s ≠ [] → ended s1 = ended s ++ t → all_sessions s1 !! 0%nat = all_sessions s !! 0%nat ∧ ended s1 ≠ [].
Proof. intros Hne E. unfold all_sessions. rewrite E. by destruct (ended s). Qed.

Lemma one_session s : ended s ≠ [] → length (all_sessions s) = 1%nat → live s = None.
Proof. unfold all_sessions. destruct s as [[|x over] [cl|]]; cbn; [done..| |done]. rewrite length_app. simpl. lia. Qed.

Lemma session_packet_none s pkt s' : live s = None → Forall opens_none (option_list (talk_packet config k pkt)) →
  session_packet config k s pkt = Done s' → s' = s.
Proof.
  intros Hl Hno. rewrite session_packet_talk. destruct (talk_packet config k pkt) as [[[[src dst] tcp] ts]|]; [|by intros [= <-]].
  apply Forall_cons in Hno as [Hno _]. unfold session_receive, session_for. rewrite Hl. cbn in Hno. rewrite Hno. by intros [= <-].
Qed.
Lemma session_packet_grows s pkt s' : session_packet config k s pkt = Done s' → ∃ t, ended s' = ended s ++ t.
Proof.
  rewrite session_packet_talk. destruct (talk_packet config k pkt) as [[[[src dst] tcp] ts]|]; [apply session_receive_grows|].
  intros [= <-]. exists []. by rewrite app_nil_r.
Qed.
Lemma session_flush_grows t s s' : session_flush t s = Done s' → ∃ t, ended s' = ended s ++ t.
Proof.
  unfold session_flush. destruct (live s) as [cn|]; [|intros [= <-]; exists []; by rewrite app_nil_r].
  destruct (_ <? _); [|intros [= <-]; exists []; by rewrite app_nil_r].
  destruct (conn_flushOlderThan cn) as [cn'| |]; [|done..]. intros [= <-]. by exists [cn'].
Qed.

(** *** After its end: only its handler touches it. *)
Lemma loop_over events id : ∀ a ids s cn hu hd su sd a' p, captures a → Forall event_ok events → sees a k (id :: ids) s →
  all_sessions s !! 0%nat = Some cn → ended s ≠ [] → fits hu hd su sd cn → capture_from events a = Done (a', p) →
  came_out id (history id Up events a hu) (history id Down events a hd) su sd
    (length (all_sessions s) = 1%nat ∧ Forall opens_none (talk config k events)) a'.
Proof.
  induction events as [|e events IH]; intros a ids s cn hu hd su sd a' p Ha Hok Hs H0 Hne Hf Hrun; [done|].
  apply Forall_cons in Hok as [He Hok]. destruct e as [[pkt|]|now ord|i sd' act].
  - apply capture_from_step in Hrun as (a1 & E & Hrun); [|done]. rewrite !(history_cons _ _ _ events a a1), !history_step_other by done.
    pose proof (captures_step _ _ _ Ha He E) as Ha1. cbn [capture_step] in E. destruct Ha as [Hr Hset].
    destruct (packet_simulated config k a (id :: ids) s pkt a1 Hr Hset Hs E) as (s1 & ids1 & Hstep & Hs1 & t & -> & _).
    destruct (session_packet_grows _ _ _ Hstep) as [t' Hg]. destruct (first_stays s s1 t' Hne Hg) as [H1 Hne1].
    eapply came_out_weaken; [|eapply (IH a1 (ids ++ t) s1 cn); [done..|congruence|done|done|exact Hrun]].
    cbn [talk]. intros [Hl [Hno Hno']%Forall_app]. split; [|done].
    by rewrite (session_packet_none s pkt s1 (one_session s Hne Hl) Hno Hstep).
  - apply capture_from_end in Hrun. cbn [history talk]. destruct Ha as [[HI _] _].
    destruct (finish_simulated k a (id :: ids) s _ a' HI (Horder _) Hs Hrun) as (s' & Hfin & Hl & Hs').
    destruct (session_finish_grows _ _ Hfin) as [t Hg]. destruct (first_stays s s' t Hne Hg) as [H1 _].
    destruct (sees_first a' id ids s' cn Hs' ltac:(congruence)) as [Hc _]. exists cn. split_and!; [done..|].
    intros [Hlen _]. apply (sees_alone a' id ids s' Hs'). unfold session_finish in Hfin. rewrite (one_session s Hne Hlen) in Hfin. congruence.
  - apply capture_from_step in Hrun as (a1 & E & Hrun); [|done]. rewrite !(history_cons _ _ _ events a a1), !history_step_other by done.
    pose proof (captures_step _ _ _ Ha He E) as Ha1. cbn [capture_step] in E. destruct Ha as [[HI _] _].
    destruct (flush_simulated k a (id :: ids) s _ _ a1 HI (He _) Hs E) as (s1 & Hstep & Hs1).
    destruct (session_flush_grows _ _ _ Hstep) as [t' Hg]. destruct (first_stays s s1 t' Hne Hg) as [H1 Hne1].
    eapply came_out_weaken; [|eapply (IH a1 ids s1 cn); [done..|congruence|done|done|exact Hrun]].
    cbn [talk]. intros [Hl Hno]. split; [|done]. unfold session_flush in Hstep. rewrite (one_session s Hne Hl) in Hstep. congruence.
  - apply capture_from_step in Hrun as (a1 & E & Hrun); [|done]. rewrite !(history_cons _ _ _ events a a1) by done.
    pose proof (captures_step _ _ _ Ha He E) as Ha1. cbn [capture_step] in E.
    destruct (acts_located k a (id :: ids) s i sd' act a1 Hs E) as [[Hi Hs1]|(j & cn1 & st & s1 & Hj & Hc1 & Hcj & Hst & Hall & Hlen & Hs1)].
    + apply not_elem_of_cons in Hi as [Hi _]. rewrite !history_step_other by (intros ? ? [= ->]; done).
      by eapply (IH a1 ids s cn).
    + assert (ended s1 ≠ []) as Hne1 by (intros Hz; rewrite Hz in Hlen; by destruct (ended s)).
      destruct (decide (j = 0%nat)) as [->|Hj0].
      * injection Hj as <-. assert (cn1 = cn) as -> by congruence.
        eapply came_out_weaken; [|eapply (IH a1 ids s1 (set_side cn sd' st)); [done..| |done|by apply fits_act|exact Hrun]].
        -- cbn [talk]. rewrite Hall, length_insert. done.
        -- rewrite Hall. apply list_lookup_insert_eq. by eapply lookup_lt_Some.
      * assert (i ≠ id) as Hi. { intros ->. apply Hj0. eapply (NoDup_lookup (id :: ids)); [apply Hs|exact Hj|done]. }
        rewrite !history_step_other by (intros ? ? [= ->]; done).
        eapply came_out_weaken; [|eapply (IH a1 ids s1 cn); [done..| |done|done|exact Hrun]].
        -- cbn [talk]. rewrite Hall, length_insert. done.
        -- rewrite Hall. by rewrite list_lookup_insert_ne.
Qed.

(** *** While the endpoints talk *)

(** The packets [l1] are still to come; with them, and unread, the streams
    come to [su] and [sd]. *)
Record talks (hu hd : option (list byte)) (su sd : netStream) (l1 : list spoken) (cn : TCPConnection) : Prop := {
  tk_rpc : isRPC cn = true;
  tk_client : ClientID cn = client;
  tk_key : key cn = k;
  tk_open : conn_closed cn = false;
  tk_up : ∃ s0, behind hu s0 (UpStream cn) ∧ is_open s0 ∧ ignore s0 = false ∧ stream_ops (up_ops client l1) s0 = Done su;
  tk_down : ∃ s0, behind hd s0 (DownStream cn) ∧ is_open s0 ∧ ignore s0 = false ∧ stream_ops (down_ops client l1) s0 = Done sd }.

Lemma talks_ops h m l1 s s' (f : spoken → list op) su :
  (∃ s0, behind h s0 s ∧ is_open s0 ∧ ignore s0 = false ∧ stream_ops (flat_map f (m :: l1)) s0 = Done su) → is_open s →
  stream_ops (f m) s = Done s' →
  (∃ s0, behind h s0 s' ∧ is_open s0 ∧ ignore s0 = false ∧ stream_ops (flat_map f l1) s0 = Done su) ∧ is_open s'.
Proof.
  intros (s0 & Hb & Ho0 & Hi & H) Ho Hs. cbn [flat_map] in H. apply stream_ops_app in H as (s1 & H1 & H).
  destruct (behind_ops h _ _ _ _ _ Hb Ho Ho0 Hi H1 Hs) as (? & ? & ? & ?). split; [|done]. by exists s1.
Qed.

Lemma talks_receive hu hd su sd cn src dst tcp ts l l1 rest s1 : talks hu hd su sd l1 cn → conn_open cn →
  until_closed client (closed (UpStream cn)) (closed (DownStream cn)) ((src, dst, tcp, ts) :: l) = (l1, rest) →
  session_receive config k (mkSessions [] (Some cn)) src dst tcp ts = Done s1 →
  (∃ cn1 l1', s1 = mkSessions [] (Some cn1) ∧ talks hu hd su sd l1' cn1 ∧
     until_closed client (closed (UpStream cn1)) (closed (DownStream cn1)) l = (l1', rest)) ∨
  (∃ cn2, s1 = mkSessions [cn2] None ∧ fits hu hd su sd cn2 ∧ rest = l).
Proof.
  intros [Hr Hcl Hk _ Hup Hdown] Hopen Hun. unfold session_receive, session_for. cbn [live].
  destruct (onReceive cn src dst tcp ts) as [cn1| |] eqn:E; [|done..]. cbn [mbind sched_bind ended].
  destruct (onReceive_ops client cn src dst tcp ts cn1 Hr Hcl Hopen E) as (up & down & Hu & Hd & ->). cbn [until_closed] in Hun.
  set (bu := closed (UpStream cn) || _) in *. set (bd := closed (DownStream cn) || _) in *. set (m := (src, dst, tcp, ts)) in *.
  assert (∃ l1', l1 = m :: l1' ∧ if bu && bd then l1' = [] ∧ rest = l else until_closed client bu bd l = (l1', rest)) as (l1' & -> & Hl1).
  { destruct (bu && bd); [|destruct (until_closed client bu bd l)]; simplify_eq/=; by eexists. }
  destruct Hopen as [Hou Hod].
  destruct (talks_ops _ m l1' _ up (up_ops_of client) su Hup Hou Hu) as [(s0 & Hb & Ho0 & Hi0 & Hs0) Hou'].
  destruct (talks_ops _ m l1' _ down (down_ops_of client) sd Hdown Hod Hd) as [(t0 & Hbt & Hot0 & Hit0 & Ht0) Hod'].
  change (conn_closed _) with (bu && bd). destruct (bu && bd) eqn:Eb.
  - destruct Hl1 as [-> ->]. cbn in Hs0, Ht0. simplify_eq. destruct (conn_finish _) as [cn2| |] eqn:Ef; [|done..]. intros [= <-].
    right. exists cn2. split_and!; [done| |done]. refine (fits_finish _ _ _ _ _ _ _ _ Ef); by split_and!.
  - intros [= <-]. left. eexists _, l1'. split; [reflexivity|]. split; [|done].
    split; [done..| | |]; [exact Eb|by exists s0|by exists t0].
Qed.

Lemma talks_act a id cn sd' act st hu hd su sd l1 : conns a !! id = Some cn → talks hu hd su sd l1 cn →
  stream_act act (get_side cn sd') = Done st →
  let cn' := set_side cn sd' st in
  talks (history_step id Up (Acts id sd' act) a hu) (history_step id Down (Acts id sd' act) a hd) su sd l1 cn' ∧
  closed (UpStream cn') = closed (UpStream cn) ∧ closed (DownStream cn') = closed (DownStream cn).
Proof.
  intros Hc [Hr Hcl Hk Hop (s0 & Hb & Ho0 & Hi0 & H0) (t0 & Hbt & Hot0 & Hit0 & H1)] Hst cn'.
  destruct (stream_act_same _ _ _ Hst) as (_ & Hcs & _).
  destruct (fits_act a id cn sd' act st hu hd s0 t0 Hc) as (_ & _ & Hb' & Hbt'); [by split_and!|done|].
  assert (closed (UpStream cn') = closed (UpStream cn) ∧ closed (DownStream cn') = closed (DownStream cn)) as [Hcu Hcd] by (by destruct sd').
  split; [|done]. split; [by destruct sd'..| | |]; [by unfold conn_closed; rewrite Hcu, Hcd|by exists s0|by exists t0].
Qed.
Lemma talks_finish hu hd su sd cn cn' : talks hu hd su sd [] cn → conn_open cn → conn_finish cn = Done cn' → fits hu hd su sd cn'.
Proof.
  intros [_ Hcl Hk _ (s0 & Hb & _ & _ & H0) (t0 & Hbt & _ & _ & H1)] Hopen Ef. cbn in H0, H1. simplify_eq.
  refine (fits_finish _ _ _ _ _ _ _ Hopen Ef). by split_and!.
Qed.

(** The present connection is in the map, and so it is open. *)
Lemma live_open a id cn : captures a → sees a k [id] (mkSessions [] (Some cn)) → conns a !! id = Some cn ∧ conn_open cn.
Proof.
  intros [[HI _] _] Hs. destruct (sees_live a k _ _ _ Hs) as (ids0 & id' & Hids & Hd & Hc & Hk & H0 & _).
  apply Forall2_nil_inv_r in H0 as ->. injection Hids as <-. split; [done|].
  apply (inv_in a [] HI id cn Hc). unfold in_map. by rewrite Hk.
Qed.

Lemma loop_talking events id : ∀ a cn hu hd su sd l1 rest last a' p, captures a → Forall event_ok events →
  sees a k [id] (mkSessions [] (Some cn)) → talks hu hd su sd l1 cn → steady config k last events = true → heard last (mkSessions [] (Some cn)) →
  until_closed client (closed (UpStream cn)) (closed (DownStream cn)) (talk config k events) = (l1, rest) →
  capture_from events a = Done (a', p) →
  came_out id (history id Up events a hu) (history id Down events a hd) su sd (Forall opens_none rest) a'.
Proof.
  induction events as [|e events IH]; intros a cn hu hd su sd l1 rest last a' p Ha Hok Hs Ht Hst Hh Hun Hrun; [done|].
  apply Forall_cons in Hok as [He Hok]. destruct (live_open a id cn Ha Hs) as [Hc Hopen]. destruct e as [[pkt|]|now ord|i sd' act].
  - apply capture_from_step in Hrun as (a1 & E & Hrun); [|done]. rewrite !(history_cons _ _ _ events a a1), !history_step_other by done.
    pose proof (captures_step _ _ _ Ha He E) as Ha1. cbn [capture_step] in E. destruct Ha as [Hr Hset]. cbn [talk steady] in *.
    destruct (packet_simulated config k a [id] _ pkt a1 Hr Hset Hs E) as (s1 & ids1 & Hstep & Hs1 & t & -> & _).
    rewrite session_packet_talk in Hstep. destruct (talk_packet config k pkt) as [[[[src dst] tcp] ts]|]; cbn [option_list app] in *.
    + pose proof (session_receive_heard _ _ _ _ _ _ _ _ Hstep) as Hh1.
      destruct (talks_receive _ _ _ _ _ _ _ _ _ _ _ _ _ Ht Hopen Hun Hstep) as [(cn1 & l1' & -> & Ht1 & Hun1)|(cn2 & -> & Hf & ->)].
      * pose proof (Forall2_length _ _ _ (se_conns _ _ _ _ Hs1)) as Hlen. destruct t; [|done]. by eapply IH.
      * eapply came_out_weaken; [|by eapply (loop_over events id a1 t _ cn2)]. done.
    + injection Hstep as <-. pose proof (Forall2_length _ _ _ (se_conns _ _ _ _ Hs1)) as Hlen. destruct t; [|done]. by eapply IH.
  - apply capture_from_end in Hrun. cbn [history talk until_closed] in *. simplify_eq. destruct Ha as [[HI _] _].
    destruct (finish_simulated k a [id] _ _ a' HI (Horder _) Hs Hrun) as (s' & Hfin & Hl & Hs').
    unfold session_finish in Hfin. cbn [live] in Hfin. destruct (conn_finish cn) as [cn'| |] eqn:Ef; [|done..]. cbn [mbind sched_bind] in Hfin.
    injection Hfin as <-. destruct (sees_first a' id [] _ cn' Hs' eq_refl) as [Hc' _]. exists cn'. split; [done|].
    split; [by eapply talks_finish|by intros _; eapply sees_alone].
  - apply capture_from_step in Hrun as (a1 & E & Hrun); [|done]. rewrite !(history_cons _ _ _ events a a1), !history_step_other by done.
    pose proof (captures_step _ _ _ Ha He E) as Ha1. cbn [capture_step] in E. destruct Ha as [[HI _] _]. cbn [talk steady] in *.
    destruct (flush_simulated k a [id] _ _ _ a1 HI (He _) Hs E) as (s1 & Hstep & Hs1). apply andb_true_iff in Hst as [Hl Hst].
    unfold session_flush in Hstep. cbn [live] in Hstep. rewrite (Hh cn eq_refl) in Hl. zbool.
    destruct (Z.ltb_spec (lastTimestamp cn) (now + Minute * -2)); [lia|]. injection Hstep as <-. by eapply IH.
  - apply capture_from_step in Hrun as (a1 & E & Hrun); [|done]. rewrite !(history_cons _ _ _ events a a1) by done.
    pose proof (captures_step _ _ _ Ha He E) as Ha1. cbn [capture_step talk steady] in *.
    destruct (acts_located k a [id] _ i sd' act a1 Hs E) as [[Hi Hs1]|(j & cn1 & st & s1 & Hj & Hc1 & Hcj & Hst1 & Hall & Hlen & Hs1)].
    + apply not_elem_of_cons in Hi as [Hi _]. rewrite !history_step_other by (intros ? ? [= ->]; done). by eapply IH.
    + apply list_lookup_singleton_Some in Hj as [-> <-]. assert (cn1 = cn) as -> by congruence.
      destruct s1 as [over l]. cbn [ended] in Hlen. destruct over; [|done]. unfold all_sessions in Hall. cbn in Hall.
      destruct l as [cl|]; [|done]. injection Hall as ->.
      destruct (talks_act a id cn sd' act st hu hd su sd l1 Hc1 Ht Hst1) as (Ht1 & Hcu & Hcd).
      eapply (IH a1 (set_side cn sd' st)); [done..| |by rewrite Hcu, Hcd|exact Hrun].
      intros x [= <-]. rewrite (Hh cn eq_refl). by destruct sd'.
Qed.

(** *** From the start *)

(** A new stream whose channel has room for [n] packets. *)
Definition roomy_stream (n : Z) : netStream := mkStream (newReceiveWindow 64) (mkChan [] n false) [] false false.

Lemma talks_new nu nd su sd l1 :
  stream_ops (up_ops client l1) (roomy_stream nu) = Done su → stream_ops (down_ops client l1) (roomy_stream nd) = Done sd →
  talks (Some []) (Some []) su sd l1 (mkConn newNetStream newNetStream client 0 true k).
Proof.
  intros Hu Hd. split; [done..| |].
  - exists (roomy_stream nu). split_and!; [by apply behind_new|done..].
  - exists (roomy_stream nd). split_and!; [by apply behind_new|done..].
Qed.

Lemma history_step_new id sd e a h : (length (conns a) ≤ id)%nat → history_step id sd e a h = h.
Proof. intros Hid. unfold history_step. rewrite lookup_ge_None_2 by done. by destruct e. Qed.

Lemma history_later id sd e events a a1 h : e ≠ Receives None → capture_step e a = Done a1 → (length (conns a) ≤ id)%nat →
  history id sd (e :: events) a h = history id sd events a1 h.
Proof. intros He E Hid. by rewrite (history_cons _ _ _ events a a1), history_step_new. Qed.

Lemma loop_silent events : ∀ a last m l l1 rest nu nd su sd a' p, captures a → Forall event_ok events → sees a k [] no_sessions →
  talk config k events = m :: l → m.1.1.1 = client → creates config m.1.2 = true → steady config k last events = true →
  until_closed client false false (m :: l) = (l1, rest) →
  stream_ops (up_ops client l1) (roomy_stream nu) = Done su → stream_ops (down_ops client l1) (roomy_stream nd) = Done sd →
  capture_from events a = Done (a', p) →
  ∃ id, (length (conns a) ≤ id)%nat ∧
    came_out id (history id Up events a (Some [])) (history id Down events a (Some [])) su sd (Forall opens_none rest) a'.
Proof.
  induction events as [|e events IH]; intros a last m l l1 rest nu nd su sd a' p Ha Hok Hs Htalk Hm Hcr Hst Hun Hu Hd Hrun; [done|].
  apply Forall_cons in Hok as [He Hok].
  assert (∀ a1, e ≠ Receives None → capture_step e a = Done a1 → sees a1 k [] no_sessions → capture_from events a1 = Done (a', p) →
    talk config k events = m :: l → (∃ last, steady config k last events = true) → ∃ id, (length (conns a) ≤ id)%nat ∧
    came_out id (history id Up (e :: events) a (Some [])) (history id Down (e :: events) a (Some [])) su sd (Forall opens_none rest) a') as Hskip.
  { intros a1 Hne E Hs1 Hrun1 Ht1 [last1 Hst1]. pose proof (step_length _ _ _ (proj1 Ha) He E) as Hlen.
    edestruct (IH a1 last1) as (id & Hid & Hout); [by eapply captures_step|done..|]. exists id. split; [lia|].
    by rewrite !(history_later _ _ e events a a1) by (done || lia). }
  destruct e as [[pkt|]|now ord|i sd' act]; cbn [talk steady] in *.
  - apply capture_from_step in Hrun as (a1 & E & Hrun); [|done]. pose proof (captures_step _ _ _ Ha He E) as Ha1.
    destruct (packet_simulated config k a [] _ pkt a1 (proj1 Ha) (proj2 Ha) Hs E) as (s1 & ids & Hstep & Hs1 & new & -> & Hnew).
    rewrite session_packet_talk in Hstep. destruct (talk_packet config k pkt) as [[[[src dst] tcp] ts]|] eqn:Etalk; cbn [option_list app] in *.
    + injection Htalk as <- <-. cbn in Hm, Hcr. subst src. pose proof (session_receive_heard _ _ _ _ _ _ _ _ Hstep) as Hh1.
      set (cn0 := mkConn newNetStream newNetStream client 0 true k).
      assert (session_receive config k (mkSessions [] (Some cn0)) client dst tcp ts = Done s1) as Hstep0.
      { rewrite <-Hstep. unfold session_receive, session_for. cbn [live no_sessions]. by rewrite Hcr. }
      pose proof (Forall2_length _ _ _ (se_conns _ _ _ _ Hs1)) as Hlen.
      destruct (talks_receive _ _ _ _ cn0 _ _ _ _ _ _ _ _ (talks_new _ _ _ _ _ Hu Hd) ltac:(done) Hun Hstep0)
        as [(cn1 & l1' & -> & Ht1 & Hun1)|(cn2 & -> & Hf & ->)]; (destruct new as [|id [|]]; [done| |done]);
        apply Forall_cons in Hnew as [Hid _]; exists id; (split; [done|]); rewrite !(history_later _ _ (Receives (Some pkt)) events a a1) by done.
      * by eapply loop_talking.
      * eapply came_out_weaken; [|by eapply (loop_over events id a1 [] _ cn2)]. done.
    + injection Hstep as <-. pose proof (Forall2_length _ _ _ (se_conns _ _ _ _ Hs1)) as Hlen. destruct new; [|done]. apply (Hskip a1); eauto.
  - done.
  - apply andb_true_iff in Hst as [_ Hst]. apply capture_from_step in Hrun as (a1 & E & Hrun); [|done].
    destruct (flush_simulated k a [] _ _ _ a1 (proj1 (proj1 Ha)) (He _) Hs E) as (s1 & [= <-] & Hs1). apply (Hskip a1); eauto.
  - apply capture_from_step in Hrun as (a1 & E & Hrun); [|done].
    destruct (acts_located k a [] _ i sd' act a1 Hs E) as [[_ Hs1]|(j & ? & ? & ? & Hj & _)]; [apply (Hskip a1); eauto|done].
Qed.
End first.

(** ** From the packets to the streams *)

(** A direction in which every acknowledgement is of captured bytes and the
    whole stream is acknowledged in the end. *)
Record direction (S : list byte) (isn : Z) (ops : list op) : Prop := {
  di_clear : clear_range isn (isn + len S + 1);
  di_parts : ∀ p, OpInsert p ∈ ops → part_of S isn p;
  di_consistent : consistent_ops ops;
  di_acks : acks_seen S isn [] ops;
  di_all : S = [] ∨ ∃ ack, OpConfirm ack ∈ ops ∧ isn + len S ≤ ack }.

Lemma direction_stream S isn ops : direction S isn ops →
  ∃ s, stream_ops ops (roomy_stream (inserts ops)) = Done s ∧ stream_bytes s = S.
Proof.
  intros [Hc Hp Hco Ha Hall].
  destruct (exec_live_new S isn Hc ops 64 (c (roomy_stream (inserts ops)))) as (w & d & e & Hex & He & Hd & Hmax); [lia|done..|].
  rewrite stream_ops_exec by done. cbn [window roomy_stream] in *. rewrite Hex. cbn [mbind sched_bind].
  eexists. split; [reflexivity|]. unfold stream_bytes. cbn [remain c queue sent app roomy_stream]. rewrite Hd.
  apply ztake_ge. destruct Hall as [->|(ack & Hin & Hge)]; [change (len []) with 0; lia|]. specialize (Hmax ack Hin). lia.
Qed.

(** ** A conversation *)

Section conversation.
Context (det : list byte → bool) (global : GlobalConfig) (events : list event) (client server : Endpoint).

Definition settings_of : TCPAssembler := fresh (Some det) (IP global) (Port global).
(** Their packets up to the one that closes the second direction. *)
Definition exchange : list spoken * list spoken :=
  until_closed client false false (talk settings_of (conn_key client server) events).

(** What the endpoints send each other, [up] from the client and [down] from
    the server, is captured: the first packet is the client's and opens the
    connection, no tick finds it idle, and either direction is acknowledged
    to its end. *)
Record conversation (up down : list byte) (isn_up isn_down : Z) : Prop := {
  cv_client : printed client;
  cv_server : printed server;
  cv_steady : steady settings_of (conn_key client server) None events = true;
  cv_first : ∃ m l, talk settings_of (conn_key client server) events = m :: l ∧ m.1.1.1 = client ∧ creates settings_of m.1.2 = true;
  cv_up : direction up isn_up (up_ops client exchange.1);
  cv_down : direction down isn_down (down_ops client exchange.1) }.

(** What goroutine [id] has read by the end of the packets. *)
Definition read_by (id : nat) (sd : side) : option (list byte) := history id sd events settings_of (Some []).

(** A connection of the two endpoints, at the place [id] and served by
    goroutine [id]; both streams are finished, and hold these bytes behind
    what has been read.  It is the only one unless a packet behind its end
    opens another. *)
Definition handed_over (a : TCPAssembler) (id : nat) (cn : TCPConnection) (up down : list byte) : Prop :=
  conns a !! id = Some cn ∧ handled a !! id = Some (client, server, id) ∧
  (Forall (λ m : spoken, creates settings_of m.1.2 = false) exchange.2 →
   ∀ id' cn', conns a !! id' = Some cn' → key cn' = conn_key client server → id' = id) ∧
  ready (UpStream cn) ∧ (∀ b, read_by id Up = Some b → b ++ pending (UpStream cn) = up) ∧
  ready (DownStream cn) ∧ (∀ b, read_by id Down = Some b → b ++ pending (DownStream cn) = down).

Lemma conversation_handed_over order printer a p up down isn_up isn_down :
  Forall event_ok events → Forall event_printed events → (∀ l, order l ≡ₚ l) → conversation up down isn_up isn_down →
  run_capture det global events order printer = Done (a, p) → ∃ id cn, handed_over a id cn up down.
Proof.
  intros Hok Hpr Horder [Hcp Hsp Hst (m & l & Htalk & Hm & Hcr) Hup Hdown] Hrun. unfold handed_over.
  destruct (direction_stream _ _ _ Hup) as (su & Hsu & Hbu), (direction_stream _ _ _ Hdown) as (sd & Hsd & Hbd).
  assert (captures settings_of settings_of) as Hcap by (split; [apply fresh_running|done]).
  unfold exchange in *. destruct (until_closed _ _ _ _) as [l1 rest] eqn:Hun. rewrite Htalk in Hun. cbn [fst snd] in *.
  destruct (loop_silent settings_of (conn_key client server) client order printer Horder events settings_of None m l l1 rest
    (inserts (up_ops client l1)) (inserts (down_ops client l1)) su sd a p)
    as (id & _ & cn & Hc & (Hcl & Hk & Hfu & Hfd) & Halone);
    [exact Hcap|exact Hok|apply sees_fresh|exact Htalk|exact Hm|exact Hcr|exact Hst|exact Hun|exact Hsu|exact Hsd|exact Hrun|].
  destruct (run_capture_served _ _ _ _ _ _ _ Hok Hpr Hrun) as [_ Hserved]. destruct (Hserved id cn Hc) as (dst & Hh & Hkey & Hdp & _).
  assert (dst = server) as ->.
  { rewrite Hcl, Hk in Hkey. apply conn_key_same in Hkey; [|done..]. intuition congruence. }
  assert (is_shut (UpStream cn) ∧ is_shut (DownStream cn)) as [Hru Hrd].
  { unfold run_capture in Hrun. cbv zeta in Hrun. destruct (capture_loop events _) as [a1| |] eqn:E; [|done..]. cbn [mbind sched_bind] in Hrun.
    destruct (FinishAll a1 _) as [a2| |] eqn:E2; [|done..]. cbn [mbind sched_bind] in Hrun. destruct (run _); [|done..]. injection Hrun as -> _.
    assert (running a1) as [HI _].
    { pose proof (capture_loop_safe events settings_of (proj1 Hcap) Hok) as Hsafe. unfold settings_of in Hsafe. by rewrite E in Hsafe. }
    destruct (FinishAll_spec a1 (order (dict_ids a1)) HI (Horder _)) as (a' & E' & HI' & Hn & _).
    assert (a' = a) as -> by congruence. apply (inv_out a [] HI' id cn Hc). unfold in_map, dict_lookup. by rewrite Hn. }
  exists id, cn. rewrite Hcl in Hh. cbn [fst snd]. split_and!; [done..| |done|]; intros b Hb.
  - destruct (Hfu b Hb) as [Hz _]. by rewrite <-Hbu, <-Hz.
  - destruct (Hfd b Hb) as [Hz _]. by rewrite <-Hbd, <-Hz.
Qed.
End conversation.
