(* ===== verification/Room.v ===== *)
(** * A capture that does not have to wait

    The channel of a direction holds 1024 packets.  While no two endpoints have
    exchanged more, the loop never waits for a handler, and so the capture comes
    to its end. *)

From S2P Require Import Prelude GoBytes GoStrings Window WindowRing WindowRun Reader Stream.
From S2P Require Import Assembler AssemblerInv Cli Capture Sessions.
From S2P Require Printers.

(** ** Streams *)

(** At most [n] packets are pending or queued. *)
Definition stream_room (n : Z) (s : netStream) : Prop :=
  capacity (c s) = 1024 ∧ len (queue (c s)) + size (window s) ≤ n.

Lemma stream_room_mono n m s : stream_room n s → n ≤ m → stream_room m s.
Proof. intros [? ?] ?. split; [done|lia]. Qed.

Lemma rep_size w l : rep w l → size w = len l.
Proof. intros Hr. pose proof (rf_size _ _ _ Hr). lia. Qed.

Lemma insert_list_len e l p : len (insert_list e l p) ≤ len l + 1.
Proof.
  unfold insert_list. destruct (_ && _); [lia|]. destruct (_ =? 0); [lia|]. destruct (scan_list _ _ _) as [i|]; [|lia].
  rewrite <-(ztake_zdrop i l) at 3. len_simpl. lia.
Qed.
Lemma confirm_list_len ack l : ∀ e, let '(d, r, _) := confirm_list ack e l in len d + len r ≤ len l.
Proof.
  induction l as [|p l IH]; intros e; cbn [confirm_list]; [by len_simpl|]. destruct (0 <=? _); [len_simpl; lia|].
  destruct (trimmed e p).
  - specialize (IH (seq_end p)). destruct (confirm_list _ _ _) as [[d r] e']. len_simpl. lia.
  - specialize (IH e). destruct (confirm_list _ _ _) as [[d r] e']. len_simpl. lia.
Qed.

Lemma appendPacket_room n s tcp : stream_wf s → stream_room n s →
  ∃ s', appendPacket s tcp = Done s' ∧ stream_room (n + 1) s' ∧ c s' = c s.
Proof.
  intros (l & Hr & _) [Hc Hn]. unfold appendPacket. destruct (ignore s).
  { exists s. split; [done|]. split; [split; [done|lia]|done]. }
  destruct (insert_rep _ _ tcp Hr) as (w' & -> & Hr' & _). cbn [run mbind sched_bind]. eexists. split; [reflexivity|].
  split; [|done]. split; [done|]. cbn [c window]. rewrite (rep_size _ _ Hr'). rewrite (rep_size _ _ Hr) in Hn.
  pose proof (insert_list_len (expectBegin (window s)) l tcp). lia.
Qed.

Lemma confirmPacket_room n s ack : stream_wf s → is_open s → stream_room n s → n ≤ 1024 →
  ∃ s', confirmPacket s ack = Done s' ∧ stream_room n s'.
Proof.
  intros (l & Hr & Hl) Ho [Hc Hn] Hmax. unfold confirmPacket. destruct (ignore s); [by exists s|].
  pose proof (confirm_rep _ _ ack Hr Hl) as Hcr. pose proof (confirm_list_len ack l (expectBegin (window s))) as Hlen.
  destruct (confirm_list _ _ _) as [[d r] e]. destruct Hcr as (w' & -> & Hr' & _). rewrite (rep_size _ _ Hr) in Hn.
  pose proof (len_nonneg r). rewrite send_all_room by (done || lia). cbn [mbind sched_bind]. eexists. split; [reflexivity|].
  split; [done|]. cbn [c window sent queue]. rewrite (rep_size _ _ Hr'). len_simpl. lia.
Qed.

(** ** Connections *)

Definition conn_room (n : Z) (cn : TCPConnection) : Prop := stream_room n (UpStream cn) ∧ stream_room n (DownStream cn).

Lemma conn_room_mono n m cn : conn_room n cn → n ≤ m → conn_room m cn.
Proof. intros [??] ?. split; by eapply stream_room_mono. Qed.

Lemma conn_room_new k : conn_room 0 (newTCPConnection k).
Proof. split; (split; [done|by vm_compute]). Qed.

Lemma onReceive_room n cn src dst tcp ts : conn_wf cn → conn_open cn → len (Payload tcp) < 2 ^ 32 → conn_room n cn → n + 1 ≤ 1024 →
  ∃ cn', onReceive cn src dst tcp ts = Done cn' ∧ conn_room (n + 1) cn'.
Proof.
  intros [Hu Hd] [Hou Hod] Hp [Hru Hrd] Hn. unfold onReceive.
  assert (∀ s, stream_wf s → is_open s → stream_room n s →
    ∃ s', (if ACK tcp then confirmPacket s (Ack tcp) else Done s) = Done s' ∧ stream_room (n + 1) s') as Hconf.
  { intros s Hw Ho Hr. destruct (ACK tcp); [|exists s; split; [done|eapply stream_room_mono; [exact Hr|lia]]].
    destruct (confirmPacket_room n s (Ack tcp) Hw Ho Hr ltac:(lia)) as (s' & -> & Hs'). exists s'. split; [done|].
    eapply stream_room_mono; [exact Hs'|lia]. }
  destruct (Endpoint_Equals _ src).
  - destruct (appendPacket_room n _ tcp Hu Hru) as (up & -> & Hup & _), (Hconf _ Hd Hod Hrd) as (down & -> & Hdown). cbn [mbind sched_bind].
    eexists. split; [reflexivity|]. by destruct (FIN tcp || RST tcp).
  - destruct (appendPacket_room n _ tcp Hd Hrd) as (down & -> & Hdown & _), (Hconf _ Hu Hou Hru) as (up & -> & Hup). cbn [mbind sched_bind].
    eexists. split; [reflexivity|]. by destruct (FIN tcp || RST tcp).
Qed.

Lemma conn_finish_room n cn cn' : conn_finish cn = Done cn' → conn_room n cn → conn_room n cn'.
Proof.
  unfold conn_finish, stream_finish, close. destruct (chan_closed (c (UpStream cn))); [done|]. cbn [mbind sched_bind].
  destruct (chan_closed (c (DownStream cn))); [done|]. cbn [mbind sched_bind]. by intros [= <-].
Qed.
Lemma conn_flush_room n cn cn' : conn_flushOlderThan cn = Done cn' → conn_room n cn → conn_room n cn'.
Proof. intros H Hr. by eapply conn_finish_room. Qed.

(** ** The assembler *)

(** The packets two endpoints have exchanged. *)
Definition packet_key (pkt : Packet) : option (list byte) :=
  match NetworkLayer pkt, TransportLayer pkt with
  | Some (srcIP, dstIP), Some (TCPLayer tcp) => Some (conn_key (mkEndpoint srcIP (SrcPort tcp)) (mkEndpoint dstIP (DstPort tcp)))
  | _, _ => None
  end.
Fixpoint packets_with (k : list byte) (events : list event) : Z :=
  match events with
  | [] | Receives None :: _ => 0
  | Receives (Some pkt) :: events => (if decide (packet_key pkt = Some k) then 1 else 0) + packets_with k events
  | _ :: events => packets_with k events
  end.

Lemma packets_with_nonneg k events : 0 ≤ packets_with k events.
Proof.
  induction events as [|[[pkt|]|now order|id sd act] events IH]; cbn [packets_with]; try lia.
  destruct (decide _); lia.
Qed.

Definition roomy (f : list byte → Z) (a : TCPAssembler) : Prop :=
  ∀ id cn, conns a !! id = Some cn → conn_room (f (key cn)) cn.

Lemma roomy_mono f g a : roomy f a → (∀ k, f k ≤ g k) → roomy g a.
Proof. intros H Hfg id cn Hc. eapply conn_room_mono; [by apply (H id)|done]. Qed.

Lemma roomy_set f a id cn' : roomy f a → conn_room (f (key cn')) cn' → roomy f (set_conn a id cn') .
Proof. intros H Hr i x Hx. destruct (lookup_set _ _ _ _ _ Hx) as [(-> & -> & _)|[_ Hx']]; [done|by apply (H i)]. Qed.

Lemma deliver_room f a id cn src dst tcp ts n : Inv a → conns a !! id = Some cn → in_map a id cn → len (Payload tcp) < 2 ^ 32 →
  roomy f a → conn_room n cn → n + 1 ≤ 1024 → n + 1 ≤ f (key cn) →
  ∃ a', deliver a id src dst tcp ts = Done a' ∧ roomy f a'.
Proof.
  intros HI Hc Hm Hp Hf Hr Hn Hle. unfold deliver, get_conn. rewrite Hc. cbn [of_option run mbind sched_bind].
  destruct (inv_in a [] HI id cn Hc Hm) as [Ho _]. pose proof (inv_wf a [] HI id cn Hc) as Hw.
  destruct (onReceive_room n cn src dst tcp ts Hw Ho Hp Hr Hn) as (cn1 & E & Hr1).
  pose proof (onReceive_safe cn src dst tcp ts Hw Ho Hp) as Hs. rewrite E in Hs |- *. destruct Hs as (_ & Ho1 & Hk1).
  cbn [mbind sched_bind]. cbv zeta. pose proof (conn_room_mono _ _ _ Hr1 Hle) as Hr2. rewrite <-Hk1 in Hr2.
  destruct (conn_closed cn1); [|eexists; split; [reflexivity|by apply (roomy_set f a id)]].
  destruct (conn_finish_shuts cn1 Ho1) as (cn2 & E2 & _ & Hk2 & _). rewrite E2. cbn [mbind sched_bind]. eexists. split; [reflexivity|].
  apply (roomy_set f _ id); [by apply (roomy_set f a id)|]. rewrite Hk2. by eapply conn_finish_room.
Qed.

Lemma packet_room f a pkt : running a → event_ok (Receives (Some pkt)) → roomy f a →
  (∀ k, 0 ≤ f k) → (∀ k, packet_key pkt = Some k → f k + 1 ≤ 1024) →
  ∃ a', take_packet a pkt = Done a' ∧ roomy (λ k, f k + if decide (packet_key pkt = Some k) then 1 else 0) a'.
Proof.
  intros [HI Hd] Hok Hf Hf0 Hmax. set (g := λ k, f k + if decide (packet_key pkt = Some k) then 1 else 0).
  assert (roomy g a) as Hg by (eapply roomy_mono; [exact Hf|intros k; unfold g; destruct (decide _); lia]).
  unfold take_packet, packet_key in *.
  destruct pkt as [[[srcIP dstIP]|] [[tcp|]|] ts]; cbn [NetworkLayer TransportLayer Timestamp] in *; try (by exists a).
  rewrite Assemble_deliver. cbv zeta. set (src := mkEndpoint srcIP _) in *. set (dst := mkEndpoint dstIP _) in *.
  destruct (filtered _ _ _); [by exists a|]. specialize (Hmax _ eq_refl).
  assert (g (conn_key src dst) = f (conn_key src dst) + 1) as Hgk by (unfold g; by rewrite decide_True).
  unfold retrieveConnection. destruct (dict_lookup a _) as [id|] eqn:Hid; cbn [mbind sched_bind].
  - destruct (inv_dict a [] HI _ _ Hid) as (cn & Hc & Hk).
    apply (deliver_room g a id cn src dst tcp ts (f (key cn))); [done|done|unfold in_map; by rewrite Hk|done|done|by apply (Hf id)|rewrite Hk; lia..].
  - destruct (creates a tcp); [|by exists a]. destruct (connectionDict a) as [d|] eqn:Ed; [|done]. cbn [mbind sched_bind].
    set (a1 := mkAssembler _ _ _ _ _ _ _). specialize (Hf0 (conn_key src dst)).
    assert (conns a1 !! length (conns a) = Some (newTCPConnection (conn_key src dst))) as Hc1 by (simpl; by rewrite list_lookup_middle).
    apply (deliver_room g a1 _ (newTCPConnection (conn_key src dst)) src dst tcp ts 0);
      [by by apply Inv_create|exact Hc1|unfold in_map, dict_lookup; simpl; by rewrite lookup_insert_eq|done| |apply conn_room_new|lia|cbn [key newTCPConnection]; lia].
    intros i x Hx. unfold a1 in Hx. cbn [conns] in Hx. apply lookup_app_Some in Hx as [Hx|[_ Hx]]; [by apply (Hg i)|].
    apply list_lookup_singleton_Some in Hx as [_ <-]. eapply conn_room_mono; [apply conn_room_new|]. cbn [key newTCPConnection]. lia.
Qed.

Lemma for_conns_room f g ids : (∀ n cn cn', g cn = Done cn' → conn_room n cn → conn_room n cn') →
  (∀ cn cn', g cn = Done cn' → key cn' = key cn) → ∀ a a', for_conns g ids a = Done a' → roomy f a → roomy f a'.
Proof.
  intros Hg Hk. induction ids as [|id ids IH]; intros a a'; cbn [for_conns]; [by intros [= <-]|]. unfold get_conn.
  destruct (conns a !! id) as [cn|] eqn:Hc; [|done]. cbn [of_option run mbind sched_bind].
  destruct (g cn) as [cn'| |] eqn:E; [|done..]. cbn [mbind sched_bind]. intros Hfor Hf. eapply IH; [exact Hfor|].
  apply (roomy_set f a id); [done|]. rewrite (Hk _ _ E). by eapply Hg, (Hf id).
Qed.
Lemma delete_keys_conns ids : ∀ a a', delete_keys ids a = Done a' → conns a' = conns a.
Proof.
  induction ids as [|id ids IH]; intros a a'; cbn [delete_keys]; [by intros [= <-]|].
  destruct (get_conn a id) as [cn| |]; [|done..]. by intros ->%IH.
Qed.
Lemma flush_room f a t ids a' : FlushOlderThan a t ids = Done a' → roomy f a → roomy f a'.
Proof.
  unfold FlushOlderThan. destruct (delete_keys _ a) as [a1| |] eqn:E; [|done..]. cbn [mbind sched_bind]. intros Hfor Hf.
  eapply for_conns_room; [apply conn_flush_room|apply conn_flush_key|exact Hfor|].
  intros id cn. rewrite (delete_keys_conns _ _ _ E). apply Hf.
Qed.

(** ** The whole capture *)

(** Packets and ticks up to the end of the packets, no handler in between. *)
Fixpoint ends (events : list event) : bool :=
  match events with
  | [] => false
  | Receives None :: _ => true
  | Acts _ _ _ :: _ => false
  | _ :: events => ends events
  end.

Lemma loop_room events : ∀ f a, running a → Forall event_ok events → roomy f a → ends events = true →
  (∀ k, 0 ≤ f k) → (∀ k, f k + packets_with k events ≤ 1024) → ∃ a', capture_loop events a = Done a' ∧ running a'.
Proof.
  induction events as [|e events IH]; intros f a Ha Hok Hf He H0 Hmax; [done|]. apply Forall_cons in Hok as [Hoe Hok].
  destruct e as [[pkt|]|now order|id sd act]; cbn [capture_loop ends packets_with] in *; [| | |done].
  - destruct (packet_room f a pkt Ha Hoe Hf H0) as (a1 & E & Hf1).
    { intros k Hk. specialize (Hmax k). rewrite decide_True in Hmax by done. pose proof (packets_with_nonneg k events). lia. }
    rewrite E. cbn [mbind sched_bind]. eapply IH; [by eapply running_step|done|exact Hf1|done|..].
    + intros k. cbv beta. specialize (H0 k). destruct (decide _); lia.
    + intros k. cbv beta. specialize (Hmax k). lia.
  - by exists a.
  - destruct (flush_running a (now + Minute * -2) (order (dict_ids a)) Ha (Hoe _)) as (a1 & E & Ha1). rewrite E. cbn [mbind sched_bind].
    eapply IH; [done|done|by eapply flush_room|done..].
Qed.

Lemma run_capture_completes det global events order dir : Forall event_ok events → (∀ l, order l ≡ₚ l) → ends events = true →
  (∀ k, packets_with k events ≤ 1024) → ∃ a p, run_capture det global events order (Printers.NewMultiPrinter dir) = Done (a, p).
Proof.
  intros Hok Horder He Hmax. unfold run_capture. cbv zeta.
  destruct (loop_room events (λ _, 0) (fresh (Some det) (IP global) (Port global))) as (a & E & HI & _);
    [apply fresh_running|done| |done|lia|intros k; specialize (Hmax k); lia|].
  { intros id cn. simpl. by rewrite lookup_nil. }
  rewrite E. cbn [mbind sched_bind]. destruct (FinishAll_spec a (order (dict_ids a)) HI (Horder _)) as (a' & -> & _). cbn [mbind sched_bind].
  by eexists _, _.
Qed.

(** C6. A capture comes to its end: when the packets end and no two endpoints
    have exchanged more than 1024, the loop has never waited for a handler, and
    the shutdown has finished every connection and closed the printer. *)
Theorem capture_completes det global events order dir (Hok : Forall event_ok events) (Horder : ∀ l, order l ≡ₚ l)
  (Hends : ends events = true) (Hroom : ∀ k, packets_with k events ≤ 1024) :
  ∃ a p, run_capture det global events order (Printers.NewMultiPrinter dir) = Done (a, p) ∧
    handler_finished a = true ∧ Printers.q_closed (Printers.outputQueue p) = true ∧
    ∀ id cn, conns a !! id = Some cn → chan_closed (c (UpStream cn)) = true ∧ chan_closed (c (DownStream cn)) = true.
Proof.
  destruct (run_capture_completes det global events order dir Hok Horder Hends Hroom) as (a & p & E). exists a, p. split; [done|].
  pose proof (run_capture_safe det global events order (Printers.NewMultiPrinter dir) Hok Horder eq_refl) as Hs. rewrite E in Hs.
  destruct Hs as (HI & Hd & Hh & Hq & _). split_and!; [done|done|]. intros id cn Hc.
  apply (inv_out a [] HI id cn Hc). unfold in_map, dict_lookup. by rewrite Hd.
Qed.

(** ** Captures that are short *)

Lemma packets_with_length k events : packets_with k events ≤ len events.
Proof.
  induction events as [|e events IH]; [done|]. pose proof (len_nonneg events).
  destruct e as [[pkt|]|now order|id sd act]; cbn [packets_with]; len_simpl; try destruct (decide _); lia.
Qed.
(** A SYN, a packet that is not TCP, a packet of another connection, a tick
    that ends both, and one more packet behind it. *)
Definition short_capture : list event :=
  [Receives (Some (mkPacket (Some (demo_ip 1, demo_ip 2)) (Some (TCPLayer demo_syn)) 5));
   Receives (Some (mkPacket (Some (demo_ip 1, demo_ip 2)) (Some OtherLayer) 6));
   Receives (Some (mkPacket (Some (demo_ip 3, demo_ip 2)) (Some (TCPLayer demo_syn)) 7));
   Ticks (200 * Minute) id;
   Receives (Some (mkPacket (Some (demo_ip 3, demo_ip 2)) (Some (TCPLayer demo_syn)) 8));
   Receives None].

Lemma capture_completes_witness :
  Forall event_ok short_capture ∧
  ∃ a p, run_capture (λ _, false) new_GlobalConfig short_capture id (Printers.NewMultiPrinter []) = Done (a, p) ∧ handler_finished a = true.
Proof.
  assert (Forall event_ok short_capture) as Hok.
  { unfold short_capture. repeat (apply List.Forall_cons || apply List.Forall_nil); try done; vm_compute; reflexivity. }
  split; [exact Hok|].
  destruct (capture_completes (λ _, false) new_GlobalConfig short_capture id [] Hok) as (a & p & Hrun & Hh & _); [done|reflexivity| |].
  - intros k. pose proof (packets_with_length k short_capture) as Hl. change (len short_capture) with 6 in Hl. lia.
  - exists a, p. split; [exact Hrun|exact Hh].
Defined.
