(* ===== verification/EndToEnd.v ===== *)
(** * From the wire to the printed text (src/main.go)

    The capture loop and the handlers together: what the packets of a
    connection come to in the texts that are sent to the printer. *)

From S2P Require Import Prelude GoBytes GoStrings Unicode Window WindowRing WindowOrder WindowRun WindowLive Reader Stream.
From S2P Require Import Assembler AssemblerInv Text Cli Handlers Dispatch Detect Capture Sessions Reads Served Conversation Room.
From S2P Require Bson Redis Mongo Java JavaProps JavaRead Nacos Dubbo DubboProps Printers.

(** What the goroutine of a finished connection gets to read from the time [t]
    on, when it has read [bu] and [bd] before the end. *)
Definition handler_state (bu bd : list byte) (cn : TCPConnection) (t : nat) : hstate :=
  mkH (bu ++ pending (UpStream cn)) (bd ++ pending (DownStream cn)) t 0 [] [].

Section end_to_end.
Context `{Environment} `{Htab : UnicodeTables} `{Hjson : Bson.JsonRuntime} `{Hjava : Java.JavaRuntime} `{Hmap : MapOrder}.
Context `{Hfloat : Dubbo.JsonFloats} `{Hnum : Nacos.JsonNumbers} `{Harr : Arrival}.
Context (global : GlobalConfig) (proto : ProtoConfig).

(** The detector the assembler is given; the handlers that come with the
    detectors of [autoHandler] play no part in it. *)
Definition main_detector (data : list byte) : bool :=
  match detector global proto (mkEndpoint [] 0) (mkEndpoint [] 0) data with Ret b => b | Panic => false end.

Lemma any_of_returns l data : Forall (λ d : list byte → go bool, returns (d data) (λ _, True)) l → ∃ b, any_of l data = Ret b.
Proof. induction 1 as [|d l (b & Hd & _) _ IH]; cbn [any_of]; [by eexists|]. rewrite Hd. destruct b; [by eexists|exact IH]. Qed.
(** It never panics. *)
Lemma main_detector_returns data : detector global proto (mkEndpoint [] 0) (mkEndpoint [] 0) data = Ret (main_detector data).
Proof.
  unfold main_detector. enough (∃ b, detector global proto (mkEndpoint [] 0) (mkEndpoint [] 0) data = Ret b) as [b ->] by done.
  unfold detector. destruct (str_eqb _ _); [|by eexists]. apply any_of_returns, Forall_fmap.
  eapply Forall_impl; [apply (detectors_return global proto (mkEndpoint [] 0) (mkEndpoint [] 0) 0)|]. intros d Hd. apply Hd.
Qed.

Context `{Pcap}.

(** [main] from the sources of packets to its end, with the messages that
    the handlers left in the printer; without a source it returns at once. *)
Definition run_main (events : list event) (order : list nat → list nat) (printer : Printers.MultiPrinter)
  : sched (option (TCPAssembler * Printers.MultiPrinter)) :=
  match openPackets global with
  | None => Done None
  | Some _ => r ← run_capture main_detector global events order printer; Done (Some r)
  end.

Lemma run_main_capture events order printer a p : run_main events order printer = Done (Some (a, p)) →
  run_capture main_detector global events order printer = Done (a, p).
Proof. unfold run_main. destruct (openPackets global); [|done]. destruct (run_capture _ _ _ _ _) as [[??]| |]; [intros [= <- <-]|..]; done. Qed.

(** With sources of packets it comes to its end when no two endpoints
    exchange more packets than a channel holds. *)
Lemma run_main_completes events order dir : Forall event_ok events → (∀ l, order l ≡ₚ l) → openPackets global ≠ None →
  ends events = true → (∀ k, packets_with k events ≤ 1024) →
  ∃ a p, run_main events order (Printers.NewMultiPrinter dir) = Done (Some (a, p)).
Proof.
  intros Hok Horder Hsrc He Hroom. destruct (run_capture_completes main_detector global events order dir Hok Horder He Hroom) as (a & p & E).
  exists a, p. unfold run_main. destruct (openPackets global); [|done]. by rewrite E.
Qed.

(** C7. The whole program comes to an end: after a capture every handler that
    was started has a connection whose two streams are finished, and on what
    it has read and what they still hold it ends, whatever was captured: it
    returns or panics, or it waits in [Send] for room in the queue of the
    printer.  The one exception is Dubbo, chosen or detected: a connection that
    starts with the magic number of Dubbo, and in which somewhere the frame of
    a request in compacted Java starts whose body has a reference tag. *)
Theorem handlers_of_a_capture_end `{!Arrival_ok} events order printer a p src dst id fuel t
  (Hok : Forall event_ok events) (Hpr : Forall event_printed events) (Horder : ∀ l, order l ≡ₚ l)
  (Hopen : Printers.q_closed (Printers.outputQueue printer) = false)
  (Hrun : run_main events order printer = Done (Some (a, p))) (Hh : (src, dst, id) ∈ handled a) :
  ∃ cn, conns a !! id = Some cn ∧ ready (UpStream cn) ∧ ready (DownStream cn) ∧
    ∀ bu bd, (length (bu ++ pending (UpStream cn)) < fuel)%nat →
     Cli.Protocol proto ∉ [gs "auto"; dubbo] ∨ no_recursion (handler_state bu bd cn t) →
     comes_to_end (serve global proto src dst fuel) (handler_state bu bd cn t).
Proof.
  apply run_main_capture in Hrun. destruct (run_capture_served _ _ _ _ _ _ _ Hok Hpr Hrun) as [Hl Hs].
  pose proof (run_capture_safe main_detector global events order printer Hok Horder Hopen) as Hsafe. rewrite Hrun in Hsafe.
  destruct Hsafe as (HI & Hd & _).
  apply list_elem_of_lookup in Hh as [i Hi]. destruct (lookup_lt_is_Some_2 (conns a) i) as [cn Hc].
  { rewrite <-Hl. by eapply lookup_lt_Some. }
  destruct (Hs i cn Hc) as (dst' & Hh & _). assert (id = i) as -> by congruence. exists cn.
  destruct (inv_out a [] HI i cn Hc) as [Hu Hdn]; [unfold in_map, dict_lookup; by rewrite Hd|].
  split_and!; [done..|]. intros bu bd Hf Hp. by apply serve_ends.
Qed.

(** C2. A captured conversation reaches its handler: when a client and a
    server are captured, among whatever other traffic, with segments in any
    order, duplicated and overlapping, and acknowledgements in between, their
    connection is served by a goroutine of its own, called with the client
    first; its two streams are finished in the end, and what it has read of
    them while the capture went on, at whatever moments and in whatever
    portions, with what they still hold, is exactly what either endpoint sent:
    the handler runs on the two whole directions.
    No other connection of the two is opened unless a packet behind its end is
    taken for the start of one.  The capture comes to its end when the handlers
    start behind it and no two endpoints exchange more than 1024 packets, the
    capacity of a channel. *)
Theorem conversation_reaches_its_handler events order dir client server up down isn_up isn_down
  (Hok : Forall event_ok events) (Hpr : Forall event_printed events) (Horder : ∀ l, order l ≡ₚ l)
  (Hsource : openPackets global ≠ None)
  (Hconv : conversation main_detector global events client server up down isn_up isn_down) :
  (ends events = true → (∀ k, packets_with k events ≤ 1024) →
   ∃ a p, run_main events order (Printers.NewMultiPrinter dir) = Done (Some (a, p))) ∧
  ∀ a p, run_main events order (Printers.NewMultiPrinter dir) = Done (Some (a, p)) →
    ∃ id cn, handed_over main_detector global events client server a id cn up down ∧
      ∀ bu bd t, read_by main_detector global events id Up = Some bu → read_by main_detector global events id Down = Some bd →
        handler_state bu bd cn t = mkH up down t 0 [] [].
Proof.
  split; [by apply run_main_completes|]. intros a p Hrun%run_main_capture.
  destruct (conversation_handed_over _ _ _ _ _ _ _ _ _ _ _ _ _ Hok Hpr Horder Hconv Hrun) as (id & cn & Hh). exists id, cn. split; [done|].
  destruct Hh as (_ & _ & _ & _ & Hup & _ & Hdown). intros bu bd t Hbu Hbd. unfold handler_state. by rewrite (Hup bu Hbu), (Hdown bd Hbd).
Qed.

(** The connection is handled as one of Redis: the protocol is given, or it is
    detected, which takes a first command with less than ten parts, or a
    thousand and more, of which at least five bytes arrive at once. *)
Definition taken_for_redis (calls : list (list (list byte) * Redis.reply)) : Prop :=
  Cli.Protocol proto = redis ∨
  Cli.Protocol proto = gs "auto" ∧ ∃ args reply more, calls = (args, reply) :: more ∧
    args ≠ [] ∧ (len args < 10 ∨ 1000 ≤ len args) ∧ 5 ≤ first_read (requests calls) ≤ 24.

Lemma serve_redis client server calls fuel down t : taken_for_redis calls →
  let s := mkH (requests calls) down t 0 [] [] in
  serve global proto client server fuel s = redis_Handle global proto client server fuel s.
Proof.
  intros [Hp|(Hp & args & reply & more & -> & Hne & Hn & Hk)] s; unfold serve, makeHandler; rewrite Hp; [done|].
  cbn [List.find handler_cases fst snd]. change (str_eqb (gs "auto") (gs "auto")) with true. cbv iota. cbn [fmap option_fmap option_map snd].
  set (k := first_read (requests ((args, reply) :: more))) in *.
  assert (requests ((args, reply) :: more) = Redis.enc_command args ++ requests more) as Hreq by done.
  assert (auto_peek s = HRet (ztake k (requests ((args, reply) :: more))) s) as Hpeek.
  { unfold auto_peek, s. cbn [h_up]. rewrite Hreq. destruct args as [|a args]; [done|]. by rewrite <-Hreq. }
  unfold auto_Handle. rewrite (bind_HRet _ _ _ _ _ Hpeek), Hreq.
  pose proof (redis_detected global proto client server fuel args (requests more) k Hne Hk) as Hdet. unfold detected in Hdet.
  replace ((10 <=? len args) && (len args <? 1000)) with false in Hdet by lia.
  unfold mbind, handler_bind, hgo. by rewrite Hdet.
Qed.

(** C1. From the wire to the text: when a Redis client and its server are
    captured, among whatever other traffic, with segments in any order,
    duplicated and overlapping, and acknowledgements in between, the handler
    of their connection, given or detected, and reading while the capture goes
    on and after it, calls [Send] for exactly the calls the filters let
    through: once for each, in the order of the commands, with a text that has
    the reply that belongs to it.  That holds as far as the calls of [Send]
    come back: one that finds no room waits, and one behind the end of [main],
    which closes the printer, panics.  A message that finds the queue full is
    dropped.  (The capture comes to its end as for
    [conversation_reaches_its_handler].) *)
Theorem captured_redis_calls_printed events order dir client server calls isn_up isn_down keyRe fuel t
  (Hok : Forall event_ok events) (Hpr : Forall event_printed events) (Horder : ∀ l, order l ≡ₚ l)
  (Hsource : openPackets global ≠ None)
  (Hproto : taken_for_redis calls) (Hcalls : Forall call_ok calls) (Hf : (length calls < fuel)%nat)
  (Hre : if str_eqb (RedisKey proto) [] then keyRe = None
         else ∃ re, MustCompile (RedisKey proto) = Some re ∧ keyRe = Some re)
  (Hconv : conversation main_detector global events client server (requests calls) (answers calls) isn_up isn_down) :
  (ends events = true → (∀ k, packets_with k events ≤ 1024) →
   ∃ a p, run_main events order (Printers.NewMultiPrinter dir) = Done (Some (a, p))) ∧
  ∀ a p, run_main events order (Printers.NewMultiPrinter dir) = Done (Some (a, p)) →
    ∃ id cn, conns a !! id = Some cn ∧ handled a !! id = Some (client, server, id) ∧
      ∀ bu bd, read_by main_detector global events id Up = Some bu → read_by main_detector global events id Down = Some bd →
        makes_calls (map (pair redis) (redis_texts global proto client server keyRe t (parsed_calls calls)))
          (serve global proto client server fuel (handler_state bu bd cn t)).
Proof.
  split; [by apply run_main_completes|]. intros a p Hrun%run_main_capture.
  destruct (conversation_handed_over _ _ _ _ _ _ _ _ _ _ _ _ _ Hok Hpr Horder Hconv Hrun) as (id & cn & Hc & Hh & _ & _ & Hup & _ & Hdown).
  exists id, cn. split_and!; [done..|]. intros bu bd Hbu Hbd.
  pose proof (redis_prints global proto client server keyRe calls [] fuel t Hre Hf Hcalls) as Hs. rewrite app_nil_r in Hs.
  unfold handler_state. by rewrite (Hup bu Hbu), (Hdown bd Hbd), serve_redis.
Qed.
End end_to_end.

(** ** A captured connection *)

(** Linux, where every file and device can be opened. *)
Definition demo_pcap : Pcap :=
  {| GOOS := gs "linux"; OpenOffline _ := true; FindAllDevs := Some []; OpenLive _ := Opened; SetBPFFilter _ _ := true |}.

Definition demo_redis : ProtoConfig := set_RedisKey (gs "user:") (set_Protocol redis new_ProtoConfig).
Definition demo_file : GlobalConfig := set_PcapFile (gs "redis.pcap") new_GlobalConfig.

(** A segment from the client or the server of [demo_endpoints]. *)
Definition seg (up : bool) (seq ack : Z) (syn fin : bool) (payload : list byte) : TCP :=
  let ports := if up then (4000, 6379) else (6379, 4000) in
  mkTCP ports.1 ports.2 seq ack syn (negb (ack =? 0)) fin false payload.
Definition captured (up : bool) (t : Z) (tcp : TCP) : event :=
  let ips := if up then (gs "10.0.0.1", gs "10.0.0.2") else (gs "10.0.0.2", gs "10.0.0.1") in
  Receives (Some (mkPacket (Some ips) (Some (TCPLayer tcp)) t)).

(** The requests in two segments that arrive in the wrong order, the first
    one twice; a packet of another connection and one that is not TCP in
    between; the handler looks at what there is as [autoHandler] does, puts it
    back and reads a part; the end of the client, then that of the server. *)
Definition demo_events : list event :=
  let up := requests demo_calls in
  let down := answers demo_calls in
  let n := 100000 + len up in
  let m := 300000 + len down in
  [captured true 1 (seg true 99999 0 true false []);
   captured false 2 (seg false 299999 100000 true false []);
   captured true 3 (seg true 100010 300000 false false (zdrop 10 up));
   Receives (Some (mkPacket (Some (gs "10.0.0.9", gs "10.0.0.2")) (Some (TCPLayer (mkTCP 5 6379 70000 0 true false false false (gs "x")))) 4));
   captured true 5 (seg true 100000 300000 false false (ztake 10 up));
   captured true 5 (seg true 100000 300000 false false (ztake 10 up));
   Ticks 6 id;
   captured false 7 (seg false 300000 n false false down);
   Acts 0 Up (AReads 24); Acts 0 Up (APrepends (ztake 10 up)); Acts 0 Up (AReads 6);
   Receives (Some (mkPacket None None 7));
   captured true 8 (seg true n m false true []);
   captured false 9 (seg false m (n + 1) false true []);
   Receives None].

Definition demo_run : sched (option (TCPAssembler * Printers.MultiPrinter)) :=
  @run_main demo_env no_tables Mongo.demo_runtime JavaRead.some_runtime list_order demo_floats demo_numbers one_part
    demo_file demo_redis demo_pcap demo_events id (Printers.NewMultiPrinter []).
Definition demo_result : TCPAssembler * Printers.MultiPrinter :=
  match demo_run with Done (Some r) => r | _ => (fresh None [] 0, Printers.NewMultiPrinter []) end.

Lemma demo_run_done : demo_run = Done (Some (demo_result.1, demo_result.2)).
Proof.
  unfold demo_result. destruct demo_run as [[[a p]|]| |] eqn:E; [done|..];
    apply (f_equal (λ r, match r with Done (Some _) => true | _ => false end)) in E; vm_compute in E; discriminate.
Qed.

Lemma demo_ok : Forall event_ok demo_events.
Proof. unfold demo_events. repeat (apply List.Forall_cons || apply List.Forall_nil); try done; vm_compute; reflexivity. Qed.
Lemma endpoint_printed e : bool_decide (printed e) = true → printed e.
Proof. apply bool_decide_eq_true. Qed.
Lemma demo_printed : Forall event_printed demo_events.
Proof.
  unfold demo_events. repeat (apply List.Forall_cons || apply List.Forall_nil); try done;
    split; apply endpoint_printed; vm_compute; reflexivity.
Qed.

Notation demo_detector := (@main_detector demo_env no_tables Mongo.demo_runtime JavaRead.some_runtime list_order demo_floats demo_numbers one_part
  demo_file demo_redis).

(** A direction of the example is checked by evaluation. *)
Definition direction_bool (S : list byte) (isn : Z) (ops : list op) : bool :=
  (tcpSeqWindow <=? isn) && (isn + len S + 1 <=? maxTCPSeq) && (len S + 1 <? 2 ^ 31)
  && forallb (part_bool S isn) (op_packets ops) && consistent_bool (op_packets ops)
  && acks_seen_bool isn (isn + len S) [] ops
  && existsb (λ o, match o with OpConfirm ack => isn + len S <=? ack | OpInsert _ => false end) ops.
Lemma direction_spec S isn ops : direction_bool S isn ops = true → direction S isn ops.
Proof.
  unfold direction_bool. intros H. zbool. split.
  - split_and!; lia.
  - by apply parts_spec.
  - by apply consistent_spec.
  - by apply acks_seen_spec.
  - right. match goal with H : existsb _ _ = true |- _ => apply existsb_exists in H as ([p|ack] & Hin & Hle) end; [done|].
    exists ack. split; [by apply list_elem_of_In|]. zbool. lia.
Qed.

Lemma demo_conversation : conversation demo_detector demo_file demo_events demo_endpoints.1 demo_endpoints.2
  (requests demo_calls) (answers demo_calls) 100000 300000.
Proof.
  split.
  - apply endpoint_printed. vm_compute. reflexivity.
  - apply endpoint_printed. vm_compute. reflexivity.
  - vm_compute. reflexivity.
  - destruct (talk _ _ _) as [|m l] eqn:E.
    + apply (f_equal length) in E. vm_compute in E. discriminate.
    + exists m, l. split; [done|]. apply (f_equal head) in E. cbn [head] in E.
      assert (∀ {A} (f : spoken → A) x, f <$> head (talk (settings_of demo_detector demo_file)
        (conn_key demo_endpoints.1 demo_endpoints.2) demo_events) = Some x → f m = x) as Hm.
      { intros A f x Hx. rewrite E in Hx. by injection Hx. }
      split; [apply (Hm _ (λ m, m.1.1.1))|apply (Hm _ (λ m, creates _ m.1.2))]; vm_compute; reflexivity.
  - apply direction_spec. vm_compute. reflexivity.
  - apply direction_spec. vm_compute. reflexivity.
Qed.

Lemma demo_source : @openPackets demo_pcap demo_file ≠ None.
Proof. apply (bool_decide_unpack _). vm_compute. exact I. Qed.
(** Goroutine 0 serves the conversation, and has read six bytes of it. *)
Lemma demo_handled id : handled demo_result.1 !! id = Some (demo_endpoints.1, demo_endpoints.2, id) → id = 0%nat.
Proof.
  assert (handled demo_result.1 = [(demo_endpoints.1, demo_endpoints.2, 0%nat); (mkEndpoint (gs "10.0.0.9") 5, demo_endpoints.2, 1%nat)]) as ->
    by (vm_compute; reflexivity).
  destruct id as [|[|id]]; [done|intros H; apply (f_equal (fmap (λ h, str_eqb (Assembler.IP h.1.1) (gs "10.0.0.9")))) in H; vm_compute in H; discriminate|done].
Qed.
Example demo_read_up : read_by demo_detector demo_file demo_events 0 Up = Some (ztake 6 (requests demo_calls)).
Proof. vm_compute. reflexivity. Qed.
Example demo_read_down : read_by demo_detector demo_file demo_events 0 Down = Some [].
Proof. vm_compute. reflexivity. Qed.

Lemma conversation_reaches_its_handler_witness : ∃ cn, conns demo_result.1 !! 0%nat = Some cn ∧
  ready (UpStream cn) ∧ ztake 6 (requests demo_calls) ++ pending (UpStream cn) = requests demo_calls ∧ pending (DownStream cn) = answers demo_calls.
Proof.
  destruct (conversation_reaches_its_handler (H := demo_env) (Htab := no_tables) (Hjson := Mongo.demo_runtime) (Hjava := JavaRead.some_runtime)
    (Hmap := list_order) (Hfloat := demo_floats) (Hnum := demo_numbers) (Harr := one_part) demo_file demo_redis (H0 := demo_pcap)
    demo_events id [] demo_endpoints.1 demo_endpoints.2 (requests demo_calls) (answers demo_calls) 100000 300000) as [_ Hout].
  - exact demo_ok.
  - exact demo_printed.
  - done.
  - exact demo_source.
  - exact demo_conversation.
  - destruct (Hout _ _ demo_run_done) as (id & cn & (Hc & Hh & _ & Hr & Hup & _ & Hdown) & _).
    pose proof (demo_handled id Hh) as ->. exists cn. split; [exact Hc|]. split; [exact Hr|].
    split; [exact (Hup _ demo_read_up)|exact (Hdown _ demo_read_down)].
Defined.

Lemma captured_redis_calls_printed_witness :
  ∃ cn s, conns demo_result.1 !! 0%nat = Some cn ∧
    @serve demo_env no_tables demo_file demo_redis demo_endpoints.1 demo_endpoints.2 JavaRead.some_runtime list_order demo_floats demo_numbers
      Mongo.demo_runtime one_part 3 (handler_state (ztake 6 (requests demo_calls)) [] cn 0) = HRet tt s ∧ length (h_sent s) = 1%nat.
Proof.
  destruct (captured_redis_calls_printed (H := demo_env) (Htab := no_tables) (Hjson := Mongo.demo_runtime) (Hjava := JavaRead.some_runtime)
    (Hmap := list_order) (Hfloat := demo_floats) (Hnum := demo_numbers) (Harr := one_part) demo_file demo_redis (H0 := demo_pcap)
    demo_events id [] demo_endpoints.1 demo_endpoints.2 demo_calls 100000 300000
    (Some (λ s, Contains s (gs "user:"))) 3 0) as [_ Hout].
  - exact demo_ok.
  - exact demo_printed.
  - done.
  - exact demo_source.
  - left. reflexivity.
  - exact demo_calls_ok.
  - simpl. lia.
  - exists (λ s, Contains s (gs "user:")). done.
  - exact demo_conversation.
  - destruct (Hout _ _ demo_run_done) as (id & cn & Hc & Hh & Hserve).
    pose proof (demo_handled id Hh) as ->. destruct (makes_calls_return _ _ demo_returns (Hserve _ _ demo_read_up demo_read_down)) as (s & Hs & Hsent).
    exists cn, s. split; [exact Hc|]. split; [exact Hs|]. rewrite Hsent. vm_compute. reflexivity.
Defined.

(** Without a protocol on the command line the calls are detected. *)
Example demo_detected : @taken_for_redis one_part (set_Protocol (gs "auto") new_ProtoConfig) demo_calls.
Proof.
  right. split; [reflexivity|]. do 3 eexists. split; [reflexivity|]. split; [done|]. split; [left; reflexivity|vm_compute; split; congruence].
Qed.

(** The same packets without a protocol on the command line.  What the handler
    has read may well have the byte of a reference tag, [q]. *)
Definition demo_auto : ProtoConfig := set_Protocol (gs "auto") new_ProtoConfig.
Definition auto_run : sched (option (TCPAssembler * Printers.MultiPrinter)) :=
  @run_main demo_env no_tables Mongo.demo_runtime JavaRead.some_runtime list_order demo_floats demo_numbers one_part
    demo_file demo_auto demo_pcap demo_events id (Printers.NewMultiPrinter []).
Definition auto_result : TCPAssembler * Printers.MultiPrinter :=
  match auto_run with Done (Some r) => r | _ => (fresh None [] 0, Printers.NewMultiPrinter []) end.
Lemma auto_run_done : auto_run = Done (Some (auto_result.1, auto_result.2)).
Proof.
  unfold auto_result. destruct auto_run as [[[a p]|]| |] eqn:E; [done|..];
    apply (f_equal (λ r, match r with Done (Some _) => true | _ => false end)) in E; vm_compute in E; discriminate.
Qed.

Lemma handlers_of_a_capture_end_witness :
  ∃ cn, conns auto_result.1 !! 0%nat = Some cn ∧ ready (UpStream cn) ∧
    @serve demo_env no_tables demo_file demo_auto demo_endpoints.1 demo_endpoints.2
      JavaRead.some_runtime list_order demo_floats demo_numbers Mongo.demo_runtime one_part 500
      (handler_state (Redis.enc_command [gs "quit"; gs "queue 1234"]) [] cn 0) ≠ HSpin.
Proof.
  destruct (handlers_of_a_capture_end (H := demo_env) (Htab := no_tables) (Hjson := Mongo.demo_runtime) (Hjava := JavaRead.some_runtime)
    (Hmap := list_order) (Hfloat := demo_floats) (Hnum := demo_numbers) (Harr := one_part) demo_file demo_auto (H0 := demo_pcap)
    demo_events id (Printers.NewMultiPrinter []) auto_result.1 auto_result.2 demo_endpoints.1 demo_endpoints.2 0%nat 500%nat 0%nat)
    as (cn & Hc & Hu & _ & Hend).
  - exact demo_ok.
  - exact demo_printed.
  - done.
  - reflexivity.
  - exact auto_run_done.
  - apply (list_elem_of_lookup_2 _ 0). vm_compute. reflexivity.
  - exists cn. split; [exact Hc|]. split; [exact Hu|]. apply (Hend (Redis.enc_command [gs "quit"; gs "queue 1234"]) []).
    + apply (f_equal (fmap (λ cn, (length (pending (UpStream cn)) <? 400)%nat))) in Hc.
      assert ((λ cn, (length (pending (UpStream cn)) <? 400)%nat) <$> (conns auto_result.1 !! 0%nat) = Some true) as Hz by (vm_compute; reflexivity).
      rewrite Hz in Hc. injection Hc as Hc. symmetry in Hc. apply Nat.ltb_lt in Hc. rewrite length_app.
      change (length (Redis.enc_command [gs "quit"; gs "queue 1234"])) with 31%nat. apply Nat.lt_le_trans with (31 + 400)%nat; [by apply Nat.add_lt_mono_l|].
      apply Nat.leb_le. reflexivity.
    + right. left. reflexivity.
Defined.

(** A handler that goes on behind the end of [main] panics in [Send]. *)
Example handler_behind_main :
  @serve (closing_env 0) no_tables demo_file demo_redis demo_endpoints.1 demo_endpoints.2 JavaRead.some_runtime list_order demo_floats demo_numbers
    Mongo.demo_runtime one_part 3 (mkH (requests demo_calls) (answers demo_calls) 0 0 [] []) = HPanic.
Proof. vm_compute. reflexivity. Qed.

(** ** What is lost *)

(** The bytes the handlers get, connection by connection. *)
Definition results (events : list event) : list (list byte * list byte) :=
  match @run_main demo_env no_tables Mongo.demo_runtime JavaRead.some_runtime list_order demo_floats demo_numbers one_part
          demo_file demo_redis demo_pcap events id (Printers.NewMultiPrinter []) with
  | Done (Some (a, _)) => map (λ cn, (pending (UpStream cn), pending (DownStream cn))) (conns a)
  | _ => []
  end.

(** The client ends its direction with the request and goes on acknowledging:
    the FIN of the server closes the connection before the acknowledgement of
    the response is seen, so the response is never delivered; and since the
    protocol is given, that acknowledgement opens another connection. *)
Definition half_close_events : list event :=
  [captured true 1 (seg true 99999 0 true false []);
   captured false 2 (seg false 299999 100000 true false []);
   captured true 3 (seg true 100000 300000 false true (gs "get x"));
   captured false 4 (seg false 300000 100006 false false (gs "answer"));
   captured false 5 (seg false 300006 100006 false true []);
   captured true 6 (seg true 100006 300007 false false []);
   Receives None].
Example half_close_loses_response : results half_close_events = [(gs "get x", []); ([], [])].
Proof. vm_compute. reflexivity. Qed.

(** A capture that is read from a file: the first tick compares the clock with
    the times in the file and ends every connection; the rest of this one is
    taken for a new connection whose client is the server. *)
Definition recorded_events : list event :=
  [captured true 1 (seg true 99999 0 true false []);
   captured false 2 (seg false 299999 100000 true false []);
   captured true 3 (seg true 100000 300000 false false (gs "get x"));
   Ticks (1000 * Minute) id;
   captured false 4 (seg false 300000 100005 false false (gs "answer"));
   captured true 5 (seg true 100005 300006 false false []);
   Receives None].
Example tick_ends_recorded_connections : results recorded_events = [([], []); (gs "answer", [])].
Proof. vm_compute. reflexivity. Qed.

(** One direction is not read: [websocketHandler] waits for the client, which
    is silent, while the server sends.  With the 1025th packet that is
    acknowledged the loop waits for a handler that will not read, and no packet
    of any connection is taken any more. *)
Definition silent_client (n : nat) : list event :=
  captured true 1 (seg true 99999 0 true false []) ::
  flat_map (λ i, [captured false 2 (seg false (300000 + Z.of_nat i) 100000 false false (gs "x"));
                  captured true 3 (seg true 100000 (300001 + Z.of_nat i) false false [])]) (seq 0 n) ++ [Receives None].
Definition comes_to_its_end (events : list event) : bool :=
  match @run_main demo_env no_tables Mongo.demo_runtime JavaRead.some_runtime list_order demo_floats demo_numbers one_part
          demo_file demo_redis demo_pcap events id (Printers.NewMultiPrinter []) with
  | Done _ => true
  | _ => false
  end.
Example unread_direction_blocks_capture : map (λ n, comes_to_its_end (silent_client n)) [1024; 1025]%nat = [true; false].
Proof. vm_compute. reflexivity. Qed.
