(* ===== verification/Sender.v ===== *)
(** * The traffic generator (src/tools/protocol_sender.go)

    The packets that the generator sends to try the tool out, and what the
    readers of the tool make of them. *)

From S2P Require Import Prelude GoBytes GoStrings Window Reader.
From S2P Require Unicode Bson BsonProps Mongo Json RocketMQ Java JavaRead Dubbo DubboProps.

(** [binary.PutUint16(b[off:...], v)] and its like on a part that exists. *)
Definition put (b : list byte) (off : Z) (v : list byte) : list byte := ztake off b ++ v ++ zdrop (off + len v) b.
(** [make([]byte, n)] *)
Definition zeros (n : nat) : list byte := replicate n Byte.x00.

(** ** Dubbo *)

Definition buildDubboHeader (dataLength : Z) : list byte :=
  let header := zeros 16 in
  let header := put header 0 (be_bytes 2 0xdabb) in
  let header := put header 2 [Byte.x22] in
  let header := put header 3 [Byte.x00] in
  let header := put header 4 (be_bytes 8 1) in
  put header 12 (be_bytes 4 dataLength).

Definition buildDubboBody : list byte :=
  let b := [] in
  let b := b ++ [Byte.x02] in
  let b := b ++ [Byte.x05] in
  let b := b ++ gs "2.7.0" in
  let b := b ++ [Byte.x18] in
  let b := b ++ gs "com.example.HelloService" in
  let b := b ++ [Byte.x05] in
  let b := b ++ gs "1.0.0" in
  let b := b ++ [Byte.x08] in
  let b := b ++ gs "sayHello" in
  let b := b ++ [Byte.x15] in
  let b := b ++ gs "Ljava/lang/String;" in
  let b := b ++ [Byte.x05] in
  let b := b ++ gs "world" in
  b ++ gs "HZ".

(** The packet of [sendDubbo]. *)
Definition dubboPacket : list byte := buildDubboHeader (uint32 (len buildDubboBody)) ++ buildDubboBody.

(** ** RocketMQ *)

Section rocketmq.
Import Json.

(** [map[string]string] and [map[string]interface{}]; [json.Marshal] writes
    the keys of a map in order. *)
Definition extFields : gmap (list byte) (list byte) := {[gs "topic" := gs "DefaultCluster"]}.
Definition headerMap : gmap (list byte) json :=
  <[gs "code" := VNum (Itoa 102)]> (<[gs "language" := VStr (gs "JAVA")]> (<[gs "version" := VNum (Itoa 1)]>
  (<[gs "opaque" := VNum (Itoa 1)]> (<[gs "flag" := VNum (Itoa 0)]> (<[gs "remark" := VStr []]>
  {[gs "extFields" := VObj (map (λ kv, (kv.1, VStr kv.2)) (sorted_entries extFields))]}))))).

Definition buildRocketMQPacket : list byte :=
  let headerJSON := marshal (VObj (sorted_entries headerMap)) in
  let body := [] in
  let headerLen := 4 + len headerJSON in
  let frameLen := 4 + headerLen + len body in
  let buf := [] in
  let buf := buf ++ be_bytes 4 (uint32 frameLen) in
  let buf := buf ++ be_bytes 4 (uint32 headerLen) in
  let buf := buf ++ headerJSON in
  buf ++ body.
End rocketmq.

(** ** MongoDB *)

(** A value of type [interface{}], as the type switch of [buildBSON] sees
    it. *)
Inductive any := AInt32 (v : Z) | AString (v : list byte) | AInt (v : Z) | AOther.

(** The loop over the document; the range statement meets the entries in the
    order of the list. *)
Fixpoint build_elements (entries : list (list byte * any)) (b : list byte) : list byte :=
  match entries with
  | [] => b
  | (key, val) :: entries =>
      build_elements entries
        match val with
        | AInt32 v => b ++ [Byte.x10] ++ key ++ [Byte.x00] ++ le_bytes 4 (uint32 v)
        | AString v =>
            let strLen := len v + 1 in
            b ++ [Byte.x02] ++ key ++ [Byte.x00] ++ le_bytes 4 (uint32 strLen) ++ v ++ [Byte.x00]
        | AInt v => b ++ [Byte.x10] ++ key ++ [Byte.x00] ++ le_bytes 4 (uint32 v)
        | AOther => b
        end
  end.
Definition buildBSON (entries : list (list byte * any)) : list byte :=
  let b := zeros 4 in
  let b := build_elements entries b in
  let b := b ++ [Byte.x00] in
  put b 0 (le_bytes 4 (uint32 (len b))).

Definition buildMongoQueryBody : list byte :=
  let b := [] in
  let b := b ++ le_bytes 4 0 in
  let b := b ++ gs "admin.$cmd" in
  let b := b ++ [Byte.x00] in
  let b := b ++ le_bytes 4 0 in
  let b := b ++ le_bytes 4 0xFFFFFFFF in
  b ++ buildBSON [(gs "isMaster", AInt32 1)].

Definition buildMongoPacket : list byte :=
  let queryBody := buildMongoQueryBody in
  let msgLen := 16 + len queryBody in
  let hdr := zeros 16 in
  let hdr := put hdr 0 (le_bytes 4 (uint32 msgLen)) in
  let hdr := put hdr 4 (le_bytes 4 1) in
  let hdr := put hdr 8 (le_bytes 4 0) in
  let hdr := put hdr 12 (le_bytes 4 2004) in
  hdr ++ queryBody.

(** ** BSON *)

Section bson.
Import Bson BsonProps.

(** The value that a reader gets; an entry of another type is left out. *)
Definition sent_value (val : any) : option bson :=
  match val with AInt32 v | AInt v => Some (BInt32 (int32 v)) | AString s => Some (BStr s) | AOther => None end.
Definition sent_doc (entries : list (list byte * any)) : doc :=
  omap (λ kv, v ← sent_value kv.2; Some (kv.1, v)) entries.

Lemma le4_uint32 v : le_bytes 4 (uint32 v) = le_bytes 4 v.
Proof. apply (le_bytes_mod 4). Qed.
Lemma le4_int32 v : le_bytes 4 (int32 v) = le_bytes 4 v.
Proof.
  rewrite <-(le4_uint32 v), <-(le4_uint32 (int32 v)). f_equal. unfold uint32, int32, uint, sint.
  rewrite Zminus_mod, Zmod_mod, <-Zminus_mod. f_equal. lia.
Qed.

Definition enc_any (key : list byte) (val : any) : list byte :=
  match val with
  | AInt32 v | AInt v => element key Byte.x10 (le_bytes 4 (int32 v))
  | AString s => element key Byte.x02 (le_bytes 4 (len s + 1) ++ s ++ [Byte.x00])
  | AOther => []
  end.
Lemma enc_sent_cons key val entries :
  enc_elements (sent_doc ((key, val) :: entries)) = enc_any key val ++ enc_elements (sent_doc entries).
Proof. by destruct val. Qed.

Lemma build_elements_enc entries : ∀ b, build_elements entries b = b ++ enc_elements (sent_doc entries).
Proof.
  induction entries as [|[key val] entries IH]; intros b; cbn [build_elements]; [by rewrite app_nil_r|].
  rewrite IH, enc_sent_cons, app_assoc. f_equal. unfold enc_any, element. destruct val as [v|s|v|]; [..|by rewrite app_nil_r]; cbv zeta.
  all: rewrite le4_uint32, ?le4_int32, <-?app_assoc; done.
Qed.

(** It writes the encoding of the document. *)
Lemma buildBSON_enc entries : buildBSON entries = enc_doc (sent_doc entries).
Proof.
  unfold buildBSON, enc_doc, wrap_doc. cbv zeta. rewrite build_elements_enc, le4_uint32. unfold put.
  rewrite ztake_nonpos by lia. rewrite len_le_bytes. cbn [app Z.add Z.of_nat].
  replace (len ((zeros 4 ++ enc_elements (sent_doc entries)) ++ [Byte.x00])) with (len (enc_elements (sent_doc entries)) + 5)
    by (rewrite !len_app; change (len (zeros 4)) with 4; change (len [Byte.x00]) with 1; lia).
  done.
Qed.

Definition entry_ok (kv : list byte * any) : Prop :=
  key_ok kv.1 ∧ match kv.2 with AString s => len s < 2 ^ 31 | _ => True end.

Lemma sent_doc_ok entries : NoDup (map fst entries) → Forall entry_ok entries → len (buildBSON entries) < 2 ^ 31 → doc_ok (sent_doc entries).
Proof.
  intros Hnd Hok Hlen. rewrite buildBSON_enc in Hlen. unfold doc_ok. cbn [value_ok]. rewrite enc_bdoc. split_and!; [|done|].
  - clear Hok Hlen. induction entries as [|[key val] entries IH]; [constructor|]. cbn [map fst] in Hnd. apply NoDup_cons in Hnd as [Hk Hnd].
    assert (∀ k, k ∈ map fst (sent_doc entries) → k ∈ map fst entries) as Hsub.
    { intros k (kv & -> & Hin)%list_elem_of_fmap. apply list_elem_of_omap in Hin as ([k' v'] & Hin & Hs).
      destruct (sent_value v') as [w|] eqn:E; cbn [snd fst] in Hs; rewrite E in Hs; [|done]. injection Hs as <-.
      apply list_elem_of_fmap. by exists (k', v'). }
    specialize (IH Hnd). unfold sent_doc in *. cbn [omap list_omap snd fst]. destruct (sent_value val); cbn [mbind option_bind]; [|done].
    cbn [map fst]. apply NoDup_cons. split; [intros Hin; apply Hk, Hsub, Hin|done].
  - apply fold_entries_ok. clear Hnd Hlen. induction Hok as [|[key val] entries [Hk Hv] _ IH]; [constructor|]. unfold sent_doc in *.
    cbn [omap list_omap snd fst] in *. destruct val as [v|s|v|]; cbn [sent_value mbind option_bind]; [..|done];
      (constructor; [split; [done|]|done]); cbn [snd value_ok]; try done; exact (sint_range 32 v ltac:(lia)).
Qed.

(** C25. What [buildBSON] writes is read back: the entries in the order the map
    was ranged over, integers of both types as 32-bit numbers, strings as they
    are, and no entry of another type. *)
Theorem buildBSON_read_back entries rest extra (Hnd : NoDup (map fst entries)) (Hok : Forall entry_ok entries)
  (Hlen : len (buildBSON entries) < 2 ^ 31) :
  bsonToMap (buildBSON entries ++ rest) extra = Val (Some (sent_doc entries)).
Proof. pose proof (sent_doc_ok entries Hnd Hok Hlen). rewrite buildBSON_enc. by apply bsonToMap_enc. Qed.

Lemma buildBSON_read_back_witness :
  bsonToMap (buildBSON [(gs "isMaster", AInt32 1); (gs "n", AInt (2 ^ 32 - 1)); (gs "f", AOther); (gs "db", AString (gs "admin"))] ++ gs "more") 0
  = Val (Some [(gs "isMaster", BInt32 1); (gs "n", BInt32 (-1)); (gs "db", BStr (gs "admin"))]).
Proof.
  apply (buildBSON_read_back [(gs "isMaster", AInt32 1); (gs "n", AInt (2 ^ 32 - 1)); (gs "f", AOther); (gs "db", AString (gs "admin"))]).
  - apply (bool_decide_unpack _). by vm_compute.
  - assert (∀ s, bool_decide (s ≠ [] ∧ Byte.x00 ∉ s) = true → key_ok s) as Hk by (intros s H; by apply bool_decide_eq_true in H).
    repeat (apply List.Forall_cons || apply List.Forall_nil); (split; [apply Hk; by vm_compute|try done]).
  - by vm_compute.
Defined.
End bson.

(** ** The packets and the readers of the tool *)

(** The tool reads its sample of MongoDB and, in the framing that both take
    for that of RocketMQ, the one of RocketMQ. *)
Theorem mongo_sample_read `{Bson.JsonRuntime} rest : ∃ m,
  Mongo.ReadMongoMessage (gs "C->S") (buildMongoPacket ++ rest) = Got m rest ∧
  Mongo.FullCollectionName m = gs "admin.$cmd" ∧ Mongo.NumberToSkip m = 0 ∧ Mongo.NumberToReturn m = -1.
Proof.
  assert (buildMongoPacket = Mongo.enc_header (Mongo.mkHeader 58 1 0 2004) ++ buildMongoQueryBody) as -> by (vm_compute; reflexivity).
  rewrite <-app_assoc, Mongo.read_mongo_header by (repeat split; vm_compute; congruence).
  rewrite Mongo.read_body by (vm_compute; split; congruence || reflexivity).
  eexists. split; [reflexivity|]. by vm_compute.
Qed.

Definition rocketmq_view (r : go (option RocketMQ.RemotingCommand + list byte)) :=
  match r with
  | Ret (inl (Some cmd)) => Some (RocketMQ.Code cmd, RocketMQ.Language cmd, RocketMQ.Opaque cmd, map_to_list (RocketMQ.ExtFields cmd))
  | _ => None
  end.
Theorem rocketmq_sample_read rest : ∃ cmd,
  RocketMQ.ReadRemotingCommand (buildRocketMQPacket ++ rest) = Got (Some cmd) rest ∧
  RocketMQ.Code cmd = 102 ∧ RocketMQ.Language cmd = gs "JAVA" ∧ RocketMQ.Opaque cmd = 1 ∧
  map_to_list (RocketMQ.ExtFields cmd) = [(gs "topic", gs "DefaultCluster")].
Proof.
  assert (buildRocketMQPacket = be_bytes 4 121 ++ zdrop 4 buildRocketMQPacket) as -> by (vm_compute; reflexivity).
  rewrite <-app_assoc, RocketMQ.read_frame by (vm_compute; repeat split; congruence || reflexivity).
  assert (rocketmq_view (RocketMQ.parse_frame (be_val (be_bytes 4 121)) (zdrop 4 buildRocketMQPacket))
    = Some (102, gs "JAVA", 1, [(gs "topic", gs "DefaultCluster")])) as Hv by (vm_compute; reflexivity).
  destruct (RocketMQ.parse_frame _ _) as [[[cmd|]|e]|]; [|done..]. injection Hv as H1 H2 H3 H4. by exists cmd.
Qed.

(** Its sample of Dubbo is not read as it is meant: the serialization is the
    number of compacted Java, the length of the parameter types is 18 and not
    21, and so the version of the protocol is shown as the service, and the
    parameter types are lost. *)
Theorem dubbo_sample_misread `{Unicode.UnicodeTables, Java.JavaRuntime, MapOrder} rest : ∃ m,
  Dubbo.ReadDubboMessage (dubboPacket ++ rest) = Got m rest ∧
  Dubbo.SerializationID (Dubbo.Header m) = Dubbo.SerializationCompactedJava ∧
  Dubbo.ServiceName m = gs "2.7.0" ∧ Dubbo.MethodName m = gs "sayHello" ∧ Dubbo.ParamTypes m = [].
Proof.
  assert (dubboPacket = DubboProps.enc_header Byte.x22 Byte.x00 1 (len buildDubboBody) ++ buildDubboBody) as -> by (vm_compute; reflexivity).
  set (m0 := Dubbo.new_message (DubboProps.header_of Byte.x22 Byte.x00 1 (len buildDubboBody)) buildDubboBody).
  assert (∃ m, Dubbo.ParseDubboBody m0 = Val m ∧ Dubbo.SerializationID (Dubbo.Header m) = Dubbo.SerializationCompactedJava ∧
    Dubbo.ServiceName m = gs "2.7.0" ∧ Dubbo.MethodName m = gs "sayHello" ∧ Dubbo.ParamTypes m = []) as (m & Hp & Hm).
  { eexists. split; [vm_compute; reflexivity|]. vm_compute. repeat (split; [reflexivity|]). reflexivity. }
  exists m. split; [|done]. rewrite <-app_assoc, DubboProps.read_dubbo_frame by (vm_compute; repeat split; congruence || reflexivity).
  fold m0. by rewrite Hp.
Qed.
